(* ===== verification/_CoqProject ===== *)
-Q . S2P
Prelude.v
Floats.v
Rounding.v
Text.v
TextOps.v
FloatText.v
Units.v
Env.v
Simulated.v
Recorded.v
Loops.v
Returns.v
Records.v
Energy.v
Common.v
Domain.v
Core.v
Socket.v
ProcTracker.v
Ebpf.v
Bpf.v
Topology.v
Generators.v
Attribution.v
Powercap.v
ExporterUtils.v
Containers.v
Metrics.v
Samples.v
Clones.v
Series.v
Shapes.v
Search.v
Writer.v
Prometheus.v
Riemann.v
Qemu.v
Json.v
Stdout.v
Frame.v
Session.v
Alive.v
Running.v
Reports.v
Events.v
JsonFile.v
Exporters.v
Start.v
Launch.v
Whole.v
Msr.v
Service.v
