(* ===== verification/Prelude.v ===== *)
(** * Scaphandre: a verification library

    Scaphandre measures the energy of a host and attributes it to what runs there.  A
    sensor finds the energy counters of the processor and makes a topology of sockets,
    domains and cores; at every round the topology is refreshed, from the counters, from the
    statistics of the kernel and from the events of four eBPF programs; a generator turns it
    into metrics; an exporter shows or sends them.  This library models these parts as
    executable functions, with the names of the sources, and proves what they do.

    ** The files, and what they model

    Foundations, of no component:
    - [Prelude]: outcomes (a value or a panic), integers of a width, sorting, lists;
    - [Floats], [FloatText]: binary64 and binary32 by the Standard Library's SpecFloat, the
      conversions of Rust, parsing and printing of floats; [Rounding]: the error of their
      operations, against rationals;
    - [Text], [TextOps]: strings as bytes, and the functions of [str] the sources use;
    - [Env]: everything outside of the program, as classes of operations on a state of the
      world: the clock and the files ([Os], [FileSystem], [FileWrites], [Instants]),
      [Procfs], [PerfEvents], [Sysinfo], [Aya] (the eBPF maps), [HashMaps] (the order in
      which a map is iterated), [Regex], [Captures], [ContainerRuntimes], [Hostname],
      [Riemann], [Warp10], [Http], [EnvVars], [Sinks], [Windows];
    - [Simulated], [Recorded], [Samples]: a concrete world, one that also keeps what is
      written to a file, and a sample host, on which the examples and the witnesses of the
      theorems are evaluated;
    - [Loops]: the loops of the exporters, with a time limit or without, their pauses, and what
      has been seen of a loop that does not end; [Search]: searches in a vector of metrics;
      [Writer]: the standard library's [BufWriter], a refinement of a plain sink.

    Sensors, in [scaphandre/src/sensors]:
    - [Units] ([units.rs]); [Records] ([mod.rs], Record and CPUStat, with the eviction
      arithmetic that every buffer repeats); [Energy] (the arithmetic of the powers);
      [Common] ([scaphandre-common], and the resources of domains);
    - [Domain], [Core], [Socket] ([mod.rs], with the readers of [powercap_rapl.rs]);
    - [ProcTracker] ([utils.rs]); [Containers] (the labels of a process, same file);
    - [Topology] ([mod.rs]: structure, refresh, energy of the host); [Generators] (the trait
      [RecordGenerator] as a class, with the contract that the topology, the sockets and the
      domains meet: a buffer is a window on the log of all that was read); [Attribution] (power of
      the host, of its cores and of the processes); [Clones] (what a clone cannot report);
    - [Powercap] ([powercap_rapl.rs]); [Msr] ([msr_rapl.rs], the sensor of Windows).

    The eBPF side: [Ebpf] ([scaphandre-ebpf/src/main.rs], the four programs as transitions of
    the maps); [Bpf] ([bpf.rs], loading, and draining the events).

    Exporters, in [scaphandre/src/exporters]: [Metrics] ([mod.rs]), with [Series] (its
    metrics are distinct series) and [Shapes] (the type of each metric); [ExporterUtils]
    ([utils.rs]); [Prometheus] ([prometheus.rs], [prometheuspush.rs]); [Riemann]
    ([riemann.rs], [warpten.rs]) and [Events] (its services); [Qemu] ([qemu.rs]); [Json]
    ([json.rs], the reports) and [JsonFile] (the file they go to); [Stdout] ([stdout.rs]).
    [Frame] follows a round through all of these; [Session] follows the topology from the
    powercap tree through the rounds of the exporters; [Exporters] has the traits [Exporter]
    and [Sensor] as classes, the options, [new] and [run] of every exporter; [Start]
    ([main.rs]) puts a sensor and an exporter together; [Service] ([main.rs]) is the service
    of Windows, whose loop and control handler interleave.

    That nothing panics on a sane host has its own files: [Returns] (computations that return,
    their rules and a tactic), [Alive] (refreshes and collections), [Running] (the server and
    the standard output), [Reports] (the reports of JSON), [Launch] (the start) and [Whole]
    (from the command line to any round of any exporter).

    ** How they interact

    A run is [Start.parse_cli_and_run_exporter]: [Bpf.load], then [Exporters.build_exporter],
    which asks for [Powercap.get_topology], which visits the powercap tree with
    [Topology.safe_add_socket] and [safe_add_domain_to_socket] and distributes the cores;
    then the run of the exporter, rounds of [Topology.refresh], [Metrics.gen_all_metrics],
    [Metrics.pop_metrics] and the exporter's view.  [refresh] reads the processes, the cores,
    the sockets with their domains, the host.  It drains the events that the eBPF programs
    wrote; the sockets turn them into estimates of their background power, which their powers
    and those of the domains subtract.  [Attribution] combines the powers of the cores with
    the times of the eBPF maps.

    ** What is proved

    - Powers: the power of a domain, of a socket and of the host is the energy really consumed,
      across a wrap of the counter, divided by the interval between the times of measure, of
      which double precision loses less than five microseconds, less the background
      ([Domain.power_of_consumption], [Socket.socket_power], [Attribution.host_power],
      [Topology.host_energy], [Msr.msr_energy_exact]); the shares of a process are between 0 and 1
      ([Attribution.process_shares]); indices never leave their lists
      ([Attribution.process_power_defined]).
    - Structure: ids stay distinct and counter files known in every reachable topology
      ([Topology.reachable_wf], [Powercap.run_well_formed]), every core and every event
      reaches its own socket ([Topology.cores_reach_their_socket],
      [Topology.refresh_routes_events]); [Msr.packages_enumerated] for Windows.
    - Buffers: bounded, newest last, only old entries evicted ([Domain.refresh_appends],
      [Socket.socket_refresh], [ProcTracker.add_process_record_tracks]); over any number of
      refreshes they refine logs that keep everything, and give the same powers
      ([Generators.buffers_refine_logs]).
    - eBPF: the time of processes of one thread is exact, none is lost or charged twice
      ([Ebpf.times_accounted]), which sockets a tick
      reports ([Ebpf.tick_reports]), draining ends with what was written
      ([Bpf.drain_returns_events]).
    - Whole runs: what the labels rest on holds from the powercap tree to each round, so every
      answer of the Prometheus server, however the requests overlap, and every output of every
      exporter comes from one sample per series
      ([Session.answers_have_one_sample_per_series], [Start.shown_once]); and exactly when
      an exporter cannot be made ([Exporters.build_panics_when]).
    - No panic: on a host that grants what [Alive.SaneHost] lists, without overflow checks and,
      when Kubernetes is watched, until 2038, every refresh and every collection gives its
      result, so the server answers for ever the requests that are not overtaken
      ([Running.orderly_server_answers]) and a report of JSON can always be made
      ([Reports.report_returns]).  With what [Launch.EquippedHost] lists the program starts,
      the exporters without a time limit make any number of rounds ([Whole.program_goes_on])
      and those that have one come to their end ([Whole.program_ends_in_time]).
    - Exporters: no series twice ([Series.series_distinct]), one type for each name
      ([Shapes.metrics_well_typed]), the file of the JSON exporter holds the reports, except
      what waits in its buffer ([JsonFile.file_holds_reports]), the text of a scrape reads back
      ([Prometheus.body_reads_back]), a counter file is a sum ([Qemu.counter_accumulates]),
      the summary shows the right powers and never panics ([Stdout.cell_shows_domain],
      [Stdout.summary_never_panics]), rounds begin within the time limit and runs end
      ([Frame.rounds_begin_in_time]).
    - Behaviours that a reader would not expect are theorems too, of the code as it is:
      [Socket.idle_estimate_alternates], [Socket.core_powers_poisoned],
      [Ebpf.second_thread_charged_since_boot], [Ebpf.second_tick_reports_idle],
      [Clones.clone_is_blind], [Prometheus.overtaken_request_ends_exporter],
      [Json.resources_depend_on_order], [Json.one_socket_reported],
      [Riemann.riemann_values], [Events.process_services_differ], [Service.stop_is_not_seen],
      [Msr.wrap_unnoticed], [Msr.one_domain_kept].

    ** Conventions

    - A call is an [outcome] when it only may panic, and an [io] when it also reads or changes
      the world.  [Result] and [Option] are data.  A panic ends the program and loses its
      state, except in the Prometheus server, where it poisons the locks.
    - Unsigned integers are [Z] in their range.  Arithmetic is written with its width; it
      panics on overflow or wraps according to [Profile] (overflow checks, as in debug
      builds), and theorems hold for both unless they say so.  The eBPF programs are always
      built in release mode and wrap.
    - [Layout] gives the sizes of the records ([size_of_val]); [usize] has 64 bits.
    - Paths and strings are bytes.  A map that is iterated is iterated in an order drawn from
      the world, of which [HashLaws] only says that each entry comes once.  [SysinfoLaws] says that pids
      are not negative, [Session.NameFiles] that the domains of a package have different and
      lasting names, as the kernel gives them.  What the sources unwrap is there by
      [Alive.SaneHost] (the clock, the statistics, the processes and the eBPF maps),
      [Alive.Calendar] (before 2038, when there is a client of Kubernetes),
      [Reports.NamedDisks], [Whole.SaneMachines] and [Whole.SaneSinks] (what is written is
      accepted), and for the start [Launch.EquippedHost].
    - [trace!], [debug!] and [info!] are not modelled, nor the evaluation of their arguments.
      A getter whose stamped record is thrown away for its value is a pure function: its
      reading of the clock is not threaded.
    - A float is a [spec_float]; a sum starts at zero.  A host has less than [2 ^ 16] CPUs.

    ** Bounds and fuel

    Recursion that is not structural takes fuel, and what is proved says it is enough: the
    items that wait and one more for draining ([Bpf.drain_returns_events]), the length of
    the vector for [Metrics.pop_metrics] ([pop_metrics_eq]), the text for the readers of
    [Prometheus], the logarithm for printing ([Text.show_uint_fuel]), [timeout / step + 2]
    for the loops ([Frame.rounds_begin_in_time]), one more than the packages for [Msr.add_sockets].
    Without a time limit [Stdout.run] and [Json.json_run] are the first rounds of a loop that
    does not end.  [FloatText.shortest] tries 17 digits, which is enough for binary64; should
    none read back it prints the exact value, so that nothing depends on it.

    ** Not modelled

    The parsing of the command line (clap) and the colours ([main.rs]): the results of the
    parser are data, and its defaults are definitions; [vmlinux.rs], which bindgen generates;
    the HTTP server and clients, serde's writing of JSON, the clients of Docker, Kubernetes,
    Riemann and Warp10 and the dispatcher of Windows services, which are third-party code and
    parameters here, with their results and their failures; [init_logger], which only logs; the
    unit tests.  On
    Windows the tables of processes and eBPF maps of [Topology::new] are a parameter of
    [Msr.generate_topology], because the crates they come from exist for Linux only. *)

From stdpp Require Export base tactics option list list_numbers strings gmap sorting.
From Stdlib Require Export ZArith Lia.

Declare Scope rust_scope.
Delimit Scope rust_scope with rust.
#[global] Open Scope Z_scope.

(** ** Outcomes of a Rust computation

    A call either returns a value or panics (an [unwrap] of [None], an explicit
    [panic!], an arithmetic overflow in a build that checks it, an index out of
    range).  [Result] and [Option] values of the source are ordinary data
    ([sum] and [option]) and live inside [Done]. *)

Inductive outcome (A : Type) : Type :=
  | Done (a : A)
  | Panic.
Arguments Done {A} a.
Arguments Panic {A}.

#[export] Instance outcome_ret : MRet outcome := fun A a => Done a.
#[export] Instance outcome_bind : MBind outcome :=
  fun A B f m => match m with Done a => f a | Panic => Panic end.
#[export] Instance outcome_fmap : FMap outcome :=
  fun A B f m => match m with Done a => Done (f a) | Panic => Panic end.

#[export] Instance outcome_eq_dec `{EqDecision A} : EqDecision (outcome A).
Proof. solve_decision. Defined.

(** [Option::unwrap] / [Option::expect]. *)
Definition unwrap {A} (o : option A) : outcome A :=
  match o with Some a => Done a | None => Panic end.

Lemma bind_done {A B} (a : A) (f : A → outcome B) : (Done a ≫= f) = f a.
Proof. reflexivity. Qed.

Lemma bind_Done_inv {A B} (m : outcome A) (f : A → outcome B) b :
  (m ≫= f) = Done b → ∃ a, m = Done a ∧ f a = Done b.
Proof. destruct m; simpl; [eauto | discriminate]. Qed.

Definition is_done {A} (m : outcome A) : bool := match m with Done _ => true | Panic => false end.

Lemma is_done_inv {A} (m : outcome A) : is_done m = true → ∃ a, m = Done a.
Proof. destruct m; [eauto|done]. Qed.

(** [Iterator] pipelines whose closure may panic: run left to right, stop at
    the first panic. *)
Fixpoint traverse {A B} (f : A → outcome B) (l : list A) : outcome (list B) :=
  match l with
  | [] => Done []
  | x :: l' => y ← f x; ys ← traverse f l'; Done (y :: ys)
  end.

Lemma traverse_Forall2 {A B} (f : A → outcome B) l k :
  traverse f l = Done k ↔ Forall2 (λ x y, f x = Done y) l k.
Proof.
  revert k. induction l as [|x l IH]; intros k; simpl.
  - split; [intros [= <-]; constructor | by inversion 1].
  - split.
    + intros (y & Hy & (ys & Hys & [= <-])%bind_Done_inv)%bind_Done_inv.
      constructor; [done | by apply IH].
    + inversion 1 as [|? y ? ys Hy Hys]; subst. rewrite Hy. simpl.
      apply IH in Hys. by rewrite Hys.
Qed.

Lemma traverse_length {A B} (f : A → outcome B) l k :
  traverse f l = Done k → length k = length l.
Proof. intros H%traverse_Forall2. symmetry. by eapply Forall2_length. Qed.

Lemma traverse_done {A B} (f : A → outcome B) l :
  (∀ x, x ∈ l → ∃ y, f x = Done y) → ∃ k, traverse f l = Done k.
Proof.
  induction l as [|x l IH]; intros Hf; simpl; [by eexists|].
  destruct (Hf x) as [y ->]; [by left|]. destruct IH as [k ->]; [|by eexists].
  intros z Hz. apply Hf. by right.
Qed.

Lemma traverse_pure {A B} (f : A → B) l : traverse (λ x, Done (f x)) l = Done (f <$> l).
Proof. induction l as [|x l IH]; simpl; [done | by rewrite IH]. Qed.

(** [for x in l { st = f(st, x) }] with a body that may panic. *)
Fixpoint foldM {A S} (f : S → A → outcome S) (st : S) (l : list A) : outcome S :=
  match l with
  | [] => Done st
  | x :: l' => st' ← f st x; foldM f st' l'
  end.

Lemma foldM_inv {A S} (f : S → A → outcome S) (I : S → Prop) l st st' :
  (∀ s x s', x ∈ l → I s → f s x = Done s' → I s') →
  I st → foldM f st l = Done st' → I st'.
Proof.
  revert st. induction l as [|x l IH]; simpl; intros st Hf Hst.
  - by intros [= <-].
  - intros (s & Hs & Hl)%bind_Done_inv. eapply (IH s); [|eapply Hf|done]; eauto; set_solver.
Qed.

(** ** Machine integers

    An unsigned [w]-bit integer is a [Z] in [[0, 2^w)].  [+], [-] and [*] panic on
    overflow when the build checks it (the [dev] and [test] profiles) and wrap
    otherwise (the [release] profile): both behaviours are modelled, selected by the
    build profile.  [usize] is 64 bits wide. *)

Class Profile := overflow_checks : bool.

Definition umax (w : Z) : Z := 2 ^ w - 1.

Definition in_range (w z : Z) : bool := (0 <=? z) && (z <=? umax w).

(** [x as uN] between integers: the low [w] bits. *)
Definition cast (w z : Z) : Z := z mod 2 ^ w.

Section Arith.
  Context `{Profile}.
Definition arith (w z : Z) : outcome Z :=
    if in_range w z then Done z
    else if overflow_checks then Panic else Done (cast w z).
Definition uadd (w a b : Z) : outcome Z := arith w (a + b).
Definition usub (w a b : Z) : outcome Z := arith w (a - b).
Definition umul (w a b : Z) : outcome Z := arith w (a * b).
End Arith.

(** [saturating_sub] and [saturating_add]. *)
Definition sat_sub (a b : Z) : Z := Z.max 0 (a - b).
Definition sat_add (w a b : Z) : Z := Z.min (umax w) (a + b).

Lemma in_range_spec w z : in_range w z = true ↔ 0 <= z <= umax w.
Proof. unfold in_range. rewrite andb_true_iff, !Z.leb_le. done. Qed.

Lemma cast_range w z : 0 <= w → 0 <= cast w z <= umax w.
Proof.
  intros Hw. unfold cast, umax.
  pose proof (Z.mod_pos_bound z (2 ^ w)). pose proof (Z.pow_pos_nonneg 2 w). lia.
Qed.

Lemma cast_small w z : 0 <= z <= umax w → cast w z = z.
Proof. unfold cast, umax. intros. apply Z.mod_small. lia. Qed.

Lemma arith_ok `{Profile} w z : 0 <= z <= umax w → arith w z = Done z.
Proof. intros Hz%in_range_spec. unfold arith. by rewrite Hz. Qed.

Lemma arith_overflow `{Profile} w z :
  ¬ (0 <= z <= umax w) → arith w z = if overflow_checks then Panic else Done (cast w z).
Proof.
  intros Hz. unfold arith. destruct (in_range w z) eqn:E; [|done].
  by apply in_range_spec in E.
Qed.

Lemma arith_range `{Profile} w z r : 0 <= w → arith w z = Done r → 0 <= r <= umax w.
Proof.
  intros Hw. unfold arith. destruct (in_range w z) eqn:E.
  - intros [= <-]. by apply in_range_spec.
  - destruct overflow_checks; [done|]. intros [= <-]. by apply cast_range.
Qed.

Lemma uadd_ok `{Profile} w a b : 0 <= a + b <= umax w → uadd w a b = Done (a + b).
Proof. apply arith_ok. Qed.
Lemma usub_ok `{Profile} w a b : 0 <= a - b <= umax w → usub w a b = Done (a - b).
Proof. apply arith_ok. Qed.
Lemma umul_ok `{Profile} w a b : 0 <= a * b <= umax w → umul w a b = Done (a * b).
Proof. apply arith_ok. Qed.

Lemma sat_sub_le a b : 0 <= a → 0 <= b → 0 <= sat_sub a b <= a.
Proof. unfold sat_sub. lia. Qed.

Lemma sat_sub_small a b : b <= a → sat_sub a b = a - b.
Proof. unfold sat_sub. lia. Qed.

(** ** Lists *)

Lemma omap_step {A B} (f : A → option B) x l :
  omap f (x :: l) = match f x with Some y => y :: omap f l | None => omap f l end.
Proof. reflexivity. Qed.

Lemma elem_of_take_1 {A} n (l : list A) x : x ∈ take n l → x ∈ l.
Proof. intros (i & Hi & _)%elem_of_take. by eapply list_elem_of_lookup_2. Qed.

Lemma NoDup_key {A B} (f : A → B) l x y : NoDup (f <$> l) → x ∈ l → y ∈ l → f x = f y → x = y.
Proof.
  intros Hn [i Hi]%list_elem_of_lookup [j Hj]%list_elem_of_lookup He.
  assert (i = j) as ->; [|by simplify_eq].
  eapply (NoDup_lookup _ _ _ (f x) Hn); rewrite list_lookup_fmap; [by rewrite Hi|by rewrite Hj, He].
Qed.

Lemma elem_of_rev {A} (l : list A) x : x ∈ rev l ↔ x ∈ l.
Proof. by rewrite !list_elem_of_In, <- in_rev. Qed.

Lemma Forall2_compose {A B C} (P : A → B → Prop) (Q : B → C → Prop) (R : A → C → Prop) l k m :
  Forall2 P l k → Forall2 Q k m → (∀ x y z, P x y → Q y z → R x z) → Forall2 R l m.
Proof.
  intros Hp. revert m. induction Hp as [|x y l k Hxy Hp IH]; intros m Hq HR; inversion Hq; subst;
    constructor; eauto.
Qed.

Lemma StronglySorted_take {A} (R : A → A → Prop) n l :
  StronglySorted R l → StronglySorted R (take n l).
Proof.
  revert l. induction n as [|n IH]; intros l Hl; [constructor|].
  destruct Hl as [|x l Hl Hx]; [constructor|]. simpl. constructor; [by apply IH|by apply Forall_take].
Qed.

(** ** Stable sorting ([sort], [sort_by], [sort_by_key]) *)

Section Sort.
Context {A : Type} (le : A → A → bool).

Fixpoint insert_by (x : A) (l : list A) : list A :=
  match l with
  | [] => [x]
  | y :: l' => if le x y then x :: l else y :: insert_by x l'
  end.

Definition sort_by (l : list A) : list A := foldr insert_by [] l.

Lemma insert_by_perm x l : insert_by x l ≡ₚ x :: l.
Proof.
  induction l as [|y l IH]; simpl; [done|]. destruct (le x y); [done|].
  rewrite IH. apply Permutation_swap.
Qed.

Lemma sort_by_perm l : sort_by l ≡ₚ l.
Proof. induction l as [|x l IH]; simpl; [done|]. by rewrite insert_by_perm, IH. Qed.

Lemma sort_by_length l : length (sort_by l) = length l.
Proof. by rewrite sort_by_perm. Qed.

(** Sorting a sorted list changes nothing. *)
Lemma sort_by_id l : StronglySorted (λ x y, le x y = true) l → sort_by l = l.
Proof.
  induction 1 as [|x l Hl IH Hx]; simpl; [done|]. rewrite IH.
  destruct Hx as [|y l Hy]; simpl; [done|]. by rewrite Hy.
Qed.

(** Comparison is total and transitive on the elements of interest. *)
Context (P : A → Prop).
Context (Htotal : ∀ x y, P x → P y → le x y = true ∨ le y x = true).
Context (Htrans : ∀ x y z, P x → P y → P z → le x y = true → le y z = true → le x z = true).

Lemma insert_by_sorted x l :
  P x → Forall P l → StronglySorted (λ x y, le x y = true) l →
  StronglySorted (λ x y, le x y = true) (insert_by x l).
Proof.
  intros Hx Hl Hs. induction Hs as [|y l Hs IH Hy]; simpl; [by repeat constructor|].
  inversion_clear Hl as [|? ? Hpy Hpl]. destruct (le x y) eqn:E.
  - constructor; [by constructor|]. constructor; [done|].
    rewrite Forall_forall in *. eauto.
  - constructor; [by apply IH|]. rewrite insert_by_perm. constructor; [|done].
    destruct (Htotal x y) as [|]; congruence.
Qed.

Lemma sort_by_sorted l : Forall P l → StronglySorted (λ x y, le x y = true) (sort_by l).
Proof.
  induction 1 as [|x l Hx Hl IH]; simpl; [constructor|].
  apply insert_by_sorted; [done| |done]. by rewrite sort_by_perm.
Qed.
End Sort.

(** [sort_by_key] with a key in [Z]. *)
Definition sort_by_key {A} (key : A → Z) (l : list A) : list A :=
  sort_by (λ x y, key x <=? key y) l.

Lemma sort_by_key_sorted {A} (key : A → Z) l :
  StronglySorted (λ x y, key x <= key y) (sort_by_key key l).
Proof.
  assert (H : StronglySorted (λ x y, (key x <=? key y) = true) (sort_by_key key l)).
  { apply (sort_by_sorted _ (λ _, True)); [lia..|]. by apply Forall_true. }
  induction H as [|x m H IH Hx]; constructor; [done|].
  eapply Forall_impl; [exact Hx|]. simpl. lia.
Qed.

Lemma sort_by_key_perm {A} (key : A → Z) l : sort_by_key key l ≡ₚ l.
Proof. apply sort_by_perm. Qed.

(** Sorting commutes with a map that keeps the order. *)
Lemma sort_by_fmap {A B} (le : A → A → bool) (le' : B → B → bool) (f : A → B) l :
  (∀ x y, le' (f x) (f y) = le x y) → sort_by le' (f <$> l) = f <$> sort_by le l.
Proof.
  intros Hf. induction l as [|x l IH]; [done|]. rewrite fmap_cons. simpl. rewrite IH.
  generalize (sort_by le l). intros k. induction k as [|y k IHk]; [done|].
  rewrite fmap_cons. simpl. rewrite Hf. destruct (le x y); [done|]. by rewrite IHk.
Qed.

Lemma sort_by_key_fmap {A B} (key : B → Z) (f : A → B) l :
  sort_by_key key (f <$> l) = f <$> sort_by_key (λ x, key (f x)) l.
Proof. by apply sort_by_fmap. Qed.
