(* ===== verification/Floats.v ===== *)
(** * IEEE-754 arithmetic

    [f64] and [f32] are the binary64 and binary32 formats of the Standard Library's
    executable specification [SpecFloat] (round to nearest, ties to even).  This file
    fixes the conversions the Rust code uses ([as f64], [as u64], comparisons, [min])
    and proves what the power formulas rely on: integers below [2 ^ prec] are
    represented exactly, their sums, differences and products are exact while they stay
    below [2 ^ prec], and truncating the quotient of two of them is integer division. *)

From S2P Require Import Prelude.
From Stdlib Require Import SpecFloat.

Abbreviation float := spec_float.

(** ** Operations of one format *)

Section Format.
  Context (prec emax : Z).

  (** [n as f64] for an integer [n] of any width. *)
Definition of_Z (n : Z) : float := binary_normalize prec emax n 0 false.

  (** The integer part of a finite float, rounded toward zero. *)
Definition trunc (x : float) : Z :=
    match x with
    | S754_finite s m e =>
        let z := if 0 <=? e then Z.pos m * 2 ^ e else Z.pos m / 2 ^ (- e) in
        if s then - z else z
    | _ => 0
    end.

  (** Neither an infinity nor NaN. *)
Definition finite (x : float) : bool :=
    match x with S754_zero _ | S754_finite _ _ _ => true | _ => false end.

  (** [x as uN]: truncation that saturates at the bounds of the type; NaN gives 0. *)
Definition to_uint (w : Z) (x : float) : Z :=
    match x with
    | S754_nan => 0
    | S754_infinity s => if s then 0 else umax w
    | _ => Z.max 0 (Z.min (umax w) (trunc x))
    end.

  (** [f64::min]: the other operand when one is NaN. *)
Definition fmin (x y : float) : float :=
    match x, y with
    | S754_nan, _ => y
    | _, S754_nan => x
    | _, _ => if SFltb y x then y else x
    end.

  (** [>], [==] and [!=] on floats: every comparison with NaN is false. *)
Definition fgtb (x y : float) : bool := SFltb y x.
Definition feqb (x y : float) : bool := SFeqb x y.
End Format.

(** The two formats of the program. *)
Module F64.
Definition of_Z := of_Z 53 1024.
Definition add := SFadd 53 1024.
Definition sub := SFsub 53 1024.
Definition mul := SFmul 53 1024.
Definition div := SFdiv 53 1024.
Definition zero : float := S754_zero false.
Definition one : float := of_Z 1.
Definition sum (l : list float) : float := fold_left add l zero.
End F64.

Module F32.
Definition of_Z := of_Z 24 128.
Definition div := SFdiv 24 128.
Definition mul := SFmul 24 128.
End F32.

Lemma to_uint_range w x : 0 <= w → 0 <= to_uint w x <= umax w.
Proof.
  intros Hw. assert (0 <= umax w) by (unfold umax; pose proof (Z.pow_pos_nonneg 2 w); lia).
  destruct x as [| [] | |]; unfold to_uint; lia.
Qed.

Lemma to_uint_trunc w x z :
  finite x = true → trunc x = z → 0 <= z <= umax w → to_uint w x = z.
Proof. destruct x; simpl; intros; try done; lia. Qed.

Lemma to_uint_neg w x z :
  finite x = true → trunc x = z → z <= 0 → 0 <= w → to_uint w x = 0.
Proof.
  intros ? ? ? Hw. assert (0 <= umax w) by (unfold umax; pose proof (Z.pow_pos_nonneg 2 w); lia).
  destruct x; simpl in *; try done; lia.
Qed.

(** [x as f64] of an [f32]: the same number in the wider format. *)
Definition f64_of_f32 (x : float) : float :=
  match x with S754_finite s m e => binary_round 53 1024 s m e | _ => x end.

(** [x as f32] of an [f64]: rounded to the nearest. *)
Definition f32_of_f64 (x : float) : float :=
  match x with S754_finite s m e => binary_round 24 128 s m e | _ => x end.

(** [ordered_float]'s total order: NaN is equal to itself and above everything. *)
Definition ordered_leb (x y : float) : bool :=
  match SFcompare x y with
  | Some Gt => false
  | Some _ => true
  | None => match y with S754_nan => true | _ => false end
  end.

Lemma ordered_leb_total x y : ordered_leb x y = true ∨ ordered_leb y x = true.
Proof.
  unfold ordered_leb, SFcompare.
  destruct x as [[]|[]| |[] m e], y as [[]|[]| |[] m' e']; auto; simpl;
    rewrite (Z.compare_antisym e e'); destruct (e ?= e') eqn:E; simpl; auto;
    change (Pos.compare_cont Eq) with Pos.compare; rewrite (Pos.compare_antisym m m');
    destruct (m ?= m')%positive; auto.
Qed.

Lemma ordered_leb_trans x y z :
  ordered_leb x y = true → ordered_leb y z = true → ordered_leb x z = true.
Proof.
  unfold ordered_leb, SFcompare. change (Pos.compare_cont Eq) with Pos.compare.
  destruct x as [[]|[]| |[] m e], y as [[]|[]| |[] m' e'], z as [[]|[]| |[] m'' e'']; simpl; auto; try done;
    destruct (Z.compare_spec e e'), (Z.compare_spec e' e''), (Z.compare_spec e e''); try lia; simpl; auto; try done;
    destruct (Pos.compare_spec m m'), (Pos.compare_spec m' m''), (Pos.compare_spec m m''); try lia; simpl; auto; try done.
Qed.

(** ** Rounding on the integers *)

Section Rounding.
  Context (prec emax : Z).
  Context (Hprec : 1 < prec) (Hemax : 2 * prec + 3 <= emax).
Definition digits (z : Z) : Z := Zdigits2 z.

Lemma digits_pos p : Z.pos (digits2_pos p) = Z.log2 (Z.pos p) + 1.
  Proof.
    induction p as [p IH|p IH|]; simpl digits2_pos.
    - rewrite Pos2Z.inj_succ, IH. change (Z.pos p~1) with (2 * Z.pos p + 1).
      rewrite Z.log2_succ_double by lia. lia.
    - rewrite Pos2Z.inj_succ, IH. change (Z.pos p~0) with (2 * Z.pos p).
      rewrite Z.log2_double by lia. lia.
    - reflexivity.
  Qed.

Lemma digits_bounds z : 0 < z → 2 ^ (digits z - 1) <= z < 2 ^ digits z.
  Proof.
    intros Hz. unfold digits. destruct z as [|p|p]; try lia. simpl.
    rewrite digits_pos. pose proof (Z.log2_spec (Z.pos p)).
    replace (Z.log2 (Z.pos p) + 1 - 1) with (Z.log2 (Z.pos p)) by lia.
    rewrite <- Z.add_1_r in *. lia.
  Qed.

Lemma digits_unique z d : 0 < d → 2 ^ (d - 1) <= z < 2 ^ d → digits z = d.
  Proof.
    intros Hd Hz. assert (0 < z) by (pose proof (Z.pow_pos_nonneg 2 (d - 1)); lia).
    unfold digits. destruct z as [|p|p]; try lia. simpl. rewrite digits_pos.
    rewrite (Z.log2_unique (Z.pos p) (d - 1)); [lia|lia|].
    rewrite <- Z.add_1_r. replace (d - 1 + 1) with d by lia. done.
  Qed.

Lemma digits_ge_1 z : 0 < z → 1 <= digits z.
  Proof.
    intros Hz. unfold digits. destruct z as [|p|p]; try lia. simpl. lia.
  Qed.

Lemma digits_mul_pow z k : 0 < z → 0 <= k → digits (z * 2 ^ k) = digits z + k.
  Proof.
    intros Hz Hk. pose proof (digits_bounds z Hz). pose proof (digits_ge_1 z Hz).
    apply digits_unique; [lia|].
    replace (digits z + k - 1) with ((digits z - 1) + k) by lia.
    rewrite !Z.pow_add_r by lia. pose proof (Z.pow_pos_nonneg 2 k). nia.
  Qed.

Lemma digits_lt_pow z p : 0 < z < 2 ^ p → digits z <= p.
  Proof.
    intros [Hz Hp]. pose proof (digits_bounds z Hz).
    destruct (Z.le_gt_cases (digits z) p) as [|Hgt]; [done|].
    assert (2 ^ p <= 2 ^ (digits z - 1)) by (apply Z.pow_le_mono_r; lia). lia.
  Qed.

  (** Shifting right by [n] a mantissa that is a multiple of [2 ^ n] loses nothing. *)
Lemma iter_pos_iter {A} (f : A → A) n x : iter_pos f n x = Nat.iter (Pos.to_nat n) f x.
  Proof.
    revert x. induction n as [n IH|n IH|]; intros x; cbn [iter_pos]; rewrite ?IH.
    - rewrite <- Nat.iter_add, Nat.iter_swap.
      replace (Pos.to_nat n~1) with (S (Pos.to_nat n + Pos.to_nat n)) by lia. done.
    - rewrite <- Nat.iter_add. f_equal. lia.
    - done.
  Qed.

Definition exact (m : Z) : shr_record := Build_shr_record m false false.

Lemma shr_1_exact m : 0 < m → shr_1 (exact (2 * m)) = exact m.
  Proof. destruct m; try lia. done. Qed.

Lemma shr_exact m n e :
    0 < m → 0 <= n → shr (exact (m * 2 ^ n)) e n = (exact m, e + n).
  Proof.
    intros Hm Hn. destruct n as [|p|p]; try lia.
    { rewrite Z.pow_0_r, Z.mul_1_r, Z.add_0_r. done. }
    unfold shr. rewrite iter_pos_iter. f_equal.
    rewrite <- (positive_nat_Z p). induction (Pos.to_nat p) as [|k IH]; simpl Nat.iter.
    { by rewrite Z.mul_1_r. }
    etrans; [symmetry; apply Nat.iter_swap|]. etrans; [|exact IH]. do 2 f_equal.
    rewrite Nat2Z.inj_succ, Z.pow_succ_r by lia.
    replace (m * (2 * 2 ^ Z.of_nat k)) with (2 * (m * 2 ^ Z.of_nat k)) by ring.
    apply shr_1_exact. pose proof (Z.pow_pos_nonneg 2 (Z.of_nat k)). lia.
  Qed.

Lemma fexp_normal d : - prec <= d → fexp prec emax d = d - prec.
  Proof. unfold fexp, emin. lia. Qed.

  (** The canonical representation of an integer below [2 ^ prec]. *)
Definition canon (s : bool) (z : Z) : float :=
    S754_finite s (Z.to_pos (z * 2 ^ (prec - digits z))) (digits z - prec).

  (** [z / 2 ^ t], which has the same mantissa. *)
Definition scaled (s : bool) (z t : Z) : float :=
    S754_finite s (Z.to_pos (z * 2 ^ (prec - digits z))) (digits z - prec - t).

Lemma scaled_0 s z : scaled s z 0 = canon s z.
  Proof. unfold scaled. by rewrite Z.sub_0_r. Qed.

Lemma shr_fexp_scaled z k t :
    0 < z < 2 ^ prec → prec - digits z <= k → 0 <= k → t <= prec →
    shr_fexp prec emax (z * 2 ^ k) (- k - t) loc_Exact
    = (exact (z * 2 ^ (prec - digits z)), digits z - prec - t).
  Proof.
    intros Hz Hk Hk0 Ht. pose proof (digits_lt_pow z prec Hz).
    pose proof (digits_ge_1 z (proj1 Hz)).
    unfold shr_fexp. fold (digits (z * 2 ^ k)). rewrite digits_mul_pow by lia.
    rewrite fexp_normal by lia. simpl shr_record_of_loc. fold (exact (z * 2 ^ k)).
    replace (z * 2 ^ k)
      with (z * 2 ^ (prec - digits z) * 2 ^ (digits z + k + (- k - t) - prec - (- k - t))).
    2: { rewrite <- Z.mul_assoc, <- Z.pow_add_r by lia. do 2 f_equal. lia. }
    rewrite shr_exact; [f_equal; lia| |lia].
    pose proof (Z.pow_pos_nonneg 2 (prec - digits z)). nia.
  Qed.

Lemma round_aux_scaled s z k t :
    0 < z < 2 ^ prec → prec - digits z <= k → 0 <= k → 0 <= t <= prec →
    binary_round_aux prec emax s (z * 2 ^ k) (- k - t) loc_Exact = scaled s z t.
  Proof.
    intros Hz Hk Hk0 Ht. pose proof (digits_lt_pow z prec Hz).
    pose proof (digits_ge_1 z (proj1 Hz)).
    unfold binary_round_aux. rewrite shr_fexp_scaled by lia. simpl shr_m.
    change (round_nearest_even ?m (loc_of_shr_record (exact ?m))) with m.
    replace (digits z - prec - t) with (- (prec - digits z) - t) at 1 by lia.
    rewrite shr_fexp_scaled by lia. simpl shr_m. unfold scaled.
    assert (0 < z * 2 ^ (prec - digits z)).
    { pose proof (Z.pow_pos_nonneg 2 (prec - digits z)). nia. }
    destruct (z * 2 ^ (prec - digits z)) as [|m|m]; try lia.
    destruct (Z.leb_spec (digits z - prec - t) (emax - prec)); [done|lia].
  Qed.

Lemma round_aux_exact s z k :
    0 < z < 2 ^ prec → prec - digits z <= k → 0 <= k →
    binary_round_aux prec emax s (z * 2 ^ k) (- k) loc_Exact = canon s z.
  Proof.
    intros Hz Hk Hk0. rewrite <- scaled_0, <- (round_aux_scaled s z k 0) by lia. by rewrite Z.sub_0_r.
  Qed.

Lemma iter_xO m d : Z.pos (Pos.iter xO m d) = Z.pos m * 2 ^ Z.pos d.
  Proof.
    rewrite <- (positive_nat_Z d). rewrite Pos2Nat.inj_iter.
    generalize (Pos.to_nat d). intros k. induction k as [|k IH].
    { by rewrite Z.mul_1_r. }
    rewrite Nat2Z.inj_succ, Z.pow_succ_r by lia.
    cbn [nat_rect]. rewrite Pos2Z.inj_xO, IH. ring.
  Qed.

Lemma round_exact s z k mx :
    0 < z < 2 ^ prec → 0 <= k → Z.pos mx = z * 2 ^ k →
    binary_round prec emax s mx (- k) = canon s z.
  Proof.
    intros Hz Hk E. pose proof (digits_lt_pow z prec Hz).
    pose proof (digits_ge_1 z (proj1 Hz)).
    assert (Hd : digits (z * 2 ^ k) = digits z + k) by (apply digits_mul_pow; lia).
    unfold binary_round. change (Z.pos (digits2_pos mx)) with (digits (Z.pos mx)).
    rewrite E, Hd, fexp_normal by lia. unfold shl_align.
    destruct (digits z + k + - k - prec - - k) as [|d|d] eqn:Ed.
    - rewrite E. apply round_aux_exact; lia.
    - rewrite E. apply round_aux_exact; lia.
    - rewrite iter_xO, E, <- Z.mul_assoc, <- Z.pow_add_r by lia.
      replace (digits z + k + - k - prec) with (- (k + Z.pos d)) by lia.
      apply round_aux_exact; lia.
  Qed.

Lemma normalize_exact z k sz :
    0 < z < 2 ^ prec → 0 <= k →
    binary_normalize prec emax (z * 2 ^ k) (- k) sz = canon false z.
  Proof.
    intros Hz Hk. assert (0 < z * 2 ^ k) by (pose proof (Z.pow_pos_nonneg 2 k); nia).
    unfold binary_normalize. destruct (z * 2 ^ k) as [|mx|mx] eqn:E; try lia.
    by apply round_exact.
  Qed.

Lemma normalize_exact_neg z k sz :
    0 < z < 2 ^ prec → 0 <= k →
    binary_normalize prec emax (- z * 2 ^ k) (- k) sz = canon true z.
  Proof.
    intros Hz Hk. assert (0 < z * 2 ^ k) by (pose proof (Z.pow_pos_nonneg 2 k); nia).
    unfold binary_normalize. rewrite Z.mul_opp_l.
    destruct (z * 2 ^ k) as [|mx|mx] eqn:E; try lia. simpl. by apply round_exact.
  Qed.

Lemma of_Z_0 : of_Z prec emax 0 = S754_zero false.
  Proof. done. Qed.

Lemma of_Z_exact z : 0 < z < 2 ^ prec → of_Z prec emax z = canon false z.
  Proof.
    intros Hz. unfold of_Z. rewrite <- (normalize_exact z 0 false) by lia.
    rewrite Z.pow_0_r, Z.mul_1_r. done.
  Qed.

  (** [of_Z z] is [m * 2 ^ e] with [m = z * 2 ^ (- e)] and [e <= 0]. *)
Lemma mantissa_pos z : 0 < z < 2 ^ prec → 0 < z * 2 ^ (prec - digits z).
  Proof.
    intros Hz. pose proof (digits_lt_pow z prec Hz).
    pose proof (Z.pow_pos_nonneg 2 (prec - digits z)). nia.
  Qed.

Lemma trunc_canon s z : 0 < z < 2 ^ prec → trunc (canon s z) = if s then - z else z.
  Proof.
    intros Hz. pose proof (digits_lt_pow z prec Hz). pose proof (mantissa_pos z Hz).
    unfold trunc, canon. rewrite Z2Pos.id by done.
    assert (forall k, 0 <= k → z * 2 ^ k / 2 ^ k = z) as Hdiv.
    { intros k Hk. apply Z.div_mul. pose proof (Z.pow_pos_nonneg 2 k). lia. }
    destruct (Z.leb_spec 0 (digits z - prec)).
    - replace (digits z - prec) with 0 by lia.
      replace (prec - digits z) with 0 by lia. rewrite Z.pow_0_r, !Z.mul_1_r. done.
    - replace (- (digits z - prec)) with (prec - digits z) by lia. rewrite Hdiv by lia. done.
  Qed.

Lemma finite_of_Z z : 0 <= z < 2 ^ prec → finite (of_Z prec emax z) = true.
  Proof.
    intros Hz. destruct (decide (z = 0)) as [->|]; [by rewrite of_Z_0|].
    rewrite of_Z_exact by lia. done.
  Qed.

Lemma trunc_of_Z z : 0 <= z < 2 ^ prec → trunc (of_Z prec emax z) = z.
  Proof.
    intros Hz. destruct (decide (z = 0)) as [->|]; [done|].
    rewrite of_Z_exact by lia. by rewrite trunc_canon by lia.
  Qed.

Lemma align_canon z ez :
    0 < z < 2 ^ prec → ez <= digits z - prec →
    Z.pos (fst (shl_align (Z.to_pos (z * 2 ^ (prec - digits z))) (digits z - prec) ez))
    = z * 2 ^ (- ez).
  Proof.
    intros Hz He. pose proof (mantissa_pos z Hz). pose proof (digits_lt_pow z prec Hz).
    unfold shl_align.
    destruct (ez - (digits z - prec)) as [|d|d] eqn:E; try lia; simpl fst.
    - rewrite Z2Pos.id by done. do 2 f_equal. lia.
    - rewrite iter_xO, Z2Pos.id, <- Z.mul_assoc, <- Z.pow_add_r by lia.
      do 2 f_equal. lia.
  Qed.

  (** Sums, differences and products of integers are exact while they fit. *)
Lemma add_exact a b :
    0 <= a → 0 <= b → a + b < 2 ^ prec →
    SFadd prec emax (of_Z prec emax a) (of_Z prec emax b) = of_Z prec emax (a + b).
  Proof.
    intros Ha Hb Hab.
    destruct (decide (a = 0)) as [->|]; [destruct (decide (b = 0)) as [->|]|].
    - done.
    - rewrite Z.add_0_l, of_Z_0, of_Z_exact by lia. done.
    - destruct (decide (b = 0)) as [->|].
      { rewrite Z.add_0_r, of_Z_0, of_Z_exact by lia. done. }
      rewrite (of_Z_exact a), (of_Z_exact b) by lia. unfold SFadd, canon.
      set (ez := Z.min (digits a - prec) (digits b - prec)).
      unfold cond_Zopp. rewrite !align_canon by lia.
      rewrite <- Z.mul_add_distr_r. replace ez with (- - ez) at 2 by lia.
      pose proof (digits_lt_pow a prec).
      rewrite of_Z_exact by lia. apply normalize_exact; lia.
  Qed.

Lemma sub_exact a b :
    0 <= b <= a → a < 2 ^ prec →
    SFsub prec emax (of_Z prec emax a) (of_Z prec emax b) = of_Z prec emax (a - b).
  Proof.
    intros Hb Ha. destruct (decide (b = 0)) as [->|].
    { rewrite Z.sub_0_r, of_Z_0. destruct (decide (a = 0)) as [->|]; [done|].
      rewrite of_Z_exact by lia. done. }
    rewrite (of_Z_exact a), (of_Z_exact b) by lia. unfold SFsub, canon.
    set (ez := Z.min (digits a - prec) (digits b - prec)).
    unfold cond_Zopp. rewrite !align_canon by lia. rewrite <- Z.mul_sub_distr_r.
    destruct (decide (a = b)) as [->|]; [by rewrite Z.sub_diag|].
    rewrite of_Z_exact by lia. replace ez with (- - ez) at 2 by lia.
    pose proof (digits_lt_pow a prec). apply normalize_exact; lia.
  Qed.

Lemma sub_exact_neg a b :
    0 <= a < b → b < 2 ^ prec →
    SFsub prec emax (of_Z prec emax a) (of_Z prec emax b) = canon true (b - a).
  Proof.
    intros Hb Ha. destruct (decide (a = 0)) as [->|].
    { rewrite Z.sub_0_r, of_Z_0, of_Z_exact by lia. done. }
    rewrite (of_Z_exact a), (of_Z_exact b) by lia.
    remember (canon true (b - a)) as r eqn:Hr. unfold SFsub, canon.
    set (ez := Z.min (digits a - prec) (digits b - prec)).
    unfold cond_Zopp. rewrite !align_canon by lia. rewrite <- Z.mul_sub_distr_r.
    replace (a - b) with (- (b - a)) by lia. replace ez with (- - ez) at 2 by lia.
    pose proof (digits_lt_pow a prec). rewrite Hr. apply normalize_exact_neg; lia.
  Qed.

  (** A non-negative integer divided by a negative one is truncated to 0. *)
Lemma to_uint_round_neg w m e l :
    0 <= w → to_uint w (binary_round_aux prec emax true m e l) = 0.
  Proof.
    intros Hw. assert (0 <= umax w) by (unfold umax; pose proof (Z.pow_pos_nonneg 2 w); lia).
    unfold binary_round_aux. destruct (shr_fexp _ _ m e l) as [mrs e'].
    destruct (shr_fexp _ _ _ e' loc_Exact) as [mrs' e'']. destruct (shr_m mrs') as [|p|p]; simpl; try lia.
    destruct (e'' <=? emax - prec); simpl; [|done].
    destruct (0 <=? e'').
    - pose proof (Z.pow_nonneg 2 e''). nia.
    - pose proof (Z.div_pos (Z.pos p) (2 ^ (- e''))) as Hd.
      destruct (Z.le_gt_cases 0 (- e'')).
      + pose proof (Z.pow_pos_nonneg 2 (- e'')). lia.
      + rewrite Z.pow_neg_r, Z.div_0_r by lia. lia.
  Qed.

Lemma to_uint_div_neg w a z :
    0 <= w → 0 <= a < 2 ^ prec → to_uint w (SFdiv prec emax (of_Z prec emax a) (canon true z)) = 0.
  Proof.
    intros Hw Ha. assert (0 <= umax w) by (unfold umax; pose proof (Z.pow_pos_nonneg 2 w); lia).
    destruct (decide (a = 0)) as [->|].
    - rewrite of_Z_0. simpl. lia.
    - rewrite of_Z_exact by lia. unfold SFdiv, canon.
      destruct (SFdiv_core_binary _ _ _ _ _ _) as [[mz ez] lz]. by apply to_uint_round_neg.
  Qed.

Lemma mul_scaled a b t u :
    0 < a < 2 ^ prec → 0 < b < 2 ^ prec → a * b < 2 ^ prec → 0 <= t → 0 <= u → t + u <= prec →
    SFmul prec emax (scaled false a t) (scaled false b u) = scaled false (a * b) (t + u).
  Proof.
    intros Ha Hb Hab Ht Hu Htu. assert (0 < a * b) by nia.
    remember (scaled false (a * b) (t + u)) as r eqn:Hr.
    unfold SFmul, scaled. simpl xorb.
    rewrite Pos2Z.inj_mul, !Z2Pos.id by (apply mantissa_pos; lia).
    pose proof (digits_lt_pow a prec). pose proof (digits_lt_pow b prec).
    pose proof (digits_bounds a). pose proof (digits_bounds b).
    pose proof (digits_ge_1 a). pose proof (digits_ge_1 b).
    assert (digits a + digits b - 1 <= digits (a * b)).
    { assert (2 ^ (digits a + digits b - 2) <= a * b).
      { replace (digits a + digits b - 2) with ((digits a - 1) + (digits b - 1)) by lia.
        rewrite Z.pow_add_r by lia. nia. }
      destruct (Z.le_gt_cases (digits a + digits b - 1) (digits (a * b))); [done|].
      pose proof (digits_bounds (a * b)).
      assert (2 ^ digits (a * b) <= 2 ^ (digits a + digits b - 2))
        by (apply Z.pow_le_mono_r; lia). lia. }
    replace (a * 2 ^ (prec - digits a) * (b * 2 ^ (prec - digits b)))
      with (a * b * 2 ^ ((prec - digits a) + (prec - digits b)))
      by (rewrite Z.pow_add_r by lia; ring).
    replace (digits a - prec - t + (digits b - prec - u))
      with (- ((prec - digits a) + (prec - digits b)) - (t + u)) by lia.
    rewrite Hr. apply round_aux_scaled; lia.
  Qed.

Lemma mul_exact a b :
    0 <= a → 0 <= b → a < 2 ^ prec → b < 2 ^ prec → a * b < 2 ^ prec →
    SFmul prec emax (of_Z prec emax a) (of_Z prec emax b) = of_Z prec emax (a * b).
  Proof.
    intros Ha Hb Hap Hbp Hab.
    destruct (decide (a = 0)) as [->|].
    { rewrite Z.mul_0_l, of_Z_0. destruct (decide (b = 0)) as [->|]; [done|].
      rewrite of_Z_exact by lia. done. }
    destruct (decide (b = 0)) as [->|].
    { rewrite Z.mul_0_r, of_Z_0, of_Z_exact by lia. done. }
    rewrite !of_Z_exact, <- !scaled_0 by nia. apply (mul_scaled a b 0 0); lia.
  Qed.

Lemma trunc_scaled z t : 0 < z < 2 ^ prec → 0 <= t → trunc (scaled false z t) = z / 2 ^ t.
  Proof.
    intros Hz Ht. pose proof (digits_lt_pow z prec Hz). pose proof (mantissa_pos z Hz).
    unfold trunc, scaled. rewrite Z2Pos.id by done.
    destruct (Z.leb_spec 0 (digits z - prec - t)).
    - replace (digits z - prec - t) with 0 by lia. replace (prec - digits z) with 0 by lia.
      replace t with 0 by lia. by rewrite Z.pow_0_r, !Z.mul_1_r, Z.div_1_r.
    - replace (- (digits z - prec - t)) with (t + (prec - digits z)) by lia.
      rewrite Z.pow_add_r by lia. apply Z.div_mul_cancel_r; apply Z.pow_nonzero; lia.
  Qed.

  (** *** Truncating a quotient *)

  (** [M] is the quotient [a / b] scaled by [2 ^ t] with [prec] digits, and rounding it up
      (only allowed above one half) does not reach the next integer. *)
Lemma quotient_round a b t M M' c :
    0 <= a < 2 ^ prec → 0 < b → 0 <= t → 2 ^ (prec - 1) <= M →
    2 * a * 2 ^ t = 2 * M * b + c → 0 <= c < 2 * b →
    (M' = M ∨ (M' = M + 1 ∧ b <= c)) → M' / 2 ^ t = a / b.
  Proof.
    intros Ha Hb Ht HM Heq Hc Hcase.
    assert (H2t : 0 < 2 ^ t) by (apply Z.pow_pos_nonneg; lia).
    assert (Hp : 2 ^ prec = 2 * 2 ^ (prec - 1)).
    { rewrite <- Z.pow_succ_r by lia. f_equal. lia. }
    assert (HMn : M / 2 ^ t = a / b).
    { replace M with (a * 2 ^ t / b).
      2: { symmetry. apply Z.div_unique with (c / 2).
           - left. split; [apply Z.div_pos; lia|apply Z.div_lt_upper_bound; lia].
           - assert (c mod 2 = 0).
             { replace c with ((a * 2 ^ t - M * b) * 2) by lia. apply Z.mod_mul. lia. }
             pose proof (Z.div_mod c 2). lia. }
      rewrite Z.div_div, (Z.mul_comm b), Z.mul_comm, Z.div_mul_cancel_l by lia. done. }
    destruct Hcase as [->|[-> Hbc]]; [done|].
    pose proof (Z.div_mod a b). pose proof (Z.mod_pos_bound a b).
    pose proof (Z.div_mod M (2 ^ t)). pose proof (Z.mod_pos_bound M (2 ^ t)).
    rewrite HMn in *. set (n := a / b) in *.
    destruct (decide (M + 1 = (n + 1) * 2 ^ t)) as [E|E].
    2: { symmetry. apply Z.div_unique with (M mod 2 ^ t + 1); [left|]; nia. }
    exfalso. assert (a <= (n + 1) * b - 1) by nia.
    assert (2 * 2 ^ t <= b) by nia. assert (M * b <= a * 2 ^ t) by nia. nia.
  Qed.

Lemma new_location_up m r :
    0 < m → 0 <= r < m →
    match new_location m r with
    | loc_Inexact (Eq | Gt) => m <= 2 * r
    | _ => True
    end.
  Proof.
    intros Hm Hr. unfold new_location, new_location_even, new_location_odd.
    destruct (Z.even m); destruct (Z.eqb_spec r 0); auto.
    - destruct (Z.compare_spec (2 * r) m); lia.
    - destruct (Z.compare_spec (2 * r + 1) m); lia.
  Qed.

Lemma round_even_cases m l :
    round_nearest_even m l = m ∨
    (round_nearest_even m l = m + 1 ∧ (l = loc_Inexact Eq ∨ l = loc_Inexact Gt)).
  Proof. destruct l as [|[]]; simpl; auto. destruct (Z.even m); auto. Qed.

Lemma shr_fexp_final M t :
    2 ^ (prec - 1) <= M <= 2 ^ prec → 0 <= t <= 2 * prec →
    ∃ m e, shr_fexp prec emax M (- t) loc_Exact = (exact m, e) ∧ 0 < m ∧ e <= 1 ∧
           trunc (S754_finite false (Z.to_pos m) e) = M / 2 ^ t.
  Proof.
    intros HM Ht.
    assert (Hp : 2 ^ prec = 2 * 2 ^ (prec - 1)).
    { rewrite <- Z.pow_succ_r by lia. f_equal. lia. }
    assert (0 < 2 ^ (prec - 1)) by (apply Z.pow_pos_nonneg; lia).
    destruct (decide (M = 2 ^ prec)) as [->|Hne].
    - exists (2 ^ (prec - 1)), (- t + 1). unfold shr_fexp.
      fold (digits (2 ^ prec)). assert (Hd : digits (2 ^ prec) = prec + 1).
      { apply digits_unique; [lia|].
        replace (prec + 1 - 1) with prec by lia. rewrite Z.pow_add_r by lia. lia. }
      rewrite Hd, fexp_normal by lia. simpl shr_record_of_loc.
      replace (prec + 1 + - t - prec - - t) with 1 by lia.
      change (Build_shr_record (2 ^ prec) false false) with (exact (2 ^ prec)).
      replace (2 ^ prec) with (2 ^ (prec - 1) * 2 ^ 1) at 1 by lia.
      rewrite shr_exact by lia. do 3 (split; [done || lia|]).
      unfold trunc. rewrite Z2Pos.id by lia.
      destruct (Z.leb_spec 0 (- t + 1)).
      + assert (t = 0 ∨ t = 1) as [-> | ->] by lia; simpl.
        * rewrite Z.div_1_r. lia.
        * change (2 ^ (- (1) + 1)) with 1. change (2 ^ 1) with 2.
          rewrite Hp, (Z.mul_comm 2 (2 ^ (prec - 1))), Z.div_mul by lia. lia.
      + replace (2 ^ t) with (2 * 2 ^ (t - 1)) by (rewrite <- Z.pow_succ_r by lia; f_equal; lia).
        rewrite Hp, Z.div_mul_cancel_l; [do 2 f_equal; lia| |lia].
        pose proof (Z.pow_pos_nonneg 2 (t - 1)). lia.
    - exists M, (- t). unfold shr_fexp. fold (digits M).
      rewrite (digits_unique M prec) by lia. rewrite fexp_normal by lia.
      replace (prec + - t - prec - - t) with 0 by lia. simpl shr.
      do 3 (split; [done || lia|]). unfold trunc. rewrite Z2Pos.id, Z.opp_involutive by lia.
      destruct (Z.leb_spec 0 (- t)); [|done]. replace t with 0 by lia. simpl.
      rewrite Z.div_1_r. lia.
  Qed.

  (** The first rounding step on a quotient with [prec] or [prec + 1] digits: the
      rounded mantissa is the truncated one, or its successor above one half. *)
Lemma shr_fexp_quotient q e l :
    2 ^ (prec - 1) <= q < 2 ^ (prec + 1) → - 2 * prec <= e →
    ∃ mrs j, shr_fexp prec emax q e l = (mrs, e + j) ∧ (j = 0 ∨ j = 1) ∧
      2 ^ (prec - 1) <= q / 2 ^ j < 2 ^ prec ∧ shr_m mrs = q / 2 ^ j ∧
      ((loc_of_shr_record mrs = loc_Inexact Eq ∨ loc_of_shr_record mrs = loc_Inexact Gt) →
       if decide (j = 0) then l = loc_Inexact Eq ∨ l = loc_Inexact Gt else q mod 2 = 1).
  Proof.
    intros Hq He.
    assert (Hp : 2 ^ prec = 2 * 2 ^ (prec - 1)).
    { rewrite <- Z.pow_succ_r by lia. f_equal. lia. }
    assert (Hp1 : 2 ^ (prec + 1) = 2 * 2 ^ prec) by (rewrite <- Z.pow_succ_r; lia).
    assert (0 < 2 ^ (prec - 1)) by (apply Z.pow_pos_nonneg; lia).
    unfold shr_fexp. fold (digits q).
    destruct (Z.lt_ge_cases q (2 ^ prec)).
    - rewrite (digits_unique q prec) by lia. rewrite fexp_normal by lia.
      replace (prec + e - prec - e) with 0 by lia.
      exists (shr_record_of_loc q l), 0. rewrite Z.add_0_r, Z.div_1_r.
      do 2 (split; [auto|]). split; [lia|].
      destruct l as [|[]]; simpl; intuition congruence.
    - rewrite (digits_unique q (prec + 1)).
      2: lia. 2: { replace (prec + 1 - 1) with prec by lia. lia. }
      rewrite fexp_normal by lia.
      replace (prec + 1 + e - prec - e) with 1 by lia. simpl shr.
      exists (shr_1 (shr_record_of_loc q l)), 1. change (2 ^ 1) with 2.
      pose proof (Z.div_mod q 2). pose proof (Z.mod_pos_bound q 2).
      do 2 (split; [auto|]). split; [lia|].
      destruct q as [|[p|p|]|]; try lia.
      + replace (Z.pos p~1 / 2) with (Z.pos p) by lia.
        replace (Z.pos p~1 mod 2) with 1 by lia. destruct l as [|[]]; simpl; auto.
      + replace (Z.pos p~0 / 2) with (Z.pos p) by lia.
        replace (Z.pos p~0 mod 2) with 0 by lia.
        destruct l as [|[]]; simpl; intuition congruence.
  Qed.

  (** The rounded quotient [q * 2 ^ (- t0)] of [a] by [b], truncated. *)
Lemma round_aux_trunc a b q c0 t0 l :
    0 <= a < 2 ^ prec → 0 < b → 0 < t0 <= 2 * prec → 2 ^ (prec - 1) <= q < 2 ^ (prec + 1) →
    a * 2 ^ t0 = q * b + c0 → 0 <= c0 < b →
    (l = loc_Inexact Eq ∨ l = loc_Inexact Gt → b <= 2 * c0) →
    let x := binary_round_aux prec emax false q (- t0) l in
    finite x = true ∧ trunc x = a / b.
  Proof.
    intros Ha Hb Ht Hq Heq Hc Hl. cbv zeta.
    destruct (shr_fexp_quotient q (- t0) l) as (mrs & j & E & Hj & HM & Em & Hup); [lia..|].
    unfold binary_round_aux. rewrite E, Em.
    set (M := q / 2 ^ j) in *. set (M' := round_nearest_even M (loc_of_shr_record mrs)).
    assert (HM' : M' = M ∨ (M' = M + 1 ∧
              (loc_of_shr_record mrs = loc_Inexact Eq ∨ loc_of_shr_record mrs = loc_Inexact Gt)))
      by apply round_even_cases.
    destruct (shr_fexp_final M' (t0 - j)) as (m & e & E2 & Hm & He & Htr); [lia..|].
    replace (- t0 + j) with (- (t0 - j)) by lia. rewrite E2. simpl shr_m.
    destruct m as [|m|m]; try lia.
    destruct (Z.leb_spec e (emax - prec)); [|lia]. simpl in Htr |- *. rewrite Htr. split; [done|].
    assert (Hqj : ∃ c, 2 * a * 2 ^ (t0 - j) = 2 * M * b + c ∧ 0 <= c < 2 * b ∧
              (M' = M + 1 → b <= c)).
    { destruct Hj as [-> | ->].
      - exists (2 * c0). unfold M in *. rewrite Z.div_1_r, Z.sub_0_r in *.
        split; [lia|]. split; [lia|]. intros HM1. apply Hl.
        destruct HM' as [|[_ Hloc]]; [lia|]. specialize (Hup Hloc). done.
      - exists (q mod 2 * b + c0). unfold M in *. change (2 ^ 1) with 2 in *.
        pose proof (Z.div_mod q 2). pose proof (Z.mod_pos_bound q 2).
        replace (2 ^ t0) with (2 * 2 ^ (t0 - 1)) in Heq
          by (rewrite <- Z.pow_succ_r by lia; f_equal; lia).
        split; [nia|]. split; [nia|]. intros HM1.
        destruct HM' as [|[_ Hloc]]; [lia|]. specialize (Hup Hloc). simpl in Hup. nia. }
    destruct Hqj as (c & Hc1 & Hc2 & Hc3).
    apply (quotient_round a b (t0 - j) M M' c); lia.
  Qed.

Lemma div_core_canon a b :
    0 < a < 2 ^ prec → 0 < b < 2 ^ prec →
    let ka := prec - digits a in
    let kb := prec - digits b in
    let q := a * 2 ^ ka * 2 ^ prec / (b * 2 ^ kb) in
    let r := (a * 2 ^ ka * 2 ^ prec) mod (b * 2 ^ kb) in
    SFdiv prec emax (of_Z prec emax a) (of_Z prec emax b)
    = binary_round_aux prec emax false q (- (prec + ka - kb)) (new_location (b * 2 ^ kb) r).
  Proof.
    intros Ha Hb ka kb q r.
    pose proof (digits_lt_pow a prec). pose proof (digits_lt_pow b prec).
    pose proof (digits_ge_1 a). pose proof (digits_ge_1 b).
    pose proof (mantissa_pos a Ha). pose proof (mantissa_pos b Hb).
    rewrite (of_Z_exact a), (of_Z_exact b) by lia. unfold SFdiv, canon, SFdiv_core_binary.
    rewrite !Z2Pos.id by done. fold (digits (a * 2 ^ ka)) (digits (b * 2 ^ kb)).
    fold ka kb. rewrite !digits_mul_pow by lia.
    replace (digits a + ka) with prec by lia. replace (digits b + kb) with prec by lia.
    rewrite fexp_normal by lia.
    replace (Z.min _ _) with (- (prec + ka - kb)) by lia.
    replace (digits a - prec - (digits b - prec) - - (prec + ka - kb)) with prec by lia.
    assert (Hshift : ∀ m, match prec with
                          | Z0 => m | Z.pos _ => Z.shiftl m prec | Z.neg _ => 0
                          end = m * 2 ^ prec).
    { intros m. rewrite <- Z.shiftl_mul_pow2 by lia. destruct prec; [lia|done|lia]. }
    rewrite Hshift. change IntDef.Z.div_eucl with Z.div_eucl.
    subst q r. unfold Z.div, Z.modulo.
    destruct (Z.div_eucl (a * 2 ^ ka * 2 ^ prec) (b * 2 ^ kb)) as [q r]. done.
  Qed.

  (** Truncating the quotient of two integers is integer division. *)
Lemma div_trunc a b :
    0 <= a < 2 ^ prec → 0 < b < 2 ^ prec →
    let x := SFdiv prec emax (of_Z prec emax a) (of_Z prec emax b) in
    finite x = true ∧ trunc x = a / b.
  Proof.
    intros Ha Hb. cbv zeta. destruct (decide (a = 0)) as [->|].
    { rewrite of_Z_0, (of_Z_exact b), Z.div_0_l by lia. done. }
    rewrite div_core_canon by lia.
    set (ka := prec - digits a). set (kb := prec - digits b).
    set (mb := b * 2 ^ kb). set (N := a * 2 ^ ka * 2 ^ prec).
    pose proof (digits_lt_pow a prec). pose proof (digits_lt_pow b prec).
    pose proof (digits_ge_1 a). pose proof (digits_ge_1 b).
    assert (Hkb : 0 < 2 ^ kb) by (apply Z.pow_pos_nonneg; lia).
    assert (Hp : 2 ^ prec = 2 * 2 ^ (prec - 1)) by (rewrite <- Z.pow_succ_r by lia; f_equal; lia).
    assert (Hp1 : 2 ^ (prec + 1) = 2 * 2 ^ prec) by (rewrite <- Z.pow_succ_r; lia).
    assert (HN : N = a * 2 ^ (prec + ka - kb) * 2 ^ kb).
    { unfold N. rewrite <- !Z.mul_assoc, <- !Z.pow_add_r by lia. do 2 f_equal. lia. }
    assert (Hma : 2 ^ (prec - 1) <= a * 2 ^ ka < 2 ^ prec).
    { pose proof (digits_bounds (a * 2 ^ ka)) as Hd. rewrite digits_mul_pow in Hd by lia.
      replace (digits a + ka) with prec in Hd by lia. apply Hd. apply mantissa_pos. lia. }
    assert (Hmb : 2 ^ (prec - 1) <= mb < 2 ^ prec).
    { pose proof (digits_bounds mb) as Hd. unfold mb in Hd. rewrite digits_mul_pow in Hd by lia.
      replace (digits b + kb) with prec in Hd by lia. apply Hd. apply mantissa_pos. lia. }
    pose proof (Z.div_mod N mb). pose proof (Z.mod_pos_bound N mb).
    assert (Hr : N mod mb = (a * 2 ^ (prec + ka - kb)) mod b * 2 ^ kb).
    { rewrite HN. unfold mb. apply Z.mul_mod_distr_r; lia. }
    assert (Hq : N / mb = a * 2 ^ (prec + ka - kb) / b).
    { rewrite HN. unfold mb. apply Z.div_mul_cancel_r; lia. }
    apply round_aux_trunc with (c0 := (a * 2 ^ (prec + ka - kb)) mod b); try lia.
    - unfold N in *. split; [apply Z.div_le_lower_bound; nia|apply Z.div_lt_upper_bound; nia].
    - rewrite Hq. pose proof (Z.div_mod (a * 2 ^ (prec + ka - kb)) b). lia.
    - apply Z.mod_pos_bound. lia.
    - intros Hl. pose proof (new_location_up mb (N mod mb)) as Hup.
      rewrite Hr in Hup. destruct Hl as [Hl|Hl]; rewrite Hr in Hl; rewrite Hl in Hup; nia.
  Qed.
End Rounding.

(** ** Signs *)

(** Not NaN and not below zero. *)
Definition nonneg (x : float) : bool :=
  match x with
  | S754_zero _ | S754_infinity false | S754_finite false _ _ => true
  | _ => false
  end.

Lemma shr_1_nonneg r : 0 <= shr_m r → 0 <= shr_m (shr_1 r).
Proof. destruct r as [[|[p|p|]|p] ? ?]; simpl; lia. Qed.

Lemma iter_shr_nonneg n r : 0 <= shr_m r → 0 <= shr_m (Nat.iter n shr_1 r).
Proof. intros Hr. induction n as [|n IH]; simpl; [done|]. by apply shr_1_nonneg. Qed.

Lemma shr_fexp_nonneg prec emax m e l :
  0 <= m → 0 <= shr_m (fst (shr_fexp prec emax m e l)).
Proof.
  intros Hm. unfold shr_fexp, shr.
  assert (Hl : 0 <= shr_m (shr_record_of_loc m l)) by (destruct l as [|[]]; done).
  destruct (_ - e); [done| |done]. rewrite iter_pos_iter. by apply iter_shr_nonneg.
Qed.

Lemma round_aux_nonneg prec emax m e l : 0 <= m → nonneg (binary_round_aux prec emax false m e l) = true.
Proof.
  intros Hm. unfold binary_round_aux. pose proof (shr_fexp_nonneg prec emax m e l Hm) as Hs.
  destruct (shr_fexp prec emax m e l) as [r e']. simpl in Hs.
  assert (Hr : 0 <= round_nearest_even (shr_m r) (loc_of_shr_record r))
    by (destruct (round_even_cases (shr_m r) (loc_of_shr_record r)) as [->|[-> _]]; lia).
  pose proof (shr_fexp_nonneg prec emax _ e' loc_Exact Hr) as Hs2.
  destruct (shr_fexp prec emax _ e' loc_Exact) as [r' e'']. simpl in Hs2.
  destruct (shr_m r'); [done| |lia]. by destruct (_ <=? _).
Qed.

Lemma of_Z_nonneg prec emax n : 0 <= n → nonneg (of_Z prec emax n) = true.
Proof.
  intros Hn. unfold of_Z, binary_normalize. destruct n as [|p|p]; [done| |lia].
  unfold binary_round. destruct (shl_align _ _ _). by apply round_aux_nonneg.
Qed.

(** A quotient by a positive finite float. *)
Lemma div_nonneg prec emax x m e :
  nonneg x = true → nonneg (SFdiv prec emax x (S754_finite false m e)) = true.
Proof.
  destruct x as [s|[]| |[] mx ex]; try done. intros _. simpl SFdiv.
  unfold SFdiv_core_binary. set (t := match _ with Z0 => _ | Zpos _ => _ | Zneg _ => _ end).
  assert (Ht : 0 <= t).
  { unfold t. destruct (_ - Z.min _ _) eqn:E; [done| |done]. by apply Z.shiftl_nonneg. }
  assert (Hq : 0 <= t / Z.pos m) by (apply Z.div_pos; lia). unfold Z.div in Hq.
  destruct (Z.div_eucl t (Z.pos m)) as [q r]. by apply round_aux_nonneg.
Qed.

(** [x.min(y)] of two numbers that are not negative is one, at most [y]. *)
Lemma fmin_bounds x y :
  nonneg x = true → nonneg y = true →
  SFleb (S754_zero false) (fmin x y) = true ∧ SFleb (fmin x y) y = true.
Proof.
  intros Hx Hy. assert (Hz : ∀ z, nonneg z = true → SFleb (S754_zero false) z = true)
    by (by intros [[]|[]| |[] m e]).
  assert (Hr : SFleb y y = true).
  { destruct y as [[]|[]| |[] m e]; try done. unfold SFleb. simpl.
    by rewrite Z.compare_refl, Pos.compare_cont_refl. }
  assert (Hle : SFltb y x = false → SFleb x y = true).
  { unfold SFltb, SFleb, SFcompare. change (Pos.compare_cont Eq) with Pos.compare.
    destruct x as [[]|[]| |[] m e], y as [[]|[]| |[] m' e']; try done.
    rewrite (Z.compare_antisym e' e), (Pos.compare_antisym m' m).
    destruct (e' ?= e); simpl; try done. by destruct (m' ?= m)%positive. }
  unfold fmin. destruct x as [sx|sx| |sx m e]; [| |done|]; destruct y as [sy|sy| |sy m' e']; try done;
    (destruct (SFltb _ _) eqn:E; [by auto|split; [by apply Hz|by apply Hle]]).
Qed.
