(* ===== verification/Rounding.v ===== *)
(** * The error of floating-point operations

    For positive numbers of a normal size, every operation of [Floats] (conversion of an
    integer, sum, difference and quotient) gives a finite float whose relative distance to
    the exact result is at most one unit in the last place, [2 ^ (1 - prec)].  The exact
    values are rationals.  [Energy] uses this to bound the error of the powers at any time
    of measure. *)

From S2P Require Import Prelude Floats.
From Stdlib Require Import SpecFloat QArith Qpower Qround Lqa.

Local Open Scope Z_scope.

(** ** Powers of two *)

Definition pow2 (e : Z) : Q := Qpower 2 e.

Lemma pow2_pos e : (0 < pow2 e)%Q.
Proof. by apply Qpower_0_lt. Qed.

Lemma pow2_add a b : (pow2 (a + b) == pow2 a * pow2 b)%Q.
Proof. by apply Qpower_plus. Qed.

Lemma pow2_Z e : 0 <= e → (pow2 e == inject_Z (2 ^ e))%Q.
Proof. intros He. unfold pow2. by rewrite Zpower_Qpower. Qed.

Lemma pow2_lt_inv a b : (pow2 a < pow2 b)%Q → a < b.
Proof. intros Hl. by eapply Qpower_lt_compat_l_inv. Qed.

Lemma pow2_le_inv a b : (pow2 a <= pow2 b)%Q → a <= b.
Proof. intros Hl. by eapply Qpower_le_compat_l_inv. Qed.

(** Scaling an integer by a power of two. *)
Lemma inject_shift m n e : 0 <= n → (inject_Z (m * 2 ^ n) * pow2 e == inject_Z m * pow2 (e + n))%Q.
Proof. intros Hn. rewrite inject_Z_mult, pow2_add, <- pow2_Z by done. ring. Qed.

Lemma inject_le a b e : a <= b → (inject_Z a * pow2 e <= inject_Z b * pow2 e)%Q.
Proof. intros Hab. apply Qmult_le_compat_r; [by rewrite <- Zle_Qle|apply Qlt_le_weak, pow2_pos]. Qed.

(** ** The value of a float that is not negative *)

Definition is_val (x : float) (v : Q) : Prop :=
  match x with
  | S754_zero false => (v == 0)%Q
  | S754_finite false m e => (v == inject_Z (Z.pos m) * pow2 e)%Q
  | _ => False
  end.

#[export] Instance is_val_proper x : Proper (Qeq ==> iff) (is_val x).
Proof. intros v w E. destruct x as [[]|[]| |[] m e]; simpl; try done; by rewrite E. Qed.

Lemma is_val_nonneg x v : is_val x v → (0 <= v)%Q.
Proof.
  destruct x as [[]|[]| |[] m e]; simpl; try done; intros ->; [done|].
  apply Qmult_le_0_compat; [done|]. apply Qlt_le_weak, pow2_pos.
Qed.

Lemma floor_unique z v : (inject_Z z <= v)%Q → (v < inject_Z (z + 1))%Q → Qfloor v = z.
Proof.
  intros Hl Hu. pose proof (Qfloor_le v) as Hf. pose proof (Qlt_floor v) as Hf'.
  assert (z < Qfloor v + 1) by (rewrite Zlt_Qlt; lra).
  assert (Qfloor v < z + 1) by (rewrite Zlt_Qlt; lra). lia.
Qed.

Lemma floor_quotient a b : 0 < b → Qfloor (inject_Z a * / inject_Z b) = a / b.
Proof.
  intros Hb. assert (Hq : (0 < inject_Z b)%Q) by by rewrite Zlt_Qlt in Hb.
  apply floor_unique.
  - apply Qle_shift_div_l; [done|]. rewrite <- inject_Z_mult, <- Zle_Qle.
    pose proof (Z.mul_div_le a b Hb). lia.
  - apply Qlt_shift_div_r; [done|]. rewrite <- inject_Z_mult, <- Zlt_Qlt.
    pose proof (Z.mul_succ_div_gt a b Hb). lia.
Qed.

(** Truncation is the floor. *)
Lemma trunc_floor x v : is_val x v → finite x = true ∧ trunc x = Qfloor v.
Proof.
  destruct x as [[]|[]| |[] m e]; simpl; try done; intros Hv; split; try done; rewrite Hv; [done|].
  destruct (Z.leb_spec 0 e) as [He|He].
  - rewrite pow2_Z, <- inject_Z_mult by done. by rewrite Qfloor_Z.
  - replace (pow2 e) with (/ pow2 (- e))%Q; [|unfold pow2; by destruct e].
    rewrite pow2_Z by lia. symmetry. apply floor_quotient, Z.pow_pos_nonneg; lia.
Qed.

Lemma to_uint_floor w x v : is_val x v → 0 <= w → to_uint w x = Z.min (umax w) (Qfloor v).
Proof.
  intros Hx Hw. destruct (trunc_floor x v Hx) as [_ <-]. assert (Ht : 0 <= trunc x).
  { destruct (trunc_floor x v Hx) as [_ ->]. change 0 with (Qfloor 0). by eapply Qfloor_resp_le, is_val_nonneg. }
  assert (0 <= umax w) by (unfold umax; pose proof (Z.pow_pos_nonneg 2 w); lia).
  destruct x as [[]|[]| |[] m e]; simpl in Hx; try done; unfold to_uint; lia.
Qed.

Section Near.
Context (prec emax : Z) (Hprec : 1 < prec) (Hemax : 2 * prec + 3 <= emax).

(** The unit in the last place, relative to the value. *)
Definition ulp : Q := pow2 (1 - prec).

Definition within (v w : Q) : Prop := ((1 - ulp) * v <= w)%Q ∧ (w <= (1 + ulp) * v)%Q.

(** A float at the distance of one unit of a value. *)
Definition near (v : Q) (x : float) : Prop := ∃ w, is_val x w ∧ within v w.

(** Values in the range of the normal floats. *)
Definition normal (v : Q) : Prop := (pow2 (- prec) <= v)%Q ∧ (v < pow2 (emax - 1))%Q.

(** *** Shifts *)

Lemma shr_1_m r : 0 <= shr_m r → shr_m (shr_1 r) = shr_m r / 2.
Proof. rewrite <- Z.div2_div. by destruct r as [[|[p|p|]|p] ? ?]. Qed.

Lemma iter_shr_m n r : 0 <= shr_m r → shr_m (Nat.iter n shr_1 r) = shr_m r / 2 ^ Z.of_nat n.
Proof.
  intros Hr. induction n as [|n IH]; [by rewrite Z.div_1_r|].
  simpl Nat.iter. rewrite shr_1_m by by apply iter_shr_nonneg.
  assert (0 < 2 ^ Z.of_nat n) by (apply Z.pow_pos_nonneg; lia).
  rewrite IH, Z.div_div by lia. f_equal.
  rewrite Nat2Z.inj_succ, Z.pow_succ_r by lia. lia.
Qed.

Lemma shr_of_loc_m m l : shr_m (shr_record_of_loc m l) = m.
Proof. by destruct l as [|[]]. Qed.

(** A mantissa with the precision or more is cut to the precision. *)
Lemma shr_fexp_cut m e l :
  0 < m → prec <= digits m → - prec <= digits m + e →
  let n := digits m - prec in
  shr_m (shr_fexp prec emax m e l).1 = m / 2 ^ n ∧ (shr_fexp prec emax m e l).2 = e + n.
Proof.
  intros Hm Hd He n. unfold shr_fexp. change (Zdigits2 m) with (digits m).
  rewrite fexp_normal by lia. replace (digits m + e - prec - e) with n by lia.
  unfold shr. destruct n as [|p|p] eqn:E; try lia; simpl.
  - rewrite shr_of_loc_m. change (2 ^ 0) with 1. rewrite Z.div_1_r. lia.
  - rewrite iter_pos_iter, iter_shr_m, shr_of_loc_m by (rewrite shr_of_loc_m; lia).
    by rewrite positive_nat_Z.
Qed.

Lemma digits_of_div m n : 0 < m → 0 <= n → n = digits m - prec → 2 ^ (prec - 1) <= m / 2 ^ n < 2 ^ prec.
Proof.
  intros Hm Hn ->. pose proof (digits_bounds m Hm) as Hd.
  assert (0 < 2 ^ (digits m - prec)) by (apply Z.pow_pos_nonneg; lia).
  assert (2 ^ (digits m - 1) = 2 ^ (prec - 1) * 2 ^ (digits m - prec)) by (rewrite <- Z.pow_add_r by lia; f_equal; lia).
  assert (2 ^ digits m = 2 ^ prec * 2 ^ (digits m - prec)) by (rewrite <- Z.pow_add_r by lia; f_equal; lia).
  split; [apply Z.div_le_lower_bound; lia|apply Z.div_lt_upper_bound; lia].
Qed.

(** The last step: a mantissa that may have reached [2 ^ prec]. *)
Lemma shr_fexp_last m e :
  2 ^ (prec - 1) <= m <= 2 ^ prec → - prec <= prec + e →
  ∃ m' e', 0 < m' ∧ shr_m (shr_fexp prec emax m e loc_Exact).1 = m' ∧
           (shr_fexp prec emax m e loc_Exact).2 = e' ∧ e <= e' <= e + 1 ∧
           (inject_Z m' * pow2 e' == inject_Z m * pow2 e)%Q.
Proof.
  intros Hm He. assert (0 < 2 ^ (prec - 1)) by (apply Z.pow_pos_nonneg; lia).
  assert (Hp : 2 ^ prec = 2 ^ (prec - 1) * 2 ^ 1) by (rewrite <- Z.pow_add_r by lia; f_equal; lia).
  destruct (decide (m = 2 ^ prec)) as [->|Hne].
  - assert (Hd : digits (2 ^ prec) = prec + 1).
    { apply digits_unique; [lia|]. replace (prec + 1 - 1) with prec by lia. rewrite Z.pow_add_r by lia. lia. }
    destruct (shr_fexp_cut (2 ^ prec) e loc_Exact) as [E1 E2]; [lia..|]. rewrite E1, E2, Hd.
    replace (prec + 1 - prec) with 1 by lia. exists (2 ^ (prec - 1)), (e + 1).
    split_and!; try lia.
    + rewrite Hp. by rewrite Z.div_mul.
    + rewrite Hp, inject_shift by lia. done.
  - assert (Hd : digits m = prec) by (apply digits_unique; lia).
    destruct (shr_fexp_cut m e loc_Exact) as [E1 E2]; [lia..|]. rewrite E1, E2, Hd, Z.sub_diag.
    exists m, e. rewrite Z.div_1_r. split_and!; lia || done.
Qed.

(** A truncated mantissa of the precision, and its successor, are near the value. *)
Lemma within_mantissa M M' E v :
  2 ^ (prec - 1) <= M → M <= M' <= M + 1 →
  (inject_Z M * pow2 E <= v)%Q → (v <= inject_Z (M + 1) * pow2 E)%Q → within v (inject_Z M' * pow2 E).
Proof.
  intros HM [HM1 HM2] Hl Hu. assert (Hone : (1 <= ulp * inject_Z M)%Q).
  { apply Qle_trans with (ulp * inject_Z (2 ^ (prec - 1)))%Q.
    - rewrite <- (pow2_Z (prec - 1)) by lia. unfold ulp. rewrite <- pow2_add. by replace (1 - prec + (prec - 1)) with 0 by lia.
    - rewrite !(Qmult_comm ulp). apply inject_le. lia. }
  pose proof (pow2_pos E) as HE. assert (Hv : (pow2 E <= ulp * v)%Q).
  { apply Qle_trans with (ulp * (inject_Z M * pow2 E))%Q; [nra|].
    apply Qmult_le_l; [apply pow2_pos|done]. }
  pose proof (inject_le _ _ E HM1) as H1. pose proof (inject_le _ _ E HM2) as H2.
  rewrite inject_Z_plus in Hu, H2. change (inject_Z 1) with 1%Q in *. split; lra.
Qed.

Lemma digits_lower m e v :
  0 < m → (v <= inject_Z (m + 1) * pow2 e)%Q → (pow2 (- prec) <= v)%Q → - prec <= digits m + e.
Proof.
  intros Hm Hu Hv. pose proof (digits_bounds m Hm) as Hb. pose proof (digits_ge_1 m Hm).
  apply pow2_le_inv. eapply Qle_trans; [exact Hv|]. eapply Qle_trans; [exact Hu|].
  rewrite pow2_add. rewrite (pow2_Z (digits m)) by lia. apply inject_le. lia.
Qed.

(** The rounding of a truncated mantissa. *)
Lemma round_aux_near m e l v :
  0 < m → prec <= digits m → (inject_Z m * pow2 e <= v)%Q → (v <= inject_Z (m + 1) * pow2 e)%Q → normal v →
  near v (binary_round_aux prec emax false m e l).
Proof.
  intros Hm Hd Hl Hu [Hv1 Hv2]. pose proof (digits_bounds m Hm) as Hb.
  assert (Hlo : - prec <= digits m + e) by by eapply digits_lower.
  assert (Hhi : digits m - 1 + e < emax - 1).
  { apply pow2_lt_inv. eapply Qle_lt_trans; [|exact Hv2]. eapply Qle_trans; [|exact Hl].
    rewrite pow2_add. rewrite (pow2_Z (digits m - 1)) by lia. apply inject_le. lia. }
  unfold binary_round_aux. destruct (shr_fexp_cut m e l Hm Hd Hlo) as [E1 E2].
  destruct (shr_fexp prec emax m e l) as [r e']. simpl in E1, E2. rewrite E1, E2.
  set (n := digits m - prec) in *. set (M := m / 2 ^ n).
  assert (HM : 2 ^ (prec - 1) <= M < 2 ^ prec) by (apply digits_of_div; lia).
  set (M' := round_nearest_even M (loc_of_shr_record r)).
  assert (HM' : M <= M' <= M + 1).
  { unfold M'. destruct (round_even_cases M (loc_of_shr_record r)) as [->|[-> _]]; lia. }
  destruct (shr_fexp_last M' (e + n)) as (m' & e'' & Hm' & F1 & F2 & He'' & Hval); [lia..|].
  destruct (shr_fexp prec emax M' (e + n) loc_Exact) as [r' e3]. simpl in F1, F2. rewrite F1, F2.
  destruct m' as [|p|p]; try lia. destruct (Z.leb_spec e'' (emax - prec)); [|lia].
  exists (inject_Z (Z.pos p) * pow2 e'')%Q. split; [done|].
  assert (within v (inject_Z M' * pow2 (e + n))); [|unfold within in *; by rewrite Hval].
  assert (0 < 2 ^ n) by (apply Z.pow_pos_nonneg; lia).
  apply (within_mantissa M); [lia..| |].
  - eapply Qle_trans; [|exact Hl]. rewrite <- inject_shift by lia. apply inject_le.
    pose proof (Z.mul_div_le m (2 ^ n)). lia.
  - eapply Qle_trans; [exact Hu|]. rewrite <- inject_shift by lia. apply inject_le.
    pose proof (Z.mul_succ_div_gt m (2 ^ n)). lia.
Qed.
(** *** The operations *)

Lemma align_val m e ez :
  ez <= e → (inject_Z (Z.pos (shl_align m e ez).1) * pow2 ez == inject_Z (Z.pos m) * pow2 e)%Q.
Proof.
  intros He. unfold shl_align. destruct (ez - e) as [|d|d] eqn:Ed; [|lia|]; simpl fst.
  - by replace ez with e by lia.
  - rewrite iter_xO, inject_shift by lia. by replace (ez + Z.pos d) with e by lia.
Qed.

Lemma round_near m e v :
  (v == inject_Z (Z.pos m) * pow2 e)%Q → normal v → near v (binary_round prec emax false m e).
Proof.
  intros Hv Hn. assert (Hd : - prec <= digits (Z.pos m) + e).
  { eapply digits_lower; [done| |exact (proj1 Hn)]. rewrite Hv. apply inject_le. lia. }
  unfold binary_round. change (Z.pos (digits2_pos m)) with (digits (Z.pos m)).
  rewrite fexp_normal by lia. set (ez := digits (Z.pos m) + e - prec).
  assert (Hgen : ∀ m' e', prec <= digits (Z.pos m') → (v == inject_Z (Z.pos m') * pow2 e')%Q →
                          near v (binary_round_aux prec emax false (Z.pos m') e' loc_Exact)).
  { intros m' e' Hm' Hv'. apply round_aux_near; try done; rewrite Hv'; [apply Qle_refl|]. apply inject_le. lia. }
  destruct (Z.le_gt_cases e ez).
  - unfold shl_align. destruct (ez - e) as [|d|d] eqn:Ed; [| |lia]; apply Hgen; try done; lia.
  - pose proof (align_val m e ez ltac:(lia)) as Ha. unfold shl_align in *.
    destruct (ez - e) as [|d|d] eqn:Ed; [lia|lia|]. simpl fst in Ha. apply Hgen; [|by rewrite Ha].
    rewrite iter_xO, digits_mul_pow by lia. lia.
Qed.

Lemma normalize_near z e s v :
  0 < z → (v == inject_Z z * pow2 e)%Q → normal v → near v (binary_normalize prec emax z e s).
Proof. intros Hz Hv Hn. unfold binary_normalize. destruct z; try lia. by apply round_near. Qed.

Lemma is_val_near x v : is_val x v → near v x.
Proof.
  intros Hx. exists v. split; [done|]. pose proof (is_val_nonneg x v Hx). pose proof (pow2_pos (1 - prec)).
  unfold within, ulp. split; nra.
Qed.

(** An integer below [2 ^ prec] is exact, and others are near. *)
Lemma of_Z_val z : 0 <= z < 2 ^ prec → is_val (of_Z prec emax z) (inject_Z z).
Proof.
  intros Hz. destruct (decide (z = 0)) as [->|]; [done|]. rewrite of_Z_exact by lia. unfold canon. simpl.
  rewrite Z2Pos.id by (apply (mantissa_pos prec emax); lia). pose proof (digits_lt_pow z prec ltac:(lia)).
  rewrite inject_shift by lia. replace (digits z - prec + (prec - digits z)) with 0 by lia.
  change (pow2 0) with 1%Q. ring.
Qed.

Lemma normal_Z z : 0 < z < 2 ^ (emax - 1) → normal (inject_Z z).
Proof.
  intros Hz. split.
  - apply Qle_trans with (pow2 0); [apply Qpower_le_compat_l; [lia|done]|].
    change (pow2 0) with (inject_Z 1). rewrite <- Zle_Qle. lia.
  - rewrite pow2_Z by lia. rewrite <- Zlt_Qlt. lia.
Qed.

Lemma of_Z_near z : 0 <= z < 2 ^ (emax - 1) → near (inject_Z z) (of_Z prec emax z).
Proof.
  intros Hz. destruct (decide (z = 0)) as [->|]; [by apply (is_val_near (S754_zero false))|].
  apply normalize_near; [lia| |apply normal_Z; lia]. change (pow2 0) with 1%Q. ring.
Qed.

Lemma add_near x y a b :
  is_val x a → is_val y b → (a == 0)%Q ∨ (pow2 (- prec) <= a)%Q → (a + b < pow2 (emax - 1))%Q →
  near (a + b) (SFadd prec emax x y).
Proof.
  intros Hx Hy Hlo Hhi. pose proof (is_val_nonneg x a Hx). pose proof (is_val_nonneg y b Hy).
  destruct x as [[]|[]| |[] m e]; try done; destruct y as [[]|[]| |[] m' e']; try done; simpl in Hx, Hy.
  - apply is_val_near. simpl. rewrite Hx, Hy. done.
  - apply is_val_near. simpl. rewrite Hx, Hy. ring.
  - apply is_val_near. simpl. rewrite Hx, Hy. ring.
  - simpl SFadd. set (ez := Z.min e e'). apply round_near.
    + rewrite Pos2Z.inj_add, inject_Z_plus, Qmult_plus_distr_l, !align_val by lia. by rewrite Hx, Hy.
    + split; [|done]. destruct Hlo as [Hlo|]; [|lra]. rewrite Hx in Hlo.
      pose proof (pow2_pos e). assert (0 < inject_Z (Z.pos m))%Q by done. nra.
Qed.

Lemma sub_near x y a b :
  is_val x a → is_val y b → normal (a - b) → near (a - b) (SFsub prec emax x y).
Proof.
  intros Hx Hy Hn. pose proof (is_val_nonneg x a Hx). pose proof (is_val_nonneg y b Hy).
  assert (Hpos : (0 < a - b)%Q) by (eapply Qlt_le_trans; [apply pow2_pos|apply Hn]).
  destruct x as [[]|[]| |[] m e]; try done; destruct y as [[]|[]| |[] m' e']; try done; simpl in Hx, Hy; try lra.
  - apply is_val_near. simpl. rewrite Hx, Hy. ring.
  - unfold SFsub. set (ez := Z.min e e').
    set (z := Z.pos (shl_align m e ez).1 - Z.pos (shl_align m' e' ez).1).
    assert (Hz : (a - b == inject_Z z * pow2 ez)%Q).
    { unfold z, Z.sub. rewrite inject_Z_plus, inject_Z_opp, Hx, Hy, <- (align_val m e ez), <- (align_val m' e' ez) by lia. ring. }
    apply normalize_near; [|exact Hz|done]. simpl cond_Zopp. fold z. rewrite Hz in Hpos.
    pose proof (pow2_pos ez). rewrite Zlt_Qlt. change (inject_Z 0) with 0%Q. nra.
Qed.

(** The quotient of two mantissas, the first of which is shifted enough, has the
    precision. *)
Lemma quotient_digits m1 m2 s :
  0 < m1 → 0 < m2 → 0 <= s → prec <= digits m1 + s - digits m2 →
  0 < m1 * 2 ^ s / m2 ∧ prec <= digits (m1 * 2 ^ s / m2).
Proof.
  intros Hm1 Hm2 Hs Hd. pose proof (digits_bounds m1 Hm1). pose proof (digits_bounds m2 Hm2).
  pose proof (digits_ge_1 m1 Hm1). pose proof (digits_ge_1 m2 Hm2).
  assert (0 < 2 ^ (prec - 1)) by (apply Z.pow_pos_nonneg; lia).
  assert (Hq : 2 ^ (prec - 1) <= m1 * 2 ^ s / m2).
  { apply Z.div_le_lower_bound; [done|]. assert (2 ^ (prec - 1) * 2 ^ digits m2 <= m1 * 2 ^ s); [|nia].
    apply Z.le_trans with (2 ^ (digits m1 - 1) * 2 ^ s).
    - rewrite <- !Z.pow_add_r by lia. apply Z.pow_le_mono_r; lia.
    - apply Z.mul_le_mono_nonneg_r; [apply Z.pow_nonneg|]; lia. }
  set (q := m1 * 2 ^ s / m2) in *. pose proof (digits_bounds q ltac:(lia)). pose proof (digits_ge_1 q ltac:(lia)).
  assert (prec - 1 < digits q) by (apply (Z.pow_lt_mono_r_iff 2); lia). lia.
Qed.

Lemma quotient_exponent m1 e1 m2 e2 v :
  0 < m1 → 0 < m2 → (v * (inject_Z m2 * pow2 e2) == inject_Z m1 * pow2 e1)%Q → (pow2 (- prec) <= v)%Q →
  - prec <= digits m1 + e1 - (digits m2 + e2).
Proof.
  intros Hm1 Hm2 Hv Hlo. pose proof (digits_bounds m1 Hm1). pose proof (digits_bounds m2 Hm2).
  pose proof (digits_ge_1 m1 Hm1). pose proof (digits_ge_1 m2 Hm2).
  assert (- prec + (digits m2 - 1 + e2) < digits m1 + e1); [|lia].
  apply pow2_lt_inv. apply Qle_lt_trans with (v * (inject_Z m2 * pow2 e2))%Q.
  - rewrite pow2_add. apply Qle_trans with (pow2 (- prec) * (inject_Z m2 * pow2 e2))%Q.
    + apply Qmult_le_l; [apply pow2_pos|]. rewrite pow2_add, (pow2_Z (digits m2 - 1)) by lia. apply inject_le. lia.
    + apply Qmult_le_compat_r; [done|]. apply Qmult_le_0_compat; [|apply Qlt_le_weak, pow2_pos].
      change 0%Q with (inject_Z 0). rewrite <- Zle_Qle. lia.
  - rewrite Hv, pow2_add, (pow2_Z (digits m1)) by lia. apply Qmult_lt_r; [apply pow2_pos|]. rewrite <- Zlt_Qlt. lia.
Qed.

Lemma scale_factor q m e : (inject_Z q * pow2 e * inject_Z m == inject_Z (m * q) * pow2 e)%Q.
Proof. rewrite inject_Z_mult. ring. Qed.

Lemma div_near x y a b :
  is_val x a → is_val y b → (0 < b)%Q → (a == 0)%Q ∨ normal (a / b) → near (a / b) (SFdiv prec emax x y).
Proof.
  intros Hx Hy Hb Hn. pose proof (is_val_nonneg x a Hx).
  destruct y as [[]|[]| |[] m2 e2]; try done; simpl in Hy; [by rewrite Hy in Hb|].
  destruct x as [[]|[]| |[] m1 e1]; try done; simpl in Hx.
  { apply is_val_near. simpl. rewrite Hx. unfold Qdiv. ring. }
  destruct Hn as [Hn|Hn].
  { exfalso. rewrite Hx in Hn. pose proof (pow2_pos e1). assert (0 < inject_Z (Z.pos m1))%Q by done. nra. }
  set (v := (a / b)%Q) in *. assert (Hv : (v * b == a)%Q) by (unfold v; field; lra). rewrite Hx, Hy in Hv.
  pose proof (quotient_exponent (Z.pos m1) e1 (Z.pos m2) e2 v eq_refl eq_refl Hv (proj1 Hn)) as Hd.
  simpl SFdiv. unfold SFdiv_core_binary. change Zdigits2 with digits.
  rewrite fexp_normal by lia. set (e' := Z.min _ (e1 - e2)). set (s := e1 - e2 - e').
  assert (Hs : 0 <= s /\ prec <= digits (Z.pos m1) + s - digits (Z.pos m2)) by lia.
  set (N := Z.pos m1 * 2 ^ s). replace (match s with _ => _ end) with N.
  2: { unfold N. clearbody s. rewrite <- Z.shiftl_mul_pow2 by lia. destruct s; [done|done|lia]. }
  assert (HN : (v * inject_Z (Z.pos m2) == inject_Z N * pow2 e')%Q).
  { apply (Qmult_inj_r _ _ (pow2 e2)); [pose proof (pow2_pos e2); lra|].
    rewrite <- Qmult_assoc, Hv, <- Qmult_assoc, <- pow2_add. unfold N. rewrite inject_shift by lia.
    by replace (e' + e2 + s) with e1 by lia. }
  destruct (quotient_digits (Z.pos m1) (Z.pos m2) s) as [Hq Hdq]; [lia..|]. fold N in Hq, Hdq.
  pose proof (Z.mul_div_le N (Z.pos m2) eq_refl) as Hlo. pose proof (Z.mul_succ_div_gt N (Z.pos m2) eq_refl) as Hhi.
  change IntDef.Z.div_eucl with Z.div_eucl. unfold Z.div in *. destruct (Z.div_eucl N (Z.pos m2)) as [q r].
  apply round_aux_near; [done|done| | |done]; (apply (Qmult_le_r _ _ (inject_Z (Z.pos m2))); [done|]);
    rewrite HN, scale_factor; apply inject_le; lia.
Qed.
End Near.
