(* ===== verification/Text.v ===== *)
(** * Strings

    Rust strings are UTF-8 byte sequences; here a [string] is its list of bytes.  The
    functions of the standard library the sources call ([trim], [parse], [to_string],
    [split], [join], ...) are written out, with the round trip of decimal integers and
    the fact that [trim] does not touch a decimal numeral. *)

From S2P Require Import Prelude.
From Stdlib Require Import Ascii.

Definition byte_of (c : ascii) : Z := Z.of_nat (nat_of_ascii c).

Fixpoint all_chars (P : ascii → bool) (s : string) : bool :=
  match s with
  | EmptyString => true
  | String c s' => P c && all_chars P s'
  end.

(** ** UTF-8

    Well-formed UTF-8, byte by byte (no overlong form, no surrogate, at most U+10FFFF). *)

Definition continuation (b : Z) : bool := (0x80 <=? b) && (b <=? 0xBF).

Fixpoint utf8 (l : list Z) : bool :=
  match l with
  | [] => true
  | a :: l1 =>
      if a <? 0x80 then utf8 l1
      else match l1 with
      | [] => false
      | b :: l2 =>
          if (0xC2 <=? a) && (a <=? 0xDF) then continuation b && utf8 l2
          else match l2 with
          | [] => false
          | c :: l3 =>
              if (0xE0 <=? a) && (a <=? 0xEF) then
                continuation b && continuation c
                && negb ((a =? 0xE0) && (b <? 0xA0)) && negb ((a =? 0xED) && (0x9F <? b))
                && utf8 l3
              else match l3 with
              | [] => false
              | d :: l4 =>
                  (0xF0 <=? a) && (a <=? 0xF4)
                  && continuation b && continuation c && continuation d
                  && negb ((a =? 0xF0) && (b <? 0x90)) && negb ((a =? 0xF4) && (0x8F <? b))
                  && utf8 l4
              end
          end
      end
  end.

Fixpoint bytes (s : string) : list Z :=
  match s with EmptyString => [] | String c s' => byte_of c :: bytes s' end.

(** [to_str] of a path or of an operating-system string: [None] when it is not UTF-8. *)
Definition to_str (s : string) : option string := if utf8 (bytes s) then Some s else None.

(** ** Decimal integers *)

Definition digit_char (d : Z) : ascii := ascii_of_nat (Z.to_nat (48 + d)).

Definition char_digit (c : ascii) : option Z :=
  let b := byte_of c in
  if (48 <=? b) && (b <=? 57) then Some (b - 48) else None.

Definition is_digit (c : ascii) : bool :=
  match char_digit c with Some _ => true | None => false end.

Fixpoint show_go (fuel : nat) (n : Z) (acc : string) : string :=
  match fuel with
  | O => acc
  | S fuel =>
      let acc := String (digit_char (n mod 10)) acc in
      if n <? 10 then acc else show_go fuel (n / 10) acc
  end.

(** [to_string] of an unsigned integer; [log2] is enough fuel. *)
Definition show_uint (n : Z) : string := show_go (S (Z.to_nat (Z.log2 n))) n "".

(** [to_string] of a signed integer. *)
Definition show_int (n : Z) : string :=
  if n <? 0 then String "-" (show_uint (- n)) else show_uint n.

Fixpoint parse_go (acc : Z) (s : string) : option Z :=
  match s with
  | EmptyString => Some acc
  | String c s' =>
      match char_digit c with
      | Some d => parse_go (acc * 10 + d) s'
      | None => None
      end
  end.

(** A non-empty sequence of decimal digits. *)
Definition parse_nat (s : string) : option Z :=
  match s with EmptyString => None | _ => parse_go 0 s end.

Definition strip_plus (s : string) : string :=
  match s with String "+" s' => s' | _ => s end.

(** [str::parse] for a [w]-bit unsigned type: an optional [+], digits, no overflow. *)
Definition parse_uint (w : Z) (s : string) : option Z :=
  n ← parse_nat (strip_plus s);
  if n <=? umax w then Some n else None.

(** [str::parse] for a [w]-bit signed type. *)
Definition parse_int (w : Z) (s : string) : option Z :=
  z ← match s with
      | String "-" s' => n ← parse_nat s'; Some (- n)
      | _ => parse_nat (strip_plus s)
      end;
  if (- 2 ^ (w - 1) <=? z) && (z <=? 2 ^ (w - 1) - 1) then Some z else None.

Lemma char_digit_char d : 0 <= d < 10 → char_digit (digit_char d) = Some d.
Proof.
  intros Hd. assert (d = 0 ∨ d = 1 ∨ d = 2 ∨ d = 3 ∨ d = 4 ∨ d = 5 ∨ d = 6 ∨ d = 7 ∨ d = 8 ∨ d = 9)
    as Hc by lia.
  repeat (destruct Hc as [->|Hc]; [done|]). by subst.
Qed.

Lemma is_digit_char d : 0 <= d < 10 → is_digit (digit_char d) = true.
Proof. intros Hd. unfold is_digit. by rewrite char_digit_char. Qed.

Lemma char_digit_range c d : char_digit c = Some d → 0 <= d < 10.
Proof.
  unfold char_digit. destruct (48 <=? byte_of c) eqn:E1; [|done].
  destruct (byte_of c <=? 57) eqn:E2; [|done]. intros [= <-]. lia.
Qed.

Lemma parse_show_go fuel n acc :
  0 <= n < 10 ^ Z.of_nat fuel → parse_go 0 (show_go fuel n acc) = parse_go n acc.
Proof.
  revert n acc. induction fuel as [|fuel IH]; intros n acc Hn; simpl.
  { assert (n = 0) as -> by (simpl in Hn; lia). done. }
  rewrite Nat2Z.inj_succ, Z.pow_succ_r in Hn by lia.
  pose proof (Z.mod_pos_bound n 10). pose proof (Z.div_mod n 10).
  destruct (Z.ltb_spec n 10).
  - simpl. rewrite char_digit_char by lia. f_equal. rewrite Z.mod_small by lia. lia.
  - rewrite IH by lia. simpl. rewrite char_digit_char by lia. f_equal. lia.
Qed.

Lemma show_uint_fuel n : 0 <= n → n < 10 ^ Z.of_nat (S (Z.to_nat (Z.log2 n))).
Proof.
  intros Hn. rewrite Nat2Z.inj_succ, Z2Nat.id by apply Z.log2_nonneg.
  destruct (decide (n = 0)) as [->|]; [done|].
  apply Z.lt_le_trans with (2 ^ Z.succ (Z.log2 n)); [apply Z.log2_spec; lia|].
  apply Z.pow_le_mono_l. lia.
Qed.

Lemma all_digits_show_go fuel n acc :
  0 <= n → all_chars is_digit acc = true → all_chars is_digit (show_go fuel n acc) = true.
Proof.
  revert n acc. induction fuel as [|fuel IH]; intros n acc Hn Hacc; simpl; [done|].
  pose proof (Z.mod_pos_bound n 10).
  assert (all_chars is_digit (String (digit_char (n mod 10)) acc) = true).
  { simpl. rewrite Hacc, is_digit_char by lia. done. }
  destruct (n <? 10); [done|]. apply IH; [apply Z.div_pos|]; done || lia.
Qed.

Lemma all_digits_show n : 0 <= n → all_chars is_digit (show_uint n) = true.
Proof. intros. by apply all_digits_show_go. Qed.

Lemma show_uint_cons n : 0 <= n → ∃ c s, show_uint n = String c s ∧ is_digit c = true.
Proof.
  intros Hn. pose proof (all_digits_show n Hn) as Hd.
  assert (show_uint n ≠ "") as Hne.
  { pose proof (parse_show_go (S (Z.to_nat (Z.log2 n))) n "") as Hp.
    unfold show_uint. simpl. destruct (n <? 10); [done|].
    generalize (Z.to_nat (Z.log2 n)). intros k.
    assert (∀ m acc, acc ≠ "" → show_go k m acc ≠ "") as Hk.
    { clear. induction k as [|k IH]; simpl; intros m acc Ha; [done|].
      destruct (m <? 10); [done|by apply IH]. }
    by apply Hk. }
  destruct (show_uint n) as [|c s]; [done|]. exists c, s. split; [done|].
  simpl in Hd. by apply andb_true_iff in Hd as [? _].
Qed.

Lemma digit_not_sign c : is_digit c = true → c ≠ "+"%char ∧ c ≠ "-"%char.
Proof. intros Hc. by split; intros ->. Qed.

Lemma parse_nat_show n : 0 <= n → parse_nat (show_uint n) = Some n.
Proof.
  intros Hn. destruct (show_uint_cons n Hn) as (c & s & E & _). rewrite E.
  change (parse_nat (String c s)) with (parse_go 0 (String c s)).
  rewrite <- E. unfold show_uint. rewrite parse_show_go; [done|].
  split; [done|by apply show_uint_fuel].
Qed.

Lemma strip_plus_digit c s : is_digit c = true → strip_plus (String c s) = String c s.
Proof. intros Hc. destruct c as [[] [] [] [] [] [] [] []]; done. Qed.

(** Printing a [w]-bit integer and parsing it gives it back. *)
Lemma parse_show_uint w n : 0 <= n <= umax w → parse_uint w (show_uint n) = Some n.
Proof.
  intros Hn. destruct (show_uint_cons n) as (c & s & E & Hc); [lia|].
  unfold parse_uint. rewrite E, strip_plus_digit, <- E, parse_nat_show by (done || lia). simpl.
  destruct (Z.leb_spec n (umax w)); [done|lia].
Qed.

Lemma parse_int_show w n :
  1 <= w → 0 <= n → parse_int w (show_uint n) = if n <=? 2 ^ (w - 1) - 1 then Some n else None.
Proof.
  intros Hw Hn. destruct (show_uint_cons n) as (c & s & E & Hc); [lia|]. unfold parse_int.
  assert (parse_nat (strip_plus (show_uint n)) = Some n) as Hp
    by (rewrite E, strip_plus_digit, <- E by done; apply parse_nat_show; lia).
  rewrite E in Hp |- *.
  assert (∀ A (a b : string → A), match String c s with String "-" s' => a s' | _ => b (String c s) end
          = b (String c s)) as Hm by (intros; destruct c as [[] [] [] [] [] [] [] []]; done).
  rewrite (Hm _ (λ s', n ← parse_nat s'; Some (- n)) (λ t, parse_nat (strip_plus t))), Hp. simpl.
  pose proof (Z.pow_pos_nonneg 2 (w - 1)). by destruct (Z.leb_spec (- 2 ^ (w - 1)) n); [|lia].
Qed.

Lemma parse_show_int w n : 1 <= w → 0 <= n <= 2 ^ (w - 1) - 1 → parse_int w (show_int n) = Some n.
Proof.
  intros Hw Hn. unfold show_int. destruct (Z.ltb_spec n 0); [lia|].
  rewrite parse_int_show by lia. by destruct (Z.leb_spec n (2 ^ (w - 1) - 1)); [|lia].
Qed.

Lemma parse_go_nonneg acc s n : 0 <= acc → parse_go acc s = Some n → 0 <= n.
Proof.
  revert acc. induction s as [|c s IH]; intros acc Ha; simpl; [by intros [= <-]|].
  destruct (char_digit c) as [d|] eqn:Hd; [|done].
  apply char_digit_range in Hd. apply IH. lia.
Qed.

Lemma parse_uint_range w s n : parse_uint w s = Some n → 0 <= n <= umax w.
Proof.
  unfold parse_uint. intros (m & Hm & Hn)%bind_Some.
  destruct (Z.leb_spec m (umax w)); simplify_eq. split; [|done].
  unfold parse_nat in Hm. destruct (strip_plus s); [done|].
  by eapply parse_go_nonneg.
Qed.

(** ** Trimming *)

Definition is_ascii_ws (c : ascii) : bool :=
  let b := byte_of c in ((9 <=? b) && (b <=? 13)) || (b =? 32).

(** The white-space characters that UTF-8 encodes on two bytes (U+0085, U+00A0) and on
    three (U+1680, U+2000 to U+200A, U+2028, U+2029, U+202F, U+205F, U+3000). *)
Definition is_ws2 (c1 c2 : ascii) : bool :=
  (byte_of c1 =? 0xC2) && ((byte_of c2 =? 0x85) || (byte_of c2 =? 0xA0)).

Definition is_ws3 (c1 c2 c3 : ascii) : bool :=
  let b1 := byte_of c1 in
  let b2 := byte_of c2 in
  let b3 := byte_of c3 in
  ((b1 =? 0xE1) && (b2 =? 0x9A) && (b3 =? 0x80))
  || ((b1 =? 0xE2) && (b2 =? 0x80)
      && (((0x80 <=? b3) && (b3 <=? 0x8A)) || (b3 =? 0xA8) || (b3 =? 0xA9) || (b3 =? 0xAF)))
  || ((b1 =? 0xE2) && (b2 =? 0x81) && (b3 =? 0x9F))
  || ((b1 =? 0xE3) && (b2 =? 0x80) && (b3 =? 0x80)).

Fixpoint trim_start (s : string) : string :=
  match s with
  | EmptyString => EmptyString
  | String c1 s1 =>
      if is_ascii_ws c1 then trim_start s1
      else match s1 with
           | EmptyString => s
           | String c2 s2 =>
               if is_ws2 c1 c2 then trim_start s2
               else match s2 with
                    | EmptyString => s
                    | String c3 s3 => if is_ws3 c1 c2 c3 then trim_start s3 else s
                    end
           end
  end.

(** [trim_end] on the reversed string. *)
Fixpoint trim_end_rev (s : string) : string :=
  match s with
  | EmptyString => EmptyString
  | String c1 s1 =>
      if is_ascii_ws c1 then trim_end_rev s1
      else match s1 with
           | EmptyString => s
           | String c2 s2 =>
               if is_ws2 c2 c1 then trim_end_rev s2
               else match s2 with
                    | EmptyString => s
                    | String c3 s3 => if is_ws3 c3 c2 c1 then trim_end_rev s3 else s
                    end
           end
  end.

(** [str::trim]. *)
Definition trim (s : string) : string := String.rev (trim_end_rev (String.rev (trim_start s))).

Lemma digit_not_ws c : is_digit c = true →
  is_ascii_ws c = false ∧ (∀ a, is_ws2 c a = false ∧ is_ws2 a c = false)
  ∧ (∀ a b, is_ws3 c a b = false ∧ is_ws3 a b c = false).
Proof.
  unfold is_digit, char_digit. intros Hc.
  destruct (48 <=? byte_of c) eqn:E1; [|done]. destruct (byte_of c <=? 57) eqn:E2; [|done].
  unfold is_ascii_ws, is_ws2, is_ws3. split; [lia|]. split; intros; lia.
Qed.

Lemma trim_start_digit c s : is_digit c = true → trim_start (String c s) = String c s.
Proof.
  intros (E1 & E2 & E3)%digit_not_ws. simpl. rewrite E1.
  destruct s as [|c2 s]; [done|]. rewrite (proj1 (E2 c2)).
  destruct s as [|c3 s]; [done|]. by rewrite (proj1 (E3 c2 c3)).
Qed.

Lemma trim_end_rev_digit c s : is_digit c = true → trim_end_rev (String c s) = String c s.
Proof.
  intros (E1 & E2 & E3)%digit_not_ws. simpl. rewrite E1.
  destruct s as [|c2 s]; [done|]. rewrite (proj2 (E2 c2)).
  destruct s as [|c3 s]; [done|]. by rewrite (proj2 (E3 c3 c2)).
Qed.

Lemma all_chars_rev_app P s t :
  all_chars P (String.rev_app s t) = all_chars P s && all_chars P t.
Proof.
  revert t. induction s as [|c s IH]; intros t; simpl; [done|].
  rewrite IH. simpl. destruct (P c), (all_chars P s); done.
Qed.

Lemma rev_app_rev_app s t u :
  String.rev_app (String.rev_app s t) u = String.rev_app t (s +:+ u).
Proof.
  revert t u. induction s as [|c s IH]; intros t u; simpl; [done|].
  rewrite IH. done.
Qed.

Lemma rev_rev s : String.rev (String.rev s) = s.
Proof.
  unfold String.rev. rewrite rev_app_rev_app. simpl.
  induction s as [|c s IH]; [done|]. change (String c s +:+ "") with (String c (s +:+ "")).
  by rewrite IH.
Qed.

(** A decimal numeral has nothing to trim. *)
Lemma trim_digits s : all_chars is_digit s = true → trim s = s.
Proof.
  intros Hs. unfold trim.
  assert (trim_start s = s) as ->.
  { destruct s as [|c s]; [done|]. apply trim_start_digit. simpl in Hs.
    by apply andb_true_iff in Hs as [? _]. }
  assert (Hr : all_chars is_digit (String.rev s) = true).
  { unfold String.rev. rewrite all_chars_rev_app, Hs. done. }
  rewrite <- (rev_rev s) at 2. f_equal.
  destruct (String.rev s) as [|c r]; [done|]. apply trim_end_rev_digit. simpl in Hr.
  by apply andb_true_iff in Hr as [? _].
Qed.

Lemma trim_show_uint n : 0 <= n → trim (show_uint n) = show_uint n.
Proof. intros. by apply trim_digits, all_digits_show. Qed.

(** ** Searching and splitting *)

(** [str::starts_with] and [strip_prefix]. *)
Fixpoint strip_prefix (p s : string) : option string :=
  match p with
  | EmptyString => Some s
  | String c p' =>
      match s with
      | EmptyString => None
      | String d s' => if ascii_dec c d then strip_prefix p' s' else None
      end
  end.

Definition starts_with (p s : string) : bool :=
  match strip_prefix p s with Some _ => true | None => false end.

(** [str::ends_with] and [strip_suffix]. *)
Definition strip_suffix (p s : string) : option string :=
  String.rev <$> strip_prefix (String.rev p) (String.rev s).

(** [str::contains]. *)
Fixpoint contains (p s : string) : bool :=
  starts_with p s || match s with EmptyString => false | String _ s' => contains p s' end.

(** [str::split] on one character: never empty. *)
Fixpoint split_on (c : ascii) (s : string) : list string :=
  match s with
  | EmptyString => [""]
  | String d s' =>
      if ascii_dec c d then "" :: split_on c s'
      else match split_on c s' with
           | [] => [String d ""]
           | w :: ws => String d w :: ws
           end
  end.

(** [\[String\]::join]. *)
Fixpoint join (sep : string) (l : list string) : string :=
  match l with
  | [] => ""
  | [s] => s
  | s :: l' => s +:+ sep +:+ join sep l'
  end.

Lemma split_on_nonempty c s : split_on c s ≠ [].
Proof.
  destruct s as [|d s]; simpl; [done|]. destruct (ascii_dec c d); [done|].
  destruct (split_on c s); done.
Qed.

(** Splitting on a separator and joining with it gives the string back. *)
Lemma join_split_on c s : join (String c "") (split_on c s) = s.
Proof.
  induction s as [|d s IH]; simpl; [done|]. pose proof (split_on_nonempty c s).
  destruct (ascii_dec c d) as [->|].
  - simpl. destruct (split_on d s); [done|]. rewrite IH. done.
  - destruct (split_on c s) as [|w [|w' ws]]; [done| |]; simpl in *; by rewrite <- IH.
Qed.

Definition differs (c d : ascii) : bool := negb (bool_decide (d = c)).

(** Splitting after a first piece that holds no separator. *)
Lemma split_on_app c s t :
  all_chars (differs c) s = true →
  split_on c (s +:+ String c t) = s :: split_on c t.
Proof.
  induction s as [|d s IH]; simpl; intros Hs.
  - by destruct (ascii_dec c c).
  - apply andb_true_iff in Hs as [Hd Hs]. destruct (ascii_dec c d) as [->|].
    + unfold differs in Hd. by rewrite bool_decide_true in Hd.
    + by rewrite IH.
Qed.

Lemma split_on_single c s :
  all_chars (differs c) s = true → split_on c s = [s].
Proof.
  induction s as [|d s IH]; simpl; intros Hs; [done|].
  apply andb_true_iff in Hs as [Hd Hs]. destruct (ascii_dec c d) as [->|].
  - unfold differs in Hd. by rewrite bool_decide_true in Hd.
  - by rewrite IH.
Qed.

Lemma all_chars_impl P Q s : (∀ c, P c = true → Q c = true) → all_chars P s = true → all_chars Q s = true.
Proof. intros HPQ. induction s as [|c s IH]; simpl; [done|]. intros [? ?]%andb_true_iff. apply andb_true_iff; eauto. Qed.

Lemma all_chars_app P s t : all_chars P (s +:+ t) = all_chars P s && all_chars P t.
Proof. induction s as [|c s IH]; simpl; [done|]. by rewrite IH, andb_assoc. Qed.

(** Lower-casing of ASCII letters ([eq_ignore_ascii_case]). *)
Definition to_lower (c : ascii) : ascii :=
  let b := byte_of c in
  if (65 <=? b) && (b <=? 90) then ascii_of_nat (Z.to_nat (b + 32)) else c.

Fixpoint lower (s : string) : string :=
  match s with
  | EmptyString => EmptyString
  | String c s' => String (to_lower c) (lower s')
  end.

(** Byte-wise order on strings ([Ord for str]), as a boolean. *)
Definition str_leb (s t : string) : bool := String.leb s t.

Create Rewrite HintDb text.
#[export] Hint Rewrite trim_show_uint parse_show_uint using lia : text.

Lemma str_leb_total s t : str_leb s t = true ∨ str_leb t s = true.
Proof. apply String.leb_total. Qed.

Lemma str_leb_cons c d s t :
  str_leb (String c s) (String d t) = true ↔
  (N_of_ascii c < N_of_ascii d)%N ∨ (c = d ∧ str_leb s t = true).
Proof.
  unfold str_leb, String.leb. simpl. unfold Ascii.compare.
  destruct (N.compare_spec (N_of_ascii c) (N_of_ascii d)) as [He|Hlt|Hgt].
  - assert (c = d) as -> by (rewrite <- (ascii_N_embedding c), <- (ascii_N_embedding d); by f_equal).
    split; [by right|]. intros [?|[_ ?]]; [lia|done].
  - split; [by left|done].
  - split; [done|]. intros [?|[-> _]]; [lia|]. lia.
Qed.

Lemma str_leb_trans s t u : str_leb s t = true → str_leb t u = true → str_leb s u = true.
Proof.
  revert t u. induction s as [|c s IH]; intros [|d t] [|e u]; try done.
  rewrite !str_leb_cons. intros [Hc|[-> Hs]] [Hd|[-> Ht]]; [left; lia|by left|by left|right; eauto].
Qed.

(** Sorting strings. *)
Lemma sort_str_sorted l : StronglySorted (λ x y, str_leb x y = true) (sort_by str_leb l).
Proof.
  apply (sort_by_sorted str_leb (λ _, True)); [|by eauto using str_leb_trans|by apply Forall_true].
  intros x y _ _. apply str_leb_total.
Qed.
