(* ===== verification/TextOps.v ===== *)
(** * More on strings: replacing, splitting on a pattern, cutting

    What the exporters and the container descriptions do with text: [str::replace] of one
    character, [str::split] on a string, removing the last character, and the functions a
    reader of the exported text uses. *)

From S2P Require Import Prelude Text.
From Stdlib Require Import Ascii.

#[local] Arguments String.append : simpl nomatch.

Lemma app_assoc_str (s t u : string) : (s +:+ t) +:+ u = s +:+ (t +:+ u).
Proof. induction s as [|c s IH]; simpl; [done|]. by rewrite IH. Qed.

Lemma app_nil_str (s : string) : s +:+ "" = s.
Proof. induction s as [|c s IH]; simpl; [done|]. by rewrite IH. Qed.

Lemma length_app_str s t : String.length (s +:+ t) = (String.length s + String.length t)%nat.
Proof. induction s as [|c s IH]; simpl; lia. Qed.

#[export] Hint Rewrite app_assoc_str app_nil_str all_chars_app : text.

(** [s.replace(c, rep)]. *)
Fixpoint replace_char (c : ascii) (rep s : string) : string :=
  match s with
  | EmptyString => EmptyString
  | String d s' => if ascii_dec c d then rep +:+ replace_char c rep s' else String d (replace_char c rep s')
  end.

Lemma replace_char_absent c rep s :
  all_chars (differs c) rep = true → all_chars (differs c) (replace_char c rep s) = true.
Proof.
  intros Hr. induction s as [|d s IH]; simpl; [done|]. destruct (ascii_dec c d) as [->|Hne].
  - by rewrite all_chars_app, Hr.
  - simpl. rewrite IH. unfold differs. by rewrite bool_decide_false by congruence.
Qed.

Lemma replace_char_keeps P c rep s :
  all_chars P rep = true → all_chars P s = true → all_chars P (replace_char c rep s) = true.
Proof.
  intros Hr. induction s as [|d s IH]; simpl; [done|]. intros [Hd Hs]%andb_true_iff.
  destruct (ascii_dec c d); [by rewrite all_chars_app, Hr, IH|]. simpl. by rewrite Hd, IH.
Qed.

Lemma replace_char_id c rep s : all_chars (differs c) s = true → replace_char c rep s = s.
Proof.
  induction s as [|d s IH]; simpl; [done|]. intros [Hd Hs]%andb_true_iff.
  destruct (ascii_dec c d) as [->|]; [|by rewrite IH]. unfold differs in Hd. by rewrite bool_decide_true in Hd.
Qed.

(** [s.remove(s.len() - 1)] of a string that ends with an ASCII character. *)
Fixpoint drop_last (s : string) : string :=
  match s with
  | EmptyString => EmptyString
  | String c EmptyString => EmptyString
  | String c s' => String c (drop_last s')
  end.

Lemma drop_last_snoc s c : drop_last (s +:+ String c "") = s.
Proof.
  induction s as [|d s IH]; simpl; [done|]. rewrite IH. by destruct s.
Qed.

(** ** Splitting on a string *)

Definition cons_head (c : ascii) (l : list string) : list string :=
  match l with [] => [String c ""] | w :: ws => String c w :: ws end.

(** [s.split(pat)] for a pattern that is not empty; [skip] characters of a match are still
    to be passed over. *)
Fixpoint split_go (pat : string) (skip : nat) (s : string) : list string :=
  match s with
  | EmptyString => [""%string]
  | String c s' =>
      match skip with
      | S k => split_go pat k s'
      | O => if starts_with pat s then ""%string :: split_go pat (String.length pat - 1) s'
             else cons_head c (split_go pat 0 s')
      end
  end.

Definition split_str (pat s : string) : list string := split_go pat 0 s.

Lemma split_go_nonempty pat k s : split_go pat k s ≠ [].
Proof.
  revert k. induction s as [|c s IH]; intros k; simpl; [done|]. destruct k as [|k]; [|apply IH].
  destruct (starts_with _ _); [done|]. unfold cons_head. by destruct (split_go pat 0 s).
Qed.

Lemma strip_prefix_app p s t : strip_prefix p s = Some t ↔ s = p +:+ t.
Proof.
  revert s. induction p as [|c p IH]; intros s; simpl.
  - split; congruence.
  - destruct s as [|d s]; simpl; [done|]. destruct (ascii_dec c d) as [->|Hne].
    + rewrite IH. split; [by intros ->|by intros [= ->]].
    + split; [done|]. intros [= He _]. congruence.
Qed.

(** *** Reversal *)

Lemma rev_app_str s acc : String.rev_app s acc = String.rev s +:+ acc.
Proof.
  unfold String.rev. revert acc. induction s as [|c s IH]; intros acc; simpl; [done|].
  by rewrite IH, (IH (String c "")), app_assoc_str.
Qed.

Lemma rev_cons_str c s : String.rev (String c s) = String.rev s +:+ String c "".
Proof. unfold String.rev at 1. simpl. apply rev_app_str. Qed.

Lemma rev_append (s t : string) : String.rev (s +:+ t) = String.rev t +:+ String.rev s.
Proof.
  induction s as [|c s IH]; [by rewrite app_nil_str|].
  change (String c s +:+ t) with (String c (s +:+ t)). by rewrite !rev_cons_str, IH, app_assoc_str.
Qed.

Lemma strip_suffix_append (p s : string) : strip_suffix p (s +:+ p) = Some s.
Proof.
  unfold strip_suffix. rewrite rev_append, (proj2 (strip_prefix_app _ _ (String.rev s))) by done.
  simpl. by rewrite rev_rev.
Qed.

Lemma starts_with_app p s : starts_with p s = true ↔ ∃ t, s = p +:+ t.
Proof.
  unfold starts_with. destruct (strip_prefix p s) as [t|] eqn:E.
  - split; [|done]. intros _. exists t. by apply strip_prefix_app.
  - split; [done|]. intros [t Ht]. apply strip_prefix_app in Ht. congruence.
Qed.

Lemma split_go_skip pat p s : split_go pat (String.length p) (p +:+ s) = split_go pat 0 s.
Proof. induction p as [|c p IH]; simpl; [done|]. exact IH. Qed.

(** At a match, the rest follows. *)
Lemma split_str_match pat s : pat ≠ ""%string → split_str pat (pat +:+ s) = ""%string :: split_str pat s.
Proof.
  intros Hp. unfold split_str. destruct pat as [|c pat]; [done|].
  change ((String c pat +:+ s)) with (String c (pat +:+ s)) at 1. simpl.
  replace (starts_with _ _) with true.
  - rewrite Nat.sub_0_r. f_equal. apply split_go_skip.
  - symmetry. apply starts_with_app. by exists s.
Qed.

(** Joining the pieces with the pattern gives the string back. *)
Lemma join_cons_head c sep l : l ≠ [] → join sep (cons_head c l) = String c (join sep l).
Proof. destruct l as [|w [|v l]]; done. Qed.

Lemma join_split_go pat s k :
  pat ≠ ""%string → (k <= String.length s)%nat →
  ∃ p t, s = p +:+ t ∧ String.length p = k ∧ join pat (split_go pat k s) = t.
Proof.
  intros Hp. revert k. induction s as [|c s IH]; intros k Hk.
  - exists ""%string, ""%string. simpl in Hk |- *. split; [done|]. split; [lia|done].
  - destruct k as [|k].
    + exists ""%string, (String c s). split; [done|]. split; [done|]. simpl.
      destruct (starts_with pat (String c s)) eqn:E.
      * apply starts_with_app in E as [t Ht]. destruct pat as [|d pat]; [done|]. injection Ht as -> ->.
        simpl. rewrite Nat.sub_0_r. rewrite split_go_skip.
        destruct (IH (String.length pat)) as (p & t' & He & Hl & Hj).
        { clear. induction pat; simpl; lia. }
        rewrite split_go_skip in Hj. destruct (split_go (String d pat) 0 t) eqn:Et.
        { by apply split_go_nonempty in Et. }
        rewrite <- Et in Hj |- *. rewrite Hj. f_equal.
        enough (t = t') as -> by done. clear -He Hl. revert p He Hl.
        induction pat as [|x pat IHp]; intros [|y p] He Hl; simpl in *; try done; try lia.
        injection He as _ He. eapply IHp; [exact He|lia].
      * rewrite join_cons_head by apply split_go_nonempty. f_equal.
        destruct (IH 0%nat ltac:(lia)) as (p & t & He & Hl & Hj). destruct p; [|done]. simpl in He. by subst t.
    + simpl in Hk. destruct (IH k ltac:(lia)) as (p & t & -> & Hl & Hj).
      exists (String c p), t. split; [done|]. split; [simpl; lia|]. exact Hj.
Qed.

Lemma join_split_str pat s : pat ≠ ""%string → join pat (split_str pat s) = s.
Proof.
  intros Hp. destruct (join_split_go pat s 0 Hp ltac:(lia)) as (p & t & -> & Hl & Hj).
  destruct p; [|done]. exact Hj.
Qed.

(** ** Reading *)

(** What precedes the first occurrence of a character, and what follows it. *)
Fixpoint cut (c : ascii) (s : string) : option (string * string) :=
  match s with
  | EmptyString => None
  | String d s' =>
      if ascii_dec c d then Some (""%string, s')
      else '(a, b) ← cut c s'; Some (String d a, b)
  end.

Lemma cut_app c s t : all_chars (differs c) s = true → cut c (s +:+ String c t) = Some (s, t).
Proof.
  induction s as [|d s IH]; simpl.
  - intros _. by destruct (ascii_dec c c).
  - intros [Hd Hs]%andb_true_iff. rewrite IH by done. destruct (ascii_dec c d) as [->|]; [|done].
    unfold differs in Hd. by rewrite bool_decide_true in Hd.
Qed.

(** ** Where a pattern can match *)

Lemma contains_app p s : contains p s = true ↔ ∃ a b, s = a +:+ p +:+ b.
Proof.
  induction s as [|c s IH]; simpl.
  - rewrite orb_false_r, starts_with_app. split.
    + intros [t Ht]. exists ""%string, t. done.
    + intros (a & b & Hs). destruct a; [|done]. by exists b.
  - rewrite orb_true_iff, starts_with_app, IH. split.
    + intros [[t Ht]|(a & b & ->)]; [by exists ""%string, t|]. exists (String c a), b. done.
    + intros (a & b & Hs). destruct a as [|d a]; [left; by exists b|]. injection Hs as -> ->. right. eauto.
Qed.

(** No occurrence of [p] starts in [a] when [a] is followed by [s]. *)
Fixpoint no_match (p a s : string) : bool :=
  match a with
  | EmptyString => true
  | String c a' => negb (starts_with p (a +:+ s)) && no_match p a' s
  end.

Lemma split_str_no_match p a s :
  no_match p a s = true →
  split_str p (a +:+ s) = match split_str p s with [] => [] | w :: ws => (a +:+ w) :: ws end.
Proof.
  unfold split_str. pose proof (split_go_nonempty p 0 s) as Hne.
  induction a as [|c a IH]; simpl; intros Ha.
  - by destruct (split_go p 0 s).
  - apply andb_true_iff in Ha as [Hc Ha]. apply negb_true_iff in Hc. rewrite Hc, IH by done.
    by destruct (split_go p 0 s).
Qed.

Lemma contains_split p s : p ≠ ""%string → contains p s = true → ∃ a b l, split_str p s = a :: b :: l.
Proof.
  intros Hp Hc. unfold split_str. induction s as [|c s IH]; simpl in *.
  - destruct p; [done|]. simpl in Hc. done.
  - destruct (starts_with p (String c s)) eqn:E.
    + pose proof (split_go_nonempty p (String.length p - 1) s).
      destruct (split_go p (String.length p - 1) s) as [|b l]; [done|]. eauto.
    + destruct (IH Hc) as (a & b & l & ->). simpl. eauto.
Qed.

Lemma split_on_without c s :
  Forall (λ w, all_chars (differs c) w = true) (split_on c s).
Proof.
  induction s as [|d s IH]; simpl; [by repeat constructor|].
  destruct (ascii_dec c d) as [->|Hne]; [by constructor|].
  destruct (split_on c s) as [|w ws] eqn:E; [by apply split_on_nonempty in E|].
  inversion_clear IH as [|? ? Hw Hws]. constructor; [|done]. simpl. unfold differs at 1.
  by rewrite bool_decide_false by congruence.
Qed.
