(* ===== verification/FloatText.v ===== *)
(** * Decimal floats

    [Display] and [FromStr] of [f64] and [f32].  Parsing rounds the decimal number
    correctly to the format.  Printing is the standard library's shortest decimal that
    reads back as the same float, without an exponent, and the closest one among those. *)

From S2P Require Import Prelude Floats Text.
From Stdlib Require Import SpecFloat Ascii.

#[export] Instance spec_float_eq_dec : EqDecision spec_float.
Proof. solve_decision. Defined.

(** Digits of a decimal numeral: the integer they denote, how many were read, the rest. *)
Fixpoint take_digits (acc n : Z) (s : string) : Z * Z * string :=
  match s with
  | EmptyString => (acc, n, s)
  | String c s' =>
      match char_digit c with
      | Some d => take_digits (acc * 10 + d) (n + 1) s'
      | None => (acc, n, s)
      end
  end.

(** The exponent part [e], sign, digits; nothing may follow it. *)
Definition parse_exponent (s : string) : option Z :=
  match s with
  | EmptyString => Some 0
  | String c s' =>
      if ascii_dec (to_lower c) "e" then
        match s' with
        | String "-" s'' => n ← parse_nat s''; Some (- n)
        | String "+" s'' => parse_nat s''
        | _ => parse_nat s'
        end
      else None
  end.

(** An unsigned decimal number as [(m, x)], meaning [m * 10 ^ x]. *)
Definition parse_decimal (s : string) : option (Z * Z) :=
  let '(i, ni, s1) := take_digits 0 0 s in
  let '(m, n, frac, s2) :=
    match s1 with
    | String "." s' => let '(m, nf, s2) := take_digits i 0 s' in (m, ni + nf, nf, s2)
    | _ => (i, ni, 0, s1)
    end in
  if n =? 0 then None
  else e ← parse_exponent s2; Some (m, e - frac).

Section Format.
  Context (prec emax : Z).

  (** [(-1)^s * m * 10 ^ x] correctly rounded. *)
Definition of_decimal (s : bool) (m x : Z) : float :=
    if m =? 0 then S754_zero s
    else if 0 <=? x then
      binary_round prec emax s (Z.to_pos (m * 10 ^ x)) 0
    else
      let '(q, e, l) := SFdiv_core_binary prec emax m 0 (10 ^ (- x)) 0 in
      binary_round_aux prec emax s q e l.

Definition parse_unsigned (s : bool) (t : string) : option float :=
    let lo := lower t in
    if decide (lo = "inf" ∨ lo = "infinity") then Some (S754_infinity s)
    else if decide (lo = "nan") then Some S754_nan
    else '(m, x) ← parse_decimal t; Some (of_decimal s m x).

  (** [str::parse] for the format. *)
Definition parse_float (t : string) : option float :=
    match t with
    | String "-" t' => parse_unsigned true t'
    | String "+" t' => parse_unsigned false t'
    | _ => parse_unsigned false t
    end.

  (** *** Printing *)

Fixpoint zeros (n : nat) : string :=
    match n with O => "" | S n => String "0" (zeros n) end.

  (** [c * 10 ^ x] in positional notation. *)
Definition positional (c x : Z) : string :=
    if 0 <=? x then show_uint c +:+ zeros (Z.to_nat x)
    else
      let ip := c / 10 ^ (- x) in
      let fp := c mod 10 ^ (- x) in
      let fs := show_uint fp in
      show_uint ip +:+ "." +:+ zeros (Z.to_nat (- x) - String.length fs) +:+ fs.

  (** The least [k] with [n / d < 10 ^ k]. *)
Definition magnitude (n d : Z) : Z :=
    if d <=? n then Z.of_nat (String.length (show_uint (n / d)))
    else
      (fix down (fuel : nat) (n k : Z) : Z :=
         match fuel with
         | O => k
         | S fuel => if d <=? n * 10 then k else down fuel (n * 10) (k - 1)
         end) (Z.to_nat (Z.log2 d)) n 0.

  (** The decimals with [nd] digits just below and just above [n / d], closest first. *)
Definition candidates (n d k : Z) (nd : nat) : list (Z * Z) :=
    let x := k - Z.of_nat nd in
    let '(n', d') := if 0 <=? x then (n, d * 10 ^ x) else (n * 10 ^ (- x), d) in
    let f := n' / d' in
    let up := if f + 1 =? 10 ^ Z.of_nat nd then (10 ^ (Z.of_nat nd - 1), x + 1) else (f + 1, x) in
    if d' <=? 2 * (n' mod d') then [up; (f, x)] else [(f, x); up].

Definition reads_back (m : positive) (e : Z) (c : Z * Z) : bool :=
    (0 <? c.1) && bool_decide (of_decimal false c.1 c.2 = S754_finite false m e).

  (** The shortest decimal that reads back; the exact expansion when there is none, which
      does not happen for binary64 with 17 digits and binary32 with 9. *)
Definition shortest (m : positive) (e : Z) : Z * Z :=
    let '(n, d) := if 0 <=? e then (Z.pos m * 2 ^ e, 1) else (Z.pos m, 2 ^ (- e)) in
    let k := magnitude n d in
    match List.find (reads_back m e) (concat (candidates n d k <$> seq 1 17)) with
    | Some c => c
    | None => if 0 <=? e then (Z.pos m * 2 ^ e, 0) else (Z.pos m * 5 ^ (- e), e)
    end.

  (** [Display]: [to_string]. *)
Definition show_float (x : float) : string :=
    match x with
    | S754_nan => "NaN"
    | S754_infinity s => if s then "-inf" else "inf"
    | S754_zero s => if s then "-0" else "0"
    | S754_finite s m e =>
        let '(c, ex) := shortest m e in
        (if s then "-" else "") +:+ positional c ex
    end.
End Format.

Definition parse_f64 := parse_float 53 1024.
Definition show_f64 := show_float 53 1024.
Definition parse_f32 := parse_float 24 128.
Definition show_f32 := show_float 24 128.

(** ** Decimal integers read as floats *)

Lemma take_digits_all acc n s :
  all_chars is_digit s = true → 
  ∃ m, parse_go acc s = Some m ∧ take_digits acc n s = (m, n + Z.of_nat (String.length s), "").
Proof.
  revert acc n. induction s as [|c s IH]; intros acc n; simpl.
  - intros _. exists acc. split; [done|]. do 2 f_equal. lia.
  - intros [Hc Hs]%andb_true_iff. unfold is_digit in Hc.
    destruct (char_digit c) as [d|]; [|done].
    destruct (IH (acc * 10 + d) (n + 1) Hs) as (m & Hm & Ht). exists m. split; [done|].
    rewrite Ht. do 2 f_equal. lia.
Qed.

Lemma parse_float_digit prec emax c s :
  is_digit c = true → parse_float prec emax (String c s) = parse_unsigned prec emax false (String c s).
Proof. intros Hc. destruct c as [[] [] [] [] [] [] [] []]; done. Qed.

Lemma lower_digit c s t : is_digit c = true → is_digit t = false → lower (String c s) ≠ String t "" ∧
  ∀ u, lower (String c s) ≠ String t u.
Proof.
  intros Hc Ht. assert (Hl : to_lower c = c).
  { unfold to_lower. unfold is_digit, char_digit in Hc.
    destruct ((48 <=? byte_of c) && (byte_of c <=? 57)) eqn:E; [|done].
    apply andb_true_iff in E as [_ E]. apply Z.leb_le in E.
    destruct (Z.leb_spec 65 (byte_of c)); [lia|done]. }
  simpl. rewrite Hl. split; [|intros u]; intros [= -> _]; congruence.
Qed.

(** A decimal integer parses to the float nearest to it. *)
Lemma parse_float_show_uint prec emax n :
  0 <= n → parse_float prec emax (show_uint n) = Some (Floats.of_Z prec emax n).
Proof.
  intros Hn. destruct (show_uint_cons n Hn) as (c & s & E & Hc).
  pose proof (all_digits_show n Hn) as Hd. pose proof (parse_nat_show n Hn) as Hp.
  rewrite E in *. rewrite parse_float_digit by done. unfold parse_unsigned.
  pose proof (lower_digit c s "i" Hc eq_refl) as [_ Hi].
  pose proof (lower_digit c s "n" Hc eq_refl) as [_ Hna].
  rewrite decide_False by (intros [?|?]; by eapply Hi). rewrite decide_False by (by eapply Hna).
  unfold parse_decimal. destruct (take_digits_all 0 0 (String c s) Hd) as (m & Hm & ->).
  change (parse_nat (String c s)) with (parse_go 0 (String c s)) in Hp.
  rewrite Hp in Hm. injection Hm as <-. cbn [String.length].
  destruct (Z.eqb_spec (0 + Z.of_nat (S (String.length s))) 0); [lia|]. simpl. f_equal.
  unfold of_decimal. destruct (Z.eqb_spec n 0) as [->|]; [done|]. simpl.
  rewrite Z.mul_1_r. destruct n; [done|done|lia].
Qed.

Lemma parse_f64_show_uint n : 0 <= n → parse_f64 (show_uint n) = Some (F64.of_Z n).
Proof. apply parse_float_show_uint. Qed.

(** ** What is printed can be read *)

Lemma take_digits_app acc n s t :
  all_chars is_digit s = true →
  ∃ m, take_digits acc n (s +:+ t) = take_digits m (n + Z.of_nat (String.length s)) t.
Proof.
  revert acc n. induction s as [|c s IH]; intros acc n; simpl.
  - intros _. exists acc. by rewrite Z.add_0_r.
  - intros [Hc Hs]%andb_true_iff. unfold is_digit in Hc. destruct (char_digit c) as [d|]; [|done].
    destruct (IH (acc * 10 + d) (n + 1) Hs) as [m Hm]. exists m. rewrite Hm. f_equal. lia.
Qed.

Lemma take_digits_point acc n t : take_digits acc n (String "." t) = (acc, n, String "." t).
Proof. reflexivity. Qed.

Lemma zeros_digits n : all_chars is_digit (zeros n) = true.
Proof. by induction n. Qed.

(** A numeral without or with a fractional part. *)
Definition numeral (s : string) : Prop :=
  ∃ c t u, is_digit c = true ∧ all_chars is_digit t = true ∧
    (s = String c t ∨ s = String c (t +:+ String "." u) ∧ all_chars is_digit u = true).

Lemma positional_numeral c x : 0 <= c → numeral (positional c x).
Proof.
  intros Hc. unfold positional. destruct (Z.leb_spec 0 x).
  - destruct (show_uint_cons c Hc) as (d & t & E & Hd). pose proof (all_digits_show c Hc) as Ha.
    rewrite E in Ha |- *. simpl in Ha. apply andb_true_iff in Ha as [_ Ha].
    exists d, (t +:+ zeros (Z.to_nat x)), "". split; [done|]. split; [|by left].
    by rewrite all_chars_app, Ha, zeros_digits.
  - assert (0 < 10 ^ (- x)) as Hp by (apply Z.pow_pos_nonneg; lia).
    assert (0 <= c / 10 ^ (- x)) as Hi by (by apply Z.div_pos).
    assert (0 <= c mod 10 ^ (- x)) as Hf by (apply Z.mod_pos_bound; lia).
    destruct (show_uint_cons _ Hi) as (d & t & E & Hd). pose proof (all_digits_show _ Hi) as Ha.
    rewrite E in Ha |- *. simpl in Ha. apply andb_true_iff in Ha as [_ Ha].
    exists d, t, (zeros (Z.to_nat (- x) - String.length (show_uint (c mod 10 ^ (- x)))) +:+ show_uint (c mod 10 ^ (- x))).
    split; [done|]. split; [done|]. right. split; [done|].
    rewrite all_chars_app, zeros_digits. by apply all_digits_show.
Qed.

Lemma parse_unsigned_numeral prec emax b s : numeral s → is_Some (parse_unsigned prec emax b s).
Proof.
  intros (c & t & u & Hc & Ht & Hs).
  assert (∃ r, s = String c r) as [r Er] by (destruct Hs as [->|[-> _]]; eauto).
  assert (is_Some (parse_decimal s)) as [[m x] Hd].
  { unfold parse_decimal. assert (Ha : all_chars is_digit (String c t) = true) by (simpl; by rewrite Hc).
    destruct Hs as [->|[-> Hu]].
    - destruct (take_digits_all 0 0 _ Ha) as (m & _ & ->). cbn [String.length].
      destruct (Z.eqb_spec (0 + Z.of_nat (S (String.length t))) 0); [lia|]. by eexists.
    - change (String c (t +:+ String "." u)) with (String c t +:+ String "." u).
      destruct (take_digits_app 0 0 _ (String "." u) Ha) as [m ->]. rewrite take_digits_point. cbv beta iota.
      destruct (take_digits_all m 0 u Hu) as (m' & _ & ->). cbn [String.length].
      destruct (Z.eqb_spec (0 + Z.of_nat (S (String.length t)) + (0 + Z.of_nat (String.length u))) 0); [lia|].
      by eexists. }
  subst s. unfold parse_unsigned. repeat (destruct (decide _); [by eexists|]). rewrite Hd. by eexists.
Qed.

Lemma shortest_nonneg prec emax m e : 0 <= (shortest prec emax m e).1.
Proof.
  unfold shortest. destruct (if 0 <=? e then (Z.pos m * 2 ^ e, 1) else (Z.pos m, 2 ^ (- e))) as [n d].
  destruct (List.find _ _) as [c|] eqn:E.
  - apply List.find_some in E as [_ E]. unfold reads_back in E. apply andb_true_iff in E as [E _]. lia.
  - destruct (Z.leb_spec 0 e); simpl; [apply Z.mul_nonneg_nonneg; [lia|apply Z.pow_nonneg; lia]|].
    apply Z.mul_nonneg_nonneg; [lia|apply Z.pow_nonneg; lia].
Qed.

(** The text of any float can be read in any format. *)
Lemma parse_show_float prec emax prec' emax' x : is_Some (parse_float prec emax (show_float prec' emax' x)).
Proof.
  destruct x as [[]|[]| |s m e]; [eexists; reflexivity..|].
  pose proof (shortest_nonneg prec' emax' m e) as Hc. cbn [show_float].
  destruct (shortest prec' emax' m e) as [c ex]. pose proof (positional_numeral c ex Hc) as Hn.
  destruct s; [by apply parse_unsigned_numeral|].
  change (is_Some (parse_float prec emax (positional c ex))).
  pose proof Hn as (d & t & u & Hd & _ & Hs).
  assert (∃ r, positional c ex = String d r) as [r Er] by (destruct Hs as [->|[-> _]]; eauto).
  rewrite Er in Hn |- *. rewrite parse_float_digit by done. by apply parse_unsigned_numeral.
Qed.
