(* ===== verification/Units.v ===== *)
(** * Units of measure ([sensors/units.rs])

    The [Unit] type, its display and the conversions between units of one family. *)

From S2P Require Import Prelude Floats.
From Stdlib Require Import SpecFloat.

Inductive Unit :=
  | Numeric | Joule | MilliJoule | MicroJoule
  | MegaWatt | KiloWatt | Watt | MilliWatt | MicroWatt
  | Percentage | Bytes | KiloBytes | MegaBytes | GigaBytes
  | MegaHertz | MicroSeconds | Cycles.

(** [PartialEq] compares the [Debug] names, which are the constructors' names. *)
#[export] Instance Unit_eq_dec : EqDecision Unit.
Proof. solve_decision. Defined.

(** [Display]. *)
Definition unit_to_string (u : Unit) : string :=
  match u with
  | Joule => "Joules"
  | MilliJoule => "MilliJoules"
  | MicroJoule => "MicroJoules"
  | MilliWatt => "MilliWatts"
  | MicroWatt => "MicroWatts"
  | Watt => "Watts"
  | KiloWatt => "KiloWatts"
  | MegaWatt => "MegaWatts"
  | Percentage => "Percentage"
  | Bytes => "Bytes"
  | KiloBytes => "KiloBytes"
  | MegaBytes => "MegaBytes"
  | GigaBytes => "GigaBytes"
  | MegaHertz => "MegaHertz"
  | MicroSeconds => "MicroSeconds"
  | Cycles => "Cycles"
  | Numeric => ""
  end.

(** [iter().position(|x| x == u)]. *)
Fixpoint position (u : Unit) (l : list Unit) : option Z :=
  match l with
  | [] => None
  | v :: l' => if decide (v = u) then Some 0 else (λ n, n + 1) <$> position u l'
  end.

Definition energy_order : list Unit := [Joule; MilliJoule; MicroJoule].
Definition power_order : list Unit := [MegaWatt; KiloWatt; Watt; MilliWatt; MicroWatt].

(** [1000.0_f64.powf(k as f64)] for the whole exponents the table lookups give (0 to 4):
    the power is then an integer below [2 ^ 53]. *)
Definition powf_1000 (k : Z) : float := F64.of_Z (1000 ^ k).

Definition get_mult (pos_source pos_dest : Z) : float :=
  match pos_dest ?= pos_source with
  | Gt => F64.mul F64.one (powf_1000 (pos_dest - pos_source))
  | Lt => F64.div F64.one (powf_1000 (pos_source - pos_dest))
  | Eq => F64.one
  end.

(** [Unit::to]: [Ok] or a panic; the [Err] of its type is never built. *)
Definition to (measure : float) (source_unit dest_unit : Unit) : outcome (float + string) :=
  match position source_unit energy_order, position dest_unit energy_order with
  | Some s, Some d => Done (inl (F64.mul measure (get_mult s d)))
  | _, _ =>
      match position source_unit power_order, position dest_unit power_order with
      | Some s, Some d => Done (inl (F64.mul measure (get_mult s d)))
      | _, _ => Panic
      end
  end.

(** The family of a unit and its rank in it, the scale growing finer. *)
Inductive family := Energy | Power | Other.

#[export] Instance family_eq_dec : EqDecision family.
Proof. solve_decision. Defined.

Definition family_of (u : Unit) : family :=
  match u with
  | Joule | MilliJoule | MicroJoule => Energy
  | MegaWatt | KiloWatt | Watt | MilliWatt | MicroWatt => Power
  | _ => Other
  end.

Definition rank (u : Unit) : Z :=
  match u with
  | Joule | MegaWatt => 0
  | MilliJoule | KiloWatt => 1
  | MicroJoule | Watt => 2
  | MilliWatt => 3
  | MicroWatt => 4
  | _ => 0
  end.

Lemma to_factor m u v :
  to m u v = if decide (family_of u = family_of v ∧ family_of u ≠ Other)
             then Done (inl (F64.mul m (get_mult (rank u) (rank v)))) else Panic.
Proof. destruct u, v; reflexivity. Qed.

(** A conversion succeeds exactly between two units of one family (energy or power);
    every other request panics, and no request returns [Err]. *)
Theorem to_succeeds_iff m u v :
  (∃ x, to m u v = Done (inl x)) ↔ (family_of u = family_of v ∧ family_of u ≠ Other).
Proof.
  rewrite to_factor. case_decide as Hd; split; intros H; eauto; [|done].
  by destruct H as [x Hx].
Qed.

(** Converting an integral measure to a finer unit is exact while the result is below
    [2 ^ 53]. *)
Theorem to_finer_exact n u v :
  family_of u = family_of v → family_of u ≠ Other → rank u <= rank v →
  0 <= n → n * 1000 ^ (rank v - rank u) < 2 ^ 53 →
  to (F64.of_Z n) u v = Done (inl (F64.of_Z (n * 1000 ^ (rank v - rank u)))).
Proof.
  intros Hf Ho Hr Hn Hb. rewrite to_factor. rewrite decide_True by done.
  do 2 f_equal. unfold get_mult.
  assert (0 <= rank v - rank u <= 4) as Hk
    by (destruct u, v; simpl in *; try congruence; lia).
  assert (Hmul : F64.mul F64.one (powf_1000 (rank v - rank u)) = powf_1000 (rank v - rank u)).
  { assert (rank v - rank u = 0 ∨ rank v - rank u = 1 ∨ rank v - rank u = 2 ∨
            rank v - rank u = 3 ∨ rank v - rank u = 4) as Hc by lia.
    destruct Hc as [->|[->|[->|[->| ->]]]]; reflexivity. }
  assert (1 <= 1000 ^ (rank v - rank u)).
  { apply (Z.pow_le_mono_r 1000 0). all: lia. }
  destruct (Z.compare_spec (rank v) (rank u)) as [E|E|E]; [|lia|].
  - rewrite E, Z.sub_diag in *. change F64.one with (F64.of_Z 1).
    apply mul_exact; lia.
  - rewrite Hmul. apply mul_exact; try lia. apply Z.le_lt_trans with (1000 ^ 4); [|done].
    apply Z.pow_le_mono_r; lia.
Qed.

Lemma to_finer_exact_witness :
  to (F64.of_Z 12) MegaWatt MicroWatt = Done (inl (F64.of_Z 12000000000000)).
Proof. apply (to_finer_exact 12 MegaWatt MicroWatt); done. Defined.
