(* ===== verification/Env.v ===== *)
(** * The environment of the program

    Everything the sources read from outside: the system clock, the file system, the
    [procfs] and [sysinfo] crates, the [perf_event] counters and the eBPF maps loaded in
    the kernel.  Each is an interface: a class whose operations take the state of the
    outside world and return the next one, so that two readings of the same file or of
    the clock may differ.  Nothing is assumed about them except where a theorem says so. *)

From S2P Require Import Prelude Floats.
From Stdlib Require Import SpecFloat.

(** [std::time::Duration]: whole seconds and nanoseconds below one second. *)
Record Duration := mkDuration { secs : Z; nanos : Z }.

#[export] Instance Duration_eq_dec : EqDecision Duration.
Proof. solve_decision. Defined.

(** [Ord] on durations. *)
Definition duration_leb (a b : Duration) : bool :=
  (secs a <? secs b) || ((secs a =? secs b) && (nanos a <=? nanos b)).

(** [a - b]: panics when the result would be negative. *)
Definition duration_sub (a b : Duration) : outcome Duration :=
  if duration_leb b a then
    Done (if nanos b <=? nanos a then mkDuration (secs a - secs b) (nanos a - nanos b)
          else mkDuration (secs a - secs b - 1) (1000000000 + nanos a - nanos b))
  else Panic.

(** The clock and the file system. *)
Class Os := {
  world : Type;
  (** [SystemTime::now().duration_since(UNIX_EPOCH)]; [None] before the epoch. *)
  clock : world → option Duration * world;
  (** [fs::read_to_string]; [None] for [Err]. *)
  read_to_string : string → world → option string * world;
}.

(** ** Effects: a computation reads and changes the world, and may panic. *)

Definition io `{Os} (A : Type) : Type := world → outcome (A * world).

Section Io.
  Context `{Os}.

#[export] Instance io_ret : MRet io := λ A a w, Done (a, w).
#[export] Instance io_bind : MBind io :=
    λ A B f m w, match m w with Done (a, w') => f a w' | Panic => Panic end.

Definition lift {A} (m : outcome A) : io A :=
    λ w, match m with Done a => Done (a, w) | Panic => Panic end.

  (** [current_system_time_since_epoch] ([sensors/utils.rs]): unwraps. *)
Definition current_system_time_since_epoch : io Duration :=
    λ w, match clock w with (Some d, w') => Done (d, w') | (None, _) => Panic end.

Definition read_file (path : string) : io (option string) :=
    λ w, Done (read_to_string path w).

Fixpoint io_fold {A S} (f : S → A → io S) (st : S) (l : list A) : io S :=
    match l with
    | [] => mret st
    | x :: l' => st' ← f st x; io_fold f st' l'
    end.

  (** [for x in v.iter_mut() { ... }] and [iter().map(...)] with effects, in order. *)
Fixpoint io_map {A B} (f : A → io B) (l : list A) : io (list B) :=
    match l with
    | [] => mret []
    | x :: l' => y ← f x; ys ← io_map f l'; mret (y :: ys)
    end.

Lemma io_bind_inv {A B} (m : io A) (f : A → io B) w b w' :
    (m ≫= f) w = Done (b, w') → ∃ a w1, m w = Done (a, w1) ∧ f a w1 = Done (b, w').
  Proof.
    unfold mbind, io_bind. destruct (m w) as [[a w1]|]; [eauto|done].
  Qed.

Lemma io_bind_done {A B} (m : io A) (f : A → io B) w a w' : m w = Done (a, w') → (m ≫= f) w = f a w'.
  Proof. unfold mbind, io_bind. by intros ->. Qed.

Lemma io_bind_panic {A B} (m : io A) (f : A → io B) w :
    (∀ a w1, m w = Done (a, w1) → f a w1 = Panic) → (m ≫= f) w = Panic.
  Proof. unfold mbind, io_bind. destruct (m w) as [[a w1]|]; eauto. Qed.

Lemma lift_inv {A} (m : outcome A) w a w' :
    lift m w = Done (a, w') → m = Done a ∧ w' = w.
  Proof. unfold lift. destruct m; [by intros [= -> ->]|done]. Qed.

Lemma io_map_Forall2 {A B} (f : A → io B) (R : A → B → Prop) l w k w' :
    (∀ x w1 y w2, x ∈ l → f x w1 = Done (y, w2) → R x y) →
    io_map f l w = Done (k, w') → Forall2 R l k.
  Proof.
    revert w k. induction l as [|x l IH]; intros w k Hf; simpl.
    - intros [= <- <-]. constructor.
    - intros (y & w1 & Hy & Hrest)%io_bind_inv.
      apply io_bind_inv in Hrest as (ys & w2 & Hys & [= <- <-]).
      constructor; [|eapply IH; [|done]]; eauto using list_elem_of_here, list_elem_of_further.
  Qed.

Lemma io_fold_inv {A S} (f : S → A → io S) (I : S → Prop) l st w st' w' :
    (∀ s x w1 s' w2, x ∈ l → I s → f s x w1 = Done (s', w2) → I s') →
    I st → io_fold f st l w = Done (st', w') → I st'.
  Proof.
    revert st w. induction l as [|x l IH]; simpl; intros st w Hf Hst.
    - by intros [= <- <-].
    - intros (s & w1 & Hs & Hl)%io_bind_inv. eapply (IH s w1); [| |done].
      + intros. eapply Hf; eauto using list_elem_of_further.
      + eapply Hf; eauto using list_elem_of_here.
  Qed.
End Io.

(** ** The [procfs] crate: the fields of its structures that the sources use. *)

Record CpuTime := {
  ct_user : Z; ct_nice : Z; ct_system : Z; ct_idle : Z;
  ct_iowait : option Z; ct_irq : option Z; ct_softirq : option Z;
  ct_steal : option Z; ct_guest : option Z; ct_guest_nice : option Z;
}.

Record KernelStats := {
  ks_total : CpuTime;
  ks_cpu_time : list CpuTime;
  ks_ctxt : Z;
  ks_processes : Z;
  ks_procs_running : option Z;
  ks_procs_blocked : option Z;
}.

Class Procfs `{Os} := {
  (** [CpuInfo::new().ok()], as its [get_info(cpu)]. *)
  cpu_info : world → option (Z → option (gmap string string)) * world;
  (** [KernelStats::new().ok()]. *)
  kernel_stats : world → option KernelStats * world;
  (** [process::Process::new(pid).and_then(|p| p.stat()).ok()]: [(utime, stime)]. *)
  process_stat : Z → world → option (Z * Z) * world;
}.

Definition read_kernel_stats `{Procfs} : io (option KernelStats) :=
  λ w, Done (kernel_stats w).

Definition read_process_stat `{Procfs} (pid : Z) : io (option (Z * Z)) :=
  λ w, Done (process_stat pid w).

(** ** More of the file system

    A directory listing is a list of entries, [None] for an entry that could not be read,
    in the order in which the file system returns them.  Paths are byte strings. *)

Class FileSystem `{Os} := {
  (** [fs::read_dir], collected; [None] for [Err]. *)
  read_dir : string → world → option (list (option string)) * world;
  is_dir : string → world → bool * world;
  (** [File::open(path)] and [read_at(buf, offset)] of a buffer of the given length: the
      bytes read, at most as many. *)
  read_at : string → Z → nat → world → option (list Z) * world;
}.

Definition effect `{Os} {A} (f : world → A * world) : io A := λ w, Done (f w).

(** ** The [perf_event] crate: hardware counters. *)

Inductive Hardware := INSTRUCTIONS | CPU_CYCLES.

Record CountAndTime := { count : Z; time_enabled : Z; time_running : Z }.

Class PerfEvents `{Os} := {
  Counter : Type;
  (** [Builder::new(event).one_cpu(cpu).any_pid().build().ok()], then [enable]. *)
  build_counter : Hardware → Z → world → option Counter * world;
  enable : Counter → world → world;
  (** [read_count_and_time().ok()]. *)
  read_count_and_time : Counter → world → option CountAndTime * world;
}.

(** ** The [sysinfo] crate *)

Inductive ProcessStatus :=
  | Idle | Run | Sleep | Stop | Zombie | Tracing | Dead | Wakekill | Waking | Parked
  | LockBlocked | UninterruptibleDiskSleep | Unknown (code : Z).

#[export] Instance ProcessStatus_eq_dec : EqDecision ProcessStatus.
Proof. solve_decision. Defined.

Record DiskUsage := {
  read_bytes : Z; written_bytes : Z; total_read_bytes : Z; total_written_bytes : Z;
}.

(** What the sources read of a [sysinfo::Process].  [p_exe] is [exe().to_str()]: [None]
    when the path is not UTF-8. *)
Record SysProcess := {
  p_pid : Z;
  p_exe : option string;
  p_cmd : list string;
  p_cpu_usage : float;
  p_memory : Z;
  p_virtual_memory : Z;
  p_disk_usage : DiskUsage;
  p_status : ProcessStatus;
}.

(** What they read of a [sysinfo::Cpu] and of a [sysinfo::Disk]. *)
Record SysCpu := { c_name : string; c_frequency : Z; c_vendor_id : string; c_brand : string }.

Inductive DiskType := SSD | HDD | UnknownDisk.

Record SysDisk := {
  d_file_system : option string;
  d_mount_point : option string;
  d_type : DiskType;
  d_is_removable : bool;
  d_name : option string;
  d_total_space : Z;
  d_available_space : Z;
}.

(** [System] is the crate's snapshot of the host: [refresh_*] update it, the accessors
    only read it.  [processes] lists the values of the crate's hash map in its iteration
    order. *)
Class Sysinfo `{Os} := {
  System : Type;
  new_all : world → System * world;
  sys_refresh_processes : System → world → System * world;
  sys_refresh_components : System → world → System * world;
  sys_refresh_memory : System → world → System * world;
  sys_refresh_disks : System → world → System * world;
  sys_refresh_disks_list : System → world → System * world;
  sys_refresh_cpu : System → world → System * world;
  cpus : System → list SysCpu;
  processes : System → list SysProcess;
  sys_process : System → Z → option SysProcess;
  global_cpu_usage : System → float;
  global_cpu_frequency : System → Z;
  load_average : System → float * float * float;
  disks : System → list SysDisk;
  total_memory : System → Z;
  available_memory : System → Z;
  free_memory : System → Z;
  total_swap : System → Z;
  free_swap : System → Z;
}.

(** The processes of a snapshot are those of the directories of [/proc] whose names are
    numbers. *)
Class SysinfoLaws `{Sysinfo} := processes_pos s : Forall (λ p, 0 <= p_pid p) (processes s).

(** ** The [aya] crate: the maps of the loaded eBPF object, from user space. *)

(** Where a program is attached. *)
Inductive AttachPoint :=
  | RawTracePointAt (name : string)
  | TracePointAt (category name : string)
  (** The software clock of a CPU, at a frequency in hertz. *)
  | CpuClock (cpu frequency : Z).

#[export] Instance AttachPoint_eq_dec : EqDecision AttachPoint.
Proof. solve_decision. Defined.

Class Aya `{Os} := {
  Ebpf : Type;
  (** A ring buffer consumer; an [Array<_, u64>]; a [PerCpuHashMap<_, u32, u64>]; the
      [Array<_, u16>] of the sockets. *)
  RingBuf : Type;
  CpuArray : Type;
  PidMap : Type;
  SocketArray : Type;
  (** [Ebpf::load] of the object embedded in the program; [None] for [Err]. *)
  ebpf_load : world → option Ebpf * world;
  (** [program_mut(name)], converted to its type: absent, of another type, or there. *)
  has_program : Ebpf → string → option bool;
  load_program : Ebpf → string → world → option unit * world;
  attach_program : Ebpf → string → AttachPoint → world → option unit * world;
  (** [aya::util::online_cpus]. *)
  online_cpus : world → option (list Z) * world;
  (** [take_map] of each map, converted to its type. *)
  take_pid_times : Ebpf → world → option PidMap * world;
  take_cpu_time : Ebpf → world → option CpuArray * world;
  take_cpu_state_events : Ebpf → world → option RingBuf * world;
  (** [map_mut("CPU_TO_SOCKET")], converted; its length; [set(i, v, 0).ok()]. *)
  cpu_to_socket_map : Ebpf → option SocketArray;
  socket_array_len : SocketArray → Z;
  socket_array_set : SocketArray → Z → Z → world → option unit * world;
  (** The next item of a ring buffer, as bytes, and the items that wait in it. *)
  ring_next : RingBuf → world → option (list Z) * world;
  ring_items : RingBuf → world → list (list Z);
  (** [map.get(&i, 0).ok()]. *)
  array_get : CpuArray → Z → world → option Z * world;
  (** [map.get(&pid, 0).ok()], one value per possible CPU. *)
  pid_get : PidMap → Z → world → option (list Z) * world;
}.

(** A ring buffer is read in order, and nothing is added while it is read. *)
Class RingLaws `{Aya} := {
  ring_next_empty b w : ring_items b w = [] → ring_next b w = (None, w);
  ring_next_item b w i l : ring_items b w = i :: l →
    ∃ w', ring_next b w = (Some i, w') ∧ ring_items b w' = l;
}.

(** ** The [regex] crate: whether a pattern matches a text, and where it does first. *)
Class Regex := is_match : string → string → bool.

Class Captures := captures : string → string → option string.

(** ** The order in which [std::collections::HashMap] is iterated

    It depends on the keys the process drew at random, hence on the world; all that a law
    says is that each entry comes once. *)
Class HashMaps `{Os} := hash_iter : ∀ A : Type, gmap string A → world → list (string * A) * world.

Class HashLaws `{HashMaps} := hash_iter_perm A (m : gmap string A) w : (hash_iter A m w).1 ≡ₚ map_to_list m.

Definition iterate `{HashMaps} {A} (m : gmap string A) : io (list (string * A)) := effect (hash_iter A m).

Lemma iterate_inv `{HashLaws} {A} (m : gmap string A) w l w' :
  iterate m w = Done (l, w') → l ≡ₚ map_to_list m.
Proof. unfold iterate, effect. intros [= E]. rewrite <- (hash_iter_perm A m w). by rewrite E. Qed.

(** ** The [docker_sync] and [k8s_sync] crates, and control groups *)

Record Container := mkContainer {
  container_Id : string;
  container_Names : list string;
  container_Labels : option (gmap string string);
}.

(** The identifiers of the containers of a pod, when it has a status that lists them; its
    name and its name space; the name of its node, when it has a specification. *)
Record Pod := mkPod {
  pod_statuses : option (option (list (option string)));
  pod_name : option string;
  pod_namespace : option string;
  pod_spec : option (option string);
}.

Class ContainerRuntimes `{Os} := {
  Docker : Type;
  Kubernetes : Type;
  (** [Docker::connect], and [Kubernetes::connect] of the file [/root/.kube/config]. *)
  docker_connect : world → option Docker * world;
  kubernetes_connect : world → option Kubernetes * world;
  (** [get_version], its [Version]; the events between two times; the containers that run. *)
  docker_get_version : Docker → world → option string * world;
  docker_get_events : Docker → option string → option string → world → option (list string) * world;
  docker_get_containers : Docker → world → option (list Container) * world;
  kubernetes_list_pods : Kubernetes → world → option (list Pod) * world;
  (** [procfs::process::Process::new(pid).and_then(|p| p.cgroups()).ok()]: the path names. *)
  process_cgroups : Z → world → option (list string) * world;
}.

(** ** Where the exporters send their metrics *)

(** [hostname::get], as text. *)
Class Hostname `{Os} := get_host : world → option string * world.

(** [get_hostname] ([exporters/utils.rs]): panics without a name in UTF-8. *)
Definition get_hostname `{Hostname} : io string := h ← effect get_host; lift (unwrap h).

(** [fs::create_dir_all] and [fs::write]; [None] for [Err]. *)
Class FileWrites `{Os} := {
  create_dir_all : string → world → option unit * world;
  write_file : string → string → world → option unit * world;
}.

(** The [riemann_client] crate: an event, and whether it could be sent. *)
Inductive EventMetric := MetricD (x : float) | MetricSint64 (n : Z).

Record Event := mkRiemannEvent {
  ev_time : Z;
  ev_ttl : float;
  ev_host : string;
  ev_service : string;
  ev_state : string;
  ev_tags : list string;
  ev_attributes : list (string * string);
  ev_description : string;
  ev_metric : EventMetric;
}.

Class Riemann `{Os} := {
  Client : Type;
  (** [Client::connect] to an address and a port, and [connect_tls], which also takes the
      files of the authority, of the certificate and of the key. *)
  connect : string → Z → world → option Client * world;
  connect_tls : string → Z → string → string → string → world → option Client * world;
  send_event : Client → Event → world → option unit * world;
}.

(** The [warp10] crate: a point, its labels and its text; [None] for an error.  A client is
    made from the text of an address, and a token is given with the points. *)
Record Point := mkPoint { pt_name : string; pt_labels : list (string * string); pt_value : string }.

Class Warp10 `{Os} := {
  Warp10Client : Type;
  new_client : string → option Warp10Client;
  post : Warp10Client → string → list Point → world → option string * world;
}.

(** The [isahc] crate: a text posted to an address, with or without the verification of the
    certificate; [None] for an error.  The [hyper] crate: an address and a port to serve,
    [None] when the server panics because it cannot have them. *)
Class Http `{Os} := {
  http_post : string → bool → string → world → option string * world;
  http_bind : string → Z → world → option unit * world;
}.

(** [std::env::var] does not change while the program runs. *)
Class EnvVars := env_var : string → option string.

(** [File::create] and [stdout()] as [dyn Write], and [write_all]. *)
Class Sinks `{Os} := {
  Sink : Type;
  stdout_sink : Sink;
  create_file : string → world → option Sink * world;
  sink_write : Sink → string → world → option unit * world;
}.

(** What a sink has received grows by what is written; a new file is empty. *)
Class SinkLaws `{Sinks} (received : Sink → world → string) := {
  create_empty p w k w' : create_file p w = (Some k, w') → received k w' = ""%string;
  write_received k s w u w' : sink_write k s w = (Some u, w') → received k w' = (received k w +:+ s)%string;
}.

(** [Instant::now], in nanoseconds since some fixed moment, and [thread::sleep]. *)
Class Instants `{Os} := {
  instant : world → Z * world;
  sleep : Duration → world → world;
}.

Definition as_nanos (d : Duration) : Z := secs d * 1000000000 + nanos d.

(** [Duration::new]: carries the nanoseconds beyond a second; panics on overflow. *)
Definition duration_new (s n : Z) : outcome Duration :=
  let s := s + n / 1000000000 in
  if s <=? 2 ^ 64 - 1 then Done (mkDuration s (n mod 1000000000)) else Panic.

(** ** Windows: the driver of the sensor, processor groups and [cpuid]

    A level of the extended topology that [cpuid] reports on the current core. *)
Record TopologyLevel := mkLevel { is_core_level : bool; level_processors : Z; level_x2apic_id : Z }.

Class Windows `{Os} := {
  Device : Type;
  (** [CreateFileW] of the driver, [DeviceIoControl] with a code and a request of one word,
      which answers one word, and [CloseHandle]. *)
  open_device : string → world → option Device * world;
  device_io_control : Device → Z → Z → world → option Z * world;
  close_device : Device → world → bool * world;
  (** [GetThreadGroupAffinity], and [SetThreadGroupAffinity] with a mask and a group. *)
  get_group_affinity : world → bool * world;
  set_group_affinity : Z → Z → world → bool * world;
  active_group_count : world → Z * world;
  (** The [core_affinity] and [raw_cpuid] crates. *)
  get_core_ids : world → option (list Z) * world;
  set_for_current : Z → world → bool * world;
  cpuid_levels : world → option (list TopologyLevel) * world;
}.

(** The constants of the [x86] and [windows] crates. *)
Class Registers := {
  MSR_RAPL_POWER_UNIT : Z;
  MSR_PKG_ENERGY_STATUS : Z;
  MSR_DRAM_ENERGY_STATUS : Z;
  MSR_PP0_ENERGY_STATUS : Z;
  MSR_PP1_ENERGY_STATUS : Z;
  FILE_DEVICE_UNKNOWN : Z;
  METHOD_BUFFERED : Z;
  FILE_READ_DATA : Z;
  FILE_WRITE_DATA : Z;
}.
