(* ===== verification/Simulated.v ===== *)
(** * A simulated host

    A concrete instance of the environment, on which the definitions can be evaluated: the
    world is a time in seconds, which each reading of the clock advances, and what the
    operating system and the libraries answer is a function of the time. *)

From S2P Require Import Prelude Floats Env.

(** The content of the files, by path and time. *)
Definition files := string → Z → option string.

Definition no_files : files := λ _ _, None.

Definition simulated (content : files) : Os := {|
  world := Z;
  clock := λ t, (Some (mkDuration t 0), t + 1);
  read_to_string := λ p t, (content p t, t);
|}.

Section Host.
Context (content : files).

(** No directory; a model-specific register counts the seconds. *)
Definition simulated_fs : @FileSystem (simulated content) :=
  @Build_FileSystem (simulated content)
    (λ _ (t : Z), (None, t)) (λ _ (t : Z), (false, t)) (λ _ _ _ (t : Z), (Some [t mod 256], t)).

Lemma simulated_bytes p o n w bs w' :
  @read_at (simulated content) simulated_fs p o n w = (Some bs, w') → Forall (λ b, 0 <= b < 256) bs.
Proof.
  simpl. intros [= <- <-]. constructor; [|done]. apply Z.mod_pos_bound. lia.
Qed.

(** A processor with one socket and two CPUs, 80% busy since the epoch. *)
Definition simulated_times (t : Z) : CpuTime := {|
  ct_user := 6 * t; ct_nice := 0; ct_system := 2 * t; ct_idle := 2 * t;
  ct_iowait := Some 0; ct_irq := Some 0; ct_softirq := Some 0; ct_steal := Some 0;
  ct_guest := Some 0; ct_guest_nice := Some 0 |}.

Definition simulated_procfs : @Procfs (simulated content) :=
  @Build_Procfs (simulated content)
    (λ t : Z, (Some (λ _, Some {["physical id"%string := "0"%string]}), t))
    (λ t : Z,
      (Some {| ks_total := simulated_times t; ks_cpu_time := [simulated_times t; simulated_times t]; ks_ctxt := t;
               ks_processes := t; ks_procs_running := Some 1; ks_procs_blocked := Some 0 |}, t))
    (λ _ (t : Z), (Some (t, 0), t)).

Definition simulated_perf : @PerfEvents (simulated content) :=
  @Build_PerfEvents (simulated content) unit
    (λ _ _ (t : Z), (Some tt, t)) (λ _ (t : Z), t)
    (λ _ (t : Z),
      (Some {| count := 1000 * t; time_enabled := t; time_running := t |}, t)).

Definition simulated_disk (name : string) (total available : Z) : SysDisk := {|
  d_file_system := Some "ext4"; d_mount_point := Some "/"; d_type := SSD; d_is_removable := false;
  d_name := Some name; d_total_space := total; d_available_space := available |}.

(** The processes [ps], on a host with [n] CPUs of which half the time is used and two
    disks. *)
Definition simulated_sysinfo (n : nat) (ps : list SysProcess) : @Sysinfo (simulated content) :=
  @Build_Sysinfo (simulated content) unit
    (λ t : Z, (tt, t)) (λ _ (t : Z), (tt, t)) (λ _ (t : Z), (tt, t)) (λ _ (t : Z), (tt, t))
    (λ _ (t : Z), (tt, t)) (λ _ (t : Z), (tt, t)) (λ _ (t : Z), (tt, t))
    (λ _, replicate n {| c_name := "cpu0"; c_frequency := 2000; c_vendor_id := ""; c_brand := "" |})
    (λ _, ps)
    (λ _ p, List.find (λ q, p_pid q =? p) ps)
    (λ _, F32.of_Z 50) (λ _, 2000) (λ _, (F64.one, F64.zero, F64.one))
    (λ _, [simulated_disk "sda" 500 100; simulated_disk "sdb" 900 800])
    (λ _, 8000) (λ _, 4000) (λ _, 2000) (λ _, 1000) (λ _, 1000).

(** An eBPF object; the [t]-th item of its ring buffer is read at time [t]. *)
Definition simulated_aya (events : list (list Z)) : @Aya (simulated content) :=
  @Build_Aya (simulated content) unit unit unit unit unit
    (λ t : Z, (Some tt, t)) (λ _ _, Some true) (λ _ _ (t : Z), (Some tt, t))
    (λ _ _ _ (t : Z), (Some tt, t)) (λ t : Z, (Some [0; 1; 2; 3], t))
    (λ _ (t : Z), (None, t)) (λ _ (t : Z), (None, t)) (λ _ (t : Z), (Some tt, t))
    (λ _, Some tt) (λ _, 4) (λ _ _ _ (t : Z), (Some tt, t))
    (λ _ (t : Z), match drop (Z.to_nat t) events with
                  | [] => (None, t)
                  | i :: _ => (Some i, Z.max 0 t + 1)
                  end)
    (λ _ (t : Z), drop (Z.to_nat t) events)
    (λ _ _ (t : Z), (Some t, t)) (λ _ _ (t : Z), (None, t)).
End Host.

(** The monotonic clock shows the same time; a pause ends at the next second. *)
Definition simulated_instants (content : files) : @Instants (simulated content) :=
  Build_Instants (simulated content) (λ t : Z, (t * 1000000000, t)) (λ d (t : Z), t + as_nanos d / 1000000000 + 1).

(** Hash maps iterated in the order of their representation, and a docker daemon that runs
    the containers given, the one of a process being [cgroup]. *)
Section Containers.
Context (content : files).

Definition simulated_maps : @HashMaps (simulated content) := λ A m (t : Z), (map_to_list m, t).

Lemma simulated_maps_laws : @HashLaws (simulated content) simulated_maps.
Proof. by intros A m w. Qed.

Definition simulated_runtimes (containers : list Container) (cgroup : string)
    : @ContainerRuntimes (simulated content) :=
  @Build_ContainerRuntimes (simulated content) unit unit
    (λ t : Z, (Some tt, t)) (λ t : Z, (None, t)) (λ _ (t : Z), (Some "20.10"%string, t))
    (λ _ _ _ (t : Z), (Some [], t)) (λ _ (t : Z), (Some containers, t)) (λ _ (t : Z), (Some [], t))
    (λ _ (t : Z), (Some [cgroup], t)).
End Containers.

(** Servers that accept everything. *)
Definition simulated_riemann (content : files) : @Riemann (simulated content) :=
  @Build_Riemann (simulated content) unit (λ _ _ (t : Z), (Some tt, t)) (λ _ _ _ _ _ (t : Z), (Some tt, t))
    (λ _ _ (t : Z), (Some tt, t)).

Definition simulated_warp10 (content : files) : @Warp10 (simulated content) :=
  @Build_Warp10 (simulated content) unit (λ _, Some tt) (λ _ _ _ (t : Z), (Some "ok"%string, t)).

Definition simulated_http (content : files) : @Http (simulated content) :=
  @Build_Http (simulated content) (λ _ _ _ (t : Z), (Some "ok"%string, t)) (λ _ _ (t : Z), (Some tt, t)).

Definition simulated_writes (content : files) : @FileWrites (simulated content) :=
  @Build_FileWrites (simulated content) (λ _ (t : Z), (Some tt, t)) (λ _ _ (t : Z), (Some tt, t)).

Definition simulated_sinks (content : files) : @Sinks (simulated content) :=
  @Build_Sinks (simulated content) unit tt (λ _ (t : Z), (Some tt, t)) (λ _ _ (t : Z), (Some tt, t)).
