(* ===== verification/Recorded.v ===== *)
(** * A host that keeps what is written

    Any host, with one file beside it: the world is the world of the host and the text that
    the file has received.  Every operation of the host leaves the file alone. *)

From S2P Require Import Prelude Env.

Section Recorded.
Context {base : Os}.

(** An operation of the host. *)
Definition beside {W A} (f : W → A * W) : W * string → A * (W * string) :=
  λ w, let '(a, w') := f w.1 in (a, (w', w.2)).

Definition recorded : Os := {|
  world := @world base * string;
  clock := beside clock;
  read_to_string := λ p, beside (read_to_string p);
|}.

Definition recorded_fs `{!@FileSystem base} : @FileSystem recorded :=
  @Build_FileSystem recorded (λ p, beside (read_dir p)) (λ p, beside (is_dir p)) (λ p o n, beside (read_at p o n)).

Definition recorded_procfs `{!@Procfs base} : @Procfs recorded :=
  @Build_Procfs recorded (beside cpu_info) (beside kernel_stats) (λ p, beside (process_stat p)).

Definition recorded_perf `{!@PerfEvents base} : @PerfEvents recorded :=
  @Build_PerfEvents recorded Counter (λ e c, beside (build_counter e c)) (λ c w, (enable c w.1, w.2))
    (λ c, beside (read_count_and_time c)).

Definition recorded_sysinfo `{!@Sysinfo base} : @Sysinfo recorded :=
  @Build_Sysinfo recorded System (beside new_all) (λ s, beside (sys_refresh_processes s))
    (λ s, beside (sys_refresh_components s)) (λ s, beside (sys_refresh_memory s))
    (λ s, beside (sys_refresh_disks s)) (λ s, beside (sys_refresh_disks_list s)) (λ s, beside (sys_refresh_cpu s))
    cpus processes sys_process global_cpu_usage global_cpu_frequency load_average disks total_memory
    available_memory free_memory total_swap free_swap.

Definition recorded_aya `{!@Aya base} : @Aya recorded :=
  @Build_Aya recorded Ebpf RingBuf CpuArray PidMap SocketArray
    (beside ebpf_load) has_program (λ e n, beside (load_program e n)) (λ e n a, beside (attach_program e n a))
    (beside online_cpus) (λ e, beside (take_pid_times e)) (λ e, beside (take_cpu_time e))
    (λ e, beside (take_cpu_state_events e)) cpu_to_socket_map socket_array_len
    (λ a i v, beside (socket_array_set a i v)) (λ b, beside (ring_next b)) (λ b w, ring_items b w.1)
    (λ a i, beside (array_get a i)) (λ m p, beside (pid_get m p)).

Definition recorded_maps `{!@HashMaps base} : @HashMaps recorded := λ A m, beside (hash_iter A m).

Definition recorded_runtimes `{!@ContainerRuntimes base} : @ContainerRuntimes recorded :=
  @Build_ContainerRuntimes recorded Docker Kubernetes (beside docker_connect) (beside kubernetes_connect)
    (λ d, beside (docker_get_version d)) (λ d s u, beside (docker_get_events d s u))
    (λ d, beside (docker_get_containers d)) (λ k, beside (kubernetes_list_pods k))
    (λ p, beside (process_cgroups p)).

Definition recorded_instants `{!@Instants base} : @Instants recorded :=
  @Build_Instants recorded (beside instant) (λ d w, (sleep d w.1, w.2)).

Definition recorded_hostname `{!@Hostname base} : @Hostname recorded := beside (@get_host base _).

(** The only sink. *)
Definition recorded_sinks : @Sinks recorded :=
  @Build_Sinks recorded unit tt (λ _ w, (Some tt, (w.1, ""%string))) (λ _ s w, (Some tt, (w.1, w.2 +:+ s))).

Definition file_text (_ : @Sink recorded recorded_sinks) (w : @world recorded) : string := w.2.

Lemma recorded_sink_laws : @SinkLaws recorded recorded_sinks file_text.
Proof. split; [by intros p w k w' [= _ <-]|by intros k s w u w' [= _ <-]]. Qed.

Lemma beside_text {A} (f : @world base → A * @world base) (w : @world recorded) a w' :
  @effect recorded A (beside f) w = Done (a, w') → w'.2 = w.2.
Proof. unfold effect, beside. destruct (f w.1). by intros [= _ <-]. Qed.
End Recorded.
