(* ===== verification/Loops.v ===== *)
(** * The loops of the exporters

    The exporters that have a time limit run rounds, each followed by a pause, until the
    monotonic clock says that the limit is over: [while t0.elapsed() <= timeout].  Those
    without one never end.  The outputs of the rounds are collected. *)

From S2P Require Import Prelude Env.

Section Loops.
Context `{Os, !Instants} {S O : Type} (round : S → io (S * O)) (step : Duration).

(** [t0.elapsed()], which saturates at 0. *)
Definition elapsed (t0 : Z) : io Z := now ← effect instant; mret (sat_sub now t0).

Definition pause : io unit := λ w, Done (tt, sleep step w).

(** [None] when the fuel runs out. *)
Fixpoint timed_rounds (fuel : nat) (t0 limit : Z) (st : S) : io (option (S * list O)) :=
  match fuel with
  | 0%nat => mret None
  | Datatypes.S fuel =>
      e ← elapsed t0;
      if e <=? limit then
        '(st, o) ← round st;
        _ ← pause;
        r ← timed_rounds fuel t0 limit st;
        mret ((λ x, (x.1, o :: x.2)) <$> r)
      else mret (Some (st, []))
  end.

(** [let t0 = Instant::now(); while ...]. *)
Definition timed_loop (fuel : nat) (time_limit : Duration) (st : S) : io (option (S * list O)) :=
  t0 ← effect instant;
  timed_rounds fuel t0 (as_nanos time_limit) st.

(** The first [n] rounds of [loop]. *)
Fixpoint first_rounds (n : nat) (st : S) : io (S * list O) :=
  match n with
  | 0%nat => mret (st, [])
  | Datatypes.S n =>
      '(st, o) ← round st;
      _ ← pause;
      '(st, l) ← first_rounds n st;
      mret (st, o :: l)
  end.

(** What can be seen of a loop at some moment: the outputs of the rounds so far.  With a time
    limit, counted from some moment, a round begins when the limit is not over. *)
Definition goes_on (limit : option (Z * Duration)) (w : world) : option world :=
  match limit with
  | Some (t0, d) => let '(now, w) := instant w in if sat_sub now t0 <=? as_nanos d then Some w else None
  | None => Some w
  end.

Inductive seen (limit : option (Z * Duration)) : S → world → list O → Prop :=
  | seen_nothing st w : seen limit st w []
  | seen_round st w w1 st' o w2 l :
      goes_on limit w = Some w1 → round st w1 = Done ((st', o), w2) → seen limit st' (sleep step w2) l →
      seen limit st w (o :: l).

(** From its beginning. *)
Inductive loop_seen (st : S) (w : world) : option Duration → list O → Prop :=
  | seen_timed d t0 w' l : instant w = (t0, w') → seen (Some (t0, d)) st w' l → loop_seen st w (Some d) l
  | seen_endless l : seen None st w l → loop_seen st w None l.
End Loops.

(** ** Invariants

    Of the outputs so far, of the state and of the world. *)

Section Invariant.
Context `{Os, !Instants} {S O : Type} (round : S → io (S * O)) (step : Duration).
Context (I : list O → S → world → Prop).
Context (Hround : ∀ l st w st' o w', I l st w → round st w = Done ((st', o), w') → I (l ++ [o]) st' w').
Context (Hinstant : ∀ l st w, I l st w → I l st (instant w).2).
Context (Hsleep : ∀ l st w, I l st w → I l st (sleep step w)).

Lemma timed_rounds_inv fuel t0 limit k st w st' l w' :
  I k st w → timed_rounds round step fuel t0 limit st w = Done (Some (st', l), w') → I (k ++ l) st' w'.
Proof.
  revert k st w l. induction fuel as [|fuel IH]; intros k st w l Hst; simpl; [done|].
  intros (e & w1 & He & Hr)%io_bind_inv. apply io_bind_inv in He as (now & w0 & Hi & [= <- <-]).
  unfold effect in Hi. injection Hi as Hi. apply Hinstant in Hst. rewrite Hi in Hst. cbn [snd] in Hst.
  destruct (_ <=? limit); [|by injection Hr as <- <- <-; rewrite app_nil_r].
  apply io_bind_inv in Hr as ([st1 o] & w2 & Ho & Hr). eapply Hround in Hst; [|exact Ho].
  apply io_bind_inv in Hr as (u & w3 & [= _ <-] & Hr). apply io_bind_inv in Hr as (r & w4 & Hl & Hr).
  destruct r as [[st2 l']|]; [|done]. injection Hr as <- <- <-. eapply IH in Hl; [|by apply Hsleep].
  by rewrite <- app_assoc in Hl.
Qed.

Lemma timed_loop_inv fuel limit st w st' l w' :
  I [] st w → timed_loop round step fuel limit st w = Done (Some (st', l), w') → I l st' w'.
Proof.
  intros Hst (t0 & w1 & Hi & Hr)%io_bind_inv. unfold effect in Hi. injection Hi as Hi. apply Hinstant in Hst.
  rewrite Hi in Hst. by eapply (timed_rounds_inv _ _ _ []) in Hr.
Qed.

Lemma first_rounds_inv n k st w st' l w' :
  I k st w → first_rounds round step n st w = Done ((st', l), w') → I (k ++ l) st' w'.
Proof.
  revert k st w st' l w'. induction n as [|n IH]; intros k st w st' l w' Hst; simpl.
  - intros [= <- <- <-]. by rewrite app_nil_r.
  - intros ([st1 o] & w2 & Ho & Hr)%io_bind_inv. eapply Hround in Hst; [|exact Ho].
    apply io_bind_inv in Hr as (u & w3 & [= _ <-] & Hr).
    apply io_bind_inv in Hr as ([st2 l'] & w4 & Hl & [= <- <- <-]).
    eapply IH in Hl; [|by apply Hsleep]. by rewrite <- app_assoc in Hl.
Qed.
End Invariant.

(** ** The loops are seen as a whole *)

Section Seen.
Context `{Os, !Instants} {S O : Type} (round : S → io (S * O)) (step : Duration).

Lemma seen_before limit st w l k : seen round step limit st w (l ++ k) → seen round step limit st w l.
Proof.
  revert st w. induction l as [|o l IH]; intros st w Hs; [constructor|].
  inversion Hs; subst. econstructor; [done..|]. by apply IH.
Qed.

Lemma timed_rounds_seen fuel t0 d st w st' l w' :
  timed_rounds round step fuel t0 (as_nanos d) st w = Done (Some (st', l), w') → seen round step (Some (t0, d)) st w l.
Proof.
  revert st w l. induction fuel as [|fuel IH]; intros st w l; simpl; [done|].
  intros (e & w1 & He & Hr)%io_bind_inv. apply io_bind_inv in He as (now & w0 & Hi & [= <- <-]).
  unfold effect in Hi. injection Hi as Hi. destruct (_ <=? as_nanos d) eqn:El; [|injection Hr as <- <- <-; constructor].
  apply io_bind_inv in Hr as ([st1 o] & w2 & Ho & Hr). apply io_bind_inv in Hr as (u & w3 & [= _ <-] & Hr).
  apply io_bind_inv in Hr as (r & w4 & Hl & Hr). destruct r as [[st2 l']|]; [|done]. injection Hr as <- <- <-.
  econstructor; [|exact Ho|by eapply IH]. simpl. by rewrite Hi, El.
Qed.

Lemma timed_loop_seen fuel d st w st' l w' :
  timed_loop round step fuel d st w = Done (Some (st', l), w') → loop_seen round step st w (Some d) l.
Proof.
  intros (t0 & w1 & Hi & Hr)%io_bind_inv. unfold effect in Hi. injection Hi as Hi.
  econstructor; [exact Hi|]. by eapply timed_rounds_seen.
Qed.

(** Nothing more can be seen of a loop that has ended. *)
Lemma timed_rounds_last fuel t0 d st w st' l w' k :
  timed_rounds round step fuel t0 (as_nanos d) st w = Done (Some (st', l), w') → seen round step (Some (t0, d)) st w k →
  k `prefix_of` l.
Proof.
  revert st w l k. induction fuel as [|fuel IH]; intros st w l k; simpl; [done|].
  intros (e & w1 & He & Hr)%io_bind_inv Hs. apply io_bind_inv in He as (now & w0 & Hi & [= <- <-]).
  unfold effect in Hi. injection Hi as Hi. inversion Hs as [|? ? w2 st1 o w3 k' Hg Ho Hs']; subst; [apply prefix_nil|].
  simpl in Hg. rewrite Hi in Hg. destruct (_ <=? as_nanos d); [|done]. injection Hg as ->.
  rewrite (io_bind_done _ _ _ _ _ Ho) in Hr. apply io_bind_inv in Hr as (u & w4 & [= _ <-] & Hr).
  apply io_bind_inv in Hr as (r & w4 & Hl & Hr). destruct r as [[st2 l']|]; [|done]. injection Hr as <- <- <-.
  by apply prefix_cons, (IH _ _ _ _ Hl).
Qed.

Lemma timed_loop_last fuel d st w st' l w' k :
  timed_loop round step fuel d st w = Done (Some (st', l), w') → loop_seen round step st w (Some d) k → k `prefix_of` l.
Proof.
  intros (t0 & w1 & Hi & Hr)%io_bind_inv Hs. unfold effect in Hi. injection Hi as Hi.
  inversion Hs as [? t1 w2 ? Hi' Hs'|]; subst. rewrite Hi in Hi'. injection Hi' as <- <-. by eapply timed_rounds_last.
Qed.

Lemma first_rounds_seen n st w st' l w' :
  first_rounds round step n st w = Done ((st', l), w') → loop_seen round step st w None l.
Proof.
  intros Hr. constructor. revert st w l Hr. induction n as [|n IH]; intros st w l; simpl.
  - intros [= <- <- <-]. constructor.
  - intros ([st1 o] & w2 & Ho & Hr)%io_bind_inv. apply io_bind_inv in Hr as (u & w3 & [= _ <-] & Hr).
    apply io_bind_inv in Hr as ([st2 l'] & w4 & Hl & [= <- <- <-]).
    econstructor; [done|exact Ho|by eapply IH].
Qed.

Lemma loop_seen_all (I : S → Prop) (Q : O → Prop) st w limit l :
  (∀ st w st' o w', I st → round st w = Done ((st', o), w') → I st' ∧ Q o) →
  I st → loop_seen round step st w limit l → Forall Q l.
Proof.
  intros Hround Hst Hl.
  assert (∀ limit st w l, I st → seen round step limit st w l → Forall Q l) as Hall.
  { clear -Hround. intros limit st w l Hst Hs. induction Hs as [|st w w1 st' o w2 l _ Hr _ IH]; [constructor|].
    destruct (Hround _ _ _ _ _ Hst Hr) as [Hst' Ho]. constructor; [done|by apply IH]. }
  destruct Hl; by eapply Hall.
Qed.
End Seen.

(** Of the state and of each output. *)
Section Outputs.
Context `{Os, !Instants} {S O : Type} (round : S → io (S * O)) (step : Duration).
Context (I : S → Prop) (Q : O → Prop).
Context (Hround : ∀ st w st' o w', I st → round st w = Done ((st', o), w') → I st' ∧ Q o).

Lemma output_round l st w st' o w' :
  I st ∧ Forall Q l → round st w = Done ((st', o), w') → I st' ∧ Forall Q (l ++ [o]).
Proof.
  intros [Hst Hl] Hr. destruct (Hround _ _ _ _ _ Hst Hr). split; [done|]. apply Forall_app. by split; [|constructor].
Qed.

Lemma timed_loop_all fuel limit st w st' l w' :
  I st → timed_loop round step fuel limit st w = Done (Some (st', l), w') → I st' ∧ Forall Q l.
Proof.
  intros Hst. apply (timed_loop_inv _ _ (λ l st _, I st ∧ Forall Q l)); try done. intros ??????; apply output_round.
Qed.

Lemma first_rounds_all n st w st' l w' :
  I st → first_rounds round step n st w = Done ((st', l), w') → I st' ∧ Forall Q l.
Proof.
  intros Hst. apply (first_rounds_inv _ _ (λ l st _, I st ∧ Forall Q l)) with (k := []); try done.
  intros ??????; apply output_round.
Qed.
End Outputs.

(** ** Termination

    The age of a world is what the monotonic clock shows; a pause lasts at least as long as
    it is asked to. *)
Class InstantLaws `{Instants} (age : world → Z) := {
  instant_age w : (instant w).1 = age w;
  instant_later w : age w <= age (instant w).2;
  sleep_later d w : age w + as_nanos d <= age (sleep d w);
}.

(** The rounds that fit in a time, at the least distance of the step. *)
Definition rounds_within (limit : Z) (step : Duration) : nat := S (Z.to_nat (limit / as_nanos step)).

Section Termination.
Context `{InstantLaws} {S O : Type} (round : S → io (S * O)) (step : Duration).
Context (Hstep : 0 < as_nanos step).
Context (Hround : ∀ st w st' o w', round st w = Done ((st', o), w') → age w <= age w').

Lemma elapsed_age t0 w e w' : elapsed t0 w = Done (e, w') → e = sat_sub (age w) t0 ∧ age w <= age w'.
Proof.
  unfold elapsed. intros (now & w1 & Hn & [= <- <-])%io_bind_inv. unfold effect in Hn. injection Hn as Hn.
  pose proof (instant_age (age := age) w) as Ha. pose proof (instant_later (age := age) w) as Hw.
  rewrite Hn in Ha, Hw. simpl in Ha, Hw. by rewrite Ha.
Qed.

(** With [k * step] of the time left, at most [k + 1] rounds follow. *)
Lemma timed_rounds_end k fuel t0 limit st w :
  (k < fuel)%nat → limit < age w - t0 + Z.of_nat k * as_nanos step →
  match timed_rounds round step fuel t0 limit st w with
  | Done (Some (_, l), _) => (length l <= k)%nat
  | Done (None, _) => False
  | Panic => True
  end.
Proof.
  revert fuel st w. induction k as [|k IH]; intros [|fuel] st w Hf Hl; try lia; simpl;
    unfold mbind, io_bind; destruct (elapsed t0 w) as [[e w1]|] eqn:E; try done;
    apply elapsed_age in E as [-> Hw]; unfold sat_sub; destruct (Z.leb_spec (Z.max 0 (age w - t0)) limit); simpl; try lia.
  destruct (round st w1) as [[[st' o] w2]|] eqn:Er; [|done]. apply Hround in Er.
  unfold pause. pose proof (sleep_later (age := age) step w2).
  pose proof (IH fuel st' (sleep step w2) ltac:(lia) ltac:(nia)) as Hr.
  destruct (timed_rounds round step fuel t0 limit st' (sleep step w2)) as [[[[st'' l]|] w3]|]; simpl in *; lia || done.
Qed.

(** A run that ends does so after its limit, on the clock. *)
Lemma timed_rounds_over fuel t0 limit st w r w' :
  0 <= limit → timed_rounds round step fuel t0 limit st w = Done (Some r, w') → limit < age w' - t0.
Proof.
  intros Hl. revert st w r. induction fuel as [|fuel IH]; intros st w r; simpl; [done|].
  intros (e & w1 & He & Hr)%io_bind_inv. assert (Ha : e = sat_sub (age w) t0 ∧ age w <= age w1) by by apply elapsed_age.
  destruct Ha as [-> Hw]. unfold sat_sub in Hr. destruct (Z.leb_spec (Z.max 0 (age w - t0)) limit).
  - apply io_bind_inv in Hr as ([st1 o] & w2 & _ & Hr). apply io_bind_inv in Hr as (u & w3 & _ & Hr).
    apply io_bind_inv in Hr as ([r'|] & w4 & Hr & Hd); [|done]. injection Hd as _ <-. by eapply IH.
  - injection Hr as _ <-. lia.
Qed.

Lemma timed_loop_over fuel time_limit st w r w' :
  0 <= as_nanos time_limit → timed_loop round step fuel time_limit st w = Done (Some r, w') →
  as_nanos time_limit < age w' - age w.
Proof.
  intros Hl (t0 & w1 & Hi & Hr)%io_bind_inv. unfold effect in Hi. injection Hi as Hi.
  pose proof (instant_age (age := age) w) as Ha. rewrite Hi in Ha. simpl in Ha. subst t0.
  by eapply timed_rounds_over.
Qed.

(** With fuel enough the loop never runs out of it. *)
Lemma timed_loop_ends fuel time_limit st w :
  0 <= as_nanos time_limit → (rounds_within (as_nanos time_limit) step < fuel)%nat →
  match timed_loop round step fuel time_limit st w with
  | Done (Some (_, l), _) => (length l <= rounds_within (as_nanos time_limit) step)%nat
  | Done (None, _) => False
  | Panic => True
  end.
Proof.
  intros Hl Hf. unfold timed_loop. unfold mbind, io_bind, effect. destruct (instant w) as [t0 w1] eqn:E.
  pose proof (instant_age (age := age) w) as Ha. pose proof (instant_later (age := age) w) as Hw. rewrite E in Ha, Hw. simpl in Ha, Hw.
  apply timed_rounds_end; [done|]. unfold rounds_within.
  pose proof (Z.div_mod (as_nanos time_limit) (as_nanos step) ltac:(lia)).
  pose proof (Z.mod_pos_bound (as_nanos time_limit) (as_nanos step) ltac:(lia)).
  pose proof (Z.div_pos (as_nanos time_limit) (as_nanos step) Hl Hstep).
  rewrite Nat2Z.inj_succ, Z2Nat.id by done. nia.
Qed.
End Termination.
