(* ===== verification/Returns.v ===== *)
(** * Computations that return

    Total correctness of the computations of the other files: from every state of the world
    they return, without a panic, a value that satisfies a predicate.  Rules for the ways
    programs are composed, for the loops, and a tactic that follows a program. *)

From S2P Require Import Prelude Env Loops.

(** ** Computations that return *)

(** The computation returns from every state of the world, a value that satisfies [Q]. *)
Definition returns `{Os} {A} (m : io A) (Q : A → Prop) : Prop := ∀ w, ∃ a w', m w = Done (a, w') ∧ Q a.

(** The same of a computation without effects. *)
Definition yields {A} (m : outcome A) (Q : A → Prop) : Prop := ∃ a, m = Done a ∧ Q a.

Section Rules.
Context `{Os}.

Lemma returns_ret {A} (a : A) (Q : A → Prop) : Q a → returns (mret a) Q.
Proof. intros Ha w. by exists a, w. Qed.

Lemma returns_bind {A B} (P : A → Prop) (m : io A) (f : A → io B) Q :
  returns m P → (∀ a, P a → returns (f a) Q) → returns (m ≫= f) Q.
Proof.
  intros Hm Hf w. destruct (Hm w) as (a & w1 & E & Ha). destruct (Hf a Ha w1) as (b & w2 & E' & Hb).
  exists b, w2. split; [|done]. unfold mbind, io_bind. by rewrite E.
Qed.

Lemma returns_weaken {A} (m : io A) (P Q : A → Prop) : returns m P → (∀ a, P a → Q a) → returns m Q.
Proof. intros Hm HP w. destruct (Hm w) as (a & w' & E & Ha). exists a, w'. auto. Qed.

(** What is known of the results of a computation that returns. *)
Lemma returns_and {A} (m : io A) (P Q : A → Prop) :
  returns m P → (∀ w a w', m w = Done (a, w') → Q a) → returns m (λ a, P a ∧ Q a).
Proof. intros Hm HQ w. destruct (Hm w) as (a & w' & E & Ha). exists a, w'. eauto. Qed.

Lemma returns_lift {A} (m : outcome A) Q : yields m Q → returns (lift m) Q.
Proof. intros (a & -> & Ha) w. by exists a, w. Qed.

Lemma returns_effect {A} (f : world → A * world) (Q : A → Prop) : (∀ w, Q (f w).1) → returns (effect f) Q.
Proof. intros Hf w. exists (f w).1, (f w).2. split; [|done]. unfold effect. by destruct (f w). Qed.

Lemma returns_map {A B} (f : A → io B) (R : B → Prop) l :
  (∀ x, x ∈ l → returns (f x) R) → returns (io_map f l) (Forall R).
Proof.
  induction l as [|x l IH]; intros Hf; simpl; [by apply returns_ret; constructor|].
  eapply returns_bind; [apply Hf; by left|]. intros y Hy.
  eapply returns_bind; [apply IH; intros z Hz; apply Hf; by right|]. intros ys Hys.
  apply returns_ret. by constructor.
Qed.

Lemma returns_fold {A S} (f : S → A → io S) (I : S → Prop) l st :
  I st → (∀ st x, x ∈ l → I st → returns (f st x) I) → returns (io_fold f st l) I.
Proof.
  revert st. induction l as [|x l IH]; intros st Hst Hf; simpl; [by apply returns_ret|].
  eapply returns_bind; [apply Hf; [by left|done]|]. intros st' Hst'. apply IH; [done|]. intros. apply Hf; [by right|done].
Qed.
End Rules.

Lemma yields_ret {A} (a : A) (Q : A → Prop) : Q a → yields (Done a) Q.
Proof. intros Ha. by exists a. Qed.

Lemma yields_bind {A B} (P : A → Prop) (m : outcome A) (f : A → outcome B) Q :
  yields m P → (∀ a, P a → yields (f a) Q) → yields (m ≫= f) Q.
Proof. intros (a & -> & Ha) Hf. by apply Hf. Qed.

Lemma yields_weaken {A} (m : outcome A) (P Q : A → Prop) : yields m P → (∀ a, P a → Q a) → yields m Q.
Proof. intros (a & -> & Ha) HP. exists a. auto. Qed.

Lemma yields_unwrap {A} (o : option A) (Q : A → Prop) : is_Some o → (∀ a, o = Some a → Q a) → yields (unwrap o) Q.
Proof. intros [a ->] HQ. exists a. auto. Qed.

Lemma yields_traverse {A B} (f : A → outcome B) (R : B → Prop) l :
  (∀ x, x ∈ l → yields (f x) R) → yields (traverse f l) (Forall R).
Proof.
  induction l as [|x l IH]; intros Hf; simpl; [by apply yields_ret; constructor|].
  eapply yields_bind; [apply Hf; by left|]. intros y Hy.
  eapply yields_bind; [apply IH; intros z Hz; apply Hf; by right|]. intros ys Hys. apply yields_ret. by constructor.
Qed.

Lemma yields_foldM {A S} (f : S → A → outcome S) (I : S → Prop) l st :
  I st → (∀ st x, x ∈ l → I st → yields (f st x) I) → yields (foldM f st l) I.
Proof.
  revert st. induction l as [|x l IH]; intros st Hst Hf; simpl; [by apply yields_ret|].
  eapply yields_bind; [apply Hf; [by left|done]|]. intros st' Hst'. apply IH; [done|]. intros. apply Hf; [by right|done].
Qed.

(** Loops of rounds that return. *)
Section Loops.
Context `{Os, !Instants} {S O : Type} (round : S → io (S * O)) (step : Duration) (I : S → Prop).
Context (Hround : ∀ st, I st → returns (round st) (λ r, I r.1)).

Lemma first_rounds_return n st : I st → returns (first_rounds round step n st) (λ r, I r.1 ∧ length r.2 = n).
Proof.
  revert st. induction n as [|n IH]; intros st Hst; cbn [first_rounds]; [by apply returns_ret|].
  eapply returns_bind; [by apply Hround|]. intros [st1 o] H1'.
  eapply (returns_bind (λ _, True)); [intros w; by eexists _, _|]. intros _ _.
  eapply returns_bind; [by apply IH|]. intros [st2 l] [H2' Hl]. apply returns_ret. split; [done|]. simpl in *. by rewrite Hl.
Qed.

Lemma timed_rounds_return fuel t0 limit st : I st → returns (timed_rounds round step fuel t0 limit st) (λ _, True).
Proof.
  revert st. induction fuel as [|fuel IH]; intros st Hst; cbn [timed_rounds]; [by apply returns_ret|].
  eapply (returns_bind (λ _, True)).
  { unfold elapsed. eapply (returns_bind (λ _, True)); [by apply returns_effect|]. intros now _. by apply returns_ret. }
  intros e _. destruct (e <=? limit); [|by apply returns_ret].
  eapply returns_bind; [by apply Hround|]. intros [st1 o] H1'.
  eapply (returns_bind (λ _, True)); [intros w; by eexists _, _|]. intros _ _.
  eapply (returns_bind (λ _, True)); [by apply IH|]. intros r _. by apply returns_ret.
Qed.

Lemma timed_loop_returns fuel limit st : I st → returns (timed_loop round step fuel limit st) (λ _, True).
Proof.
  intros Hst. unfold timed_loop. eapply (returns_bind (λ _, True)); [by apply returns_effect|]. intros t0 _.
  by apply timed_rounds_return.
Qed.

(** The endless loop can be seen after any number of rounds. *)
Lemma endless_rounds st w n : I st → ∃ l, length l = n ∧ loop_seen round step st w None l.
Proof.
  intros Hst. destruct (first_rounds_return n st Hst w) as ([st' l] & w' & E & _ & Hl).
  exists l. split; [exact Hl|]. by eapply first_rounds_seen.
Qed.
End Loops.

(** Nothing but that it returns. *)
Definition any {A} (_ : A) : Prop := True.

(** One step of a program: its effects, its branches and its results. *)
Ltac any_step :=
  lazymatch goal with
  | |- returns (mret _) _ => apply returns_ret
  | |- returns (_ ≫= _) _ => eapply (returns_bind any); [|intros ? _]
  | |- returns (effect _) _ => apply returns_effect; intros ?
  | |- returns (lift _) _ => apply returns_lift
  | |- yields (Done _) _ => apply yields_ret
  | |- yields (_ ≫= _) _ => eapply (yields_bind any); [|intros ? _]
  | |- returns (match ?x with _ => _ end) _ => destruct x eqn:?
  | |- yields (match ?x with _ => _ end) _ => destruct x eqn:?
  | |- any _ => exact I
  end.
Ltac any_steps := repeat (any_step; cbv zeta beta).

