(* ===== verification/Records.v ===== *)
(** * Measurements and their buffers ([sensors/mod.rs], Record, CPUStat)

    A [Record] is a value in text form with its time and unit; every sensor object keeps a
    bounded buffer of them.  The eviction code is repeated in the sources for every buffer;
    its arithmetic ([evictions]) is shared here and each component's own method applies it.
    The theorems give the exact number of evicted entries, the size the buffer settles at
    and the entries that always survive. *)

From S2P Require Import Prelude Floats Text FloatText Units Env.
From Stdlib Require Import SpecFloat.

(** ** Data *)

Record Record_ := mkRecord {
  r_timestamp : Duration;
  r_value : string;
  r_unit : Unit;
}.

Record MultiValuedRecord := mkMultiValuedRecord {
  m_timestamp : Duration;
  m_values : list string;
  m_units : list Unit;
}.

#[export] Instance Record_eq_dec : EqDecision Record_.
Proof. solve_decision. Defined.
#[export] Instance MultiValuedRecord_eq_dec : EqDecision MultiValuedRecord.
Proof. solve_decision. Defined.

(** [Duration::as_secs_f64]. *)
Definition as_secs_f64 (d : Duration) : float :=
  F64.add (F64.of_Z (secs d)) (F64.div (F64.of_Z (nanos d)) (F64.of_Z 1000000000)).

(** [r.value.parse::<u64>().ok()]. *)
Definition value_u64 (r : Record_) : option Z := parse_uint 64 (r_value r).

(** ** Memory layout: [size_of_val] of the buffers' elements *)

Class Layout := {
  size_Record : Z;
  size_MultiValuedRecord : Z;
  size_CPUStat : Z;
  size_Record_range : 0 < size_Record < 2 ^ 16;
  size_MultiValuedRecord_range : 0 < size_MultiValuedRecord < 2 ^ 16;
  size_CPUStat_range : 0 < size_CPUStat < 2 ^ 16;
}.

(** On x86-64: a [Duration] takes 16 bytes, a [String] or a [Vec] 24, an [Option<u64>] 16. *)
Definition x86_64 : Layout.
Proof. refine {| size_Record := 48; size_MultiValuedRecord := 64; size_CPUStat := 128 |}; lia. Defined.

(** ** CPU usage counters *)

Record CPUStat := mkCPUStat {
  user : Z; nice : Z; system : Z; idle : Z;
  irq : option Z; iowait : option Z; softirq : option Z;
  steal : option Z; guest : option Z; guest_nice : option Z;
}.

#[export] Instance CPUStat_eq_dec : EqDecision CPUStat.
Proof. solve_decision. Defined.

Definition from_procfs_cputime (t : CpuTime) : CPUStat := {|
  user := ct_user t; nice := ct_nice t; system := ct_system t; idle := ct_idle t;
  irq := ct_irq t; iowait := ct_iowait t; softirq := ct_softirq t;
  steal := ct_steal t; guest := ct_guest t; guest_nice := ct_guest_nice t |}.

(** [unwrap_or_default], [unwrap_or(0)]. *)
Definition or_0 (o : option Z) : Z := default 0 o.

(** [a + b + ...] on [u64], left to right. *)
Definition usum `{Profile} (w a : Z) (l : list Z) : outcome Z := foldM (uadd w) a l.

Definition total_time_jiffies `{Profile} (s : CPUStat) : outcome Z :=
  usum 64 (user s) [nice s; system s; or_0 (guest_nice s); or_0 (guest s)].

Definition get_idle_and_total `{Profile} (s : CPUStat) : outcome (Z * Z) :=
  idle' ← uadd 64 (idle s) (or_0 (iowait s));
  total ← usum 64 (user s) [nice s; system s; idle s; or_0 (iowait s); or_0 (irq s);
                            or_0 (softirq s); or_0 (steal s); or_0 (guest s); or_0 (guest_nice s)];
  Done (idle', total).

(** The difference of two optional counters: [None] unless both are known. *)
Definition opt_sub `{Profile} (last previous : option Z) : outcome (option Z) :=
  match last, previous with
  | Some l, Some p => Some <$> usub 64 l p
  | _, _ => Done None
  end.

(** The body of [get_stats_diff] (the same in [Topology] and [CPUSocket]): attribute by
    attribute, the newest measurement less the one before it. *)
Definition stats_diff `{Profile} (last previous : CPUStat) : outcome CPUStat :=
  iowait' ← opt_sub (iowait last) (iowait previous);
  irq' ← opt_sub (irq last) (irq previous);
  softirq' ← opt_sub (softirq last) (softirq previous);
  steal' ← opt_sub (steal last) (steal previous);
  guest' ← opt_sub (guest last) (guest previous);
  guest_nice' ← opt_sub (guest_nice last) (guest_nice previous);
  user' ← usub 64 (user last) (user previous);
  nice' ← usub 64 (nice last) (nice previous);
  system' ← usub 64 (system last) (system previous);
  idle' ← usub 64 (idle last) (idle previous);
  Done {| user := user'; nice := nice'; system := system'; idle := idle'; irq := irq';
          iowait := iowait'; softirq := softirq'; steal := steal'; guest := guest';
          guest_nice := guest_nice' |}.

Definition get_stats_diff `{Profile} (stat_buffer : list CPUStat) : outcome (option CPUStat) :=
  match stat_buffer with
  | last :: previous :: _ => Some <$> stats_diff last previous
  | _ => Done None
  end.

(** ** Eviction *)

(** [for _ in 0..k { if !v.is_empty() { v.remove(0) } }]. *)
Fixpoint remove_first {A} (k : nat) (l : list A) : list A :=
  match k with O => l | S k => remove_first k (tail l) end.

(** [for _ in 0..k { if !v.is_empty() { v.pop() } }]. *)
Fixpoint pop_last {A} (k : nat) (l : list A) : list A :=
  match k with O => l | S k => pop_last k (removelast l) end.

(** [(size_diff as f32 / record_size as f32) as u32]. *)
Definition f32_ratio (size_diff size : Z) : Z :=
  to_uint 32 (F32.div (F32.of_Z size_diff) (F32.of_Z size)).

(** The guards around the eviction loop and its upper bound [n], for a buffer of [len]
    elements of [size] bytes and a limit of [limit] bytes; 0 when a guard fails. *)
Definition evictions (limit size len : Z) : Z :=
  let curr_size := size * len in
  if limit <? curr_size then
    let size_diff := curr_size - limit in
    if size <? size_diff then f32_ratio size_diff size else 0
  else 0.

(** [for _ in 1..n]: [n - 1] iterations. *)
Definition from_1_to (n : Z) : nat := Z.to_nat (n - 1).

(** [(self.buffer_max_kbytes * 1000) as usize]: a 16-bit product. *)
Definition limit_bytes `{Profile} (max_kbytes : Z) : outcome Z := umul 16 max_kbytes 1000.

(** The buffers whose oldest element is at the front. *)
Definition clean_front `{Profile} {A} (max_kbytes size : Z) (l : list A) : outcome (list A) :=
  limit ← limit_bytes max_kbytes;
  Done (remove_first (from_1_to (evictions limit size (Z.of_nat (length l)))) l).

(** The buffers whose oldest element is at the back. *)
Definition clean_back `{Profile} {A} (max_kbytes size : Z) (l : list A) : outcome (list A) :=
  limit ← limit_bytes max_kbytes;
  Done (pop_last (from_1_to (evictions limit size (Z.of_nat (length l)))) l).

Lemma remove_first_drop {A} k (l : list A) : remove_first k l = drop k l.
Proof.
  revert l. induction k as [|k IH]; intros l; [done|]. simpl. rewrite IH.
  destruct l; simpl; [by rewrite drop_nil|done].
Qed.

Lemma removelast_take {A} (l : list A) : removelast l = take (length l - 1) l.
Proof.
  rewrite List.removelast_firstn_len. f_equal. lia.
Qed.

Lemma pop_last_take {A} k (l : list A) : pop_last k l = take (length l - k) l.
Proof.
  revert l. induction k as [|k IH]; intros l; simpl; [by rewrite Nat.sub_0_r, firstn_all|].
  rewrite IH, removelast_take, length_take, take_take. f_equal. lia.
Qed.

(** Below 16 MiB the single-precision quotient is the integer quotient. *)
Lemma f32_ratio_exact d s : 0 <= d < 2 ^ 24 → 0 < s < 2 ^ 24 → f32_ratio d s = d / s.
Proof.
  intros Hd Hs. destruct (div_trunc 24 128 ltac:(lia) ltac:(lia) d s Hd Hs) as [Hfin Htr].
  apply to_uint_trunc; [done..|]. split; [apply Z.div_pos; lia|].
  apply Z.le_trans with d; [|unfold umax; lia]. apply Z.div_le_upper_bound; nia.
Qed.

(** ** Lemmas on the eviction *)

Lemma evictions_exact limit size len :
  0 <= limit → 0 < size < 2 ^ 16 → size * len - limit < 2 ^ 24 →
  from_1_to (evictions limit size len) = Z.to_nat ((size * len - limit) / size - 1).
Proof.
  intros Hl Hs Hd. unfold evictions, from_1_to.
  assert (Hsmall : size * len - limit <= size → (size * len - limit) / size <= 1).
  { intros. transitivity (size / size); [by apply Z.div_le_mono; lia|]. rewrite Z.div_same; lia. }
  destruct (Z.ltb_spec limit (size * len)); [|lia].
  destruct (Z.ltb_spec size (size * len - limit)); [|lia].
  rewrite f32_ratio_exact by lia. done.
Qed.

Lemma limit_bytes_ok `{Profile} kb : 0 <= kb <= 65 → limit_bytes kb = Done (kb * 1000).
Proof. intros. apply umul_ok. unfold umax. lia. Qed.

(** The number of entries an eviction removes from a buffer of [len]. *)
Definition evicted (kb size : Z) (len : nat) : nat :=
  Z.to_nat ((size * Z.of_nat len - kb * 1000) / size - 1).

Section Clean.
  Context `{Profile} {A : Type} (kb size : Z).
  Context (Hkb : 0 <= kb <= 65) (Hsize : 0 < size < 2 ^ 16).
  Implicit Type l : list A.

Lemma clean_front_drop l :
    size * Z.of_nat (length l) - kb * 1000 < 2 ^ 24 →
    clean_front kb size l = Done (drop (evicted kb size (length l)) l).
  Proof.
    intros Hd. unfold clean_front. rewrite limit_bytes_ok by done. simpl.
    by rewrite evictions_exact, remove_first_drop by lia.
  Qed.

Lemma clean_back_take l :
    size * Z.of_nat (length l) - kb * 1000 < 2 ^ 24 →
    clean_back kb size l = Done (take (length l - evicted kb size (length l)) l).
  Proof.
    intros Hd. unfold clean_back. rewrite limit_bytes_ok by done. simpl.
    by rewrite evictions_exact, pop_last_take by lia.
  Qed.

  (** What is kept takes less than the limit plus two elements and, when anything was
      removed, at least the limit plus one element. *)
Lemma evicted_bounds len :
    size * (Z.of_nat len - Z.of_nat (evicted kb size len)) < kb * 1000 + 2 * size ∧
    ((0 < evicted kb size len)%nat →
     kb * 1000 + size <= size * (Z.of_nat len - Z.of_nat (evicted kb size len))).
  Proof.
    unfold evicted. set (d := size * Z.of_nat len - kb * 1000).
    pose proof (Z.div_mod d size). pose proof (Z.mod_pos_bound d size). nia.
  Qed.

  (** At least two elements are kept, unless the limit is zero. *)
Lemma evicted_keeps_two len :
    0 < kb → (Nat.min 2 len <= len - evicted kb size len)%nat.
  Proof.
    intros Hpos. pose proof (evicted_bounds len) as [_ Hb].
    destruct (decide (evicted kb size len = 0)%nat); [lia|]. specialize (Hb ltac:(lia)). nia.
  Qed.

Lemma evicted_lt len : (0 < len)%nat → (evicted kb size len < len)%nat.
  Proof.
    intros Hpos. pose proof (evicted_bounds len) as [_ Hb].
    destruct (decide (evicted kb size len = 0)%nat); [lia|]. specialize (Hb ltac:(lia)). nia.
  Qed.

  (** A buffer with a zero limit keeps a single element. *)
Lemma evicted_zero len : kb = 0 → evicted kb size len = (len - 1)%nat.
  Proof.
    intros ->. unfold evicted.
    replace (size * Z.of_nat len - 0 * 1000) with (Z.of_nat len * size) by lia.
    rewrite Z.div_mul by lia. lia.
  Qed.
End Clean.

(** The size invariant of a buffer: less than its limit plus two elements. *)
Definition within (kb size : Z) (len : nat) : Prop := size * Z.of_nat len < kb * 1000 + 2 * size.

Lemma clean_front_within `{Profile} {A} kb size (l : list A) :
  0 <= kb <= 65 → 0 < size < 2 ^ 16 → within kb size (length l) → clean_front kb size l = Done l.
Proof.
  unfold within. intros Hkb Hs Hl. rewrite clean_front_drop by lia.
  assert (Hn : evicted kb size (length l) = 0%nat).
  { unfold evicted. set (d := size * Z.of_nat (length l) - kb * 1000).
    assert (d / size < 2) by (apply Z.div_lt_upper_bound; lia). lia. }
  by rewrite Hn, drop_0.
Qed.

(** What one append followed by an eviction does to a buffer within its size: it stays
    within it, ends with the new element and, unless the limit is zero, still holds the
    element that was newest before. *)
Lemma clean_front_append `{Profile} {A} kb size (l : list A) x :
  0 <= kb <= 65 → 0 < size < 2 ^ 16 → within kb size (length l) →
  ∃ n l', clean_front kb size (l ++ [x]) = Done (l' ++ [x]) ∧ l' = drop n l ∧
          within kb size (length (l' ++ [x])) ∧
          (0 < kb → ∀ y k, l = k ++ [y] → ∃ k', l' = k' ++ [y]).
Proof.
  unfold within. intros Hkb Hs Hl. set (n := evicted kb size (length (l ++ [x]))).
  assert (Hlen : length (l ++ [x]) = S (length l)) by (rewrite length_app; simpl; lia).
  assert (Hn : (n <= length l)%nat) by (pose proof (evicted_lt kb size Hkb Hs (length (l ++ [x]))) as Hlt; fold n in Hlt; lia).
  exists n, (drop n l). rewrite clean_front_drop by lia. fold n.
  rewrite drop_app_le by done. split; [done|]. split; [done|]. split.
  - rewrite length_app, length_drop. simpl.
    pose proof (evicted_bounds kb size Hkb Hs (length (l ++ [x]))) as [Hb _]. fold n in Hb.
    rewrite Hlen in Hb. lia.
  - intros Hpos y k ->. exists (drop n k). apply drop_app_le.
    pose proof (evicted_keeps_two kb size Hkb Hs (length ((k ++ [y]) ++ [x])) Hpos) as H2.
    fold n in H2. clearbody n. rewrite !length_app in H2. cbn [length] in H2. lia.
Qed.

(** Past 65 kilobytes the limit does not fit its 16-bit type. *)
Lemma limit_bytes_overflow `{Profile} kb :
  66 <= kb < 2 ^ 16 →
  limit_bytes kb = if overflow_checks then Panic else Done (kb * 1000 mod 2 ^ 16).
Proof. intros. apply arith_overflow. unfold umax. lia. Qed.

(** ** Lemmas on the CPU counters *)

Definition list_sum (l : list Z) : Z := foldr Z.add 0 l.

Lemma list_sum_cons x l : list_sum (x :: l) = x + list_sum l.
Proof. done. Qed.

Lemma list_sum_pos {A} (f : A → Z) l : (∀ x, 0 <= f x) → 0 <= list_sum (f <$> l).
Proof.
  intros Hf. induction l as [|x l IH]; [done|]. rewrite fmap_cons, list_sum_cons.
  specialize (Hf x). lia.
Qed.

Lemma cast_cast w a b : 0 <= w → cast w (cast w a + b) = cast w (a + b).
Proof. intros. unfold cast. apply Z.add_mod_idemp_l. pose proof (Z.pow_pos_nonneg 2 w). lia. Qed.

Lemma cast_idem w a : 0 <= w → cast w (cast w a) = cast w a.
Proof.
  intros Hw. pose proof (cast_cast w a 0 Hw) as H. by rewrite !Z.add_0_r in H.
Qed.

(** A chain of additions panics or wraps exactly when its total does. *)
Lemma usum_arith `{Profile} w a l :
  0 <= w → 0 <= a <= umax w → Forall (Z.le 0) l → usum w a l = arith w (a + list_sum l).
Proof.
  intros Hw Ha Hl. revert a Ha. induction Hl as [|x l Hx Hl IH]; intros a Ha; simpl.
  - rewrite Z.add_0_r. by rewrite arith_ok.
  - assert (0 <= list_sum l) by (clear -Hl; induction Hl; simpl; lia).
    unfold usum in *. simpl. change (uadd w a x) with (arith w (a + x)).
    destruct (decide (a + x <= umax w)) as [Hle|Hgt].
    + rewrite arith_ok by lia. simpl. rewrite IH by lia. f_equal. lia.
    + rewrite !arith_overflow by lia. destruct overflow_checks eqn:Ho; [done|]. simpl.
      pose proof (cast_range w (a + x) Hw). rewrite IH by lia. unfold arith.
      pose proof (cast_cast w (a + x) (list_sum l) Hw) as Hc.
      replace (a + (x + list_sum l)) with (a + x + list_sum l) by lia. rewrite <- Hc.
      rewrite Ho. destruct (in_range _ _) eqn:E; [|done].
      apply in_range_spec in E. by rewrite (cast_small w (cast w (a + x) + list_sum l)).
Qed.

Definition u64 (z : Z) : Prop := 0 <= z <= umax 64.

(** The fields of a measurement are [u64] values. *)
Definition u64_opt (o : option Z) : Prop := 0 <= or_0 o <= umax 64.

Record wf_stat (s : CPUStat) : Prop := {
  wf_user : 0 <= user s <= umax 64; wf_nice : 0 <= nice s <= umax 64;
  wf_system : 0 <= system s <= umax 64; wf_idle : 0 <= idle s <= umax 64;
  wf_irq : u64_opt (irq s); wf_iowait : u64_opt (iowait s); wf_softirq : u64_opt (softirq s);
  wf_steal : u64_opt (steal s); wf_guest : u64_opt (guest s); wf_guest_nice : u64_opt (guest_nice s);
}.

(** [new - old] computed on [u64] when it does not panic, as a relation: adding it back to
    [old] gives [new] modulo [2^64], and it only exists in a checked build when the
    counter did not go back. *)
Definition is_diff `{Profile} (new old d : Z) : Prop :=
  cast 64 (old + d) = new ∧ 0 <= d <= umax 64 ∧ (overflow_checks = true → old <= new).

Definition is_opt_diff `{Profile} (new old d : option Z) : Prop :=
  match new, old with
  | Some n, Some o => ∃ x, d = Some x ∧ is_diff n o x
  | _, _ => d = None
  end.

Lemma usub_diff `{Profile} a b d :
  0 <= a <= umax 64 → 0 <= b <= umax 64 → usub 64 a b = Done d → is_diff a b d.
Proof.
  intros Ha Hb Hd. split; [|split].
  - unfold usub, arith in Hd. destruct (in_range 64 (a - b)).
    + injection Hd as <-. rewrite Z.add_sub_assoc, Z.add_simpl_l. by apply cast_small.
    + destruct overflow_checks; [done|]. injection Hd as <-.
      rewrite Z.add_comm, cast_cast by lia. rewrite Z.sub_add. by apply cast_small.
  - by apply arith_range in Hd.
  - intros Ho. destruct (Z.le_gt_cases b a); [done|].
    unfold usub in Hd. rewrite arith_overflow, Ho in Hd by lia. done.
Qed.

Lemma opt_sub_diff `{Profile} a b d :
  u64_opt a → u64_opt b → opt_sub a b = Done d → is_opt_diff a b d.
Proof.
  unfold opt_sub, is_opt_diff, u64_opt. destruct a as [a|], b as [b|]; try (by intros _ _ [= <-]).
  simpl. intros Ha Hb Hd. destruct (usub 64 a b) as [x|] eqn:E; [|done].
  injection Hd as <-. eauto using usub_diff.
Qed.

(** Every attribute of the difference, added back to the previous measurement, gives the
    last one. *)
Definition stat_diff_spec `{Profile} (last previous d : CPUStat) : Prop :=
  is_diff (user last) (user previous) (user d) ∧
  is_diff (nice last) (nice previous) (nice d) ∧
  is_diff (system last) (system previous) (system d) ∧
  is_diff (idle last) (idle previous) (idle d) ∧
  is_opt_diff (irq last) (irq previous) (irq d) ∧
  is_opt_diff (iowait last) (iowait previous) (iowait d) ∧
  is_opt_diff (softirq last) (softirq previous) (softirq d) ∧
  is_opt_diff (steal last) (steal previous) (steal d) ∧
  is_opt_diff (guest last) (guest previous) (guest d) ∧
  is_opt_diff (guest_nice last) (guest_nice previous) (guest_nice d).

Lemma stats_diff_sound `{Profile} last previous d :
  wf_stat last → wf_stat previous → stats_diff last previous = Done d →
  stat_diff_spec last previous d.
Proof.
  intros Hl Hp Hd. unfold stats_diff in Hd.
  repeat (apply bind_Done_inv in Hd as (? & ? & Hd)). injection Hd as <-.
  destruct Hl, Hp. unfold stat_diff_spec. simpl.
  repeat (split; [first [eapply usub_diff|eapply opt_sub_diff]; eassumption|]).
  eapply opt_sub_diff; eassumption.
Qed.

(** The difference of the two newest measurements is exact in every attribute, an
    attribute the kernel did not report in both is absent, and a build that checks
    arithmetic only returns when no counter went back. *)
Theorem get_stats_diff_exact `{Profile} last previous older d :
  wf_stat last → wf_stat previous →
  get_stats_diff (last :: previous :: older) = Done (Some d) →
  stat_diff_spec last previous d.
Proof.
  intros Hl Hp. simpl. destruct (stats_diff last previous) as [x|] eqn:E; [|done].
  intros [= <-]. by apply stats_diff_sound.
Qed.

(** The idle and total times of a measurement: their exact sums when the total fits
    64 bits, and then the idle time is at most the total; a panic in a checked build
    otherwise. *)
Theorem idle_and_total `{Profile} s :
  wf_stat s →
  let idle' := idle s + or_0 (iowait s) in
  let total := user s + nice s + system s + idle' + or_0 (irq s) + or_0 (softirq s)
               + or_0 (steal s) + or_0 (guest s) + or_0 (guest_nice s) in
  (total <= umax 64 → get_idle_and_total s = Done (idle', total) ∧ idle' <= total) ∧
  (umax 64 < total → overflow_checks = true → get_idle_and_total s = Panic).
Proof.
  intros [] idle' total. unfold get_idle_and_total, u64_opt in *.
  rewrite usum_arith by (try lia; repeat constructor; lia). simpl list_sum. unfold uadd.
  match goal with |- context [arith 64 (user s + ?r)] =>
    replace (user s + r) with total by (unfold total, idle'; lia) end.
  fold idle'. split; intros.
  - rewrite !arith_ok by lia. split; [done|lia].
  - destruct (decide (idle' <= umax 64)).
    + rewrite (arith_ok 64 idle') by lia. simpl. rewrite arith_overflow by lia. by rewrite H1.
    + rewrite (arith_overflow 64 idle') by lia. by rewrite H1.
Qed.
