(* ===== verification/Energy.v ===== *)
(** * From energy counters to power

    The arithmetic that [Domain], [CPUSocket] and [Topology] share when they turn the two
    newest readings of an energy counter into a power: the distance between two readings
    of a counter that wraps, and its quotient by the elapsed time, computed in double
    precision and truncated to [u64]. *)

From S2P Require Import Prelude Floats Rounding Text FloatText Units Env Records.
From Stdlib Require Import SpecFloat QArith Qpower Qround Lqa.

Local Open Scope Z_scope.

(** The last element of a buffer and the one before it: [len() > 1], [last().unwrap()] and
    [get(len() - 2).unwrap()]. *)
Definition last_two {A} (l : list A) : option (A * A) :=
  match rev l with
  | last :: previous :: _ => Some (previous, last)
  | _ => None
  end.

(** [rapl_max_uj], read from the sensor data. *)
Definition rapl_max (sensor_data : gmap string string) : Z :=
  default (umax 64) (v ← sensor_data !! "max_energy_range_uj"%string; parse_uint 64 (trim v)).

(** The energy between two readings of a counter of period [rapl_max_uj]. *)
Definition energy_delta (rapl_max_uj last previous : Z) : Z :=
  if previous <=? last then last - previous
  else sat_add 64 (sat_sub rapl_max_uj previous) last.

(** [last.timestamp.as_secs_f64() - previous.timestamp.as_secs_f64()]. *)
Definition time_diff (last previous : Duration) : float :=
  F64.sub (as_secs_f64 last) (as_secs_f64 previous).

(** [((microjoules as f64 / time_diff) as u64).saturating_sub(background)]. *)
Definition net_power (microjoules : Z) (last previous : Duration) (background : Z) : Z :=
  sat_sub (to_uint 64 (F64.div (F64.of_Z microjoules) (time_diff last previous))) background.

(** [r.and_then(|r| r.value.parse::<u64>().ok()).unwrap_or(0)]. *)
Definition power_u64 (r : option Record_) : Z := default 0 (r ≫= value_u64).

(** [r.and_then(|r| r.value.parse::<f64>().ok()).unwrap_or(0.0)]. *)
Definition power_f64 (r : option Record_) : float :=
  default F64.zero (r ≫= λ r, parse_f64 (r_value r)).

Lemma last_two_app {A} (l : list A) p x : last_two (l ++ [p; x]) = Some (p, x).
Proof. unfold last_two. rewrite rev_app_distr. done. Qed.

Lemma last_two_Some {A} (l : list A) p x :
  last_two l = Some (p, x) ↔ ∃ k, l = k ++ [p; x].
Proof.
  split; [|intros [k ->]; apply last_two_app].
  unfold last_two. destruct (rev l) as [|a [|b k]] eqn:E; [done..|]. intros [= -> ->].
  exists (rev k). rewrite <- (rev_involutive l), E. simpl. by rewrite <- app_assoc.
Qed.

Lemma last_two_None {A} (l : list A) : last_two l = None ↔ (length l < 2)%nat.
Proof.
  unfold last_two. rewrite <- length_rev. destruct (rev l) as [|a [|b k]]; simpl; split; try done; lia.
Qed.

(** ** The counter *)

Lemma energy_delta_range m last previous :
  0 <= m <= umax 64 → 0 <= last <= umax 64 → 0 <= previous →
  0 <= energy_delta m last previous <= umax 64.
Proof. unfold energy_delta, sat_add, sat_sub. intros. destruct (Z.leb_spec previous last); lia. Qed.

(** If a counter of period [m] has advanced by less than a period, the distance between
    the two readings is the energy really consumed. *)
Lemma energy_delta_periodic m e0 e1 :
  0 < m <= umax 64 → 0 <= e0 → e0 <= e1 < e0 + m →
  energy_delta m (e1 mod m) (e0 mod m) = e1 - e0.
Proof.
  intros Hm He0 He1. unfold energy_delta, sat_add, sat_sub.
  pose proof (Z.div_mod e0 m). pose proof (Z.div_mod e1 m).
  pose proof (Z.mod_pos_bound e0 m). pose proof (Z.mod_pos_bound e1 m).
  assert (e1 / m = e0 / m ∨ e1 / m = e0 / m + 1).
  { pose proof (Z.div_le_mono e0 e1 m). pose proof (Z.div_le_mono e1 (e0 + 1 * m) m) as Hu.
    rewrite Z.div_add in Hu by lia. lia. }
  destruct (Z.leb_spec (e0 mod m) (e1 mod m)); nia.
Qed.

(** ** The quotient *)

Lemma as_secs_f64_whole s : 0 <= s < 2 ^ 53 → as_secs_f64 (mkDuration s 0) = F64.of_Z s.
Proof.
  intros Hs. unfold as_secs_f64. simpl secs. simpl nanos.
  change (F64.div (F64.of_Z 0) (F64.of_Z 1000000000)) with (Floats.of_Z 53 1024 0).
  unfold F64.add, F64.of_Z. rewrite add_exact by lia. by rewrite Z.add_0_r.
Qed.

(** Whole seconds apart, the power is the integer quotient. *)
Lemma net_power_exact uj s0 s1 background :
  0 <= uj < 2 ^ 53 → 0 <= s0 < s1 → s1 < 2 ^ 53 → 0 <= background →
  net_power uj (mkDuration s1 0) (mkDuration s0 0) background
  = sat_sub (uj / (s1 - s0)) background.
Proof.
  intros Huj Hs Hs1 Hb. unfold net_power, time_diff. rewrite !as_secs_f64_whole by lia.
  f_equal. unfold F64.sub, F64.div, F64.of_Z. rewrite sub_exact by lia.
  destruct (div_trunc 53 1024 ltac:(lia) ltac:(lia) uj (s1 - s0)) as [Hf Ht]; [lia..|].
  apply to_uint_trunc; [done..|]. split; [apply Z.div_pos; lia|].
  apply Z.le_trans with uj; [|unfold umax; lia]. apply Z.div_le_upper_bound; nia.
Qed.

(** Readings taken at the same instant: an infinite quotient, or NaN when nothing was
    consumed. *)
Lemma net_power_same_instant uj s background :
  0 <= uj < 2 ^ 53 → 0 <= s < 2 ^ 53 →
  net_power uj (mkDuration s 0) (mkDuration s 0) background
  = sat_sub (if uj =? 0 then 0 else umax 64) background.
Proof.
  intros Huj Hs. unfold net_power, time_diff. rewrite !as_secs_f64_whole by lia.
  f_equal. unfold F64.sub, F64.div, F64.of_Z. rewrite sub_exact by lia. rewrite Z.sub_diag, of_Z_0.
  destruct (Z.eqb_spec uj 0) as [->|]; [done|]. rewrite of_Z_exact by lia. done.
Qed.

(** A clock that went back: a negative quotient, truncated to 0. *)
Lemma net_power_backwards uj s0 s1 background :
  0 <= uj < 2 ^ 53 → 0 <= s1 < s0 → s0 < 2 ^ 53 → 0 <= background →
  net_power uj (mkDuration s1 0) (mkDuration s0 0) background = 0.
Proof.
  intros Huj Hs Hs0 Hb. unfold net_power, time_diff. rewrite !as_secs_f64_whole by lia.
  unfold F64.sub, F64.div, F64.of_Z. rewrite sub_exact_neg by lia.
  rewrite to_uint_div_neg by lia. unfold sat_sub. lia.
Qed.

Lemma net_power_range uj t1 t0 background :
  0 <= background → 0 <= net_power uj t1 t0 background <= umax 64.
Proof.
  intros Hb. unfold net_power.
  pose proof (to_uint_range 64 (F64.div (F64.of_Z uj) (time_diff t1 t0))). unfold sat_sub. lia.
Qed.

(** ** Any times

    The times of measure carry nanoseconds, and binary64 rounds them: the power is the
    quotient of the energy by an interval that differs from the real one by less than five
    microseconds, until the year 2106. *)

Definition stamp (d : Duration) : Q := inject_Z (secs d) + inject_Z (nanos d) / inject_Z 1000000000.

(** A time of measure: seconds below [2 ^ 32] and less than a second. *)
Definition measured (d : Duration) : Prop := 0 <= secs d < 2 ^ 32 ∧ 0 <= nanos d < 1000000000.

(** The nanoseconds between two times of measure. *)
Definition elapsed_nanos (last previous : Duration) : Z := as_nanos last - as_nanos previous.

Lemma tiny : (pow2 (- 53) == 1 # 9007199254740992)%Q.
Proof. reflexivity. Qed.

Lemma huge (v : Q) : (v < inject_Z (2 ^ 200))%Q → (v < pow2 (1024 - 1))%Q.
Proof.
  intros Hv. eapply Qlt_le_trans; [exact Hv|]. rewrite <- pow2_Z by lia. by apply Qpower_le_compat_l.
Qed.

Lemma nanos_near n :
  0 <= n < 1000000000 → near 53 (inject_Z n / inject_Z 1000000000) (F64.div (F64.of_Z n) (F64.of_Z 1000000000)).
Proof.
  intros Hn. assert (Hq : (inject_Z n < inject_Z 1000000000)%Q) by (rewrite <- Zlt_Qlt; lia).
  apply div_near; try (apply of_Z_val; lia); try lia; [done|].
  destruct (decide (n = 0)) as [->|Hne]; [by left|right].
  assert (Hq1 : (inject_Z 1 <= inject_Z n)%Q) by (rewrite <- Zle_Qle; lia).
  change (inject_Z 1000000000) with (1000000000 # 1)%Q in *. change (inject_Z 1) with 1%Q in *.
  split; [|apply huge].
  - rewrite tiny. apply Qle_shift_div_l; [done|]. lra.
  - apply Qlt_shift_div_r; [done|]. eapply Qlt_le_trans; [exact Hq|]. done.
Qed.

(** The interval of an integer that is below a bound, as rationals. *)
Lemma inject_bounds a n b : a <= n < b → (inject_Z a <= inject_Z n)%Q ∧ (inject_Z n < inject_Z b)%Q.
Proof. intros Hn. rewrite <- Zle_Qle, <- Zlt_Qlt. lia. Qed.

Lemma stamp_near d :
  measured d → ∃ w, is_val (as_secs_f64 d) w ∧ (stamp d - (96 # 100000000) <= w)%Q ∧ (w <= stamp d + (96 # 100000000))%Q.
Proof.
  intros [Hs Hn]. destruct (nanos_near (nanos d) Hn) as (f & Hf & Hf1 & Hf2).
  unfold ulp in Hf1, Hf2. change (pow2 (1 - 53)) with (1 # 4503599627370496)%Q in Hf1, Hf2.
  destruct (inject_bounds _ _ _ Hs) as [Hs1 Hs2]. destruct (inject_bounds _ _ _ Hn) as [Hn1 Hn2].
  assert (HF : (0 <= inject_Z (nanos d) / inject_Z 1000000000)%Q ∧ (inject_Z (nanos d) / inject_Z 1000000000 < 1)%Q).
  { split; [by apply Qle_shift_div_l|by apply Qlt_shift_div_r]. }
  unfold stamp. set (F := (inject_Z (nanos d) / inject_Z 1000000000)%Q) in *.
  change (inject_Z (2 ^ 32)) with (4294967296 # 1)%Q in Hs2. change (inject_Z 0) with 0%Q in Hs1.
  destruct (add_near 53 1024 ltac:(lia) ltac:(lia) (F64.of_Z (secs d))
              (F64.div (F64.of_Z (nanos d)) (F64.of_Z 1000000000)) (inject_Z (secs d)) f) as (w & Hw & Hw1 & Hw2);
    [apply of_Z_val; lia|exact Hf| | |].
  - destruct (decide (secs d = 0)) as [->|]; [by left|right]. rewrite tiny.
    apply Qle_trans with (inject_Z 1); [done|]. rewrite <- Zle_Qle. lia.
  - apply huge. change (inject_Z (2 ^ 200)) with (1606938044258990275541962092341162602522202993782792835301376 # 1)%Q. lra.
  - unfold ulp in Hw1, Hw2. change (pow2 (1 - 53)) with (1 # 4503599627370496)%Q in Hw1, Hw2.
    exists w. split; [exact Hw|]. split; lra.
Qed.

Lemma stamp_nanos d : (stamp d == inject_Z (as_nanos d) / inject_Z 1000000000)%Q.
Proof. unfold stamp, as_nanos. rewrite inject_Z_plus, inject_Z_mult. field. Qed.

Lemma interval_near last previous :
  measured last → measured previous → 5000 < elapsed_nanos last previous →
  let D := (inject_Z (elapsed_nanos last previous) / inject_Z 1000000000)%Q in
  ∃ x, is_val (time_diff last previous) x ∧ (D - (29 # 10000000) <= x)%Q ∧ (x <= D + (29 # 10000000))%Q ∧
       (D < 4294967297 # 1)%Q ∧ (5 # 1000000 < D)%Q.
Proof.
  intros Hl Hp He D. destruct (stamp_near _ Hl) as (wl & Vl & Hl1 & Hl2), (stamp_near _ Hp) as (wp & Vp & Hp1 & Hp2).
  assert (HD : (D == stamp last - stamp previous)%Q).
  { unfold D, elapsed_nanos, Z.sub. rewrite inject_Z_plus, inject_Z_opp, !stamp_nanos. field. }
  assert (HD1 : (5 # 1000000 < D)%Q).
  { apply Qlt_shift_div_l; [done|]. apply Qle_lt_trans with (inject_Z 5000); [done|]. by rewrite <- Zlt_Qlt. }
  assert (HD2 : (D < 4294967297 # 1)%Q).
  { apply Qlt_shift_div_r; [done|]. change ((4294967297 # 1) * inject_Z 1000000000)%Q with (inject_Z (4294967297 * 1000000000)).
    rewrite <- Zlt_Qlt. destruct Hl, Hp. unfold elapsed_nanos, as_nanos. lia. }
  destruct (sub_near 53 1024 ltac:(lia) ltac:(lia) _ _ _ _ Vl Vp) as (x & Vx & Hx1 & Hx2).
  { split; [rewrite tiny; lra|]. apply huge.
    change (inject_Z (2 ^ 200)) with (1606938044258990275541962092341162602522202993782792835301376 # 1)%Q. lra. }
  unfold ulp in Hx1, Hx2. change (pow2 (1 - 53)) with (1 # 4503599627370496)%Q in Hx1, Hx2.
  exists x. split; [exact Vx|]. split_and!; lra.
Qed.

(** Two relative errors of a unit are less than two microseconds of the interval. *)
Lemma quotient_between (U E D x v q : Q) :
  let u := (1 # 4503599627370496)%Q in
  (0 <= U)%Q → ((1 - u) * U <= E)%Q → (E <= (1 + u) * U)%Q →
  (D - (29 # 10000000) <= x)%Q → (x <= D + (29 # 10000000))%Q → (5 # 1000000 < D)%Q → (D < 4294967297 # 1)%Q →
  (0 <= v)%Q → (v * x == E)%Q → ((1 - u) * v <= q)%Q → (q <= (1 + u) * v)%Q →
  (q * (D - (5 # 1000000)) <= U)%Q ∧ (U <= q * (D + (5 # 1000000)))%Q.
Proof.
  intros u HU HE1 HE2 Hx1 Hx2 HD1 HD2 Hv Hvx Hq1 Hq2. unfold u in *. clear u. split.
  - assert (H1 : ((1 + (1 # 4503599627370496)) * (1 + (1 # 4503599627370496)) * (D - (5 # 1000000)) <= x)%Q) by lra.
    assert (H2 : (q * (D - (5 # 1000000)) <= (1 + (1 # 4503599627370496)) * v * (D - (5 # 1000000)))%Q)
      by (apply Qmult_le_compat_r; [exact Hq2|lra]).
    assert (H3 : ((1 + (1 # 4503599627370496)) * (1 + (1 # 4503599627370496)) * (D - (5 # 1000000)) * v <= x * v)%Q)
      by (apply Qmult_le_compat_r; [exact H1|exact Hv]).
    lra.
  - assert (H1 : (x <= (1 - (1 # 4503599627370496)) * (1 - (1 # 4503599627370496)) * (D + (5 # 1000000)))%Q) by lra.
    assert (H2 : ((1 - (1 # 4503599627370496)) * v * (D + (5 # 1000000)) <= q * (D + (5 # 1000000)))%Q)
      by (apply Qmult_le_compat_r; [exact Hq1|lra]).
    assert (H3 : (x * v <= (1 - (1 # 4503599627370496)) * (1 - (1 # 4503599627370496)) * (D + (5 # 1000000)) * v)%Q)
      by (apply Qmult_le_compat_r; [exact H1|exact Hv]).
    lra.
Qed.

Lemma quotient_near uj last previous :
  measured last → measured previous → 5000 < elapsed_nanos last previous → 0 <= uj < 2 ^ 128 →
  let D := (inject_Z (elapsed_nanos last previous) / inject_Z 1000000000)%Q in
  ∃ q, is_val (F64.div (F64.of_Z uj) (time_diff last previous)) q ∧
       (q * (D - (5 # 1000000)) <= inject_Z uj)%Q ∧ (inject_Z uj <= q * (D + (5 # 1000000)))%Q.
Proof.
  intros Hl Hp He Hu D. destruct (interval_near _ _ Hl Hp He) as (x & Vx & Hx1 & Hx2 & HD2 & HD1). fold D in Hx1, Hx2, HD1, HD2.
  destruct (of_Z_near 53 1024 ltac:(lia) ltac:(lia) uj) as (E & VE & HE1 & HE2).
  { split; [lia|]. eapply Z.lt_le_trans; [apply Hu|]. by apply Z.pow_le_mono_r. }
  unfold ulp in HE1, HE2. change (pow2 (1 - 53)) with (1 # 4503599627370496)%Q in HE1, HE2.
  destruct (inject_bounds _ _ _ Hu) as [Hu1 Hu2].
  change (inject_Z (2 ^ 128)) with (340282366920938463463374607431768211456 # 1)%Q in Hu2.
  change (inject_Z 0) with 0%Q in Hu1.
  assert (Hn : (E == 0)%Q ∨ normal 53 1024 (E / x)).
  { destruct (decide (uj = 0)) as [->|Hne]; [left; change (inject_Z 0) with 0%Q in *; lra|right].
    assert (Hone : (inject_Z 1 <= inject_Z uj)%Q) by (rewrite <- Zle_Qle; lia). change (inject_Z 1) with 1%Q in Hone.
    split; [rewrite tiny; apply Qle_shift_div_l; lra|]. apply huge. apply Qlt_shift_div_r; [lra|].
    change (inject_Z (2 ^ 200)) with (1606938044258990275541962092341162602522202993782792835301376 # 1)%Q. lra. }
  destruct (div_near 53 1024 ltac:(lia) ltac:(lia) (F64.of_Z uj) _ E x VE Vx ltac:(lra) Hn) as (q & Vq & Hq1 & Hq2).
  unfold ulp in Hq1, Hq2. change (pow2 (1 - 53)) with (1 # 4503599627370496)%Q in Hq1, Hq2.
  exists q. split; [exact Vq|]. apply (quotient_between (inject_Z uj) E D x (E / x)); try done.
  - apply Qle_shift_div_l; lra.
  - field. lra.
Qed.

(** The rounded quotient, in nanoseconds. *)
Lemma power_between uj last previous :
  measured last → measured previous → 5000 < elapsed_nanos last previous → 0 <= uj < 2 ^ 128 →
  let d := elapsed_nanos last previous in
  Z.min (umax 64) (uj * 1000000000 / (d + 5000))
  <= to_uint 64 (F64.div (F64.of_Z uj) (time_diff last previous))
  <= Z.min (umax 64) (uj * 1000000000 / (d - 5000)).
Proof.
  intros Hl Hp He Hu d. destruct (quotient_near uj _ _ Hl Hp He Hu) as (q & Vq & Hq1 & Hq2). fold d in Hq1, Hq2, He.
  rewrite (to_uint_floor 64 _ q) by done.
  assert (HD : (inject_Z d / inject_Z 1000000000 * inject_Z 1000000000 == inject_Z d)%Q) by field.
  set (D := (inject_Z d / inject_Z 1000000000)%Q) in *. change (inject_Z 1000000000) with (1000000000 # 1)%Q in HD.
  assert (H1 : (q * inject_Z (d - 5000) <= inject_Z (uj * 1000000000))%Q).
  { unfold Z.sub. rewrite inject_Z_mult, inject_Z_plus. change (inject_Z (- (5000))) with (- 5000 # 1)%Q.
    change (inject_Z 1000000000) with (1000000000 # 1)%Q. rewrite <- HD. lra. }
  assert (H2 : (inject_Z (uj * 1000000000) <= q * inject_Z (d + 5000))%Q).
  { rewrite inject_Z_mult, inject_Z_plus. change (inject_Z 5000) with (5000 # 1)%Q.
    change (inject_Z 1000000000) with (1000000000 # 1)%Q. rewrite <- HD. lra. }
  assert (uj * 1000000000 / (d + 5000) <= Qfloor q).
  { assert (Hk : (inject_Z (uj * 1000000000 / (d + 5000)) <= q)%Q).
    - apply (Qmult_le_r _ _ (inject_Z (d + 5000))); [change 0%Q with (inject_Z 0); rewrite <- Zlt_Qlt; lia|].
      eapply Qle_trans; [|exact H2]. rewrite <- inject_Z_mult, <- Zle_Qle.
      pose proof (Z.mul_div_le (uj * 1000000000) (d + 5000)). lia.
    - apply Qfloor_resp_le in Hk. by rewrite Qfloor_Z in Hk. }
  assert (Qfloor q <= uj * 1000000000 / (d - 5000)).
  { apply Z.div_le_lower_bound; [lia|]. rewrite Zle_Qle, inject_Z_mult. eapply Qle_trans; [|exact H1].
    rewrite Qmult_comm. apply Qmult_le_compat_r; [apply Qfloor_le|]. change 0%Q with (inject_Z 0). rewrite <- Zle_Qle. lia. }
  lia.
Qed.

(** [p] is the energy divided by an interval that differs by at most five microseconds from
    the one between the two times, rounded down and capped to [u64]; between whole seconds
    it is the quotient by the interval itself. *)
Definition average_power (uj : Z) (last previous : Duration) (p : Z) : Prop :=
  let d := elapsed_nanos last previous in
  Z.min (umax 64) (uj * 1000000000 / (d + 5000)) <= p <= Z.min (umax 64) (uj * 1000000000 / (d - 5000)) ∧
  (nanos last = 0 → nanos previous = 0 → uj < 2 ^ 53 → p = uj / (secs last - secs previous)).

(** The power at any times of measure. *)
Lemma net_power_average uj last previous background :
  measured last → measured previous → 5000 < elapsed_nanos last previous → 0 <= uj < 2 ^ 128 →
  ∃ p, net_power uj last previous background = sat_sub p background ∧ average_power uj last previous p.
Proof.
  intros Hl Hp He Hu. exists (to_uint 64 (F64.div (F64.of_Z uj) (time_diff last previous))).
  split; [done|]. split; [by apply power_between|]. intros Hnl Hnp Hu53.
  destruct last as [s1 n1], previous as [s0 n0], Hl as [Hl _], Hp as [Hp _]. simpl in *. subst n1 n0.
  unfold elapsed_nanos, as_nanos in He. simpl in He.
  pose proof (net_power_exact uj s0 s1 0 ltac:(lia) ltac:(lia) ltac:(lia) ltac:(lia)) as H1.
  unfold net_power, sat_sub in H1. pose proof (to_uint_range 64 (F64.div (F64.of_Z uj) (time_diff (mkDuration s1 0) (mkDuration s0 0)))).
  pose proof (Z.div_pos uj (s1 - s0)). lia.
Qed.
