(* ===== verification/Common.v ===== *)
(** * Types shared between components

    The events the eBPF programs send to user space ([scaphandre-common/src/lib.rs]) and
    the resource a RAPL domain measures ([sensors/powercap_rapl.rs], DomainResource). *)

From S2P Require Import Prelude.

Inductive CpuEventType := ActivationEvent | IdleEvent.

#[export] Instance CpuEventType_eq_dec : EqDecision CpuEventType.
Proof. solve_decision. Defined.

Record CpuStateEvent := mkEvent { socket_id : Z; event_type : CpuEventType }.

#[export] Instance CpuStateEvent_eq_dec : EqDecision CpuStateEvent.
Proof. solve_decision. Defined.

(** The discriminants ([repr(u32)]). *)
Definition discriminant (e : CpuEventType) : Z :=
  match e with ActivationEvent => 0 | IdleEvent => 1 end.

Inductive DomainResource := Memory | CPU | GPU.

#[export] Instance DomainResource_eq_dec : EqDecision DomainResource.
Proof. solve_decision. Defined.

(** [Display]. *)
Definition resource_to_string (r : DomainResource) : string :=
  match r with CPU => "core" | GPU => "uncore" | Memory => "dram" end.

(** [DomainResource::parse]. *)
Definition parse_resource (name : string) : outcome DomainResource :=
  if decide (name = "core"%string) then Done CPU
  else if decide (name = "uncore"%string) then Done GPU
  else if decide (name = "dram"%string) then Done Memory
  else Panic.

(** Parsing inverts the display of a resource and panics on every other name. *)
Theorem resource_roundtrip name r :
  parse_resource name = Done r ↔ name = resource_to_string r.
Proof.
  split; [|intros ->; by destruct r]. unfold parse_resource. repeat case_decide; by intros [= <-].
Qed.
