(* ===== verification/Domain.v ===== *)
(** * RAPL domains ([sensors/mod.rs], Domain; [sensors/powercap_rapl.rs], its reader)

    A domain is a part of a socket with its own energy counter (core, uncore or dram).  It
    reads the counter from the file named by its sensor data, keeps the readings in a
    bounded buffer and turns the two newest into a power, from which it subtracts the
    background power its socket has allotted to it. *)

From S2P Require Import Prelude Floats Text FloatText Units Env Simulated Records Energy.

Record Domain := mkDomain {
  id : Z;
  name : string;
  counter_uj_path : string;
  record_buffer : list Record_;
  buffer_max_kbytes : Z;
  rapl_max_uj : Z;
  background_power_uw : float;
  sensor_data : gmap string string;
}.

Definition new (id : Z) (name counter_uj_path : string) (buffer_max_kbytes : Z)
    (sensor_data : gmap string string) : Domain := {|
  id := id; name := name; counter_uj_path := counter_uj_path;
  record_buffer := [];
  buffer_max_kbytes := buffer_max_kbytes;
  rapl_max_uj := rapl_max sensor_data;
  background_power_uw := F64.zero;
  sensor_data := sensor_data |}.

Definition set_record_buffer (b : list Record_) (d : Domain) : Domain := {|
  id := id d; name := name d; counter_uj_path := counter_uj_path d;
  record_buffer := b;
  buffer_max_kbytes := buffer_max_kbytes d;
  rapl_max_uj := rapl_max_uj d;
  background_power_uw := background_power_uw d;
  sensor_data := sensor_data d |}.

Definition set_background (b : float) (d : Domain) : Domain := {|
  id := id d; name := name d; counter_uj_path := counter_uj_path d;
  record_buffer := record_buffer d;
  buffer_max_kbytes := buffer_max_kbytes d;
  rapl_max_uj := rapl_max_uj d;
  background_power_uw := b;
  sensor_data := sensor_data d |}.

Definition insert_sensor_data (k v : string) (d : Domain) : Domain := {|
  id := id d; name := name d; counter_uj_path := counter_uj_path d;
  record_buffer := record_buffer d;
  buffer_max_kbytes := buffer_max_kbytes d;
  rapl_max_uj := rapl_max_uj d;
  background_power_uw := background_power_uw d;
  sensor_data := <[k := v]> (sensor_data d) |}.

(** [Display]. *)
Definition to_string (d : Domain) : string := "Domain: " +:+ name d.

(** ** Readings *)

(** [RecordReader for Domain]: panics when the sensor data has no source file. *)
Definition read_record `{Os} (d : Domain) : io (option Record_) :=
  source_file ← lift (unwrap (sensor_data d !! "source_file"%string));
  content ← read_file source_file;
  match content with
  | Some value =>
      now ← current_system_time_since_epoch;
      mret (Some (mkRecord now value MicroJoule))
  | None => mret None
  end.

(** Indexes the first record, so the buffer must not be empty. *)
Definition clean_old_records `{Profile, Layout} (d : Domain) : outcome Domain :=
  match record_buffer d with
  | [] => Panic
  | _ :: _ =>
      b ← clean_front (buffer_max_kbytes d) size_Record (record_buffer d);
      Done (set_record_buffer b d)
  end.

Definition refresh_record `{Profile, Layout, Os} (d : Domain) : io Domain :=
  r ← read_record d;
  let d := match r with
           | Some record => set_record_buffer (record_buffer d ++ [record]) d
           | None => d
           end in
  match record_buffer d with
  | [] => mret d
  | _ :: _ => lift (clean_old_records d)
  end.

Definition get_records_passive (d : Domain) : list Record_ :=
  (λ r, mkRecord (r_timestamp r) (r_value r) MicroJoule) <$> record_buffer d.

(** ** Power *)

Definition get_records_diff_power_microwatts (d : Domain) : option Record_ :=
  '(previous_record, last_record) ← last_two (record_buffer d);
  match parse_uint 64 (trim (r_value last_record)),
        parse_uint 64 (trim (r_value previous_record)) with
  | Some last_microjoules, Some previous_microjoules =>
      let microjoules := energy_delta (rapl_max_uj d) last_microjoules previous_microjoules in
      let power := net_power microjoules (r_timestamp last_record) (r_timestamp previous_record)
                     (to_uint 64 (background_power_uw d)) in
      Some (mkRecord (r_timestamp last_record) (show_uint power) MicroWatt)
  | _, _ => None
  end.

Definition get_rapl_mmio_energy_microjoules `{Os} (d : Domain) : io (option Record_) :=
  match sensor_data d !! "mmio"%string with
  | Some mmio =>
      content ← read_file mmio;
      match content with
      | Some value =>
          now ← current_system_time_since_epoch;
          mret (Some (mkRecord now value MicroJoule))
      | None => mret None
      end
  | None => mret None
  end.

(** ** The power of a domain *)

(** C1: when the buffer ends with two readings of a counter of period [rapl_max_uj] that
    advanced from [e0] to [e1] microjoules by less than a period, the power reported is the
    average over the interval between their times of measure ([average_power]: the energy
    divided by the interval, of which double precision loses less than five microseconds,
    and by exactly the interval when the times are whole seconds), less the background power
    of the domain (and never below zero), whether or not the counter wrapped in between. *)
Theorem power_of_consumption d k r0 r1 e0 e1 :
  record_buffer d = k ++ [r0; r1] →
  0 < rapl_max_uj d <= umax 64 → 0 <= e0 <= e1 → e1 - e0 < rapl_max_uj d →
  parse_uint 64 (trim (r_value r0)) = Some (e0 mod rapl_max_uj d) →
  parse_uint 64 (trim (r_value r1)) = Some (e1 mod rapl_max_uj d) →
  measured (r_timestamp r0) → measured (r_timestamp r1) →
  5000 < elapsed_nanos (r_timestamp r1) (r_timestamp r0) →
  ∃ p, average_power (e1 - e0) (r_timestamp r1) (r_timestamp r0) p ∧
    get_records_diff_power_microwatts d
    = Some (mkRecord (r_timestamp r1) (show_uint (sat_sub p (to_uint 64 (background_power_uw d)))) MicroWatt).
Proof.
  intros Hb Hm He Hp H0 H1 Ht0 Ht1 Hs.
  destruct (net_power_average (e1 - e0) (r_timestamp r1) (r_timestamp r0) (to_uint 64 (background_power_uw d)))
    as (p & Hn & Ha); [done..|unfold umax in Hm; lia|].
  exists p. split; [exact Ha|]. unfold get_records_diff_power_microwatts. rewrite Hb, last_two_app. simpl.
  rewrite H0, H1. simpl. rewrite energy_delta_periodic by lia. by rewrite Hn.
Qed.

(** At whole seconds there is no limit on the time. *)
Lemma power_whole_seconds d k r0 r1 e0 e1 s0 s1 :
  record_buffer d = k ++ [r0; r1] →
  0 < rapl_max_uj d <= umax 64 → 0 <= e0 <= e1 → e1 - e0 < rapl_max_uj d → e1 - e0 < 2 ^ 53 →
  parse_uint 64 (trim (r_value r0)) = Some (e0 mod rapl_max_uj d) →
  parse_uint 64 (trim (r_value r1)) = Some (e1 mod rapl_max_uj d) →
  r_timestamp r0 = mkDuration s0 0 → r_timestamp r1 = mkDuration s1 0 →
  0 <= s0 < s1 → s1 < 2 ^ 53 →
  get_records_diff_power_microwatts d
  = Some (mkRecord (mkDuration s1 0)
            (show_uint (sat_sub ((e1 - e0) / (s1 - s0)) (to_uint 64 (background_power_uw d))))
            MicroWatt).
Proof.
  intros Hb Hm He Hp H53 H0 H1 Ht0 Ht1 Hs Hs1.
  unfold get_records_diff_power_microwatts. rewrite Hb, last_two_app. simpl.
  rewrite H0, H1, Ht0, Ht1. simpl.
  rewrite energy_delta_periodic, net_power_exact; try done; try lia.
  apply to_uint_range. lia.
Qed.

(** A wrapped counter, read at 10.9 and 11.1 seconds. *)
Definition wrapping_domain : Domain :=
  set_record_buffer [mkRecord (mkDuration 10 900000000) ("262143328849" +:+ String (Ascii.ascii_of_nat 10) "") MicroJoule;
                     mkRecord (mkDuration 11 100000000) ("1000" +:+ String (Ascii.ascii_of_nat 10) "") MicroJoule]
    (new 0 "core" "" 1 {["max_energy_range_uj"%string := "262143328850"%string]}).

Lemma power_of_consumption_witness :
  ∃ p, 5004 <= p <= 5005 ∧
    get_records_diff_power_microwatts wrapping_domain
    = Some (mkRecord (mkDuration 11 100000000)
              (show_uint (sat_sub p (to_uint 64 (background_power_uw wrapping_domain)))) MicroWatt).
Proof.
  destruct (power_of_consumption wrapping_domain []
              (mkRecord (mkDuration 10 900000000) ("262143328849" +:+ String (Ascii.ascii_of_nat 10) "") MicroJoule)
              (mkRecord (mkDuration 11 100000000) ("1000" +:+ String (Ascii.ascii_of_nat 10) "") MicroJoule)
              262143328849 262143329850) as (p & [Hp _] & Hr);
    [try (vm_compute; done); vm_compute; split; done..|].
  exists p. split; [exact Hp|exact Hr].
Defined.

(** No power is reported exactly when the buffer holds fewer than two readings or one
    of the two newest is not a [u64] in decimal; otherwise the power is a [u64] with the
    time of the newest reading. *)
Theorem power_defined d :
  match get_records_diff_power_microwatts d with
  | None => (length (record_buffer d) < 2)%nat ∨
            ∃ k r0 r1, record_buffer d = k ++ [r0; r1] ∧
                       (parse_uint 64 (trim (r_value r0)) = None ∨
                        parse_uint 64 (trim (r_value r1)) = None)
  | Some r => ∃ k r0 r1 p, record_buffer d = k ++ [r0; r1] ∧ r_timestamp r = r_timestamp r1 ∧
                           r_unit r = MicroWatt ∧ value_u64 r = Some p ∧
                           r_value r = show_uint p
  end.
Proof.
  unfold get_records_diff_power_microwatts.
  destruct (last_two (record_buffer d)) as [[r0 r1]|] eqn:E; simpl; [|left; by apply last_two_None].
  apply last_two_Some in E as [k Hk].
  destruct (parse_uint 64 (trim (r_value r1))) eqn:E1; [|right; eauto 10].
  destruct (parse_uint 64 (trim (r_value r0))) eqn:E0; [|right; eauto 10].
  set (p := net_power _ _ _ _). exists k, r0, r1, p. split_and!; try done.
  apply parse_show_uint, net_power_range, to_uint_range. lia.
Qed.

(** Readings one of which was taken before the other according to the clock (it was set
    back) give a power of 0; readings taken at the same instant give [u64::MAX] less the
    background, or 0 when the counter did not move. *)
Theorem power_degenerate_time d k r0 r1 e0 e1 s0 s1 :
  record_buffer d = k ++ [r0; r1] →
  parse_uint 64 (trim (r_value r0)) = Some e0 → parse_uint 64 (trim (r_value r1)) = Some e1 →
  e0 <= e1 < 2 ^ 53 →
  r_timestamp r0 = mkDuration s0 0 → r_timestamp r1 = mkDuration s1 0 →
  0 <= s1 <= s0 → s0 < 2 ^ 53 →
  get_records_diff_power_microwatts d
  = Some (mkRecord (mkDuration s1 0)
            (show_uint (if s1 <? s0 then 0
                        else if e0 =? e1 then 0
                        else sat_sub (umax 64) (to_uint 64 (background_power_uw d)))) MicroWatt).
Proof.
  intros Hb H0 H1 He Ht0 Ht1 Hs Hs0.
  pose proof (parse_uint_range _ _ _ H0). pose proof (to_uint_range 64 (background_power_uw d)).
  unfold get_records_diff_power_microwatts. rewrite Hb, last_two_app. simpl.
  rewrite H0, H1, Ht0, Ht1. simpl. unfold energy_delta. destruct (Z.leb_spec e0 e1); [|lia].
  destruct (Z.ltb_spec s1 s0); [by rewrite net_power_backwards by lia|].
  replace s1 with s0 by lia. rewrite net_power_same_instant by lia.
  replace (e1 - e0 =? 0) with (e0 =? e1)
    by (destruct (Z.eqb_spec e0 e1), (Z.eqb_spec (e1 - e0) 0); lia).
  destruct (Z.eqb_spec e0 e1); [|done]. unfold sat_sub. by replace (Z.max 0 _) with 0 by lia.
Qed.

Lemma power_degenerate_time_witness :
  get_records_diff_power_microwatts
    (set_record_buffer [mkRecord (mkDuration 10 0) "5" MicroJoule;
                        mkRecord (mkDuration 10 0) "7" MicroJoule] (new 0 "core" "" 1 ∅))
  = Some (mkRecord (mkDuration 10 0) "18446744073709551615" MicroWatt).
Proof.
  refine (eq_trans (power_degenerate_time _ [] (mkRecord (mkDuration 10 0) "5" MicroJoule)
                      (mkRecord (mkDuration 10 0) "7" MicroJoule) 5 7 10 10 _ _ _ _ _ _ _ _) _);
    vm_compute; try done; split; done.
Defined.

(** ** The buffer of a domain *)

(** The size invariant, for a limit that fits its type. *)
Definition wf `{Layout} (d : Domain) : Prop :=
  0 <= buffer_max_kbytes d <= 65 ∧
  within (buffer_max_kbytes d) size_Record (length (record_buffer d)).

(** C26: a refresh whose read succeeds stores the counter's text with the time of the
    reading as the newest record, keeps the previous newest record just before it (so that
    a power can be computed) unless the limit is zero, removes only the oldest records,
    leaves the rest of the domain alone and keeps the buffer below its limit plus two
    records. *)
Theorem refresh_appends `{Profile, Layout, Os} d w f v w1 now w2 :
  wf d → sensor_data d !! "source_file"%string = Some f →
  read_to_string f w = (Some v, w1) → clock w1 = (Some now, w2) →
  ∃ n, let kept := drop n (record_buffer d) in
  let d' := set_record_buffer (kept ++ [mkRecord now v MicroJoule]) d in
  refresh_record d w = Done (d', w2) ∧ wf d' ∧
  (0 < buffer_max_kbytes d → ∀ k r, record_buffer d = k ++ [r] →
     last_two (record_buffer d') = Some (r, mkRecord now v MicroJoule)).
Proof.
  intros [Hkb Hw] Hf Hr Hc. pose proof size_Record_range as Hs.
  set (rec := mkRecord now v MicroJoule).
  destruct (clean_front_append _ _ _ rec Hkb Hs Hw) as (n & l' & Hcl & -> & Hin & Hkeep).
  exists n. cbv zeta. split; [|split; [by split|]].
  - unfold refresh_record, read_record. rewrite Hf. unfold mbind, io_bind, lift, read_file. simpl.
    rewrite Hr. unfold current_system_time_since_epoch. rewrite Hc. simpl. fold rec.
    unfold clean_old_records. simpl. rewrite Hcl.
    destruct (record_buffer d); reflexivity.
  - intros Hpos k r Hk. destruct (Hkeep Hpos r k Hk) as [k' ->]. simpl.
    rewrite <- app_assoc. apply last_two_app.
Qed.

(** A host whose counter advances by a million microjoules a second. *)
Definition counter_host : Os :=
  simulated (λ p t, if decide (p = "/energy_uj"%string) then Some (show_uint (1000000 * t)) else None).

Definition sample_domain (kb : Z) : Domain := new 0 "core" "" kb {["source_file"%string := "/energy_uj"%string]}.

Lemma refresh_appends_witness :
  ∃ n : nat, let d' := set_record_buffer (drop n [] ++ [mkRecord (mkDuration 5 0) "5000000" MicroJoule])
                         (sample_domain 1) in
  @refresh_record true x86_64 counter_host (sample_domain 1) 5 = Done (d', 6) ∧ @wf x86_64 d' ∧
  (0 < 1 → ∀ k r, [] = k ++ [r] →
     last_two (record_buffer d') = Some (r, mkRecord (mkDuration 5 0) "5000000" MicroJoule)).
Proof.
  apply (@refresh_appends true x86_64 counter_host (sample_domain 1) 5 "/energy_uj" "5000000" 5
           (mkDuration 5 0) 6); try (vm_compute; done).
Defined.

(** With a limit of zero kilobytes a domain never holds two records, so it never
    reports a power. *)
Theorem no_power_without_buffer `{Profile, Layout, Os} d w d' w' :
  buffer_max_kbytes d = 0 → (length (record_buffer d) <= 1)%nat →
  refresh_record d w = Done (d', w') →
  buffer_max_kbytes d' = 0 ∧ (length (record_buffer d') <= 1)%nat ∧
  get_records_diff_power_microwatts d' = None.
Proof.
  intros Hz Hlen Href. pose proof size_Record_range as Hs.
  assert (Hclean : ∀ e e', buffer_max_kbytes e = 0 → (length (record_buffer e) <= 2)%nat →
                     clean_old_records e = Done e' →
                     buffer_max_kbytes e' = 0 ∧ (length (record_buffer e') <= 1)%nat).
  { intros e e' He0 He. unfold clean_old_records. rewrite He0.
    destruct (record_buffer e) as [|r b] eqn:E; [done|]. rewrite clean_front_drop by (cbn [length] in *; nia).
    simpl. rewrite evicted_zero by lia. intros [= <-]. split; [done|].
    cbn [set_record_buffer record_buffer]. rewrite length_drop. simpl in *. lia. }
  assert (Hb : buffer_max_kbytes d' = 0 ∧ (length (record_buffer d') <= 1)%nat).
  { unfold refresh_record in Href. apply io_bind_inv in Href as (r & w1 & _ & Href).
    set (e := match r with Some record => set_record_buffer (record_buffer d ++ [record]) d | None => d end) in *.
    assert (buffer_max_kbytes e = 0 ∧ (length (record_buffer e) <= 2)%nat) as [He1 He2].
    { unfold e. destruct r; simpl; [|lia]. rewrite length_app. simpl. lia. }
    destruct (record_buffer e) eqn:E; [|apply lift_inv in Href as [Href _]; apply Hclean in Href; auto].
    - injection Href as <- <-. rewrite E. simpl. split; [done|lia].
    - by rewrite E. }
  destruct Hb as [Hb1 Hb2]. split; [done|]. split; [done|].
  unfold get_records_diff_power_microwatts.
  rewrite (proj2 (last_two_None (record_buffer d'))) by lia. done.
Qed.

Lemma no_power_without_buffer_witness :
  ∃ d' w', @refresh_record true x86_64 counter_host (sample_domain 0) 5 = Done (d', w') ∧
           buffer_max_kbytes d' = 0 ∧ (length (record_buffer d') <= 1)%nat ∧
           get_records_diff_power_microwatts d' = None.
Proof.
  eexists _, _. split; [vm_compute; reflexivity|].
  eapply (@no_power_without_buffer true x86_64 counter_host (sample_domain 0) 5);
    [done|simpl; lia|vm_compute; reflexivity].
Defined.

(** A limit of 66 kilobytes or more does not fit its 16-bit type: evicting panics in a
    build that checks arithmetic, and otherwise uses the limit modulo 65536 bytes. *)
Theorem limit_overflow `{Profile, Layout} d :
  66 <= buffer_max_kbytes d < 2 ^ 16 → record_buffer d ≠ [] →
  clean_old_records d
  = if overflow_checks then Panic
    else let limit := buffer_max_kbytes d * 1000 mod 2 ^ 16 in
         let n := from_1_to (evictions limit size_Record (Z.of_nat (length (record_buffer d)))) in
         Done (set_record_buffer (drop n (record_buffer d)) d).
Proof.
  intros Hkb Hne. unfold clean_old_records, clean_front. rewrite limit_bytes_overflow by done.
  destruct (record_buffer d) eqn:E; [done|]. destruct overflow_checks; [done|].
  simpl. by rewrite remove_first_drop.
Qed.

Lemma limit_overflow_witness :
  @clean_old_records true x86_64
    (set_record_buffer [mkRecord (mkDuration 1 0) "1" MicroJoule] (sample_domain 66)) = Panic.
Proof.
  refine (eq_trans (@limit_overflow true x86_64 _ _ _) _); [split; done|done|done].
Defined.
