(* ===== verification/Core.v ===== *)
(** * CPU cores ([sensors/mod.rs], CPUCore)

    A core reads, at each refresh, the idle time of its [cpuidle] states, three model
    specific registers, the kernel's CPU times (its own and the whole node's) and two
    hardware counters, and stores the ten values as one record.  The difference of the
    two newest records gives the metrics from which a socket's power is shared between
    its cores. *)

From S2P Require Import Prelude Floats Text FloatText Units Env Simulated Records Energy.
From Stdlib Require Import Ascii.

Section Core.
Context `{Profile, Layout, Os, !FileSystem, !Procfs, !PerfEvents}.

Record CPUCore := mkCPUCore {
  id : Z;
  attributes : gmap string string;
  record_buffer : list MultiValuedRecord;
  buffer_max_kbytes : Z;
  instructions : option Counter;
  cycles : option Counter;
}.

Record CPUCoreMetrics := mkMetrics {
  cpu_time_percentage : float;
  aperf : Z;
  mperf : Z;
  tsc : Z;
  inst : float;
  cyc : float;
  ipc : float;
}.

(** A clone has no counters: they cannot be duplicated. *)
Definition clone (c : CPUCore) : CPUCore := {|
  id := id c; attributes := attributes c; record_buffer := record_buffer c;
  buffer_max_kbytes := buffer_max_kbytes c; instructions := None; cycles := None |}.

Definition set_record_buffer (b : list MultiValuedRecord) (c : CPUCore) : CPUCore := {|
  id := id c; attributes := attributes c; record_buffer := b;
  buffer_max_kbytes := buffer_max_kbytes c; instructions := instructions c; cycles := cycles c |}.

(** [if let Some(ref mut i) = counter { let _ = i.enable(); }] *)
Definition enable_counter (c : option Counter) : io unit :=
  λ w, Done (tt, match c with Some c => enable c w | None => w end).

Definition new (id : Z) (attributes : gmap string string) : io CPUCore :=
  instructions ← effect (build_counter INSTRUCTIONS id);
  cycles ← effect (build_counter CPU_CYCLES id);
  _ ← enable_counter instructions;
  _ ← enable_counter cycles;
  mret {| id := id; attributes := attributes; record_buffer := []; buffer_max_kbytes := 1;
          instructions := instructions; cycles := cycles |}.

(** ** Reading *)

(** [path.file_name().and_then(|n| n.to_str())]. *)
Definition file_name (path : string) : option string :=
  name ← last (split_on "/"%char path); to_str name.

(** One entry of the [cpuidle] directory: the idle time so far, plus its own. *)
Definition idle_state (total_idle_us : Z) (state_path : string) : io Z :=
  dir ← effect (is_dir state_path);
  match dir, file_name state_path with
  | true, Some name =>
      if decide (name = "state0"%string) then mret total_idle_us
      else
        content ← read_file (state_path +:+ "/time");
        match content ≫= λ s, parse_uint 64 (trim s) with
        | Some time_us => lift (uadd 64 total_idle_us time_us)
        | None => mret total_idle_us
        end
  | _, _ => mret total_idle_us
  end.

Definition read_idle (c : CPUCore) : io Z :=
  entries ← effect (read_dir ("/sys/devices/system/cpu/cpu" +:+ show_uint (id c) +:+ "/cpuidle"));
  match entries with
  | Some entries => io_fold idle_state 0 (omap (λ e, e) entries)
  | None => mret 0
  end.

Definition MSR_IA32_MPERF : Z := 0xE7.
Definition MSR_IA32_APERF : Z := 0xE8.
Definition MSR_IA32_TSC : Z := 0x10.

(** [u64::from_le_bytes] of a buffer of eight zeros after some bytes were read into it. *)
Fixpoint from_le_bytes (n : nat) (l : list Z) : Z :=
  match n, l with
  | S n, b :: l => b + 256 * from_le_bytes n l
  | _, _ => 0
  end.

Definition read_msr (c : CPUCore) (msr : Z) : io (option Z) :=
  bs ← effect (read_at ("/dev/cpu/" +:+ show_uint (id c) +:+ "/msr") msr 8);
  mret (from_le_bytes 8 <$> bs).

(** Total and busy time of a [/proc/stat] line. *)
Definition busy_and_total (t : CpuTime) : outcome (Z * Z) :=
  total ← usum 64 (ct_user t)
    [ct_nice t; ct_system t; ct_idle t; or_0 (ct_iowait t); or_0 (ct_irq t);
     or_0 (ct_softirq t); or_0 (ct_steal t); or_0 (ct_guest t); or_0 (ct_guest_nice t)];
  active ← usub 64 total (ct_idle t);
  busy ← usub 64 active (or_0 (ct_iowait t));
  Done (busy, total).

(** [(core_busy, core_total, node_busy, node_total)]. *)
Definition cpu_times (c : CPUCore) : io (Z * Z * Z * Z) :=
  stats ← read_kernel_stats;
  match stats with
  | None => mret (0, 0, 0, 0)
  | Some ks =>
      '(n_busy, n_total) ← lift (busy_and_total (ks_total ks));
      match ks_cpu_time ks !! Z.to_nat (id c) with
      | None => mret (0, 0, 0, 0)
      | Some ct => '(busy, total) ← lift (busy_and_total ct); mret (busy, total, n_busy, n_total)
      end
  end.

(** A counter's value, scaled by the share of the time it was scheduled on hardware. *)
Definition scaled (r : option CountAndTime) : float :=
  match r with
  | Some r =>
      if 0 <? time_running r then
        F64.mul (F64.of_Z (count r))
                (F64.div (F64.of_Z (time_enabled r)) (F64.of_Z (time_running r)))
      else F64.zero
  | None => F64.zero
  end.

Definition read_counter (counter : option Counter) : io (option CountAndTime) :=
  match counter with
  | Some counter => effect (read_count_and_time counter)
  | None => mret None
  end.

Definition record_units : list Unit :=
  [MicroSeconds; Cycles; Cycles; Numeric; Numeric; Numeric; Numeric; Numeric; Numeric; Cycles].

(** The ten quantities of one reading, and the record that holds them. *)
Record Readings := {
  rd_idle_us : Z; rd_mperf : Z; rd_aperf : Z;
  rd_core_busy : Z; rd_core_total : Z; rd_node_busy : Z; rd_node_total : Z;
  rd_instr : float; rd_cyc : float; rd_tsc : Z;
}.

Definition record_of (now : Duration) (x : Readings) : MultiValuedRecord :=
  mkMultiValuedRecord now
    [show_uint (rd_idle_us x); show_uint (rd_mperf x); show_uint (rd_aperf x);
     show_uint (rd_core_busy x); show_uint (rd_core_total x);
     show_uint (rd_node_busy x); show_uint (rd_node_total x);
     show_f64 (rd_instr x); show_f64 (rd_cyc x); show_uint (rd_tsc x)]
    record_units.

Definition read_record (c : CPUCore) : io (MultiValuedRecord + string) :=
  total_idle_us ← read_idle c;
  mperf ← read_msr c MSR_IA32_MPERF;
  aperf ← read_msr c MSR_IA32_APERF;
  tsc ← read_msr c MSR_IA32_TSC;
  '(core_busy, core_total, node_busy, node_total) ← cpu_times c;
  instr ← read_counter (instructions c);
  cyc ← read_counter (cycles c);
  now ← current_system_time_since_epoch;
  mret (inl (record_of now {|
    rd_idle_us := total_idle_us; rd_mperf := or_0 mperf; rd_aperf := or_0 aperf;
    rd_core_busy := core_busy; rd_core_total := core_total;
    rd_node_busy := node_busy; rd_node_total := node_total;
    rd_instr := scaled instr; rd_cyc := scaled cyc; rd_tsc := or_0 tsc |})).

(** ** The buffer *)

Definition clean_old_records (c : CPUCore) : outcome CPUCore :=
  match record_buffer c with
  | [] => Done c
  | _ :: _ =>
      b ← clean_front (buffer_max_kbytes c) size_MultiValuedRecord (record_buffer c);
      Done (set_record_buffer b c)
  end.

Definition refresh_record (c : CPUCore) : io CPUCore :=
  r ← read_record c;
  let c := match r with
           | inl record => set_record_buffer (record_buffer c ++ [record]) c
           | inr _ => c
           end in
  match record_buffer c with
  | [] => mret c
  | _ :: _ => lift (clean_old_records c)
  end.

Definition get_records_passive (c : CPUCore) : list MultiValuedRecord :=
  (λ r, mkMultiValuedRecord (m_timestamp r) (m_values r) (m_units r)) <$> record_buffer c.

(** [CPUStat] of the core: [kernelstats.cpu_time.remove(id)] panics out of range. *)
Definition read_stats (c : CPUCore) : io (option CPUStat) :=
  stats ← read_kernel_stats;
  match stats with
  | None => mret None
  | Some ks =>
      ct ← lift (unwrap (ks_cpu_time ks !! Z.to_nat (id c)));
      mret (Some (from_procfs_cputime ct))
  end.

(** ** Metrics *)

(** [values[i].trim().parse::<u64>().unwrap_or(0)], and the same for [f64]. *)
Definition u64_at (r : MultiValuedRecord) (i : nat) : Z :=
  default 0 (v ← m_values r !! i; parse_uint 64 (trim v)).
Definition f64_at (r : MultiValuedRecord) (i : nat) : float :=
  default F64.zero (v ← m_values r !! i; parse_f64 (trim v)).

Definition get_core_metrics_delta (c : CPUCore) : option CPUCoreMetrics :=
  '(previous, last) ← last_two (record_buffer c);
  if (10 <=? Z.of_nat (length (m_values last))) && (10 <=? Z.of_nat (length (m_values previous))) then
    let delta i := sat_sub (u64_at last i) (u64_at previous i) in
    let core_busy_delta := delta 3%nat in
    let node_busy_delta := delta 5%nat in
    let inst := F64.sub (f64_at last 7) (f64_at previous 7) in
    let cyc := F64.sub (f64_at last 8) (f64_at previous 8) in
    Some {|
      cpu_time_percentage :=
        if node_busy_delta =? 0 then F64.zero
        else F64.mul (F64.div (F64.of_Z core_busy_delta) (F64.of_Z node_busy_delta)) (F64.of_Z 100);
      aperf := delta 2%nat; mperf := delta 1%nat; tsc := delta 9%nat;
      inst := inst; cyc := cyc;
      ipc := if fgtb cyc F64.zero then F64.div inst cyc else F64.zero |}
  else None.

(** ** Lemmas *)

Lemma io_fold_u64 (f : Z → string → io Z) l a w b w' :
  (∀ s x w1 s' w2, u64 s → f s x w1 = Done (s', w2) → u64 s') →
  u64 a → io_fold f a l w = Done (b, w') → u64 b.
Proof. intros Hf. apply io_fold_inv. eauto. Qed.

Lemma read_idle_u64 c w us w' : read_idle c w = Done (us, w') → u64 us.
Proof.
  unfold read_idle. intros (entries & w1 & _ & Hr)%io_bind_inv.
  destruct entries as [entries|]; [|by injection Hr as <- _].
  revert Hr. apply io_fold_u64; [|done]. intros s x w2 s' w3 Hs. unfold idle_state.
  intros (dir & w4 & _ & Hd)%io_bind_inv.
  destruct dir; [|by injection Hd as <- _]. destruct (file_name x); [|by injection Hd as <- _].
  case_decide; [by injection Hd as <- _|]. apply io_bind_inv in Hd as (ct & w5 & _ & Hc).
  destruct (_ ≫= _); [|by injection Hc as <- _].
  apply lift_inv in Hc as [Hc _]. by apply arith_range in Hc.
Qed.

Lemma busy_and_total_u64 t b n : busy_and_total t = Done (b, n) → u64 b.
Proof.
  unfold busy_and_total. intros (x & _ & (y & _ & Hy)%bind_Done_inv)%bind_Done_inv.
  apply bind_Done_inv in Hy as (z & Hz & [= <- <-]). by apply arith_range in Hz.
Qed.

(** The busy time is part of the total. *)
Lemma busy_and_total_ok t :
  let part := [ct_nice t; ct_system t; ct_idle t; or_0 (ct_iowait t); or_0 (ct_irq t);
               or_0 (ct_softirq t); or_0 (ct_steal t); or_0 (ct_guest t); or_0 (ct_guest_nice t)] in
  Forall (Z.le 0) (ct_user t :: part) → ct_user t + list_sum part <= umax 64 →
  ∃ b n, busy_and_total t = Done (b, n) ∧ n = ct_user t + list_sum part ∧
         b = n - ct_idle t - or_0 (ct_iowait t) ∧ 0 <= b <= n.
Proof.
  intros part Hpos Hmax. inversion_clear Hpos as [|? ? Hu Hp].
  assert (Hb : ct_idle t + or_0 (ct_iowait t) <= list_sum part ∧ ct_user t <= umax 64 ∧
               0 <= ct_idle t ∧ 0 <= or_0 (ct_iowait t)).
  { unfold part in *. repeat match goal with X : Forall _ (_ :: _) |- _ => inversion_clear X end.
    cbn [list_sum foldr] in *. lia. }
  unfold busy_and_total. fold part. clearbody part.
  rewrite usum_arith by (done || lia). rewrite arith_ok, bind_done by lia.
  rewrite usub_ok, bind_done by lia. rewrite usub_ok, bind_done by lia.
  eexists _, _. split; [done|]. lia.
Qed.

Lemma cpu_times_u64 c w cb ct nb nt w' :
  cpu_times c w = Done ((cb, ct, nb, nt), w') → u64 cb ∧ u64 nb.
Proof.
  unfold cpu_times. intros (ks & w1 & _ & Hk)%io_bind_inv.
  destruct ks as [ks|]; [|by injection Hk as <- <- <- <- _].
  apply io_bind_inv in Hk as ([n_busy n_total] & w2 & [Hn ->]%lift_inv & Hk).
  destruct (ks_cpu_time ks !! _); [|by injection Hk as <- <- <- <- _].
  apply io_bind_inv in Hk as ([b t] & w3 & [Hb ->]%lift_inv & Hk).
  injection Hk as <- <- <- <- _. eauto using busy_and_total_u64.
Qed.

Lemma u64_at_spec r i z : m_values r !! i = Some (show_uint z) → u64 z → u64_at r i = z.
Proof.
  intros Hi Hz. unfold u64_at. rewrite Hi. simpl. rewrite trim_show_uint by apply Hz.
  by rewrite parse_show_uint.
Qed.

(** The quantities the metrics are computed from fit 64 bits. *)
Definition wf_readings (x : Readings) : Prop :=
  u64 (rd_mperf x) ∧ u64 (rd_aperf x) ∧ u64 (rd_core_busy x) ∧ u64 (rd_node_busy x) ∧ u64 (rd_tsc x).

Lemma from_le_bytes_range n l :
  Forall (λ b, 0 <= b < 256) l → 0 <= from_le_bytes n l < 2 ^ (8 * Z.of_nat n).
Proof.
  intros Hl. revert n. induction Hl as [|b l Hb Hl IH]; intros n.
  - pose proof (Z.pow_pos_nonneg 2 (8 * Z.of_nat n)). destruct n; simpl from_le_bytes; lia.
  - destruct n as [|n]; [simpl; lia|]. simpl from_le_bytes. specialize (IH n).
    replace (8 * Z.of_nat (S n)) with (8 + 8 * Z.of_nat n) by lia.
    rewrite Z.pow_add_r by lia. lia.
Qed.

Lemma read_msr_u64 c msr w v w' :
  (∀ p o n w bs w', read_at p o n w = (Some bs, w') → Forall (λ b, 0 <= b < 256) bs) →
  read_msr c msr w = Done (v, w') → u64 (or_0 v).
Proof.
  intros Hb. unfold read_msr. intros (bs & w1 & Hr & [= <- <-])%io_bind_inv.
  destruct bs as [bs|]; [|done]. simpl or_0.
  injection Hr as Hr. pose proof (from_le_bytes_range 8 bs (Hb _ _ _ _ _ _ Hr)) as Hz.
  unfold u64, umax. simpl in Hz. lia.
Qed.

Lemma read_record_shape c w r w' :
  (∀ p o n w bs w', read_at p o n w = (Some bs, w') → Forall (λ b, 0 <= b < 256) bs) →
  read_record c w = Done (r, w') → ∃ now x, r = inl (record_of now x) ∧ wf_readings x.
Proof.
  intros Hb. unfold read_record.
  intros (us & w1 & _ & (mp & w2 & Hm & (ap & w3 & Ha & (ts & w4 & Ht & Hr)%io_bind_inv)%io_bind_inv)%io_bind_inv)%io_bind_inv.
  apply io_bind_inv in Hr as ([[[cb ct] nb] nt] & w5 & Hc & Hr).
  apply io_bind_inv in Hr as (i & w6 & _ & (cy & w7 & _ & (now & w8 & _ & [= <- _])%io_bind_inv)%io_bind_inv).
  eexists _, _. split; [reflexivity|]. apply cpu_times_u64 in Hc as [? ?].
  apply (read_msr_u64 _ _ _ _ _ Hb) in Hm, Ha, Ht. unfold wf_readings. simpl. tauto.
Qed.

(** ** Properties *)

(** The invariant of a core: its buffer is within its size and holds records the core has
    read. *)
Definition wf (c : CPUCore) : Prop :=
  0 <= buffer_max_kbytes c <= 65 ∧
  within (buffer_max_kbytes c) size_MultiValuedRecord (length (record_buffer c)) ∧
  Forall (λ r, ∃ now x, r = record_of now x ∧ wf_readings x) (record_buffer c).

(** The metrics of two consecutive readings. *)
Definition metrics_of (x0 x1 : Readings) (r0 r1 : MultiValuedRecord) : CPUCoreMetrics :=
  let node := sat_sub (rd_node_busy x1) (rd_node_busy x0) in
  let core := sat_sub (rd_core_busy x1) (rd_core_busy x0) in
  let inst := F64.sub (f64_at r1 7) (f64_at r0 7) in
  let cyc := F64.sub (f64_at r1 8) (f64_at r0 8) in
  {| cpu_time_percentage :=
       if node =? 0 then F64.zero
       else F64.mul (F64.div (F64.of_Z core) (F64.of_Z node)) (F64.of_Z 100);
     aperf := sat_sub (rd_aperf x1) (rd_aperf x0);
     mperf := sat_sub (rd_mperf x1) (rd_mperf x0);
     tsc := sat_sub (rd_tsc x1) (rd_tsc x0);
     inst := inst; cyc := cyc;
     ipc := if fgtb cyc F64.zero then F64.div inst cyc else F64.zero |}.

Lemma metrics_of_records c k t0 x0 t1 x1 :
  wf_readings x0 → wf_readings x1 →
  record_buffer c = k ++ [record_of t0 x0; record_of t1 x1] →
  get_core_metrics_delta c = Some (metrics_of x0 x1 (record_of t0 x0) (record_of t1 x1)).
Proof.
  intros (M0 & A0 & C0 & N0 & T0) (M1 & A1 & C1 & N1 & T1) Hb.
  unfold get_core_metrics_delta. rewrite Hb, last_two_app. simpl.
  unfold metrics_of. do 2 f_equal;
    repeat match goal with
    | |- context [u64_at (record_of ?t ?x) ?i] =>
        rewrite (u64_at_spec (record_of t x) i _ eq_refl) by done
    end; reflexivity.
Qed.

(** C29: after a core that already held a reading is refreshed (and its limit is not zero),
    its two newest records are that reading and the new one, its metrics are defined, and
    the register and CPU-time metrics are the saturating differences of the quantities
    read (a register that restarted gives 0, not an overflow); the invariant is
    preserved. *)
Theorem metrics_after_refresh c w c' w' k t0 x0 :
  (∀ p o n w bs w', read_at p o n w = (Some bs, w') → Forall (λ b, 0 <= b < 256) bs) →
  wf c → 0 < buffer_max_kbytes c → record_buffer c = k ++ [record_of t0 x0] → wf_readings x0 →
  refresh_record c w = Done (c', w') →
  wf c' ∧ ∃ t1 x1,
    last_two (record_buffer c') = Some (record_of t0 x0, record_of t1 x1) ∧ wf_readings x1 ∧
    get_core_metrics_delta c' = Some (metrics_of x0 x1 (record_of t0 x0) (record_of t1 x1)).
Proof.
  intros Hbytes (Hkb & Hw & Hall) Hpos Hb Hx0 Href. unfold refresh_record in Href.
  apply io_bind_inv in Href as (r & w1 & Hread & Hclean).
  apply read_record_shape in Hread as (t1 & x1 & -> & Hx1); [|done].
  pose proof size_MultiValuedRecord_range as Hs.
  destruct (clean_front_append _ _ _ (record_of t1 x1) Hkb Hs Hw) as (n & l' & Hcl & Hl' & Hin & Hkeep).
  assert (Hc : c' = set_record_buffer (l' ++ [record_of t1 x1]) c).
  { cbn [record_buffer set_record_buffer] in Hclean.
    destruct (record_buffer c ++ [record_of t1 x1]) eqn:E; [by destruct (record_buffer c)|].
    apply lift_inv in Hclean as [Hclean _]. unfold clean_old_records in Hclean. simpl in Hclean.
    rewrite Hcl in Hclean. by injection Hclean as <-. }
  destruct (Hkeep Hpos _ _ Hb) as [k' Hk']. subst c'. simpl. split.
  - split; [done|]. split; [done|]. cbn [record_buffer set_record_buffer].
    apply Forall_app. split; [subst l'; by apply Forall_drop|]. constructor; [eauto|done].
  - exists t1, x1. cbn [record_buffer set_record_buffer]. rewrite Hk', <- app_assoc.
    split; [apply last_two_app|]. split; [done|].
    apply (metrics_of_records _ k'); [done..|]. simpl. by rewrite <- ?app_assoc.
Qed.
End Core.

(** A core of the simulated host that has been read once. *)
#[local] Existing Instances x86_64.
#[local] Instance checked : Profile := true.
#[local] Instance host : Os := simulated no_files.
#[local] Instance host_fs : FileSystem := simulated_fs no_files.
#[local] Instance host_procfs : Procfs := simulated_procfs no_files.
#[local] Instance host_perf : PerfEvents := simulated_perf no_files.

Definition sample_core : CPUCore :=
  set_record_buffer
    [record_of (mkDuration 4 0)
       {| rd_idle_us := 0; rd_mperf := 4; rd_aperf := 4; rd_core_busy := 32; rd_core_total := 40;
          rd_node_busy := 32; rd_node_total := 40;
          rd_instr := F64.zero; rd_cyc := F64.zero; rd_tsc := 4 |}]
    (mkCPUCore 0 ∅ [] 1 (Some tt) None).

Lemma sample_core_wf : wf sample_core.
Proof.
  split; [split; done|]. split; [done|]. constructor; [|constructor].
  eexists _, _. split; [reflexivity|]. repeat split; done.
Qed.

Lemma metrics_after_refresh_witness :
  ∃ c' w' m, refresh_record sample_core 5 = Done (c', w') ∧ get_core_metrics_delta c' = Some m.
Proof.
  eexists _, _. eassert (E : refresh_record sample_core 5 = Done (_, _)) by (vm_compute; reflexivity).
  edestruct (metrics_after_refresh sample_core 5 _ _ [] _ _ (simulated_bytes no_files)
               sample_core_wf eq_refl eq_refl ltac:(repeat split; done) E)
    as (_ & t1 & x1 & _ & _ & Hm).
  eexists. split; [exact E|exact Hm].
Defined.
