(* ===== verification/Socket.v ===== *)
(** * CPU sockets ([sensors/mod.rs], CPUSocket; [sensors/powercap_rapl.rs], its reader)

    A socket owns RAPL domains and CPU cores.  It reads the energy of the whole package,
    turns it into a power from which it subtracts its background power (the larger of the
    powers measured while it was idle and while a single CPU was active), distributes the
    background to its domains, combines the usage counters of its cores and shares the
    power of the cores' domain between them.

    A getter whose result carries the current time is effectful and reads the clock; the
    code it shares with getters that drop the record is a pure function here. *)

From S2P Require Import Prelude Floats Text FloatText Units Env Simulated Records Energy Common.
From S2P Require Import Domain Core.
From Stdlib Require Import SpecFloat.

Section Socket.
Context `{Profile, Layout, Os, !FileSystem, !Procfs, !PerfEvents}.

Record CPUSocket := mkSocket {
  id : Z;
  domains : list Domain;
  attributes : list (list (gmap string string));
  counter_uj_path : string;
  record_buffer : list Record_;
  buffer_max_kbytes : Z;
  activation_idle_buffer : list MultiValuedRecord;
  cpu_cores : list CPUCore;
  stat_buffer : list CPUStat;
  idle_percentage_threshold : float;
  rapl_max_uj : Z;
  sensor_data : gmap string string;
}.

Definition new (id : Z) (domains : list Domain) (attributes : list (list (gmap string string)))
    (counter_uj_path : string) (buffer_max_kbytes : Z) (sensor_data : gmap string string)
    : CPUSocket := {|
  id := id; domains := domains; attributes := attributes; counter_uj_path := counter_uj_path;
  record_buffer := [];
  buffer_max_kbytes := buffer_max_kbytes;
  activation_idle_buffer := [];
  cpu_cores := [];
  stat_buffer := [];
  rapl_max_uj := rapl_max sensor_data;
  sensor_data := sensor_data;
  idle_percentage_threshold := default F64.zero (parse_f64 "0.65") |}.

(** ** Field updates *)

Definition set_id (i : Z) (s : CPUSocket) : CPUSocket :=
  mkSocket i (domains s) (attributes s) (counter_uj_path s) (record_buffer s)
    (buffer_max_kbytes s) (activation_idle_buffer s) (cpu_cores s) (stat_buffer s)
    (idle_percentage_threshold s) (rapl_max_uj s) (sensor_data s).

Definition set_domains (d : list Domain) (s : CPUSocket) : CPUSocket :=
  mkSocket (id s) d (attributes s) (counter_uj_path s) (record_buffer s)
    (buffer_max_kbytes s) (activation_idle_buffer s) (cpu_cores s) (stat_buffer s)
    (idle_percentage_threshold s) (rapl_max_uj s) (sensor_data s).

Definition set_record_buffer (b : list Record_) (s : CPUSocket) : CPUSocket :=
  mkSocket (id s) (domains s) (attributes s) (counter_uj_path s) b
    (buffer_max_kbytes s) (activation_idle_buffer s) (cpu_cores s) (stat_buffer s)
    (idle_percentage_threshold s) (rapl_max_uj s) (sensor_data s).

Definition set_activation_idle_buffer (b : list MultiValuedRecord) (s : CPUSocket) : CPUSocket :=
  mkSocket (id s) (domains s) (attributes s) (counter_uj_path s) (record_buffer s)
    (buffer_max_kbytes s) b (cpu_cores s) (stat_buffer s)
    (idle_percentage_threshold s) (rapl_max_uj s) (sensor_data s).

Definition set_cpu_cores (c : list CPUCore) (s : CPUSocket) : CPUSocket :=
  mkSocket (id s) (domains s) (attributes s) (counter_uj_path s) (record_buffer s)
    (buffer_max_kbytes s) (activation_idle_buffer s) c (stat_buffer s)
    (idle_percentage_threshold s) (rapl_max_uj s) (sensor_data s).

Definition set_stat_buffer (b : list CPUStat) (s : CPUSocket) : CPUSocket :=
  mkSocket (id s) (domains s) (attributes s) (counter_uj_path s) (record_buffer s)
    (buffer_max_kbytes s) (activation_idle_buffer s) (cpu_cores s) b
    (idle_percentage_threshold s) (rapl_max_uj s) (sensor_data s).

Definition set_sensor_data (m : gmap string string) (s : CPUSocket) : CPUSocket :=
  mkSocket (id s) (domains s) (attributes s) (counter_uj_path s) (record_buffer s)
    (buffer_max_kbytes s) (activation_idle_buffer s) (cpu_cores s) (stat_buffer s)
    (idle_percentage_threshold s) (rapl_max_uj s) m.

(** ** Structure *)

Definition safe_add_domain (d : Domain) (s : CPUSocket) : CPUSocket :=
  if existsb (λ d', Domain.id d' =? Domain.id d) (domains s) then s
  else set_domains (domains s ++ [d]) s.

Definition add_cpu_core (c : CPUCore) (s : CPUSocket) : CPUSocket :=
  set_cpu_cores (cpu_cores s ++ [c]) s.

(** ** Energy readings *)

Definition read_record (s : CPUSocket) : io (option Record_) :=
  source_file ← lift (unwrap (sensor_data s !! "source_file"%string));
  content ← read_file source_file;
  match content with
  | Some result =>
      now ← current_system_time_since_epoch;
      mret (Some (mkRecord now result MicroJoule))
  | None => mret None
  end.

(** Both buffers; the first must not be empty. *)
Definition clean_old_records (s : CPUSocket) : outcome CPUSocket :=
  match record_buffer s with
  | [] => Panic
  | _ :: _ =>
      b ← clean_front (buffer_max_kbytes s) size_Record (record_buffer s);
      let s := set_record_buffer b s in
      match activation_idle_buffer s with
      | [] => Done s
      | _ :: _ =>
          b ← clean_front (buffer_max_kbytes s) size_MultiValuedRecord (activation_idle_buffer s);
          Done (set_activation_idle_buffer b s)
      end
  end.

Definition refresh_record (s : CPUSocket) : io CPUSocket :=
  r ← read_record s;
  let s := match r with
           | Some record => set_record_buffer (record_buffer s ++ [record]) s
           | None => s
           end in
  match record_buffer s with
  | [] => mret s
  | _ :: _ => lift (clean_old_records s)
  end.

Definition get_records_passive (s : CPUSocket) : list Record_ :=
  (λ r, mkRecord (r_timestamp r) (r_value r) MicroJoule) <$> record_buffer s.

Definition get_rapl_mmio_energy_microjoules (s : CPUSocket) : io (option Record_) :=
  match sensor_data s !! "mmio"%string with
  | Some mmio =>
      content ← read_file mmio;
      match content with
      | Some value =>
          now ← current_system_time_since_epoch;
          mret (Some (mkRecord now value MicroJoule))
      | None => mret None
      end
  | None => mret None
  end.

(** ** Background power *)

(** Entry [i] of the newest record of the background buffer, when it has two values. *)
Definition background_entry (i : nat) (s : CPUSocket) : option string :=
  last_record ← last (activation_idle_buffer s);
  if 2 <=? Z.of_nat (length (m_values last_record)) then m_values last_record !! i else None.

(** A record of the current time, when there is a value. *)
Definition stamped (v : option string) (u : Unit) : io (option Record_) :=
  match v with
  | Some v => now ← current_system_time_since_epoch; mret (Some (mkRecord now v u))
  | None => mret None
  end.

Definition get_idle_power_microwatts (s : CPUSocket) : io (option Record_) :=
  stamped (background_entry 0 s) MicroWatt.

Definition get_activation_power_microwatts (s : CPUSocket) : io (option Record_) :=
  stamped (background_entry 1 s) MicroWatt.

(** The same powers as numbers: [.and_then(|r| r.value.parse::<u64>().ok()).unwrap_or(0)]. *)
Definition idle_u64 (s : CPUSocket) : Z := default 0 (background_entry 0 s ≫= parse_uint 64).
Definition activation_u64 (s : CPUSocket) : Z := default 0 (background_entry 1 s ≫= parse_uint 64).

(** The value of the record of [get_background_power_microwatts]. *)
Definition background_value (s : CPUSocket) : string :=
  show_uint (Z.max (idle_u64 s) (activation_u64 s)).

Definition get_background_power_microwatts (s : CPUSocket) : io (option Record_) :=
  stamped (Some (background_value s)) MicroWatt.

(** ** Power *)

Definition get_records_diff_power_microwatts (s : CPUSocket) : option Record_ :=
  '(previous_record, last_record) ← last_two (record_buffer s);
  match parse_uint 64 (trim (r_value last_record)),
        parse_uint 64 (trim (r_value previous_record)) with
  | Some last_microjoules, Some previous_microjoules =>
      let microjoules := energy_delta (rapl_max_uj s) last_microjoules previous_microjoules in
      let power := net_power microjoules (r_timestamp last_record) (r_timestamp previous_record)
                     (default 0 (parse_uint 64 (background_value s))) in
      Some (mkRecord (r_timestamp last_record) (show_uint power) MicroWatt)
  | _, _ => None
  end.

(** The domain whose sensor data relate it to a resource, or else the whole socket. *)
Definition get_records_diff_power_microwatts_per_domain (name : string) (s : CPUSocket)
    : option Record_ :=
  match List.find (λ d, bool_decide (Domain.sensor_data d !! "related_resource"%string = Some name))
                  (domains s) with
  | Some domain => Domain.get_records_diff_power_microwatts domain
  | None => get_records_diff_power_microwatts s
  end.

(** The share of the background power of a domain of power [power]. *)
Definition background_share (background total n power : float) : float :=
  if fgtb total F64.zero then F64.mul background (F64.div power total)
  else F64.div background n.

Definition distribute_background_to_domains (s : CPUSocket) : CPUSocket :=
  let background := default F64.zero (parse_f64 (background_value s)) in
  if feqb background F64.zero then s
  else
    let domain_powers :=
      (λ d, power_f64 (Domain.get_records_diff_power_microwatts d)) <$> domains s in
    let total := power_f64 (get_records_diff_power_microwatts s) in
    let n := F64.of_Z (Z.of_nat (length (domains s))) in
    set_domains (zip_with (λ d power, Domain.set_background (background_share background total n power) d)
                          (domains s) domain_powers) s.

(** ** Idle and activation estimates *)

(** An estimate keeps the lowest power measured, 0 meaning that there is none yet. *)
Definition lowest (current estimate : Z) : Z :=
  if estimate =? 0 then current else Z.min current estimate.

Definition any_event (t : CpuEventType) (records : list CpuStateEvent) : bool :=
  existsb (λ r, bool_decide (event_type r = t)) records.

(** The two values of the new record: idle and activation. *)
Definition new_estimates (records : list CpuStateEvent) (s : CPUSocket) : option (Z * Z) :=
  let idle_rec_exists := any_event IdleEvent records in
  let activation_rec_exists := any_event ActivationEvent records in
  if idle_rec_exists || activation_rec_exists then
    current ← get_records_diff_power_microwatts s ≫= value_u64;
    let idle := if idle_rec_exists then lowest current (idle_u64 s) else idle_u64 s in
    let activation :=
      if activation_rec_exists then lowest current (activation_u64 s) else activation_u64 s in
    Some (idle, activation)
  else None.

Definition read_activation_idle_record (records : list CpuStateEvent) (s : CPUSocket)
    : io (option MultiValuedRecord) :=
  match new_estimates records s with
  | Some (idle, activation) =>
      now ← current_system_time_since_epoch;
      mret (Some (mkMultiValuedRecord now [show_uint idle; show_uint activation]
                    [MicroWatt; MicroWatt]))
  | None => mret None
  end.

Definition refresh_activation_idle_records (records : list CpuStateEvent) (s : CPUSocket)
    : io CPUSocket :=
  r ← read_activation_idle_record records s;
  match r with
  | Some record => mret (set_activation_idle_buffer (activation_idle_buffer s ++ [record]) s)
  | None => mret s
  end.

(** ** Usage counters *)

Definition clean_old_stats (s : CPUSocket) : outcome CPUSocket :=
  match stat_buffer s with
  | [] => Panic
  | _ :: _ =>
      b ← clean_back (buffer_max_kbytes s) size_CPUStat (stat_buffer s);
      Done (set_stat_buffer b s)
  end.

Definition zero_stat : CPUStat := {|
  user := 0; nice := 0; system := 0; idle := 0; iowait := Some 0; irq := Some 0;
  softirq := Some 0; guest := Some 0; guest_nice := Some 0; steal := Some 0 |}.

(** The loop body of [read_stats]: steal, guest and guest_nice are left alone. *)
Definition add_stats (stats c : CPUStat) : outcome CPUStat :=
  user' ← uadd 64 (user stats) (user c);
  nice' ← uadd 64 (nice stats) (nice c);
  system' ← uadd 64 (system stats) (system c);
  idle' ← uadd 64 (Records.idle stats) (Records.idle c);
  iowait' ← uadd 64 (or_0 (iowait stats)) (or_0 (iowait c));
  irq' ← uadd 64 (or_0 (irq stats)) (or_0 (irq c));
  softirq' ← uadd 64 (or_0 (softirq stats)) (or_0 (softirq c));
  Done {| user := user'; nice := nice'; system := system'; Records.idle := idle';
          iowait := Some iowait'; irq := Some irq'; softirq := Some softirq';
          steal := steal stats; guest := guest stats; guest_nice := guest_nice stats |}.

Definition read_stats (s : CPUSocket) : io (option CPUStat) :=
  stats ← io_fold (λ stats c,
            r ← Core.read_stats c;
            match r with
            | Some c_stats => lift (add_stats stats c_stats)
            | None => mret stats
            end) zero_stat (cpu_cores s);
  mret (Some stats).

(** Evicts before it inserts. *)
Definition refresh_stats (s : CPUSocket) : io CPUSocket :=
  s ← match stat_buffer s with
      | [] => mret s
      | _ :: _ => lift (clean_old_stats s)
      end;
  stats ← read_stats s;
  stats ← lift (unwrap stats);
  mret (set_stat_buffer (stats :: stat_buffer s) s).

Definition get_stats_diff (s : CPUSocket) : outcome (option CPUStat) :=
  Records.get_stats_diff (stat_buffer s).

(** ** Power of the cores *)

Definition get_cores (s : CPUSocket) : list CPUCore :=
  sort_by_key Core.id (Core.clone <$> cpu_cores s).

(** [(1 + ipc) * aperf * (aperf / mperf)], or 0 without metrics or without TSC cycles. *)
Definition core_coef (m : option CPUCoreMetrics) : float :=
  match m with
  | Some m =>
      if 0 <? tsc m then
        F64.mul (F64.mul (F64.add F64.one (ipc m)) (F64.of_Z (aperf m)))
                (F64.div (F64.of_Z (aperf m)) (F64.of_Z (mperf m)))
      else F64.zero
  | None => F64.zero
  end.

Definition get_core_coefs (s : CPUSocket) : list float :=
  (λ c, core_coef (get_core_metrics_delta c)) <$> get_cores s.

(** [c / total] unless the total is zero. *)
Definition proportions (coefs : list float) : list float :=
  let total := F64.sum coefs in
  (λ c, if feqb total F64.zero then F64.zero else F64.div c total) <$> coefs.

Definition get_core_proportions (s : CPUSocket) : list float := proportions (get_core_coefs s).

(** The values of the record: the power of each core. *)
Definition core_powers (s : CPUSocket) : option (list string) :=
  conso ← get_records_diff_power_microwatts_per_domain (resource_to_string CPU) s ≫=
            (λ r, parse_f64 (r_value r));
  Some (show_f64 <$> ((λ p, F64.mul p conso) <$> get_core_proportions s)).

Definition get_proportional_core_diff_power_microwatts (s : CPUSocket) : io (option MultiValuedRecord) :=
  match core_powers s with
  | Some energies =>
      now ← current_system_time_since_epoch;
      mret (Some (mkMultiValuedRecord now energies ((λ _, Numeric) <$> energies)))
  | None => mret None
  end.

(** ** Lemmas *)

Lemma u64_default_parse (o : option string) : u64 (default 0 (o ≫= parse_uint 64)).
Proof.
  destruct o as [v|]; [|done]. simpl. destruct (parse_uint 64 v) eqn:E; [|done].
  by apply parse_uint_range in E.
Qed.

Lemma idle_u64_range s : u64 (idle_u64 s).
Proof. apply u64_default_parse. Qed.
Lemma activation_u64_range s : u64 (activation_u64 s).
Proof. apply u64_default_parse. Qed.

(** The background power of a socket. *)
Definition background_u64 (s : CPUSocket) : Z := Z.max (idle_u64 s) (activation_u64 s).

Lemma background_u64_range s : u64 (background_u64 s).
Proof. pose proof (idle_u64_range s). pose proof (activation_u64_range s). unfold u64, background_u64 in *. lia. Qed.

Lemma background_value_u64 s : parse_uint 64 (background_value s) = Some (background_u64 s).
Proof. apply parse_show_uint, background_u64_range. Qed.

Lemma background_value_f64 s : parse_f64 (background_value s) = Some (F64.of_Z (background_u64 s)).
Proof. apply parse_f64_show_uint. pose proof (background_u64_range s) as []. done. Qed.

(** The power before the background is subtracted. *)
Definition raw_power (s : CPUSocket) : option Z :=
  '(previous_record, last_record) ← last_two (record_buffer s);
  last_microjoules ← parse_uint 64 (trim (r_value last_record));
  previous_microjoules ← parse_uint 64 (trim (r_value previous_record));
  Some (to_uint 64 (F64.div (F64.of_Z (energy_delta (rapl_max_uj s) last_microjoules previous_microjoules))
                            (time_diff (r_timestamp last_record) (r_timestamp previous_record)))).

Lemma raw_power_range s p : raw_power s = Some p → u64 p.
Proof.
  unfold raw_power. intros ([r0 r1] & _ & (l & _ & (q & _ & [= <-])%bind_Some)%bind_Some)%bind_Some.
  by apply to_uint_range.
Qed.

Lemma power_net s :
  get_records_diff_power_microwatts s ≫= value_u64
  = (λ p, sat_sub p (background_u64 s)) <$> raw_power s.
Proof.
  unfold get_records_diff_power_microwatts, raw_power.
  destruct (last_two (record_buffer s)) as [[r0 r1]|]; [|done]. simpl.
  destruct (parse_uint 64 (trim (r_value r1))); [|done]. simpl.
  destruct (parse_uint 64 (trim (r_value r0))); [|done]. simpl.
  rewrite background_value_u64. simpl. unfold value_u64. simpl.
  apply parse_show_uint, net_power_range, background_u64_range.
Qed.

Lemma new_estimates_range records s i a : new_estimates records s = Some (i, a) → u64 i ∧ u64 a.
Proof.
  unfold new_estimates. destruct (_ || _); [|done]. rewrite power_net.
  destruct (raw_power s) as [p|] eqn:E; [|done]. simpl. intros [= <- <-].
  apply raw_power_range in E. pose proof (idle_u64_range s). pose proof (activation_u64_range s).
  pose proof (background_u64_range s). unfold u64, lowest, sat_sub in *.
  destruct (any_event IdleEvent records), (any_event ActivationEvent records);
    repeat match goal with |- context [?x =? 0] => destruct (Z.eqb_spec x 0) end; lia.
Qed.

Lemma background_entry_app b s now i a u :
  let s' := set_activation_idle_buffer (b ++ [mkMultiValuedRecord now [i; a] u]) s in
  background_entry 0 s' = Some i ∧ background_entry 1 s' = Some a.
Proof. unfold background_entry. simpl. by rewrite last_snoc. Qed.

Lemma estimates_app b s now i a u :
  u64 i → u64 a →
  let s' := set_activation_idle_buffer
              (b ++ [mkMultiValuedRecord now [show_uint i; show_uint a] u]) s in
  idle_u64 s' = i ∧ activation_u64 s' = a.
Proof.
  intros Hi Ha. cbv zeta. unfold idle_u64, activation_u64.
  destruct (background_entry_app b s now (show_uint i) (show_uint a) u) as [-> ->]. simpl.
  by rewrite !parse_show_uint.
Qed.

(** ** Power of a socket *)

(** The power of a socket whose buffer ends with two readings of a counter of period
    [rapl_max_uj] that advanced from [e0] to [e1] microjoules by less than a period: the
    average over the interval ([average_power]), less the larger of its idle and activation
    powers (never below zero), across a wrap of the counter. *)
Theorem socket_power s k r0 r1 e0 e1 :
  record_buffer s = k ++ [r0; r1] →
  0 < rapl_max_uj s <= umax 64 → 0 <= e0 <= e1 → e1 - e0 < rapl_max_uj s →
  parse_uint 64 (trim (r_value r0)) = Some (e0 mod rapl_max_uj s) →
  parse_uint 64 (trim (r_value r1)) = Some (e1 mod rapl_max_uj s) →
  measured (r_timestamp r0) → measured (r_timestamp r1) →
  5000 < elapsed_nanos (r_timestamp r1) (r_timestamp r0) →
  ∃ p, average_power (e1 - e0) (r_timestamp r1) (r_timestamp r0) p ∧
    get_records_diff_power_microwatts s
    = Some (mkRecord (r_timestamp r1) (show_uint (sat_sub p (Z.max (idle_u64 s) (activation_u64 s)))) MicroWatt).
Proof.
  intros Hb Hm He Hp Hv0 Hv1 Ht0 Ht1 Hs.
  destruct (net_power_average (e1 - e0) (r_timestamp r1) (r_timestamp r0) (background_u64 s))
    as (p & Hn & Ha); [done..|unfold umax in Hm; lia|].
  exists p. split; [exact Ha|]. unfold get_records_diff_power_microwatts. rewrite Hb, last_two_app. simpl.
  rewrite Hv0, Hv1, background_value_u64. simpl. rewrite energy_delta_periodic by lia. by rewrite Hn.
Qed.

(** ** Idle and activation estimates *)

(** C38: a refresh of the estimates without any event, or before a power is known, changes
    nothing.  Otherwise each estimate whose event occurred becomes the current power when
    there was none, and the smaller of the two when there was one (so it never grows once
    it is set); the other estimate is kept, and nothing else of the socket changes. *)
Theorem estimates_refreshed records s w s' w' :
  refresh_activation_idle_records records s w = Done (s', w') →
  match get_records_diff_power_microwatts s ≫= value_u64 with
  | Some current =>
      let next t old := if any_event t records then lowest current old else old in
      (idle_u64 s' = next IdleEvent (idle_u64 s) ∧
       activation_u64 s' = next ActivationEvent (activation_u64 s)) ∧
      (idle_u64 s ≠ 0 → idle_u64 s' <= idle_u64 s) ∧
      (activation_u64 s ≠ 0 → activation_u64 s' <= activation_u64 s) ∧
      (∃ b, s' = set_activation_idle_buffer (activation_idle_buffer s ++ b) s ∧ (length b <= 1)%nat)
  | None => s' = s
  end.
Proof.
  unfold refresh_activation_idle_records, read_activation_idle_record.
  intros (r & w1 & Hr & Hs)%io_bind_inv.
  pose proof (new_estimates_range records s) as Hrange.
  unfold new_estimates in Hr, Hrange. destruct (get_records_diff_power_microwatts s ≫= value_u64) as [p|]; simpl in *.
  2:{ destruct (_ || _); simpl in Hr; injection Hr as <- <-; by injection Hs as <- _. }
  destruct (any_event IdleEvent records) eqn:Ei, (any_event ActivationEvent records) eqn:Ea; simpl in *.
  4:{ injection Hr as <- <-. injection Hs as <- _. split; [done|]. split; [lia|]. split; [lia|].
      exists []. rewrite app_nil_r. split; [by destruct s|simpl; lia]. }
  all: apply io_bind_inv in Hr as (now & w2 & _ & [= <- <-]); injection Hs as <- _;
    edestruct Hrange as [Hi Ha]; [done|];
    match goal with |- context [set_activation_idle_buffer (?b ++ [mkMultiValuedRecord ?t [show_uint ?i; show_uint ?a] ?u]) ?x] =>
      destruct (estimates_app b x t i a u Hi Ha) as [-> ->] end;
    unfold lowest; (split; [done|]; split; [|split; [|by eexists]]);
    repeat match goal with |- context [?x =? 0] => destruct (Z.eqb_spec x 0) end; lia.
Qed.

Lemma new_estimates_idle records s P :
  any_event IdleEvent records = true → any_event ActivationEvent records = false →
  raw_power s = Some P → 
  new_estimates records s
  = Some (lowest (sat_sub P (background_u64 s)) (idle_u64 s), activation_u64 s).
Proof. intros Hi Ha Hp. unfold new_estimates. rewrite Hi, Ha, power_net, Hp. done. Qed.

(** C39: the power an estimate is updated with is already net of the background power, of
    which the estimate is a part.  So a socket that is found idle again and again while it
    draws the same raw power [P] does not settle on an idle power of [P]: its estimate
    alternates between [P] and 0, and with it the background power it subtracts.  ([seq n]
    is the socket before the [n]-th refresh, each estimate being the one computed by the
    previous refresh.) *)
Theorem idle_estimate_alternates (seq : nat → CPUSocket) (records : nat → list CpuStateEvent) P :
  (∀ n, any_event IdleEvent (records n) = true ∧ any_event ActivationEvent (records n) = false) →
  (∀ n, raw_power (seq n) = Some P) →
  (∀ n, new_estimates (records n) (seq n) = Some (idle_u64 (seq (S n)), activation_u64 (seq (S n)))) →
  idle_u64 (seq 0%nat) = 0 → activation_u64 (seq 0%nat) = 0 →
  ∀ n, idle_u64 (seq n) = (if Nat.even n then 0 else P) ∧
       background_u64 (seq n) = (if Nat.even n then 0 else P).
Proof.
  intros Hev Hraw Hstep Hi0 Ha0.
  assert (Hall : ∀ n, idle_u64 (seq n) = (if Nat.even n then 0 else P) ∧ activation_u64 (seq n) = 0).
  { induction n as [|n [IHi IHa]]; [done|]. destruct (Hev n) as [Hi Ha].
    specialize (Hstep n). rewrite (new_estimates_idle _ _ P) in Hstep by done.
    injection Hstep as Hi' Ha'. rewrite <- Hi', <- Ha', IHa. split; [|done].
    rewrite Nat.even_succ, <- Nat.negb_even. unfold background_u64. rewrite IHi, IHa.
    pose proof (raw_power_range _ _ (Hraw n)) as [? _]. unfold lowest, sat_sub.
    destruct (Nat.even n); simpl; [lia|]. destruct (Z.eqb_spec P 0); lia. }
  intros n. destruct (Hall n) as [Hi Ha]. split; [done|].
  unfold background_u64. rewrite Hi, Ha. pose proof (raw_power_range _ _ (Hraw n)) as [? _].
  destruct (Nat.even n); lia.
Qed.

(** ** Distribution of the background *)

(** A socket without background power leaves the background of its domains as it is
    (an earlier background is not cleared).  When its own power is unknown or zero, every
    domain gets an equal part of the background: as an integer, [background / n]. *)
Theorem distribution_without_power s :
  background_u64 s < 2 ^ 53 →
  let s' := distribute_background_to_domains s in
  let n := Z.of_nat (length (domains s)) in
  (background_u64 s = 0 → s' = s) ∧
  (0 < background_u64 s → n < 2 ^ 53 →
   power_f64 (get_records_diff_power_microwatts s) = F64.zero →
   Forall2 (λ d d', ∃ b, d' = Domain.set_background b d ∧ to_uint 64 b = background_u64 s / n)
           (domains s) (domains s')).
Proof.
  intros Hb s' n. pose proof (background_u64_range s) as [Hb0 _].
  unfold s', distribute_background_to_domains. rewrite background_value_f64. simpl.
  split.
  - intros ->. done.
  - intros Hpos Hn Hp. rewrite Hp.
    assert (Hne : feqb (F64.of_Z (background_u64 s)) F64.zero = false).
    { unfold F64.of_Z. rewrite of_Z_exact by lia. done. }
    rewrite Hne. cbn [domains set_domains]. unfold background_share. simpl.
    assert (Hshare : domains s ≠ [] →
              to_uint 64 (F64.div (F64.of_Z (background_u64 s)) (F64.of_Z n)) = background_u64 s / n).
    { intros Hd. assert (0 < n) by (unfold n; destruct (domains s); simpl; [done|lia]).
      destruct (div_trunc 53 1024 ltac:(lia) ltac:(lia) (background_u64 s) n) as [Hf Ht]; [lia..|].
      apply to_uint_trunc; [done..|]. split; [apply Z.div_pos; lia|].
      apply Z.le_trans with (background_u64 s); [|unfold umax; lia].
      apply Z.div_le_upper_bound; nia. }
    clear Hp Hne. fold n. clearbody n. revert Hshare. generalize (domains s) as l.
    intros l. induction l as [|d l IH]; intros Hsh; simpl; constructor.
    + eexists. split; [done|]. by apply Hsh.
    + apply IH. intros _. by apply Hsh.
Qed.

(** ** Power of the cores *)

(** The cores of a socket are listed by increasing id, each core once, without its
    counters. *)
Theorem get_cores_sorted s :
  get_cores s ≡ₚ (Core.clone <$> cpu_cores s) ∧
  StronglySorted (λ c d, Core.id c <= Core.id d) (get_cores s).
Proof. split; [apply sort_by_key_perm|apply sort_by_key_sorted]. Qed.

Lemma fold_add_nan l : fold_left F64.add l S754_nan = S754_nan.
Proof. induction l as [|x l IH]; [done|]. exact IH. Qed.

Lemma add_nan_r x : F64.add x S754_nan = S754_nan.
Proof. by destruct x. Qed.

Lemma sum_nan l : S754_nan ∈ l → F64.sum l = S754_nan.
Proof.
  unfold F64.sum. generalize F64.zero. induction l as [|x l IH]; intros a; [set_solver|].
  intros [<-|Hl]%elem_of_cons; simpl; [|by apply IH]. rewrite add_nan_r. apply fold_add_nan.
Qed.

Lemma div_nan_r x : F64.div x S754_nan = S754_nan.
Proof. by destruct x. Qed.

Lemma proportions_nan l : S754_nan ∈ l → proportions l = (λ _, S754_nan) <$> l.
Proof.
  intros Hl. unfold proportions. rewrite (sum_nan l Hl). apply list_fmap_ext.
  intros _ x _. apply div_nan_r.
Qed.

Lemma mul_nan_r x : F64.mul x S754_nan = S754_nan.
Proof. by destruct x. Qed.

Lemma core_coef_stalled m : 0 < tsc m → aperf m = 0 → mperf m = 0 → core_coef (Some m) = S754_nan.
Proof.
  intros Ht Ha Hm. unfold core_coef. destruct (Z.ltb_spec 0 (tsc m)); [|lia].
  rewrite Ha, Hm. change (F64.div (F64.of_Z 0) (F64.of_Z 0)) with S754_nan. apply mul_nan_r.
Qed.

(** One core whose time stamp counter advanced while its APERF and MPERF counters did
    not makes the power of every core of the socket a NaN. *)
Theorem core_powers_poisoned s c m p :
  c ∈ get_cores s → get_core_metrics_delta c = Some m →
  0 < tsc m → aperf m = 0 → mperf m = 0 →
  get_records_diff_power_microwatts_per_domain (resource_to_string CPU) s ≫=
    (λ r, parse_f64 (r_value r)) = Some p →
  core_powers s = Some (replicate (length (cpu_cores s)) "NaN"%string).
Proof.
  intros Hc Hm Ht Ha Hmp Hp. unfold core_powers. rewrite Hp. simpl. f_equal.
  unfold get_core_proportions. rewrite proportions_nan.
  - assert (Hl : length (get_core_coefs s) = length (cpu_cores s)).
    { unfold get_core_coefs. rewrite length_fmap. destruct (get_cores_sorted s) as [Hperm _].
      by rewrite Hperm, length_fmap. }
    rewrite (const_fmap (λ _ : float, S754_nan) _ S754_nan), !fmap_replicate, Hl by done.
    by destruct p.
  - unfold get_core_coefs. apply list_elem_of_fmap. exists c. split; [|done].
    by rewrite Hm, core_coef_stalled.
Qed.

(** Without any coefficient (no metrics, or no cycle counted) every core has no power
    rather than an undefined one. *)
Theorem no_power_without_cycles s p :
  Forall (λ c, ∀ m, get_core_metrics_delta c = Some m → tsc m = 0) (get_cores s) →
  get_records_diff_power_microwatts_per_domain (resource_to_string CPU) s ≫=
    (λ r, parse_f64 (r_value r)) = Some (F64.of_Z p) →
  0 <= p < 2 ^ 53 →
  core_powers s = Some (replicate (length (cpu_cores s)) "0"%string).
Proof.
  intros Hall Hp Hrange. unfold core_powers. rewrite Hp. simpl. f_equal.
  assert (Hz : get_core_coefs s = replicate (length (cpu_cores s)) F64.zero).
  { unfold get_core_coefs.
    rewrite (Forall_fmap_ext_1 _ (λ _, F64.zero)).
    - rewrite (const_fmap (λ _ : CPUCore, F64.zero) _ F64.zero) by done.
      destruct (get_cores_sorted s) as [Hperm _]. by rewrite Hperm, length_fmap.
    - eapply Forall_impl; [exact Hall|]. intros c Hc. simpl.
      destruct (get_core_metrics_delta c) as [m|] eqn:E; [|done]. simpl. by rewrite (Hc m). }
  unfold get_core_proportions, proportions. rewrite Hz.
  assert (Hsum : ∀ n, F64.sum (replicate n F64.zero) = F64.zero).
  { unfold F64.sum. induction n; [done|exact IHn]. }
  rewrite Hsum. assert (Hm : F64.mul F64.zero (F64.of_Z p) = F64.zero).
  { unfold F64.of_Z. destruct (decide (p = 0)) as [->|]; [done|]. by rewrite of_Z_exact by lia. }
  rewrite !fmap_replicate. change (feqb F64.zero F64.zero) with true. cbv iota. by rewrite Hm.
Qed.

(** ** The buffers of a socket *)

(** The size invariant of both buffers, for a limit that fits its type. *)
Definition wf (s : CPUSocket) : Prop :=
  0 <= buffer_max_kbytes s <= 65 ∧
  within (buffer_max_kbytes s) size_Record (length (record_buffer s)) ∧
  within (buffer_max_kbytes s) size_MultiValuedRecord (length (activation_idle_buffer s)).

(** Cleaning the activation buffer after at most one append keeps its newest record. *)
Lemma clean_activation kb (b x : list MultiValuedRecord) :
  0 <= kb <= 65 → within kb size_MultiValuedRecord (length b) → (length x <= 1)%nat →
  ∃ b', clean_front kb size_MultiValuedRecord (b ++ x) = Done b' ∧
        within kb size_MultiValuedRecord (length b') ∧ last b' = last (b ++ x).
Proof.
  intros Hkb Hb Hx. pose proof size_MultiValuedRecord_range as Hs.
  destruct x as [|r [|? ?]]; simpl in Hx; [| |lia].
  - rewrite app_nil_r. exists b. by rewrite clean_front_within.
  - destruct (clean_front_append kb _ b r Hkb Hs Hb) as (n & l & -> & _ & Hin & _).
    exists (l ++ [r]). by rewrite !last_snoc.
Qed.

Lemma background_entry_last i s s' :
  last (activation_idle_buffer s') = last (activation_idle_buffer s) →
  background_entry i s' = background_entry i s.
Proof. intros Hl. unfold background_entry. by rewrite Hl. Qed.

(** C25: the energy part of a refresh.  After the estimates are refreshed, reading the
    counter (when the read succeeds) adds the reading to the buffer with the time it was
    taken, drops only old records of both buffers, keeps both within their limit plus two
    elements and keeps the estimates just computed; the reading before the last one stays
    available for the power unless the limit is zero. *)
Theorem socket_refresh records s w0 s1 f v w w1 now w2 :
  wf s → refresh_activation_idle_records records s w0 = Done (s1, w) →
  sensor_data s !! "source_file"%string = Some f →
  read_to_string f w = (Some v, w1) → clock w1 = (Some now, w2) →
  ∃ n b, let kept := drop n (record_buffer s) in
  let s2 := set_activation_idle_buffer b
              (set_record_buffer (kept ++ [mkRecord now v MicroJoule]) s) in
  refresh_record s1 w = Done (s2, w2) ∧ wf s2 ∧
  idle_u64 s2 = idle_u64 s1 ∧ activation_u64 s2 = activation_u64 s1 ∧
  (0 < buffer_max_kbytes s → ∀ k r, record_buffer s = k ++ [r] →
     last_two (record_buffer s2) = Some (r, mkRecord now v MicroJoule)).
Proof.
  intros (Hkb & Hr & Ha) Hact Hf Hread Hclock. set (rec := mkRecord now v MicroJoule).
  assert (∃ x, s1 = set_activation_idle_buffer (activation_idle_buffer s ++ x) s ∧ (length x <= 1)%nat)
    as (x & -> & Hx).
  { unfold refresh_activation_idle_records in Hact.
    apply io_bind_inv in Hact as ([r|] & w3 & _ & [= <- _]).
    - eexists [_]. split; [done|]. simpl. lia.
    - exists []. split; [|simpl; lia]. rewrite app_nil_r. by destruct s. }
  destruct (clean_front_append _ _ _ rec Hkb size_Record_range Hr) as (n & l' & Hcl & -> & Hin & Hkeep).
  destruct (clean_activation _ _ _ Hkb Ha Hx) as (b & Hb & Hbin & Hlast).
  exists n, (match activation_idle_buffer s ++ x with [] => activation_idle_buffer s ++ x | _ => b end).
  cbv zeta.
  set (b' := match activation_idle_buffer s ++ x with [] => activation_idle_buffer s ++ x | _ => b end).
  assert (Hb' : within (buffer_max_kbytes s) size_MultiValuedRecord (length b') ∧
                last b' = last (activation_idle_buffer s ++ x)).
  { unfold b'. destruct (activation_idle_buffer s ++ x); [|done]. split; [|done].
    unfold within. simpl. pose proof size_MultiValuedRecord_range. lia. }
  destruct Hb' as [Hb1 Hb2]. split; [|split; [split; [done|by split]|split; [|split]]].
  - unfold refresh_record, read_record. cbn [sensor_data set_activation_idle_buffer]. rewrite Hf.
    unfold mbind, io_bind, lift, read_file. simpl. rewrite Hread.
    unfold current_system_time_since_epoch. rewrite Hclock. simpl. fold rec.
    unfold clean_old_records. simpl. rewrite Hcl. unfold b'.
    destruct (record_buffer s); simpl; (destruct (activation_idle_buffer s ++ x) eqn:E; [|simpl in *; rewrite Hb]; reflexivity).
  - unfold idle_u64. by erewrite background_entry_last.
  - unfold activation_u64. by erewrite background_entry_last.
  - intros Hpos k r Hk. destruct (Hkeep Hpos r k Hk) as [k' Hk']. simpl. rewrite Hk', <- app_assoc.
    apply last_two_app.
Qed.

(** ** Usage counters of a socket *)

(** When every core finds its line in one and the same state of [/proc/stat], the user,
    system and idle times of the socket are the sums over its cores, and the time stolen
    and the guest times are zero whatever the cores report. *)
Theorem socket_stats s w ks :
  kernel_stats w = (Some ks, w) →
  ∀ st w', read_stats s w = Done (Some st, w') →
  overflow_checks = true →
  ∃ lines, Forall2 (λ c t, ks_cpu_time ks !! Z.to_nat (Core.id c) = Some t) (cpu_cores s) lines ∧
  user st = list_sum (ct_user <$> lines) ∧ system st = list_sum (ct_system <$> lines) ∧
  Records.idle st = list_sum (ct_idle <$> lines) ∧
  steal st = Some 0 ∧ guest st = Some 0 ∧ guest_nice st = Some 0.
Proof.
  intros Hks st w' Hread Hov. unfold read_stats in Hread.
  apply io_bind_inv in Hread as (st' & w1 & Hfold & [= -> _]).
  assert (Hgen : ∀ cs acc, io_fold (λ stats c,
            r ← Core.read_stats c;
            match r with Some c_stats => lift (add_stats stats c_stats) | None => mret stats end)
            acc cs w = Done (st, w1) →
          ∃ lines, Forall2 (λ c t, ks_cpu_time ks !! Z.to_nat (Core.id c) = Some t) cs lines ∧
          user st = user acc + list_sum (ct_user <$> lines) ∧
          system st = system acc + list_sum (ct_system <$> lines) ∧
          Records.idle st = Records.idle acc + list_sum (ct_idle <$> lines) ∧
          steal st = steal acc ∧ guest st = guest acc ∧ guest_nice st = guest_nice acc).
  2:{ destruct (Hgen _ _ Hfold) as (lines & Hlines & Hrest). exists lines. by simpl in Hrest. }
  intros cs. induction cs as [|c cs IH]; intros acc Hf.
  - injection Hf as <- _. exists []. simpl. rewrite !Z.add_0_r. by repeat split.
  - simpl in Hf. apply io_bind_inv in Hf as (acc' & w2 & Hstep & Hf).
    apply io_bind_inv in Hstep as (r & w3 & Hr & Hstep).
    unfold Core.read_stats, read_kernel_stats in Hr.
    apply io_bind_inv in Hr as (o & w4 & [= Ho] & Hr).
    rewrite Hks in Ho. injection Ho as <- <-. simpl in Hr.
    apply io_bind_inv in Hr as (t & w5 & [Ht ->]%lift_inv & [= <- <-]).
    destruct (ks_cpu_time ks !! Z.to_nat (Core.id c)) as [t'|] eqn:El; [|done]. injection Ht as ->.
    apply lift_inv in Hstep as [Hadd ->].
    destruct (IH _ Hf) as (lines & Hl & Hu & Hsy & Hi & Hst & Hg & Hgn).
    exists (t :: lines). split; [by constructor|].
    assert (Hacc : user acc' = user acc + ct_user t ∧ system acc' = system acc + ct_system t ∧
                   Records.idle acc' = Records.idle acc + ct_idle t ∧ steal acc' = steal acc ∧
                   guest acc' = guest acc ∧ guest_nice acc' = guest_nice acc).
    { assert (Huadd : ∀ a b x, uadd 64 a b = Done x → x = a + b).
      { intros a b y. unfold uadd, arith. rewrite Hov. destruct (in_range _ _); [by intros [= <-]|done]. }
      unfold add_stats in Hadd. repeat (apply bind_Done_inv in Hadd as (? & ?%Huadd & Hadd)).
      injection Hadd as <-. simpl in *. repeat split; lia. }
    destruct Hacc as (E1 & E2 & E3 & E4 & E5 & E6).
    rewrite E1 in Hu. rewrite E2 in Hsy. rewrite E3 in Hi. rewrite E4 in Hst. rewrite E5 in Hg. rewrite E6 in Hgn.
    rewrite !fmap_cons. cbn [list_sum foldr]. fold list_sum.
    rewrite Hu, Hsy, Hi. split_and!; try done; unfold list_sum; lia.
Qed.
End Socket.

(** ** Examples on the simulated host *)

#[local] Existing Instances x86_64.
#[local] Instance checked : Profile := true.
Definition counter_files : files :=
  λ p t, if decide (p = "/energy_uj"%string) then Some (show_uint (1000000 * t)) else None.
#[local] Instance host : Os := simulated counter_files.
#[local] Instance host_fs : FileSystem := simulated_fs counter_files.
#[local] Instance host_procfs : Procfs := simulated_procfs counter_files.
#[local] Instance host_perf : PerfEvents := simulated_perf counter_files.

(** A socket that drew three watts between two readings a second apart. *)
Definition readings_3w : list Record_ :=
  [mkRecord (mkDuration 3 0) "1000000" MicroJoule; mkRecord (mkDuration 4 0) "4000000" MicroJoule].

Definition estimates (idle activation : Z) : list MultiValuedRecord :=
  [mkMultiValuedRecord (mkDuration 0 0) [show_uint idle; show_uint activation] [MicroWatt; MicroWatt]].

Definition sample_socket : CPUSocket :=
  set_cpu_cores [mkCPUCore 0 ∅ [] 1 None None]
    (set_record_buffer readings_3w
      (new 0 [Domain.new 0 "core" "" 1 ∅] [] "" 1 {["source_file"%string := "/energy_uj"%string]})).

Definition idle_event : CpuStateEvent := mkEvent 0 IdleEvent.

Lemma sample_power : get_records_diff_power_microwatts sample_socket ≫= value_u64 = Some 3000000.
Proof. vm_compute. reflexivity. Qed.

Lemma estimates_refreshed_witness :
  ∃ s' w', refresh_activation_idle_records [idle_event] sample_socket 5 = Done (s', w') ∧
           idle_u64 s' = 3000000 ∧ activation_u64 s' = 0.
Proof.
  destruct (is_done_inv (refresh_activation_idle_records [idle_event] sample_socket 5) eq_refl)
    as [[s' w'] E].
  exists s', w'. split; [exact E|]. pose proof (estimates_refreshed _ _ _ _ _ E) as Hs.
  rewrite sample_power in Hs. destruct Hs as [[Hi Ha] _]. split; [exact Hi|exact Ha].
Defined.

Definition alternating (n : nat) : CPUSocket :=
  set_activation_idle_buffer (estimates (if Nat.even n then 0 else 3000000) 0) sample_socket.

Lemma idle_estimate_alternates_witness :
  (idle_u64 (alternating 7) = 3000000 ∧ background_u64 (alternating 7) = 3000000) ∧
  (idle_u64 (alternating 8) = 0 ∧ background_u64 (alternating 8) = 0).
Proof.
  assert (H : ∀ n, idle_u64 (alternating n) = (if Nat.even n then 0 else 3000000) ∧
                   background_u64 (alternating n) = (if Nat.even n then 0 else 3000000)).
  { apply (idle_estimate_alternates alternating (λ _, [idle_event]) 3000000).
    - intros n. split; reflexivity.
    - intros n. transitivity (raw_power sample_socket); [reflexivity|vm_compute; reflexivity].
    - intros n. unfold alternating. rewrite Nat.even_succ, <- Nat.negb_even.
      destruct (Nat.even n); vm_compute; reflexivity.
    - vm_compute. reflexivity.
    - vm_compute. reflexivity. }
  split; [exact (H 7%nat)|exact (H 8%nat)].
Defined.

Definition powerless_socket : CPUSocket :=
  set_record_buffer [] (set_activation_idle_buffer (estimates 0 3000000) sample_socket).

Lemma distribution_without_power_witness :
  Forall2 (λ d d', ∃ b, d' = Domain.set_background b d ∧ to_uint 64 b = background_u64 powerless_socket / 1)
          (domains powerless_socket) (domains (distribute_background_to_domains powerless_socket)).
Proof.
  eapply (distribution_without_power powerless_socket); vm_compute; reflexivity.
Defined.

(** A core that was halted between two readings: the time stamp counter advanced alone. *)
Definition halted_core : CPUCore :=
  let reading tsc := record_of (mkDuration 0 0)
    {| rd_idle_us := 0; rd_mperf := 7; rd_aperf := 7; rd_core_busy := 0; rd_core_total := 0;
       rd_node_busy := 0; rd_node_total := 0; rd_instr := F64.zero; rd_cyc := F64.zero;
       rd_tsc := tsc |} in
  mkCPUCore 1 ∅ [reading 1; reading 1000] 1 None None.

Lemma core_powers_poisoned_witness :
  core_powers (add_cpu_core halted_core sample_socket) = Some ["NaN"%string; "NaN"%string].
Proof.
  eapply (core_powers_poisoned (add_cpu_core halted_core sample_socket) (Core.clone halted_core)).
  - rewrite (proj1 (get_cores_sorted _)). apply list_elem_of_fmap. exists halted_core.
    split; [reflexivity|]. right. left.
  - vm_compute. reflexivity.
  - vm_compute. reflexivity.
  - vm_compute. reflexivity.
  - vm_compute. reflexivity.
  - vm_compute. reflexivity.
Defined.

Lemma sample_socket_wf : wf sample_socket.
Proof. split; [split; done|]. split; vm_compute; done. Qed.

Lemma socket_refresh_witness :
  ∃ s1 s2 w, refresh_activation_idle_records [idle_event] sample_socket 5 = Done (s1, w) ∧
             refresh_record s1 w = Done (s2, w + 1) ∧ wf s2.
Proof.
  destruct (is_done_inv (refresh_activation_idle_records [idle_event] sample_socket 5) eq_refl)
    as [[s1 w] E].
  destruct (socket_refresh [idle_event] sample_socket 5 s1 "/energy_uj" (show_uint (1000000 * w)) w w
              (mkDuration w 0) (w + 1) sample_socket_wf E eq_refl eq_refl eq_refl)
    as (n & b & Hs & Hw & _).
  eexists s1, _, w. split; [exact E|]. split; [exact Hs|exact Hw].
Defined.

Lemma sample_stats_done : is_done (read_stats sample_socket 5) = true.
Proof. vm_compute. reflexivity. Qed.

Definition sample_kernel_stats (t : Z) : KernelStats :=
  {| ks_total := simulated_times t; ks_cpu_time := [simulated_times t; simulated_times t]; ks_ctxt := t;
     ks_processes := t; ks_procs_running := Some 1; ks_procs_blocked := Some 0 |}.

Lemma sample_kernel_stats_read (t : Z) : kernel_stats t = (Some (sample_kernel_stats t), t).
Proof. unfold kernel_stats, host_procfs, simulated_procfs. reflexivity. Qed.

Lemma socket_stats_witness :
  ∃ st w', read_stats sample_socket 5 = Done (Some st, w') ∧ steal st = Some 0 ∧
           ∃ lines, user st = list_sum (ct_user <$> lines).
Proof.
  destruct (is_done_inv (read_stats sample_socket 5) sample_stats_done) as [[[st|] w'] E].
  - exists st, w'. split; [exact E|].
    destruct (socket_stats sample_socket 5 (sample_kernel_stats 5) (sample_kernel_stats_read 5) _ _ E eq_refl) as (lines & Hl & Hu & _ & _ & Hs & _).
    split; [exact Hs|]. exists lines. exact Hu.
  - exfalso. apply (f_equal (λ r, match r with Done (Some _, _) => true | _ => false end)) in E.
    vm_compute in E. discriminate.
Defined.
