(* ===== verification/ProcTracker.v ===== *)
(** * Process tracking ([sensors/utils.rs])

    The tracker keeps, for every process it has seen, a vector of its latest records,
    newest first.  Adding a record evicts the oldest ones beyond the allowed number and
    forgets the history of a pid that now runs another executable.  The tracker also
    answers the queries the exporters make: usage deltas, names, top consumers. *)

From S2P Require Import Prelude Floats Text FloatText Units Env Simulated Records.
From Stdlib Require Import SpecFloat Ascii.

Section ProcTracker.
Context `{Profile, Os, !Procfs, !Sysinfo, !Aya}.

Record IProcess := mkProcess {
  pid : Z;
  owner : Z;
  comm : string;
  cmdline : list string;
  cpu_busy_time : Z;
  node_busy_time : Z;
  core_busy_times : option (list Z);
  cpu_usage_percentage : float;
  virtual_memory : Z;
  memory : Z;
  disk_read : Z;
  disk_written : Z;
  total_disk_read : Z;
  total_disk_written : Z;
  stime : Z;
  utime : Z;
}.

Record ProcessRecord := mkProcessRecord {
  process : IProcess;
  timestamp : Duration;
}.

(** The container expressions are constants and have no field here. *)
Record ProcessTracker := mkTracker {
  procs : list (list ProcessRecord);
  nb_cores : Z;
  core_times_map : option PidMap;
  max_records_per_process : Z;
  sysinfo : System;
}.

Definition set_procs (p : list (list ProcessRecord)) (pt : ProcessTracker) : ProcessTracker :=
  mkTracker p (nb_cores pt) (core_times_map pt) (max_records_per_process pt) (sysinfo pt).

Definition set_sysinfo (s : System) (pt : ProcessTracker) : ProcessTracker :=
  mkTracker (procs pt) (nb_cores pt) (core_times_map pt) (max_records_per_process pt) s.

(** ** Processes *)

(** Busy time of the node: every time of [/proc/stat] but idle and iowait. *)
Definition node_busy (t : CpuTime) : outcome Z :=
  usum 64 (ct_user t) [ct_nice t; ct_system t; or_0 (ct_irq t); or_0 (ct_softirq t);
                       or_0 (ct_steal t); or_0 (ct_guest t); or_0 (ct_guest_nice t)].

(** [IProcess::new]: panics when the executable's path is not UTF-8. *)
Definition new_process (p : SysProcess) (core_times : option (list Z)) : io IProcess :=
  pid ← lift (unwrap (parse_int 32 (show_int (p_pid p))));
  stat ← read_process_stat pid;
  '(utime, stime, cpu_busy_time) ←
    match stat with
    | Some (ut, st) =>
        stime ← lift (uadd 64 0 st);
        utime ← lift (uadd 64 0 ut);
        busy ← lift (uadd 64 ut st);
        mret (utime, stime, busy)
    | None => mret (0, 0, 0)
    end;
  ks ← read_kernel_stats;
  node_busy_time ← match ks with
                   | Some ks => lift (node_busy (ks_total ks))
                   | None => mret 0
                   end;
  comm ← lift (unwrap (p_exe p));
  mret {|
    pid := p_pid p; owner := 0; comm := comm; cmdline := p_cmd p;
    core_busy_times := core_times;
    cpu_busy_time := cpu_busy_time; node_busy_time := node_busy_time;
    cpu_usage_percentage := p_cpu_usage p;
    memory := p_memory p; virtual_memory := p_virtual_memory p;
    disk_read := read_bytes (p_disk_usage p);
    disk_written := written_bytes (p_disk_usage p);
    total_disk_read := total_read_bytes (p_disk_usage p);
    total_disk_written := total_written_bytes (p_disk_usage p);
    stime := stime; utime := utime |}.

(** [IProcess::cmdline] and [IProcess::exe]: [None] for [Err]. *)
Definition process_cmdline (pt : ProcessTracker) (p : IProcess) : option (list string) :=
  p_cmd <$> sys_process (sysinfo pt) (pid p).

Definition process_exe (pt : ProcessTracker) (p : IProcess) : outcome (option string) :=
  match sys_process (sysinfo pt) (pid p) with
  | Some p => Some <$> unwrap (p_exe p)
  | None => Done None
  end.

(** [ProcessRecord::new]. *)
Definition new_record (p : IProcess) : io ProcessRecord :=
  now ← current_system_time_since_epoch;
  mret (mkProcessRecord p now).

(** ** The tracker *)

(** [ProcessTracker::new]. *)
Definition new (max_records_per_process : Z) (ebpf : option Ebpf) : io ProcessTracker :=
  system ← effect new_all;
  system ← effect (sys_refresh_cpu system);
  core_times_map ← match ebpf with
                   | Some ebpf => effect (take_pid_times ebpf)
                   | None => mret None
                   end;
  mret {| procs := []; max_records_per_process := max_records_per_process;
          core_times_map := core_times_map; sysinfo := system;
          nb_cores := Z.of_nat (length (cpus system)) |}.

(** The clone of a tracker has a fresh snapshot and no eBPF map. *)
Definition clone (pt : ProcessTracker) : io ProcessTracker :=
  system ← effect new_all;
  mret {| procs := procs pt; max_records_per_process := max_records_per_process pt;
          core_times_map := None; sysinfo := system; nb_cores := nb_cores pt |}.

Definition refresh (pt : ProcessTracker) : io ProcessTracker :=
  s ← effect (sys_refresh_components (sysinfo pt));
  s ← effect (sys_refresh_memory s);
  s ← effect (sys_refresh_disks s);
  s ← effect (sys_refresh_disks_list s);
  s ← effect (sys_refresh_cpu s);
  mret (set_sysinfo s pt).

(** The pid a vector of records is about. *)
Definition vector_pid (v : list ProcessRecord) : option Z :=
  match v with [] => None | r :: _ => Some (pid (process r)) end.

Definition is_vector_of (p : Z) (v : list ProcessRecord) : bool :=
  bool_decide (vector_pid v = Some p).

(** [records.sort_by(|a, b| b.timestamp.cmp(&a.timestamp))]. *)
Definition sort_newest_first (records : list ProcessRecord) : list ProcessRecord :=
  sort_by (λ a b, duration_leb (timestamp b) (timestamp a)) records.

Fixpoint pop_oldest (diff : nat) (records : list ProcessRecord) : list ProcessRecord :=
  match diff with
  | O => records
  | S diff => pop_oldest diff (removelast (sort_newest_first records))
  end.

Definition clean_old_process_records (records : list ProcessRecord) (max_records : Z)
    : list ProcessRecord :=
  pop_oldest (length records - Z.to_nat max_records) records.

(** What becomes of the vector of the process of [r]. *)
Definition add_to_vector (max_records : Z) (r : ProcessRecord) (vector : list ProcessRecord)
    : list ProcessRecord :=
  let vector :=
    match head vector with
    | Some first => if decide (comm (process r) ≠ comm (process first)) then [] else vector
    | None => vector
    end in
  clean_old_process_records (r :: vector) max_records.

(** The first vector of the pid is updated; without one a new vector is pushed. *)
Fixpoint add_record (max_records : Z) (r : ProcessRecord) (procs : list (list ProcessRecord))
    : list (list ProcessRecord) :=
  match procs with
  | [] => [[r]]
  | v :: procs' =>
      if is_vector_of (pid (process r)) v then add_to_vector max_records r v :: procs'
      else v :: add_record max_records r procs'
  end.

(** Returns [Ok] always. *)
Definition add_process_record (p : IProcess) (pt : ProcessTracker) : io (ProcessTracker * (string + string)) :=
  r ← new_record p;
  mret (set_procs (add_record (max_records_per_process pt) r (procs pt)) pt,
        inl "Successfully added record to process."%string).

(** The last vector of the pid. *)
Definition find_records (p : Z) (pt : ProcessTracker) : option (list ProcessRecord) :=
  fold_left (λ refer v, if is_vector_of p v then Some v else refer) (procs pt) None.

Definition get_process_last_record (p : Z) (pt : ProcessTracker) : option ProcessRecord :=
  find_records p pt ≫= head.

(** [IProcess::total_time_jiffies]. *)
Definition total_time_jiffies (pt : ProcessTracker) (p : IProcess) : outcome Z :=
  match get_process_last_record (pid p) pt with
  | Some rec => uadd 64 (stime (process rec)) (utime (process rec))
  | None => Done 0
  end.

(** The two newest records of a process. *)
Definition two_records (p : Z) (pt : ProcessTracker) : option (ProcessRecord * ProcessRecord) :=
  records ← find_records p pt;
  last ← records !! 0%nat;
  prev ← records !! 1%nat;
  Some (last, prev).

Definition get_process_cpu_time_delta_as_percentage (p : Z) (pt : ProcessTracker) : option float :=
  '(last, prev) ← two_records p pt;
  let cpu_delta := sat_sub (cpu_busy_time (process last)) (cpu_busy_time (process prev)) in
  let node_delta := sat_sub (node_busy_time (process last)) (node_busy_time (process prev)) in
  if node_delta =? 0 then None
  else Some (F64.mul (F64.div (F64.of_Z cpu_delta) (F64.of_Z node_delta)) (F64.of_Z 100)).

(** Subtracts pairwise; the vectors have the same length. *)
Fixpoint sub_all (last prev : list Z) : outcome (list Z) :=
  match last, prev with
  | l :: last, p :: prev => d ← usub 64 l p; ds ← sub_all last prev; Done (d :: ds)
  | _, _ => Done []
  end.

Definition get_per_core_cpu_time_delta (p : Z) (pt : ProcessTracker) : outcome (option (list Z)) :=
  match two_records p pt with
  | Some (last, prev) =>
      match core_busy_times (process last), core_busy_times (process prev) with
      | Some l, Some p =>
          if decide (length p = length l) then Some <$> sub_all l p else Done None
      | _, _ => Done None
      end
  | None => Done None
  end.

Definition get_cpu_frequency (pt : ProcessTracker) : Z := global_cpu_frequency (sysinfo pt).

(** The vectors whose process is known to the system and not dead. *)
Definition get_alive_processes (pt : ProcessTracker) : list (list ProcessRecord) :=
  List.filter (λ v, match vector_pid v ≫= sys_process (sysinfo pt) with
                    | Some p => bool_decide (p_status p ≠ Dead)
                    | None => false
                    end) (procs pt).

Definition get_alive_pids (pt : ProcessTracker) : list Z := omap vector_pid (get_alive_processes pt).

Definition get_all_pids (pt : ProcessTracker) : list Z := omap vector_pid (procs pt).

(** Panics when no vector, or more than one, is about the pid. *)
Definition get_process_name (p : Z) (pt : ProcessTracker) : outcome string :=
  match List.filter (is_vector_of p) (procs pt) with
  | [v] => r ← unwrap (head v); Done (comm (process r))
  | _ => Panic
  end.

Definition get_process_cmdline (p : Z) (pt : ProcessTracker) : outcome (option string) :=
  v ← unwrap (head (List.filter (is_vector_of p) (procs pt)));
  Done (r ← head v; cmd ← process_cmdline pt (process r); Some (String.concat "" cmd)).

Definition get_cpu_usage_percentage (p nb_cores : Z) (pt : ProcessTracker) : float :=
  match sys_process (sysinfo pt) p with
  | Some p =>
      F32.div (F32.div (F32.mul (global_cpu_usage (sysinfo pt)) (p_cpu_usage p)) (F32.of_Z 100))
              (F32.of_Z nb_cores)
  | None => F32.of_Z 0
  end.

(** [IProcess::myself] needs the map's values for the current pid; so do the consumers. *)
Definition get_process_core_times (p : Z) (pt : ProcessTracker) : io (option (list Z)) :=
  match core_times_map pt with
  | Some map => effect (pid_get map (cast 32 p))
  | None => mret None
  end.

(** [myself], given the pid of this process. *)
Definition myself (current_pid : Z) (pt : ProcessTracker) : io IProcess :=
  core_times ← get_process_core_times current_pid pt;
  p ← lift (unwrap (sys_process (sysinfo pt) current_pid));
  new_process p core_times.

(** ** Top consumers *)

(** [consumers.sort_by(|x, y| y.1.cmp(&x.1))]. *)
Definition sort_consumers (l : list (IProcess * float)) : list (IProcess * float) :=
  sort_by (λ x y, ordered_leb y.2 x.2) l.

(** The listed consumers whose own usage exceeds [diff]. *)
Definition above (pt : ProcessTracker) (diff : float) (consumers : list (IProcess * float)) : nat :=
  length (List.filter (λ x, match sys_process (sysinfo pt) (pid x.1) with
                            | Some p => fgtb (p_cpu_usage p) diff
                            | None => false
                            end) consumers).

Definition consider (pt : ProcessTracker) (top : Z) (consumers : list (IProcess * float))
    (v : list ProcessRecord) : io (list (IProcess * float)) :=
  match v with
  | first :: _ :: _ =>
      let p := pid (process first) in
      let diff := get_cpu_usage_percentage p (nb_cores pt) pt in
      if Z.of_nat (above pt diff consumers) <? top then
        core_times ← get_process_core_times p pt;
        match sys_process (sysinfo pt) p with
        | Some sysinfo_process =>
            new_consumer ← new_process sysinfo_process core_times;
            let consumers := sort_consumers (consumers ++ [(new_consumer, f64_of_f32 diff)]) in
            mret (if top <? Z.of_nat (length consumers) then removelast consumers else consumers)
        | None => mret consumers
        end
      else mret consumers
  | _ => mret consumers
  end.

Definition get_top_consumers (top : Z) (pt : ProcessTracker) : io (list (IProcess * float)) :=
  io_fold (consider pt top) [] (procs pt).

(** [is_match] is the regular expression's. *)
Definition get_filtered_processes (is_match : string → bool) (pt : ProcessTracker)
    : outcome (list (IProcess * float)) :=
  foldM (λ consumers v,
    match v with
    | first :: _ :: _ =>
        let diff := get_cpu_usage_percentage (pid (process first)) (nb_cores pt) pt in
        p_record ← unwrap (last v);
        exe ← process_exe pt (process p_record);
        let cmd := default [] (process_cmdline pt (process p_record)) in
        if is_match (default ""%string exe) || is_match (String.concat "" cmd) then
          Done (sort_consumers (consumers ++ [(process p_record, f64_of_f32 diff)]))
        else Done consumers
    | _ => Done consumers
    end) [] (procs pt).

(** ** Removal *)

(** The vectors of stopped or unknown processes are emptied. *)
Definition empty_if_terminated (pt : ProcessTracker) (v : list ProcessRecord) : list ProcessRecord :=
  match vector_pid v with
  | Some p =>
      match sys_process (sysinfo pt) p with
      | Some p => match p_status p with Stop => [] | _ => v end
      | None => []
      end
  | None => v
  end.

(** [for i in 0..(procs.len() - 1)], the bound being computed once. *)
Fixpoint drop_from (i n : nat) (procs : list (list ProcessRecord)) : list (list ProcessRecord) :=
  match n with
  | O => procs
  | S n => drop_from (S i) n (match procs !! i with
                              | Some [] => delete i procs
                              | _ => procs
                              end)
  end.

Definition drop_empty_process_records_vectors (pt : ProcessTracker) : ProcessTracker :=
  set_procs (drop_from 0 (length (procs pt) - 1) (procs pt)) pt.

Definition clean_terminated_process_records_vectors (pt : ProcessTracker) : ProcessTracker :=
  drop_empty_process_records_vectors (set_procs (empty_if_terminated pt <$> procs pt) pt).

(** [extract_pod_id_from_cgroup_path]. *)
Definition extract_pod_id_from_cgroup_path (pathname : string) : string :=
  let id := default "" (last (split_on "/"%char pathname)) in
  let id := default id (strip_prefix "docker-" id) in
  let id := default id (strip_suffix ".scope" id) in
  if contains "cri-containerd" id then default "" (last (split_on ":"%char id)) else id.

(** ** Lemmas: eviction *)

Definition newest_first (v : list ProcessRecord) : Prop :=
  StronglySorted (λ a b, duration_leb (timestamp b) (timestamp a) = true) v.

Lemma removelast_sorted v : newest_first v → newest_first (removelast v).
Proof.
  unfold newest_first. induction 1 as [|x v Hv IH Hx]; [constructor|].
  destruct v as [|y v]; [constructor|]. change (removelast (x :: y :: v)) with (x :: removelast (y :: v)).
  constructor; [done|]. rewrite removelast_take. by apply Forall_take.
Qed.

Lemma pop_oldest_sorted n v : newest_first v → pop_oldest n v = take (length v - n) v.
Proof.
  revert v. induction n as [|n IH]; intros v Hv; simpl; [by rewrite Nat.sub_0_r, firstn_all|].
  unfold sort_newest_first. rewrite sort_by_id by done. rewrite IH by by apply removelast_sorted.
  rewrite removelast_take, length_take, take_take. f_equal. lia.
Qed.

Lemma clean_sorted v max_records :
  newest_first v → clean_old_process_records v max_records = take (Z.to_nat max_records) v.
Proof.
  intros Hv. unfold clean_old_process_records. rewrite pop_oldest_sorted by done.
  destruct (le_lt_dec (length v) (Z.to_nat max_records)).
  - rewrite !take_ge by lia. done.
  - f_equal. lia.
Qed.

(** ** The invariant of the tracker *)

(** A vector is about one process, holds its newest records first and at most the allowed
    number of them. *)
Definition one_process (v : list ProcessRecord) : Prop := ∀ r, r ∈ v → vector_pid v = Some (pid (process r)).

Record wf_vector (max_records : Z) (v : list ProcessRecord) : Prop := {
  wfv_pid : one_process v;
  wfv_sorted : newest_first v;
  wfv_length : Z.of_nat (length v) <= max_records;
}.

Record wf (pt : ProcessTracker) : Prop := {
  wf_max : 1 <= max_records_per_process pt;
  wf_vectors : Forall (wf_vector (max_records_per_process pt)) (procs pt);
  wf_pids : NoDup (omap vector_pid (procs pt));
}.

(** What holds whatever the clock does. *)
Record tidy (pt : ProcessTracker) : Prop := {
  tidy_max : 1 <= max_records_per_process pt;
  tidy_vectors : Forall one_process (procs pt);
  tidy_pids : NoDup (omap vector_pid (procs pt));
  tidy_pos : Forall (Z.le 0) (omap vector_pid (procs pt));
}.

(** No record is later than [now]: the clock does not go back. *)
Definition not_after (now : Duration) (procs : list (list ProcessRecord)) : Prop :=
  Forall (Forall (λ r, duration_leb (timestamp r) now = true)) procs.

(** The records of the same process that a new record of it joins. *)
Definition history (p : IProcess) (v : list ProcessRecord) : list ProcessRecord :=
  match head v with
  | Some first => if decide (comm p ≠ comm (process first)) then [] else v
  | None => v
  end.

Lemma history_cases p v : history p v = v ∨ history p v = [].
Proof. unfold history. destruct (head v); [case_decide|]; auto. Qed.

Lemma add_to_vector_take max_records r v :
  1 <= max_records → newest_first v →
  Forall (λ x, duration_leb (timestamp x) (timestamp r) = true) v →
  add_to_vector max_records r v = take (Z.to_nat max_records) (r :: history (process r) v).
Proof.
  intros Hm Hv Hr. unfold add_to_vector. fold (history (process r) v). apply clean_sorted.
  destruct (history_cases (process r) v) as [-> | ->]; constructor; try done; constructor.
Qed.

Lemma take_head {A} n (x : A) l : (1 <= n)%nat → take n (x :: l) = x :: take (n - 1) l.
Proof. destruct n as [|n]; [lia|]. intros _. simpl. by rewrite Nat.sub_0_r. Qed.

(** Sorting and popping keep members only, and as many as allowed. *)
Lemma pop_oldest_members n v x : x ∈ pop_oldest n v → x ∈ v.
Proof.
  revert v. induction n as [|n IH]; intros v; simpl; [done|]. intros Hx%IH. rewrite removelast_take in Hx.
  apply elem_of_take_1 in Hx. unfold sort_newest_first in Hx. by rewrite sort_by_perm in Hx.
Qed.

Lemma pop_oldest_length n v : length (pop_oldest n v) = (length v - n)%nat.
Proof.
  revert v. induction n as [|n IH]; intros v; simpl; [lia|]. rewrite IH, removelast_take, length_take.
  unfold sort_newest_first. rewrite sort_by_length. lia.
Qed.

Lemma add_to_vector_length max_records r v :
  length (add_to_vector max_records r v) = Nat.min (S (length (history (process r) v))) (Z.to_nat max_records).
Proof.
  unfold add_to_vector. fold (history (process r) v). unfold clean_old_process_records.
  rewrite pop_oldest_length. cbn [length]. lia.
Qed.

(** The vector stays about its process, whatever the clock says. *)
Lemma add_to_vector_pid max_records r v :
  1 <= max_records → one_process v → vector_pid v = Some (pid (process r)) →
  vector_pid (add_to_vector max_records r v) = Some (pid (process r)) ∧
  one_process (add_to_vector max_records r v).
Proof.
  intros Hm Hp Hv.
  assert (Hall : ∀ x, x ∈ add_to_vector max_records r v → pid (process x) = pid (process r)).
  { intros x. unfold add_to_vector. fold (history (process r) v). intros Hx%pop_oldest_members.
    apply elem_of_cons in Hx as [->|Hx]; [done|].
    assert (x ∈ v) as Hin%Hp by (by destruct (history_cases (process r) v) as [<- | E];
                                  [|rewrite E in Hx; apply elem_of_nil in Hx]).
    congruence. }
  pose proof (add_to_vector_length max_records r v) as Hl.
  assert (vector_pid (add_to_vector max_records r v) = Some (pid (process r))) as Hq.
  { destruct (add_to_vector max_records r v) as [|x k]; [cbn [length] in Hl; lia|]. simpl. f_equal. apply Hall. by left. }
  split; [done|]. intros x Hx%Hall. congruence.
Qed.

Lemma add_to_vector_wf max_records r v :
  1 <= max_records → wf_vector max_records v → vector_pid v = Some (pid (process r)) →
  Forall (λ x, duration_leb (timestamp x) (timestamp r) = true) v →
  wf_vector max_records (add_to_vector max_records r v).
Proof.
  intros Hm [Hp Hs Hl] Hv Hr. split.
  - by apply add_to_vector_pid.
  - rewrite add_to_vector_take by done. apply StronglySorted_take.
    destruct (history_cases (process r) v) as [-> | ->]; by repeat constructor.
  - rewrite add_to_vector_length. lia.
Qed.

(** ** Lemmas: adding a record *)

Lemma find_records_last p pt :
  find_records p pt = last (List.filter (is_vector_of p) (procs pt)).
Proof.
  unfold find_records. generalize (procs pt) as l. intros l.
  assert (Hgen : ∀ o, fold_left (λ refer v, if is_vector_of p v then Some v else refer) l o
                 = match last (List.filter (is_vector_of p) l) with Some v => Some v | None => o end).
  { induction l as [|v l IH]; intros o; simpl; [done|]. rewrite IH.
    destruct (is_vector_of p v); [|done]. rewrite last_cons.
    by destruct (last (List.filter _ l)). }
  rewrite Hgen. by destruct (last _).
Qed.

Lemma is_vector_of_spec p v : is_vector_of p v = true ↔ vector_pid v = Some p.
Proof. apply bool_decide_eq_true. Qed.

(** In a tracker without duplicates at most one vector is about a pid. *)
Lemma filter_unique p l :
  NoDup (omap vector_pid l) →
  List.filter (is_vector_of p) l = [] ∨ ∃ v, List.filter (is_vector_of p) l = [v].
Proof.
  induction l as [|v l IH]; simpl; [auto|].
  destruct (vector_pid v) as [q|] eqn:E.
  - intros [Hq Hl]%NoDup_cons. destruct (is_vector_of p v) eqn:Ev.
    + apply is_vector_of_spec in Ev. right. exists v. f_equal.
      assert (q = p) as -> by congruence. clear -Hq.
      induction l as [|u l IH]; simpl in *; [done|].
      destruct (is_vector_of p u) eqn:Eu.
      * apply is_vector_of_spec in Eu. rewrite Eu in Hq. exfalso. apply Hq. left.
      * apply IH. intros Hin. apply Hq. destruct (vector_pid u); [by right|done].
    + auto.
  - intros Hl. assert (Ev : is_vector_of p v = false).
    { apply bool_decide_eq_false. congruence. }
    rewrite Ev. auto.
Qed.

Lemma find_records_filter p pt :
  NoDup (omap vector_pid (procs pt)) →
  find_records p pt = head (List.filter (is_vector_of p) (procs pt)).
Proof.
  intros Hnd. rewrite find_records_last.
  by destruct (filter_unique p _ Hnd) as [-> | [v ->]].
Qed.

Section Add.
Context (max_records : Z) (r : ProcessRecord) (Hmax : 1 <= max_records).
#[local] Abbreviation ready := (λ v, wf_vector max_records v ∧
  Forall (λ x, duration_leb (timestamp x) (timestamp r) = true) v).

Lemma one_record : one_process [r].
Proof. by intros x ->%list_elem_of_singleton. Qed.

Lemma add_record_wf l :
  Forall ready l → Forall (wf_vector max_records) (add_record max_records r l).
Proof.
  induction 1 as [|v l [Hv Hr] Hl IH]; simpl.
  - constructor; [|constructor]. split; [apply one_record|by repeat constructor|simpl; lia].
  - assert (Hall : Forall (wf_vector max_records) l) by (eapply Forall_impl; [exact Hl|by intros ? []]).
    destruct (is_vector_of _ v) eqn:E; constructor; try done.
    apply is_vector_of_spec in E. by apply add_to_vector_wf.
Qed.

Lemma add_record_one l : Forall one_process l → Forall one_process (add_record max_records r l).
Proof.
  induction 1 as [|v l Hv Hl IH]; simpl; [by constructor; [apply one_record|]|].
  destruct (is_vector_of _ v) eqn:E; constructor; try done.
  apply is_vector_of_spec in E. by apply add_to_vector_pid.
Qed.

Lemma add_record_pids l :
  Forall one_process l →
  omap vector_pid (add_record max_records r l)
  = if existsb (is_vector_of (pid (process r))) l then omap vector_pid l
    else omap vector_pid l ++ [pid (process r)].
Proof.
  induction 1 as [|v l Hv Hl IH]; [done|].
  cbn [add_record existsb]. destruct (is_vector_of _ v) eqn:E.
  - apply is_vector_of_spec in E. destruct (add_to_vector_pid _ r v Hmax Hv E) as [Hp _].
    by rewrite !omap_step, Hp, E.
  - cbn [orb]. rewrite !omap_step, IH. destruct (existsb _ l); [done|]. by destruct (vector_pid v).
Qed.

Lemma add_record_distinct l :
  Forall one_process l → NoDup (omap vector_pid l) → NoDup (omap vector_pid (add_record max_records r l)).
Proof.
  intros Hl Hn. rewrite add_record_pids by done. destruct (existsb _ _) eqn:E; [done|].
  apply NoDup_app. split; [done|]. split; [|apply NoDup_singleton].
  intros q Hq ->%list_elem_of_singleton. apply list_elem_of_omap in Hq as (v & Hin & Hvq).
  apply not_true_iff_false in E. apply E, existsb_exists. exists v.
  split; [by apply list_elem_of_In|by apply is_vector_of_spec].
Qed.

Lemma add_record_filter q l :
  Forall one_process l →
  List.filter (is_vector_of q) (add_record max_records r l)
  = if decide (q = pid (process r)) then
      match List.filter (is_vector_of q) l with
      | [] => [[r]]
      | v :: vs => add_to_vector max_records r v :: vs
      end
    else List.filter (is_vector_of q) l.
Proof.
  induction 1 as [|v l Hv Hl IH]; simpl.
  - unfold is_vector_of at 1. simpl. case_decide as Hq.
    + subst q. by rewrite bool_decide_eq_true_2.
    + rewrite bool_decide_eq_false_2; [done|]. intros [= <-]. done.
  - destruct (is_vector_of (pid (process r)) v) eqn:E; simpl.
    + pose proof E as E'. apply is_vector_of_spec in E.
      destruct (add_to_vector_pid _ r v Hmax Hv E) as [Hp _].
      assert (Hsame : is_vector_of q (add_to_vector max_records r v) = is_vector_of q v).
      { unfold is_vector_of. by rewrite Hp, E. }
      rewrite Hsame. destruct (is_vector_of q v) eqn:Eq.
      * apply is_vector_of_spec in Eq. rewrite decide_True by congruence. done.
      * rewrite decide_False; [done|]. intros ->. congruence.
    + destruct (is_vector_of q v) eqn:Eq.
      * rewrite IH. rewrite !decide_False; [done|..]; intros ->; congruence.
      * exact IH.
Qed.
End Add.

(** ** Tracking *)

(** C30: adding a record of a process to a tracker, at a time no record is later than,
    stores it as the newest record of the process in front of the earlier records of the
    same executable, keeps only the allowed number of them, leaves the records of every
    other process alone and preserves the invariant (one vector per pid, about that pid
    only, newest first, at most the allowed number of records). *)
Theorem add_process_record_tracks p pt w now w' :
  wf pt → not_after now (procs pt) → clock w = (Some now, w') →
  ∃ pt' msg, add_process_record p pt w = Done ((pt', inl msg), w') ∧ wf pt' ∧
  (∀ q, find_records q pt'
        = if decide (q = pid p) then
            Some (take (Z.to_nat (max_records_per_process pt))
                    (mkProcessRecord p now :: from_option (history p) [] (find_records q pt)))
          else find_records q pt).
Proof.
  intros [Hm Hv Hnd] Hnow Hclock.
  unfold add_process_record, new_record, current_system_time_since_epoch, mbind, io_bind.
  rewrite Hclock. set (r := mkProcessRecord p now).
  assert (Hready : Forall (λ v, wf_vector (max_records_per_process pt) v ∧
                    Forall (λ x, duration_leb (timestamp x) (timestamp r) = true) v) (procs pt)).
  { rewrite Forall_forall in *. intros v Hin. split; [by apply Hv|].
    unfold not_after in Hnow. rewrite Forall_forall in Hnow. by apply Hnow. }
  eexists _, _. split; [reflexivity|].
  assert (Hone : Forall one_process (procs pt)) by (eapply Forall_impl; [exact Hv|by intros ? []]).
  assert (Hnd' : NoDup (omap vector_pid (add_record (max_records_per_process pt) r (procs pt))))
    by (by apply add_record_distinct).
  split; [split; [done| |done]|].
  - by apply add_record_wf.
  - intros q. rewrite !find_records_filter by done. simpl procs.
    rewrite add_record_filter by done. change (pid (process r)) with (pid p).
    case_decide as Hq; [|done]. subst q.
    destruct (List.filter (is_vector_of (pid p)) (procs pt)) as [|v vs] eqn:E; simpl.
    + rewrite take_head by lia. by rewrite take_nil.
    + f_equal. assert (Hin : v ∈ procs pt).
      { apply list_elem_of_In. eapply (proj1 (filter_In (is_vector_of (pid p)) v _)).
        rewrite E. by left. }
      rewrite Forall_forall in Hready. destruct (Hready v Hin) as [[_ Hs _] Hr].
      by rewrite add_to_vector_take.
Qed.

(** Adding a record keeps the tracker tidy, even when the clock goes back. *)
Lemma add_process_record_tidy p pt w r w' :
  tidy pt → 0 <= pid p → add_process_record p pt w = Done (r, w') → tidy r.1 ∧ sysinfo r.1 = sysinfo pt.
Proof.
  intros [Hm Hv Hn Hp] Hpos. unfold add_process_record. intros (x & w1 & Hx & [= <- _])%io_bind_inv.
  unfold new_record in Hx. apply io_bind_inv in Hx as (now & w2 & _ & [= <- _]). split; [|done].
  split; [done|by apply add_record_one|by apply add_record_distinct|].
  cbn [procs set_procs fst]. rewrite add_record_pids by done. destruct (existsb _ _); [done|].
  apply Forall_app. by split; [|constructor].
Qed.

(** ** Removing terminated processes *)

Lemma drop_from_sublist i n l : drop_from i n l `sublist_of` l.
Proof.
  revert i l. induction n as [|n IH]; intros i l; simpl; [done|].
  destruct (l !! i) as [[|r v]|]; (etrans; [apply IH|]); [apply sublist_delete|done..].
Qed.

Lemma clean_terminated_tidy pt : tidy pt → tidy (clean_terminated_process_records_vectors pt).
Proof.
  intros [Hm Hv Hn Hp]. set (k := empty_if_terminated pt <$> procs pt).
  assert (Hk : omap vector_pid k `sublist_of` omap vector_pid (procs pt)).
  { unfold k. clear. induction (procs pt) as [|v l IH]; [done|]. rewrite fmap_cons, !omap_step.
    unfold empty_if_terminated at 1. destruct (vector_pid v) as [p|] eqn:E; [|by rewrite E].
    assert (Hs : omap vector_pid (empty_if_terminated pt <$> l) `sublist_of` p :: omap vector_pid l)
      by (by apply sublist_cons).
    destruct (sys_process _ p) as [q|]; [|exact Hs].
    destruct (p_status q); first [exact Hs|rewrite E; by apply sublist_skip]. }
  pose proof (drop_from_sublist 0 (length k - 1) k) as Hd.
  assert (Ho : omap vector_pid (drop_from 0 (length k - 1) k) `sublist_of` omap vector_pid (procs pt)).
  { etrans; [|exact Hk]. clear -Hd. induction Hd as [|v l l' _ IH|v l l' _ IH]; [done|..]; rewrite !omap_step.
    - destruct (vector_pid v); [by apply sublist_skip|done].
    - destruct (vector_pid v); [by apply sublist_cons|done]. }
  split; [done|..].
  - apply Forall_forall. intros v Hin. cbn [procs set_procs] in Hin.
    apply (elem_of_sublist _ _ _ Hin) in Hd. apply list_elem_of_fmap in Hd as (u & -> & Hu).
    rewrite Forall_forall in Hv. specialize (Hv u Hu). unfold empty_if_terminated.
    assert (one_process []) by (by intros r Hr%elem_of_nil).
    destruct (vector_pid u); [|done]. destruct (sys_process _ _) as [q|]; [|done]. by destruct (p_status q).
  - by eapply sublist_NoDup.
  - rewrite Forall_forall in Hp |- *. intros q Hq. apply Hp. by eapply elem_of_sublist.
Qed.


Definition nonempty (v : list ProcessRecord) : bool := negb (bool_decide (v = [])).

Lemma filter_delete_empty i (l : list (list ProcessRecord)) :
  l !! i = Some [] → List.filter nonempty (delete i l) = List.filter nonempty l.
Proof.
  revert i. induction l as [|v l IH]; intros [|i]; simpl; try done.
  - by intros [= ->].
  - intros Hi. by rewrite IH.
Qed.

Lemma drop_from_keeps i n l : List.filter nonempty (drop_from i n l) = List.filter nonempty l.
Proof.
  revert i l. induction n as [|n IH]; intros i l; simpl; [done|]. rewrite IH.
  destruct (l !! i) as [[|r v]|] eqn:E; [by apply filter_delete_empty|done..].
Qed.

Lemma drop_from_none i n l :
  (∀ j, (i <= j < i + n)%nat → l !! j ≠ Some []) → drop_from i n l = l.
Proof.
  revert i. induction n as [|n IH]; intros i Hl; simpl; [done|].
  destruct (l !! i) as [[|r v]|] eqn:E; [exfalso; by apply (Hl i); [lia|]|..];
    apply IH; intros j Hj; apply Hl; lia.
Qed.

(** Cleaning drops the records of exactly the processes the system does not know or
    reports as stopped, and keeps every other vector, in order; but it only looks at the
    positions below the last one, so an emptied vector in last position stays in the
    tracker. *)
Theorem clean_terminated_records pt :
  let alive v := match vector_pid v ≫= sys_process (sysinfo pt) with
                 | Some p => bool_decide (p_status p ≠ Stop)
                 | None => false
                 end in
  let pt' := clean_terminated_process_records_vectors pt in
  List.filter nonempty (procs pt') = List.filter alive (procs pt) ∧
  (∀ l v, procs pt = l ++ [v] → Forall (λ u, alive u = true) l → alive v = false →
          procs pt' = l ++ [[]]).
Proof.
  intros alive pt'.
  assert (Hcase : ∀ v, empty_if_terminated pt v = if alive v then v else []).
  { intros v. unfold empty_if_terminated, alive. destruct v as [|r v]; [done|]. simpl.
    destruct (sys_process _ _) as [p|]; [|done]. by destruct (p_status p). }
  assert (Halive : ∀ v, alive v = true → nonempty v = true).
  { intros [|r v]; unfold alive; simpl; [done|]. by intros _. }
  split.
  - simpl. rewrite drop_from_keeps. induction (procs pt) as [|v l IH]; [done|].
    rewrite fmap_cons, Hcase. cbn [List.filter]. rewrite IH.
    destruct (alive v) eqn:E; [by rewrite Halive|done].
  - intros l v Hl Hall Hv. simpl. rewrite Hl, fmap_app. simpl. rewrite Hcase, Hv.
    assert (Hid : empty_if_terminated pt <$> l = l).
    { clear Hl. induction Hall as [|u l Hu Hall IH]; [done|].
      by rewrite fmap_cons, IH, Hcase, Hu. }
    rewrite Hid. apply drop_from_none. intros j Hj E. rewrite length_app in Hj. simpl in Hj.
    rewrite lookup_app_l in E by lia. rewrite Forall_forall in Hall.
    by pose proof (Halive [] (Hall [] (list_elem_of_lookup_2 _ _ _ E))).
Qed.

(** ** Queries *)

Lemma sub_all_spec last prev :
  length prev = length last → Forall u64 last → Forall u64 prev →
  sub_all last prev
  = if overflow_checks && existsb (λ x, x.1 <? x.2) (zip last prev) then Panic
    else Done (zip_with (λ l p, cast 64 (l - p)) last prev).
Proof.
  intros Hlen Hl. revert prev Hlen. induction Hl as [|l last Hl Hls IH]; intros [|p prev] Hlen Hp; try done.
  - simpl. by rewrite andb_false_r.
  - inversion_clear Hp as [|? ? Hp1 Hp2]. simpl. simpl in Hlen. rewrite IH by (lia || done).
    unfold u64 in *. destruct (Z.ltb_spec l p); simpl.
    + unfold usub. rewrite arith_overflow by lia. destruct overflow_checks; simpl; [done|].
      done.
    + rewrite usub_ok by lia. simpl. rewrite cast_small by lia.
      destruct (overflow_checks && _); done.
Qed.

Lemma sub_all_nonneg last prev l : sub_all last prev = Done l → Forall (Z.le 0) l.
Proof.
  revert prev l. induction last as [|x last IH]; intros [|p prev] l; simpl; try (by intros [= <-]).
  intros (d & Hd & (ds & Hds & [= <-])%bind_Done_inv)%bind_Done_inv.
  constructor; [|by eapply IH]. apply arith_range in Hd; lia.
Qed.

Lemma per_core_delta_nonneg p pt l :
  get_per_core_cpu_time_delta p pt = Done (Some l) → Forall (Z.le 0) l.
Proof.
  unfold get_per_core_cpu_time_delta. destruct (two_records p pt) as [[last prev]|]; [|done].
  destruct (core_busy_times (process last)), (core_busy_times (process prev)); try done.
  case_decide; [|done]. destruct (sub_all _ _) eqn:E; [|done]. intros [= <-]. by eapply sub_all_nonneg.
Qed.

(** The time a process spent on each CPU between its two newest records, when both
    hold one value per CPU: the difference, CPU by CPU; when the counter of a CPU went
    back, a build that checks arithmetic panics and another one wraps. *)
Theorem per_core_delta p pt last prev l q :
  two_records p pt = Some (last, prev) →
  core_busy_times (process last) = Some l → core_busy_times (process prev) = Some q →
  length q = length l → Forall u64 l → Forall u64 q →
  get_per_core_cpu_time_delta p pt
  = if overflow_checks && existsb (λ x, x.1 <? x.2) (zip l q) then Panic
    else Done (Some (zip_with (λ a b, cast 64 (a - b)) l q)).
Proof.
  intros Ht Hl Hq Hlen Hul Huq. unfold get_per_core_cpu_time_delta. rewrite Ht, Hl, Hq.
  rewrite decide_True by done. rewrite sub_all_spec by done. by destruct (_ && _).
Qed.

Definition descending (l : list (IProcess * float)) : Prop :=
  StronglySorted (λ x y, ordered_leb y.2 x.2 = true) l.

Lemma sort_consumers_descending l : descending (sort_consumers l).
Proof.
  apply (sort_by_sorted _ (λ _, True)); [|intros x y z _ _ _|by apply Forall_true].
  - intros x y _ _. apply ordered_leb_total.
  - intros Hxy Hyz. by eapply ordered_leb_trans.
Qed.

(** The top consumers are at most as many as asked for, by decreasing usage. *)
Theorem top_consumers_bounded top pt w l w' :
  0 <= top → get_top_consumers top pt w = Done (l, w') →
  Z.of_nat (length l) <= top ∧ descending l.
Proof.
  intros Htop. apply (io_fold_inv (consider pt top) (λ l, Z.of_nat (length l) <= top ∧ descending l)).
  2:{ split; [simpl; lia|constructor]. }
  intros cs v w1 cs' w2 _ [Hlen Hdesc]. unfold consider.
  destruct v as [|first [|second v]]; [by intros [= <- _]..|].
  destruct (_ <? top); [|by intros [= <- _]].
  intros (times & w3 & _ & Hs)%io_bind_inv. destruct (sys_process _ _); [|by injection Hs as <- _].
  apply io_bind_inv in Hs as (c & w4 & _ & [= <- _]).
  set (x := (c, _)). pose proof (sort_consumers_descending (cs ++ [x])) as Hd.
  assert (Hl : length (sort_consumers (cs ++ [x])) = S (length cs)).
  { unfold sort_consumers. rewrite sort_by_length, length_app. simpl. lia. }
  destruct (Z.ltb_spec top (Z.of_nat (length (sort_consumers (cs ++ [x]))))); [|done].
  rewrite removelast_take, length_take. split; [lia|]. by apply StronglySorted_take.
Qed.
End ProcTracker.

(** ** Examples on the simulated host *)

#[local] Instance checked : Profile := true.
#[local] Instance host : Os := simulated no_files.
#[local] Instance host_procfs : Procfs := simulated_procfs no_files.
#[local] Instance host_aya : Aya := simulated_aya no_files [].

Definition sample_sys_process (p usage : Z) (status : ProcessStatus) : SysProcess := {|
  p_pid := p; p_exe := Some "/bin/a"; p_cmd := ["a"%string]; p_cpu_usage := F32.of_Z usage;
  p_memory := 1; p_virtual_memory := 2;
  p_disk_usage := {| read_bytes := 0; written_bytes := 0; total_read_bytes := 0; total_written_bytes := 0 |};
  p_status := status |}.

(** Process 1 uses 10% of a CPU, process 2 uses 90% of one; 3 is stopped. *)
#[local] Instance host_sysinfo : Sysinfo :=
  simulated_sysinfo no_files 8
    [sample_sys_process 1 10 Run; sample_sys_process 2 90 Run; sample_sys_process 3 0 Stop].

Definition sample_process (p : Z) (times : list Z) : IProcess := {|
  pid := p; owner := 0; comm := "/bin/a"; cmdline := ["a"%string]; cpu_busy_time := 0;
  node_busy_time := 0; core_busy_times := Some times; cpu_usage_percentage := F32.of_Z 0;
  virtual_memory := 2; memory := 1; disk_read := 0; disk_written := 0; total_disk_read := 0;
  total_disk_written := 0; stime := 0; utime := 0 |}.

Definition sample_record (p t : Z) : ProcessRecord :=
  mkProcessRecord (sample_process p [t; 2 * t]) (mkDuration t 0).

Definition sample_tracker : ProcessTracker :=
  mkTracker [[sample_record 1 4; sample_record 1 3]; [sample_record 2 4; sample_record 2 3];
             [sample_record 3 4]] 8 None 2 tt.

Lemma sample_tracker_wf : wf sample_tracker.
Proof.
  split; [done| |].
  - repeat constructor; simpl; try done;
      intros r Hr; repeat (apply elem_of_cons in Hr as [->|Hr]; [reflexivity|]); by apply elem_of_nil in Hr.
  - apply (bool_decide_unpack (NoDup _)). vm_compute. done.
Qed.

Lemma add_process_record_tracks_witness :
  ∃ pt' msg, add_process_record (sample_process 1 [9; 9]) sample_tracker 5 = Done ((pt', inl msg), 6) ∧
             wf pt' ∧ find_records 1 pt' = Some [mkProcessRecord (sample_process 1 [9; 9]) (mkDuration 5 0);
                                                 sample_record 1 4].
Proof.
  destruct (add_process_record_tracks (sample_process 1 [9; 9]) sample_tracker 5 (mkDuration 5 0) 6)
    as (pt' & msg & H1 & H2 & H3);
    [exact sample_tracker_wf|repeat constructor|reflexivity|].
  exists pt', msg. split; [exact H1|]. split; [exact H2|]. exact (H3 1).
Defined.

Lemma per_core_delta_witness :
  get_per_core_cpu_time_delta 1 sample_tracker = Done (Some [1; 2]).
Proof.
  refine (eq_trans (per_core_delta 1 sample_tracker (sample_record 1 4) (sample_record 1 3) [4; 8] [3; 6]
                      eq_refl eq_refl eq_refl eq_refl _ _) eq_refl);
    repeat constructor; done.
Defined.

Lemma top_consumers_run :
  is_done (get_top_consumers 1 sample_tracker 5) = true.
Proof. vm_compute. reflexivity. Qed.

Lemma top_consumers_bounded_witness :
  ∃ l w', get_top_consumers 1 sample_tracker 5 = Done (l, w') ∧ Z.of_nat (length l) <= 1.
Proof.
  destruct (is_done_inv _ top_consumers_run) as [[l w'] E]. exists l, w'. split; [exact E|].
  apply (top_consumers_bounded 1 sample_tracker 5 l w'); [done|exact E].
Defined.

(** The usage a process already listed is compared by is not normalised like the
    candidate's: asked for the single top consumer, the tracker answers process 1, which
    uses nine times less than process 2. *)
Lemma top_consumers_miss :
  match get_top_consumers 1 sample_tracker 5 with
  | Done (l, _) => (λ x, pid x.1) <$> l = [1]
  | Panic => False
  end ∧
  fgtb (get_cpu_usage_percentage 2 8 sample_tracker) (get_cpu_usage_percentage 1 8 sample_tracker) = true.
Proof. split; vm_compute; reflexivity. Qed.
