(* ===== verification/Ebpf.v ===== *)
(** * The eBPF programs ([scaphandre-ebpf/src/main.rs])

    Four programs run in the kernel.  Two of them (context switches and a 5 ms tick) charge
    the time a process ran to the process ([PID_TIMES]) and to the CPU ([CPU_TIME]); one
    charges the last slice of a task that exits and forgets processes that are gone; one
    compares the CPU times with a snapshot every 10 ms and reports the sockets on which no
    CPU, or a single one, was active.

    The maps are the kernel's, reached through the [aya-ebpf] crate: here an interface with
    the laws of their documentation.  The programs are always built in release mode, so
    their 64-bit arithmetic wraps. *)

From S2P Require Import Prelude Records Common.

Definition MAX_KEYS : Z := 32768.
Definition MAX_CPU : Z := 256.
Definition MAX_SOCKET : Z := 64.

(** ** The kernel's maps *)

(** [PerCpuHashMap<u32, u64>]: one value per CPU and key, a program reading and writing the
    slot of the CPU it runs on; [Array<T>]; the ring buffer. *)
Class Maps := {
  pcpu : Type;
  get_ptr : pcpu → Z → Z → option Z;
  set_ptr : pcpu → Z → Z → Z → pcpu;
  insert : pcpu → Z → Z → Z → pcpu;
  remove : pcpu → Z → pcpu;
  array : Type;
  array_get : array → Z → option Z;
  array_set : array → Z → Z → array;
  ring : Type;
  ring_submit : ring → CpuStateEvent → ring;
  ring_events : ring → list CpuStateEvent;
}.

(** What the programs rely on.  An insertion may fail when the map is full. *)
Class MapLaws `{Maps} := {
  get_set_same m c k v : get_ptr m c k ≠ None → get_ptr (set_ptr m c k v) c k = Some v;
  get_set_other m c k v c' k' : (c', k') ≠ (c, k) → get_ptr (set_ptr m c k v) c' k' = get_ptr m c' k';
  get_remove m k c k' : get_ptr (remove m k) c k' = if decide (k' = k) then None else get_ptr m c k';
  get_insert_key m c k v c' k' : k' ≠ k → get_ptr (insert m c k v) c' k' = get_ptr m c' k';
  get_insert_other m c k v c' : c' ≠ c → get_ptr m c k ≠ None →
    get_ptr (insert m c k v) c' k = get_ptr m c' k;
  get_insert m c k v :
    get_ptr (insert m c k v) c k = Some v ∨
    (get_ptr m c k = None ∧ insert m c k v = m);
  (** The slots of the other CPUs of a new key are zero. *)
  get_insert_fresh m c k v c' : c' ≠ c → get_ptr m c k = None → get_ptr (insert m c k v) c k = Some v →
    get_ptr (insert m c k v) c' k = Some 0;
  (** A key exists for every CPU or for none. *)
  get_all_cpus m c c' k : get_ptr m c k = None → get_ptr m c' k = None;
  array_get_set m i v j : array_get (array_set m i v) j
    = if decide (j = i) then (λ _, v) <$> array_get m j else array_get m j;
  events_submit r e : ring_events (ring_submit r e) = ring_events r ++ [e] ∨ ring_submit r e = r;
}.

Section Programs.
Context `{Maps}.

Record State := mkState {
  PID_TIMES : pcpu;
  PID_LAST : pcpu;
  CPU_TIME : array;
  CPU_SNAPSHOT : array;
  CPU_STATE_EVENTS : ring;
  CPU_TO_SOCKET : array;
}.

Definition with_times (pid_times pid_last : pcpu) (cpu_time : array) (st : State) : State :=
  mkState pid_times pid_last cpu_time (CPU_SNAPSHOT st) (CPU_STATE_EVENTS st) (CPU_TO_SOCKET st).

Definition with_tick (snapshot : array) (events : ring) (st : State) : State :=
  mkState (PID_TIMES st) (PID_LAST st) (CPU_TIME st) snapshot events (CPU_TO_SOCKET st).

(** [now - last] and [*p += delta] on [u64]. *)
Definition wsub (a b : Z) : Z := cast 64 (a - b).
Definition wadd (a b : Z) : Z := cast 64 (a + b).

(** Charge a duration to a process on a CPU, creating its entry if there is none. *)
Definition charge_pid (cpu tgid delta : Z) (m : pcpu) : pcpu :=
  match get_ptr m cpu tgid with
  | Some t => set_ptr m cpu tgid (wadd t delta)
  | None => insert m cpu tgid delta
  end.

(** Charge it to the CPU. *)
Definition charge_cpu (cpu delta : Z) (a : array) : array :=
  match array_get a cpu with
  | Some t => array_set a cpu (wadd t delta)
  | None => a
  end.

(** [sched_switch]; each of the three reads of kernel memory gives a value or an error
    code. *)
Definition try_sched_switch (now cpu : Z) (prev_tgid next_tgid prev_tid : Z + Z) (st : State)
    : State * (Z + Z) :=
  match prev_tgid, next_tgid, prev_tid with
  | inr e, _, _ | inl _, inr e, _ | inl _, inl _, inr e => (st, inr e)
  | inl prev_tgid, inl next_tgid, inl prev_tid =>
      let st :=
        if negb (prev_tgid =? 0) && negb (prev_tid =? 0) then
          match get_ptr (PID_LAST st) cpu prev_tgid with
          | Some last_timestamp =>
              let delta := wsub now last_timestamp in
              with_times (charge_pid cpu prev_tgid delta (PID_TIMES st))
                         (remove (PID_LAST st) prev_tgid)
                         (charge_cpu cpu delta (CPU_TIME st)) st
          | None => st
          end
        else st in
      (with_times (PID_TIMES st) (insert (PID_LAST st) cpu next_tgid now) (CPU_TIME st) st, inl 0)
  end.

(** The 5 ms tick. *)
Definition sample_tick (now pid tid cpu : Z) (st : State) : State :=
  if (pid =? 0) || (tid =? 0) then st
  else match get_ptr (PID_LAST st) cpu pid with
  | Some p =>
      let delta := wsub now p in
      with_times (charge_pid cpu pid delta (PID_TIMES st))
                 (set_ptr (PID_LAST st) cpu pid now)
                 (charge_cpu cpu delta (CPU_TIME st)) st
  | None => with_times (PID_TIMES st) (insert (PID_LAST st) cpu pid now) (CPU_TIME st) st
  end.

(** [sched_process_exit], with the [pid] and [group_dead] of its arguments, [None] when
    they cannot be read. *)
Definition try_process_exit (now cpu tgid : Z) (args : option (Z * Z)) (st : State) : State * (Z + Z) :=
  match args with
  | None => (st, inr 1)
  | Some (tid, group_dead) =>
      let st :=
        if negb (tgid =? 0) && negb (tid =? 0) then
          match get_ptr (PID_LAST st) cpu tgid with
          | Some last =>
              let delta := wsub now last in
              with_times (charge_pid cpu tgid delta (PID_TIMES st))
                         (remove (PID_LAST st) tgid)
                         (charge_cpu cpu delta (CPU_TIME st)) st
          | None => st
          end
        else st in
      (if group_dead =? 0 then st
       else with_times (remove (PID_TIMES st) tgid) (remove (PID_LAST st) tgid) (CPU_TIME st) st,
       inl 0)
  end.

(** *** The 10 ms tick *)

(** [socket_active_cpus]: [None] stands for [u32::MAX], a socket without any CPU. *)
Definition count_cpu (old new : Z) (active : option Z) : option Z :=
  let active := default 0 active in
  Some (if wsub new old =? 0 then active else active + 1).

(** The first loop, over the [n] CPUs from [cpu] on: it stops at the first CPU that has no
    socket, and skips a socket beyond the array. *)
Fixpoint count_active (n : nat) (cpu : Z) (st : State) (active : list (option Z)) : list (option Z) :=
  match n with
  | O => active
  | S n =>
      match array_get (CPU_SNAPSHOT st) cpu, array_get (CPU_TIME st) cpu, array_get (CPU_TO_SOCKET st) cpu with
      | Some old, Some new, Some socket =>
          if socket =? 0 then active
          else count_active n (cpu + 1) st (alter (count_cpu old new) (Z.to_nat (sat_sub socket 1)) active)
      | _, _, _ => count_active n (cpu + 1) st active
      end
  end.

(** The second loop: it stops at the first socket without any CPU. *)
Fixpoint report (socket : Z) (active : list (option Z)) (r : ring) : ring :=
  match active with
  | [] => r
  | None :: _ => r
  | Some active_cpus :: rest =>
      let r :=
        if active_cpus =? 0 then ring_submit r (mkEvent socket IdleEvent)
        else if active_cpus =? 1 then ring_submit r (mkEvent socket ActivationEvent)
        else r in
      report (socket + 1) rest r
  end.

(** The third loop: the snapshot becomes the CPU times. *)
Fixpoint copy_times (n : nat) (cpu : Z) (times snapshot : array) : array :=
  match n with
  | O => snapshot
  | S n =>
      copy_times n (cpu + 1) times
        (match array_get times cpu with
         | Some t => array_set snapshot cpu t
         | None => snapshot
         end)
  end.

Definition cpu_state_tick (st : State) : State :=
  let active := count_active (Z.to_nat MAX_CPU) 0 st (replicate (Z.to_nat MAX_SOCKET) None) in
  let events := report 0 active (CPU_STATE_EVENTS st) in
  with_tick (copy_times (Z.to_nat MAX_CPU) 0 (CPU_TIME st) (CPU_SNAPSHOT st)) events st.

(** ** Accounting *)

(** What the kernel makes the charging programs do. *)
Inductive Event :=
  | Switch (now cpu prev_tgid next_tgid prev_tid : Z)
  | Tick (now pid tid cpu : Z)
  | Exit (now cpu tgid tid group_dead : Z).

Definition step (st : State) (e : Event) : State :=
  match e with
  | Switch now cpu prev next tid => (try_sched_switch now cpu (inl prev) (inl next) (inl tid) st).1
  | Tick now pid tid cpu => sample_tick now pid tid cpu st
  | Exit now cpu tgid tid dead => (try_process_exit now cpu tgid (Some (tid, dead)) st).1
  end.

Definition run (st : State) (trace : list Event) : State := fold_left step trace st.

(** The process an event charges; an exit that does not forget its process. *)
Definition charged (e : Event) : Z :=
  match e with Switch _ _ p _ _ => p | Tick _ p _ _ => p | Exit _ _ p _ _ => p end.

Definition forgets (e : Event) : bool :=
  match e with Exit _ _ _ _ dead => negb (dead =? 0) | _ => false end.

(** The time charged on a CPU to some processes, and to the CPU. *)
Definition pid_total (c : Z) (pids : list Z) (m : pcpu) : Z :=
  list_sum ((λ p, default 0 (get_ptr m c p)) <$> pids).

Definition cpu_total (c : Z) (a : array) : Z := default 0 (array_get a c).

Lemma list_sum_update (f g : Z → Z) k l :
  NoDup l → k ∈ l → (∀ p, p ≠ k → g p = f p) →
  list_sum (g <$> l) = list_sum (f <$> l) + (g k - f k).
Proof.
  intros Hnd Hk Hg. induction Hnd as [|x l Hx Hnd IH]; [by apply elem_of_nil in Hk|].
  rewrite !fmap_cons. unfold list_sum in *. cbn [foldr]. apply elem_of_cons in Hk as [<-|Hk].
  - assert (E : g <$> l = f <$> l).
    { apply list_fmap_ext. intros i y Hy. apply Hg. intros ->. apply Hx. by eapply list_elem_of_lookup_2. }
    rewrite E. lia.
  - rewrite IH by done. rewrite (Hg x); [lia|]. by intros ->.
Qed.

Context `{!MapLaws}.

Lemma set_ptr_total c c' k v t m pids :
  NoDup pids → k ∈ pids → get_ptr m c' k = Some t →
  pid_total c pids (set_ptr m c' k v)
  = pid_total c pids m + (if decide (c = c') then v - t else 0).
Proof.
  intros Hnd Hk Ht. unfold pid_total.
  assert (Hg : ∀ p, p ≠ k → default 0 (get_ptr (set_ptr m c' k v) c p) = default 0 (get_ptr m c p)).
  { intros p Hp. rewrite get_set_other; [done|]. congruence. }
  rewrite (list_sum_update _ _ k pids Hnd Hk Hg). case_decide as Hc.
  - subst c'. rewrite get_set_same by congruence. rewrite Ht. simpl. lia.
  - rewrite get_set_other by congruence. lia.
Qed.

Lemma charge_pid_total c c' k delta m pids :
  (∀ m c v, get_ptr (insert m c k v) c k = Some v) →
  NoDup pids → k ∈ pids → 0 <= delta <= umax 64 →
  cast 64 (pid_total c pids (charge_pid c' k delta m))
  = cast 64 (pid_total c pids m + (if decide (c = c') then delta else 0)).
Proof.
  intros Hroom Hnd Hk Hd. unfold charge_pid. destruct (get_ptr m c' k) as [t|] eqn:E.
  - rewrite (set_ptr_total c c' k _ t) by done. case_decide; [|done].
    unfold wadd. replace (pid_total c pids m + (cast 64 (t + delta) - t))
      with (cast 64 (t + delta) + (pid_total c pids m - t)) by lia.
    rewrite cast_cast by lia. f_equal. lia.
  - unfold pid_total.
    assert (Hg : ∀ p, p ≠ k → default 0 (get_ptr (insert m c' k delta) c p) = default 0 (get_ptr m c p)).
    { intros p Hp. by rewrite get_insert_key. }
    rewrite (list_sum_update _ _ k pids Hnd Hk Hg). f_equal.
    rewrite (get_all_cpus m c' c k E). case_decide as Hc.
    + subst c'. rewrite Hroom. simpl. lia.
    + rewrite (get_insert_fresh m c' k delta c) by (done || auto). simpl. lia.
Qed.

Lemma charge_cpu_total c c' delta a :
  array_get a c ≠ None →
  cast 64 (cpu_total c (charge_cpu c' delta a))
  = cast 64 (cpu_total c a + (if decide (c = c') then delta else 0)).
Proof.
  intros Hc. unfold charge_cpu, cpu_total. destruct (array_get a c') as [t|] eqn:E.
  - rewrite array_get_set. case_decide.
    + subst c'. rewrite E. simpl. unfold wadd. by rewrite cast_idem by lia.
    + by rewrite Z.add_0_r.
  - rewrite decide_False by congruence. by rewrite Z.add_0_r.
Qed.

Lemma charge_cpu_some c c' delta a : array_get a c ≠ None → array_get (charge_cpu c' delta a) c ≠ None.
Proof.
  intros Hc. unfold charge_cpu. destruct (array_get a c'); [|done].
  rewrite array_get_set. case_decide; [|done]. by destruct (array_get a c).
Qed.

(** The difference between the two accounts of a CPU, modulo [2^64]. *)
Definition unaccounted (c : Z) (pids : list Z) (st : State) : Z :=
  cast 64 (cpu_total c (CPU_TIME st) - pid_total c pids (PID_TIMES st)).

Lemma charge_unaccounted c c' k delta m a pids :
  (∀ m c v, get_ptr (insert m c k v) c k = Some v) →
  NoDup pids → k ∈ pids → 0 <= delta <= umax 64 → array_get a c ≠ None →
  cast 64 (cpu_total c (charge_cpu c' delta a) - pid_total c pids (charge_pid c' k delta m))
  = cast 64 (cpu_total c a - pid_total c pids m).
Proof.
  intros Hroom Hnd Hk Hd Ha.
  pose proof (charge_cpu_total c c' delta a Ha) as H1.
  pose proof (charge_pid_total c c' k delta m pids Hroom Hnd Hk Hd) as H2.
  unfold cast in *. rewrite Zminus_mod, H1, H2, <- Zminus_mod. f_equal. case_decide; lia.
Qed.

Lemma wsub_range a b : 0 <= wsub a b <= umax 64.
Proof. by apply cast_range. Qed.

Lemma step_accounted c pids st e :
  (∀ m c k v, k ∈ pids → get_ptr (insert m c k v) c k = Some v) → NoDup pids →
  charged e ∈ pids → forgets e = false → array_get (CPU_TIME st) c ≠ None →
  unaccounted c pids (step st e) = unaccounted c pids st ∧
  array_get (CPU_TIME (step st e)) c ≠ None.
Proof.
  intros Hroom Hnd He Hf Hc.
  assert (Hcharge : ∀ k cpu delta, k ∈ pids → 0 <= delta <= umax 64 →
    cast 64 (cpu_total c (charge_cpu cpu delta (CPU_TIME st)) - pid_total c pids (charge_pid cpu k delta (PID_TIMES st)))
    = unaccounted c pids st).
  { intros. apply charge_unaccounted; auto. }
  unfold unaccounted at 1. destruct e as [now cpu p q tid|now p tid cpu|now cpu p tid dead]; simpl in *.
  - destruct (negb (p =? 0) && _); [|done]. destruct (get_ptr _ _ _); [|done]. simpl.
    split; [apply Hcharge; [done|apply wsub_range]|by apply charge_cpu_some].
  - unfold sample_tick. destruct (_ || _); [done|]. destruct (get_ptr _ _ _); simpl; [|done].
    split; [apply Hcharge; [done|apply wsub_range]|by apply charge_cpu_some].
  - apply negb_false_iff in Hf. rewrite Hf. destruct (negb (p =? 0) && _); [|done].
    destruct (get_ptr _ _ _); simpl; [|done].
    split; [apply Hcharge; [done|apply wsub_range]|by apply charge_cpu_some].
Qed.

(** As long as there is room in the map of the processes and no process is forgotten, the
    time of a CPU and the sum of its processes' times advance together (modulo [2^64]),
    whatever the sequence of context switches, ticks and thread exits on all CPUs, with
    processes of several threads too. *)
Lemma charges_balance c pids st trace :
  (∀ m c k v, k ∈ pids → get_ptr (insert m c k v) c k = Some v) → NoDup pids →
  Forall (λ e, charged e ∈ pids ∧ forgets e = false) trace →
  array_get (CPU_TIME st) c ≠ None →
  unaccounted c pids (run st trace) = unaccounted c pids st.
Proof.
  intros Hroom Hnd Ht. revert st. induction Ht as [|e trace [He Hf] Ht IH]; intros st Hc; [done|].
  destruct (step_accounted c pids st e Hroom Hnd He Hf Hc) as [Hst Hc'].
  change (run st (e :: trace)) with (run (step st e) trace). by rewrite IH.
Qed.

(** ** Processes of one thread *)

Definition cpu_of (e : Event) : Z :=
  match e with Switch _ c _ _ _ => c | Tick _ _ _ c => c | Exit _ c _ _ _ => c end.

Definition time_of (e : Event) : Z :=
  match e with Switch t _ _ _ _ => t | Tick t _ _ _ => t | Exit t _ _ _ _ => t end.

Definition tid_of (e : Event) : Z :=
  match e with Switch _ _ _ _ tid => tid | Tick _ _ tid _ => tid | Exit _ _ _ tid _ => tid end.

(** The process that has the CPU after the event. *)
Definition incoming (e : Event) : Z :=
  match e with Switch _ _ _ next _ => next | Tick _ p _ _ => p | Exit _ _ p _ _ => p end.

(** A schedule: the process each CPU runs, with the time of the event it was last seen at.
    After an exit nothing is known of the CPU until the next switch or tick. *)
Abbreviation schedule := (gmap Z (Z * Z)).

Definition after (cur : schedule) (e : Event) : schedule :=
  match e with
  | Switch now c _ next _ => <[c := (next, now)]> cur
  | Tick now p _ c => <[c := (p, now)]> cur
  | Exit _ c _ _ _ => delete c cur
  end.

(** The event comes from the process its CPU runs, which has a thread identifier unless it
    is the idle task; no other CPU runs that process, or the one that comes in. *)
Definition consistent (cur : schedule) (e : Event) : Prop :=
  (charged e ≠ 0 → tid_of e ≠ 0) ∧
  map_Forall (λ c x, (c = cpu_of e → x.1 = charged e) ∧
                     (c ≠ cpu_of e → x.1 ≠ 0 → x.1 ≠ charged e ∧ x.1 ≠ incoming e)) cur.

#[export] Instance consistent_dec cur e : Decision (consistent cur e).
Proof. unfold consistent. apply _. Defined.

(** The events of processes of one thread: the clock does not go back, and no process runs
    on two CPUs at once. *)
Inductive scheduled : Z → schedule → list Event → Prop :=
  | scheduled_nil now cur : scheduled now cur []
  | scheduled_cons now cur e trace :
      now <= time_of e <= umax 64 → consistent cur e →
      scheduled (time_of e) (after cur e) trace → scheduled now cur (e :: trace).

(** The time between two events of CPU [c] in which it ran a process that satisfies [P]. *)
Definition slice (c : Z) (P : Z → bool) (cur : schedule) (e : Event) : Z :=
  if cpu_of e =? c then
    match cur !! c with Some (q, since) => if P q then time_of e - since else 0 | None => 0 end
  else 0.

Fixpoint ran (c : Z) (P : Z → bool) (cur : schedule) (trace : list Event) : Z :=
  match trace with
  | [] => 0
  | e :: trace => slice c P cur e + ran c P (after cur e) trace
  end.

Definition is_process (p q : Z) : bool := q =? p.
Definition is_busy (q : Z) : bool := negb (q =? 0).

(** The maps as they are loaded. *)
Definition loaded (st : State) : Prop :=
  (∀ c p, get_ptr (PID_TIMES st) c p = None) ∧ (∀ c p, get_ptr (PID_LAST st) c p = None) ∧
  (∀ c, array_get (CPU_TIME st) c ≠ None → array_get (CPU_TIME st) c = Some 0).

Lemma after_other cur e c : cpu_of e ≠ c → after cur e !! c = cur !! c.
Proof.
  destruct e; simpl; intros Hc; [by apply lookup_insert_ne..|by apply lookup_delete_ne].
Qed.

Lemma after_same cur e : after cur e !! cpu_of e = None ∨ after cur e !! cpu_of e = Some (incoming e, time_of e).
Proof. destruct e; simpl; [right; apply lookup_insert_eq..|left; apply lookup_delete_eq]. Qed.

(** What ran fits in 64 bits. *)
Lemma ran_bound c P now cur trace :
  scheduled now cur trace → 0 <= now <= umax 64 →
  (∀ q s, cur !! c = Some (q, s) → 0 <= s <= now) →
  0 <= ran c P cur trace <= umax 64 - default now (snd <$> cur !! c).
Proof.
  intros Hs. induction Hs as [now cur|now cur e trace Ht He Hs IH]; intros Hnow Hcur; simpl.
  { destruct (cur !! c) as [[q s]|] eqn:E; simpl; [|lia]. specialize (Hcur q s eq_refl). lia. }
  unfold slice. destruct (Z.eqb_spec (cpu_of e) c) as [Hc|Hc].
  - subst c. assert (IH' : 0 <= ran (cpu_of e) P (after cur e) trace <= umax 64 - time_of e).
    { destruct (after_same cur e) as [E|E]; rewrite E in IH; simpl in IH; apply IH; try lia; try done.
      intros q s [= <- <-]. lia. }
    destruct (cur !! cpu_of e) as [[q s]|]; simpl; [|lia]. specialize (Hcur q s eq_refl).
    destruct (P q); lia.
  - rewrite (after_other cur e c Hc) in IH. specialize (IH ltac:(lia)).
    destruct (cur !! c) as [[q s]|]; simpl in *.
    + specialize (Hcur q s eq_refl). apply IH. intros ? ? [= <- <-]. lia.
    + specialize (IH ltac:(done)). lia.
Qed.

(** [PID_LAST] knows the processes that run, and no other. *)
Record knows (last : pcpu) (cur : schedule) : Prop := {
  knows_running c p s : p ≠ 0 → cur !! c = Some (p, s) → get_ptr last c p = Some s;
  knows_no_other p : p ≠ 0 → (∀ c s, cur !! c ≠ Some (p, s)) → ∀ c, get_ptr last c p = None;
}.

(** When the process of an event was last seen on its CPU; never for the idle task. *)
Definition seen_at (cur : schedule) (e : Event) : option Z :=
  if charged e =? 0 then None else snd <$> cur !! cpu_of e.

Lemma consistent_same cur e q s : consistent cur e → cur !! cpu_of e = Some (q, s) → q = charged e.
Proof. intros [_ H1] E. by apply (H1 _ _ E). Qed.

Lemma consistent_other cur e c q s :
  consistent cur e → cur !! c = Some (q, s) → c ≠ cpu_of e → q ≠ 0 → q ≠ charged e ∧ q ≠ incoming e.
Proof. intros [_ H1] E. by apply (H1 _ _ E). Qed.

Lemma knows_seen last cur e :
  knows last cur → consistent cur e → charged e ≠ 0 →
  get_ptr last (cpu_of e) (charged e) = seen_at cur e.
Proof.
  intros Hk He Hp. unfold seen_at. rewrite (proj2 (Z.eqb_neq _ 0)) by done.
  destruct (cur !! cpu_of e) as [[q s]|] eqn:E; simpl.
  - pose proof (consistent_same cur e q s He E). subst q. by apply (knows_running _ _ Hk).
  - apply (knows_no_other _ _ Hk); [done|]. intros c s Hc.
    destruct (decide (c = cpu_of e)) as [->|Hne]; [congruence|].
    by destruct (consistent_other cur e c (charged e) s He Hc Hne Hp).
Qed.

(** An event charges its process from the time it was last seen. *)
Definition charge_seen (cur : schedule) (e : Event) (st : State) : pcpu :=
  match seen_at cur e with
  | Some s => charge_pid (cpu_of e) (charged e) (wsub (time_of e) s) (PID_TIMES st)
  | None => PID_TIMES st
  end.

Lemma step_times st cur e :
  knows (PID_LAST st) cur → consistent cur e →
  PID_TIMES (step st e)
    = (if forgets e then remove (charge_seen cur e st) (charged e) else charge_seen cur e st) ∧
  CPU_TIME (step st e)
    = match seen_at cur e with
      | Some s => charge_cpu (cpu_of e) (wsub (time_of e) s) (CPU_TIME st)
      | None => CPU_TIME st
      end.
Proof.
  intros Hk He. unfold charge_seen. destruct (Z.eqb_spec (charged e) 0) as [Hp|Hp].
  - unfold seen_at. rewrite Hp. simpl. destruct e; simpl in *; subst; simpl; [done..|].
    by destruct (_ =? 0).
  - rewrite <- (knows_seen _ _ _ Hk He Hp). destruct He as [Htid _]. specialize (Htid Hp).
    destruct e; simpl in *; unfold sample_tick; rewrite (proj2 (Z.eqb_neq _ 0) Hp), (proj2 (Z.eqb_neq _ 0) Htid);
      simpl; destruct (get_ptr _ _ _); simpl; try done; by destruct (_ =? 0).
Qed.

Lemma get_drop last cpu p c q :
  get_ptr (match get_ptr last cpu p with Some _ => remove last p | None => last end) c q
  = if decide (q = p) then None else get_ptr last c q.
Proof.
  destruct (get_ptr last cpu p) eqn:E; [by rewrite get_remove|].
  case_decide; [subst; by eapply get_all_cpus|done].
Qed.

(** Other processes keep their entry; the process of the event and the one that comes in
    have one if and only if they have the CPU. *)
Lemma knows_after last last' cur e :
  knows last cur → consistent cur e →
  (∀ c p, p ≠ 0 → p ≠ charged e → p ≠ incoming e → get_ptr last' c p = get_ptr last c p) →
  (incoming e ≠ 0 → after cur e !! cpu_of e = None ∨
                    get_ptr last' (cpu_of e) (incoming e) = Some (time_of e)) →
  (∀ c, charged e ≠ 0 → after cur e !! cpu_of e = None ∨ charged e ≠ incoming e → get_ptr last' c (charged e) = None) →
  (after cur e !! cpu_of e = None → charged e = incoming e) →
  knows last' (after cur e).
Proof.
  intros Hk He Hother Hin Hout Heq. split.
  - intros c p s Hp Hc. destruct (decide (c = cpu_of e)) as [->|Hne].
    + destruct (after_same cur e) as [E|E]; rewrite E in Hc; [done|]. injection Hc as <- <-.
      destruct (Hin Hp) as [Hin'|]; [congruence|done].
    + rewrite after_other in Hc by done.
      destruct (consistent_other cur e c p s He Hc Hne Hp). rewrite Hother by done.
      by apply (knows_running _ _ Hk).
  - intros p Hp Hno c. destruct (decide (p = charged e)) as [->|Hne].
    + apply Hout; [done|]. destruct (after_same cur e) as [E|E]; [by left|right].
      intros E2. apply (Hno (cpu_of e) (time_of e)). congruence.
    + assert (p ≠ incoming e).
      { intros ->. destruct (after_same cur e) as [E|E]; [|by apply Hno in E].
        by apply Hne, eq_sym, Heq. }
      rewrite Hother by done. apply (knows_no_other _ _ Hk); [done|]. intros c' s Hc'.
      destruct (decide (c' = cpu_of e)) as [->|Hc].
      * by apply Hne, (consistent_same cur e p s He).
      * apply (Hno c' s). by rewrite after_other.
Qed.

Section Room.
Context (Hroom : ∀ m c k v, get_ptr (insert m c k v) c k = Some v).

Lemma knows_switch now cpu p next tid st cur :
  knows (PID_LAST st) cur → consistent cur (Switch now cpu p next tid) →
  knows (PID_LAST (step st (Switch now cpu p next tid))) (after cur (Switch now cpu p next tid)).
Proof.
  intros Hk He. pose proof (λ last, knows_after (PID_LAST st) last cur _ Hk He) as Hgen. simpl in *.
  destruct He as [Htid _]. simpl in Htid.
  destruct (Z.eqb_spec p 0) as [Hp|Hp]; simpl.
  + apply Hgen; [|by auto|by subst|by rewrite lookup_insert_eq].
    intros c q _ _ Hq. by apply get_insert_key.
  + rewrite (proj2 (Z.eqb_neq tid 0)) by auto. simpl.
    set (last := match get_ptr (PID_LAST st) cpu p with Some _ => remove (PID_LAST st) p | None => PID_LAST st end).
    replace (PID_LAST _) with last.
    2: { unfold last. by destruct (get_ptr (PID_LAST st) cpu p). }
    apply Hgen.
    * intros c q _ Hq Hn. rewrite get_insert_key by done. unfold last. by rewrite get_drop, decide_False.
    * auto.
    * intros c _ [E|Hn]; [by rewrite lookup_insert_eq in E|].
      rewrite get_insert_key by done. unfold last. by rewrite get_drop, decide_True.
    * by rewrite lookup_insert_eq.
Qed.

Lemma knows_tick now p tid cpu st cur :
  knows (PID_LAST st) cur → consistent cur (Tick now p tid cpu) →
  knows (PID_LAST (step st (Tick now p tid cpu))) (after cur (Tick now p tid cpu)).
Proof.
  intros Hk He. pose proof (λ last, knows_after (PID_LAST st) last cur _ Hk He) as Hgen. simpl in *.
  destruct He as [Htid _]. simpl in Htid. unfold sample_tick.
  destruct (Z.eqb_spec p 0) as [Hp|Hp]; simpl.
  { apply Hgen; [done|by subst|by subst|by rewrite lookup_insert_eq]. }
  rewrite (proj2 (Z.eqb_neq tid 0)) by auto. simpl.
  destruct (get_ptr (PID_LAST st) cpu p) as [t|] eqn:E; simpl; apply Hgen; try done.
  + intros c q _ Hq _. apply get_set_other. congruence.
  + intros _. right. apply get_set_same. congruence.
  + intros c _ [E2|Hn]; [by rewrite lookup_insert_eq in E2|done].
  + intros c q _ Hq _. by apply get_insert_key.
  + auto.
  + intros c _ [E2|Hn]; [by rewrite lookup_insert_eq in E2|done].
Qed.

Lemma knows_exit now cpu p tid dead st cur :
  knows (PID_LAST st) cur → consistent cur (Exit now cpu p tid dead) →
  knows (PID_LAST (step st (Exit now cpu p tid dead))) (after cur (Exit now cpu p tid dead)).
Proof.
  intros Hk He. pose proof (λ last, knows_after (PID_LAST st) last cur _ Hk He) as Hgen. simpl in *.
  destruct He as [Htid _]. simpl in Htid.
  set (last := match get_ptr (PID_LAST st) cpu p with Some _ => remove (PID_LAST st) p | None => PID_LAST st end).
  assert (Hl : ∀ c q, q ≠ p → get_ptr last c q = get_ptr (PID_LAST st) c q).
  { intros c q Hq. unfold last. by rewrite get_drop, decide_False. }
  assert (Hlp : ∀ c, get_ptr last c p = None).
  { intros c. unfold last. by rewrite get_drop, decide_True. }
  destruct (Z.eqb_spec p 0) as [Hp|Hp]; simpl.
  + destruct (dead =? 0); simpl; apply Hgen; rewrite ?lookup_delete_eq; auto; try done.
    intros c q _ Hq _. rewrite get_remove. by rewrite decide_False.
  + rewrite (proj2 (Z.eqb_neq tid 0)) by auto. simpl.
    replace (PID_LAST _) with (if dead =? 0 then last else remove last p).
    2: { unfold last. by destruct (get_ptr (PID_LAST st) cpu p), (dead =? 0). }
    apply Hgen; rewrite ?lookup_delete_eq; auto.
    * intros c q _ Hq _. destruct (dead =? 0); [by apply Hl|]. rewrite get_remove, decide_False by done. by apply Hl.
    * intros c _ _. destruct (dead =? 0); [done|]. rewrite get_remove. by case_decide.
Qed.

Lemma knows_step st cur e :
  knows (PID_LAST st) cur → consistent cur e → knows (PID_LAST (step st e)) (after cur e).
Proof. destruct e; [apply knows_switch|apply knows_tick|apply knows_exit]. Qed.

(** A charge adds its duration to one slot. *)
Lemma charge_pid_slot c c' p k delta m x :
  0 <= delta <= umax 64 → default 0 (get_ptr m c p) = cast 64 x →
  default 0 (get_ptr (charge_pid c' k delta m) c p)
  = cast 64 (x + if decide (c = c' ∧ p = k) then delta else 0).
Proof.
  intros Hd Hx. unfold charge_pid. destruct (get_ptr m c' k) as [t|] eqn:E; case_decide as Hc.
  - destruct Hc as [-> ->]. rewrite get_set_same by congruence. rewrite E in Hx. simpl in *. subst t.
    unfold wadd, cast. by rewrite Zplus_mod_idemp_l.
  - rewrite get_set_other by (intros [= -> ->]; by apply Hc). by rewrite Z.add_0_r.
  - destruct Hc as [-> ->]. rewrite Hroom. rewrite E in Hx. simpl in *.
    unfold cast in *. rewrite <- Zplus_mod_idemp_l, <- Hx. simpl. symmetry. by apply cast_small.
  - rewrite Z.add_0_r, <- Hx. destruct (decide (p = k)) as [->|Hp]; [|by rewrite get_insert_key].
    assert (c ≠ c') by (intros ->; by apply Hc).
    rewrite (get_all_cpus m c' c k E). by rewrite (get_insert_fresh m c' k delta c).
Qed.

Lemma charge_cpu_slot c c' delta a x :
  array_get a c = Some (cast 64 x) →
  array_get (charge_cpu c' delta a) c = Some (cast 64 (x + if decide (c = c') then delta else 0)).
Proof.
  intros Hx. unfold charge_cpu. case_decide as Hc.
  - subst c'. rewrite Hx, array_get_set, decide_True, Hx by done. simpl.
    unfold wadd, cast. by rewrite Zplus_mod_idemp_l.
  - rewrite Z.add_0_r. destruct (array_get a c'); [|done]. by rewrite array_get_set, decide_False.
Qed.

Lemma cast_wsub x a b : cast 64 (x + wsub a b) = cast 64 (x + (a - b)).
Proof. unfold wsub, cast. by rewrite Zplus_mod_idemp_r. Qed.

Lemma seen_slice cur e c P :
  consistent cur e → P 0 = false →
  slice c P cur e
  = match seen_at cur e with
    | Some s => if decide (c = cpu_of e) then if P (charged e) then time_of e - s else 0 else 0
    | None => 0
    end.
Proof.
  intros He H0'. unfold slice, seen_at. destruct (Z.eqb_spec (cpu_of e) c) as [<-|Hc].
  - destruct (cur !! cpu_of e) as [[q s]|] eqn:E; simpl; [|by destruct (_ =? 0)].
    rewrite (consistent_same cur e q s He E). destruct (Z.eqb_spec (charged e) 0) as [->|]; [by rewrite H0'|].
    by rewrite decide_True.
  - case_match; [|done]. by rewrite decide_False by congruence.
Qed.

Lemma run_times st cur now trace c p x :
  knows (PID_LAST st) cur → scheduled now cur trace → p ≠ 0 →
  Forall (λ e, forgets e = true → charged e ≠ p) trace →
  default 0 (get_ptr (PID_TIMES st) c p) = cast 64 x →
  default 0 (get_ptr (PID_TIMES (run st trace)) c p) = cast 64 (x + ran c (is_process p) cur trace).
Proof.
  intros Hk Hs Hp Hf. revert st x Hk. induction Hs as [now cur|now cur e trace Ht He Hs IH]; intros st x Hk Hx.
  { by rewrite Z.add_0_r. }
  apply Forall_cons in Hf as [Hfe Hf]. change (run st (e :: trace)) with (run (step st e) trace).
  simpl ran. rewrite Z.add_assoc. apply IH; [done|by apply knows_step|].
  destruct (step_times st cur e Hk He) as [-> _].
  assert (Hc : default 0 (get_ptr (charge_seen cur e st) c p) = cast 64 (x + slice c (is_process p) cur e)).
  { rewrite seen_slice by (done || by apply Z.eqb_neq). unfold charge_seen, is_process.
    destruct (seen_at cur e) as [s|]; [|by rewrite Z.add_0_r].
    rewrite (charge_pid_slot _ _ _ _ _ _ x) by (done || apply wsub_range).
    destruct (decide (c = cpu_of e)) as [->|Hc]; [|by rewrite decide_False by (by intros [? _])].
    destruct (Z.eqb_spec (charged e) p) as [Hq|Hne]; [|by rewrite decide_False by (by intros [_ E]; apply Hne)].
    rewrite decide_True by (by rewrite Hq). apply cast_wsub. }
  destruct (forgets e) eqn:E; [|done]. rewrite get_remove, decide_False; [done|].
  intros ->. by apply Hfe.
Qed.

Lemma run_cpu_time st cur now trace c x :
  knows (PID_LAST st) cur → scheduled now cur trace →
  array_get (CPU_TIME st) c = Some (cast 64 x) →
  array_get (CPU_TIME (run st trace)) c = Some (cast 64 (x + ran c is_busy cur trace)).
Proof.
  intros Hk Hs. revert st x Hk. induction Hs as [now cur|now cur e trace Ht He Hs IH]; intros st x Hk Hx.
  { by rewrite Z.add_0_r. }
  change (run st (e :: trace)) with (run (step st e) trace).
  simpl ran. rewrite Z.add_assoc. apply IH; [by apply knows_step|].
  destruct (step_times st cur e Hk He) as [_ ->]. rewrite seen_slice by done. unfold is_busy.
  destruct (seen_at cur e) as [s|] eqn:E; [|by rewrite Z.add_0_r].
  rewrite (charge_cpu_slot _ _ _ _ x) by done. f_equal.
  unfold seen_at in E. destruct (charged e =? 0); [done|]. simpl. case_decide; [apply cast_wsub|done].
Qed.

(** C10: while every process has one thread, no nanosecond is charged twice or lost.  From
    freshly loaded maps with room for the processes, after any sequence of context
    switches, ticks and exits on all CPUs in which the clock does not go back and no
    process runs on two CPUs at once: the time of a process on a CPU is exactly the time
    between the events of that CPU in which the process had it (unless it was forgotten by
    its exit), and the time of a CPU is exactly the time it had a process other than the
    idle task.  What passes between an exit and the next event of its CPU belongs to no
    process. *)
Theorem times_accounted st trace :
  loaded st → scheduled 0 ∅ trace →
  (∀ c p, p ≠ 0 → Forall (λ e, forgets e = true → charged e ≠ p) trace →
     default 0 (get_ptr (PID_TIMES (run st trace)) c p) = ran c (is_process p) ∅ trace) ∧
  (∀ c, array_get (CPU_TIME st) c ≠ None →
     array_get (CPU_TIME (run st trace)) c = Some (ran c is_busy ∅ trace)).
Proof.
  intros (Htimes & Hlast & Hcpu) Hs.
  assert (Hk : knows (PID_LAST st) ∅) by (split; [by intros c p s _ E; rewrite lookup_empty in E|by intros; apply Hlast]).
  assert (Hb : ∀ c P, cast 64 (ran c P ∅ trace) = ran c P ∅ trace).
  { intros c P. apply cast_small. assert (0 <= umax 64) by done.
    pose proof (ran_bound c P 0 ∅ trace Hs ltac:(lia)) as Hr. rewrite lookup_empty in Hr. simpl in Hr.
    specialize (Hr ltac:(done)). lia. }
  split.
  - intros c p Hp Hf. rewrite (run_times st ∅ 0 trace c p 0); try done; [apply Hb|]. by rewrite Htimes.
  - intros c Hc. rewrite (run_cpu_time st ∅ 0 trace c 0); try done; [f_equal; apply Hb|]. by apply Hcpu.
Qed.
End Room.

(** ** Threads of one process on two CPUs *)

Lemma switch_in st t c p tid :
  step st (Switch t c 0 p tid) = with_times (PID_TIMES st) (insert (PID_LAST st) c p t) (CPU_TIME st) st.
Proof. reflexivity. Qed.

Lemma switch_out st t c p tid l :
  p ≠ 0 → tid ≠ 0 → get_ptr (PID_LAST st) c p = Some l →
  step st (Switch t c p 0 tid)
  = with_times (charge_pid c p (wsub t l) (PID_TIMES st)) (insert (remove (PID_LAST st) p) c 0 t)
               (charge_cpu c (wsub t l) (CPU_TIME st)) st.
Proof.
  intros Hp Ht Hl. unfold step, try_sched_switch.
  rewrite (proj2 (Z.eqb_neq p 0)), (proj2 (Z.eqb_neq tid 0)) by done. simpl. by rewrite Hl.
Qed.

Lemma array_get_charge_other c c' delta a : c ≠ c' → array_get (charge_cpu c' delta a) c = array_get a c.
Proof.
  intros Hc. unfold charge_cpu. destruct (array_get a c'); [|done].
  rewrite array_get_set. by rewrite decide_False.
Qed.

(** C40: the switch-out of one thread removes the entry of its process for every CPU, and
    the next switch-in creates it again with a zero in the slot of the CPU where another
    thread of the process still runs.  When that thread leaves its CPU at time [t4] it is
    charged the whole time since boot, [t4], instead of the time it ran. *)
Theorem second_thread_charged_since_boot st p c0 c1 t0 t1 t2 t3 t4 busy :
  (∀ m c v, get_ptr (insert m c p v) c p = Some v) →
  p ≠ 0 → c0 ≠ c1 → 0 <= t4 <= umax 64 →
  get_ptr (PID_TIMES st) c1 p = None → array_get (CPU_TIME st) c1 = Some busy →
  let st' := run st [Switch t0 c0 0 p 1; Switch t1 c1 0 p 2; Switch t2 c0 p 0 1;
                     Switch t3 c0 0 p 1; Switch t4 c1 p 0 2] in
  get_ptr (PID_TIMES st') c1 p = Some t4 ∧ array_get (CPU_TIME st') c1 = Some (wadd busy t4).
Proof.
  intros Hroom Hp Hc Ht4 Hnone Hbusy. cbv zeta. unfold run. cbn [fold_left].
  rewrite !switch_in. cbn [PID_TIMES PID_LAST CPU_TIME with_times].
  set (L1 := insert (PID_LAST st) c0 p t0). set (L2 := insert L1 c1 p t1).
  assert (H1 : get_ptr L2 c0 p = Some t0).
  { assert (Hall : get_ptr L1 c1 p ≠ None).
    { intros E. apply (get_all_cpus L1 c1 c0) in E. unfold L1 in E. by rewrite Hroom in E. }
    unfold L2. rewrite get_insert_other by done. apply Hroom. }
  erewrite (switch_out _ t2 c0 p 1) by (try exact H1; done).
  cbn [PID_TIMES PID_LAST CPU_TIME with_times].
  set (L3 := insert (remove L2 p) c0 0 t2).
  assert (H3 : ∀ c, get_ptr L3 c p = None).
  { intros c. unfold L3. rewrite get_insert_key by done. rewrite get_remove. by rewrite decide_True. }
  assert (H4 : get_ptr (insert L3 c0 p t3) c1 p = Some 0).
  { apply get_insert_fresh; auto. }
  erewrite (switch_out _ t4 c1 p 2) by (try exact H4; done).
  cbn [PID_TIMES PID_LAST CPU_TIME with_times].
  assert (Hd : wsub t4 0 = t4). { unfold wsub. rewrite Z.sub_0_r. by apply cast_small. }
  rewrite Hd. assert (H5 : get_ptr (charge_pid c0 p (wsub t2 t0) (PID_TIMES st)) c1 p = Some 0).
  { unfold charge_pid. pose proof (get_all_cpus (PID_TIMES st) c1 c0 p Hnone) as Hn0. rewrite Hn0.
    apply get_insert_fresh; auto. }
  split.
  - unfold charge_pid at 1. rewrite H5, get_set_same by congruence. f_equal.
    unfold wadd. by apply cast_small.
  - unfold charge_cpu at 1. rewrite array_get_charge_other, Hbusy by done.
    rewrite array_get_set, decide_True by done.
    by rewrite array_get_charge_other, Hbusy.
Qed.

(** ** Reports of the 10 ms tick *)

(** The CPUs the first loop reads: their socket (from 1) and whether they were active. *)
Fixpoint mapped_cpus (n : nat) (cpu : Z) (st : State) : list (Z * bool) :=
  match n with
  | O => []
  | S n =>
      match array_get (CPU_SNAPSHOT st) cpu, array_get (CPU_TIME st) cpu, array_get (CPU_TO_SOCKET st) cpu with
      | Some old, Some new, Some socket =>
          if socket =? 0 then []
          else (socket, negb (wsub new old =? 0)) :: mapped_cpus n (cpu + 1) st
      | _, _, _ => mapped_cpus n (cpu + 1) st
      end
  end.

(** The CPUs of a socket, and how many of them were active. *)
Definition cpus_of (s : Z) (cpus : list (Z * bool)) : list (Z * bool) :=
  List.filter (λ x, sat_sub x.1 1 =? s) cpus.

Definition active_count (s : Z) (cpus : list (Z * bool)) : Z :=
  Z.of_nat (length (List.filter snd (cpus_of s cpus))).

(** The events of the sockets from [s] on: up to the first one without a CPU, an idle event
    when none of its CPUs was active and an activation event when exactly one was. *)
Fixpoint reports (n : nat) (s : Z) (cpus : list (Z * bool)) : list CpuStateEvent :=
  match n with
  | O => []
  | S n =>
      match cpus_of s cpus with
      | [] => []
      | _ :: _ =>
          (if active_count s cpus =? 0 then [mkEvent s IdleEvent]
           else if active_count s cpus =? 1 then [mkEvent s ActivationEvent] else [])
          ++ reports n (s + 1) cpus
      end
  end.

Definition tick_cpus (st : State) : list (Z * bool) := mapped_cpus (Z.to_nat MAX_CPU) 0 st.

Definition bump (active : list (option Z)) (x : Z * bool) : list (option Z) :=
  alter (λ a, Some (default 0 a + Z.b2z x.2)) (Z.to_nat (sat_sub x.1 1)) active.

Lemma count_active_fold n cpu st active :
  count_active n cpu st active = fold_left bump (mapped_cpus n cpu st) active.
Proof.
  revert cpu active. induction n as [|n IH]; intros cpu active; simpl; [done|].
  destruct (array_get _ cpu) as [old|]; [|apply IH].
  destruct (array_get _ cpu) as [new|]; [|apply IH].
  destruct (array_get _ cpu) as [socket|]; [|apply IH].
  destruct (socket =? 0); [done|]. simpl. rewrite IH. f_equal. unfold bump. simpl.
  apply list_alter_ext; [|done]. intros a _. unfold count_cpu. simpl.
  destruct (wsub new old =? 0); simpl; [by rewrite Z.add_0_r|done].
Qed.

Lemma fold_bump_lookup l active s :
  fold_left bump l active !! s
  = (λ a, match cpus_of (Z.of_nat s) l with
          | [] => a
          | _ :: _ => Some (default 0 a + active_count (Z.of_nat s) l)
          end) <$> (active !! s).
Proof.
  revert active. induction l as [|[k b] l IH]; intros active.
  - simpl. by destruct (active !! s).
  - change (fold_left bump ((k, b) :: l) active) with (fold_left bump l (bump active (k, b))).
    rewrite IH. unfold bump. simpl fst. simpl snd. unfold active_count, cpus_of. cbn [List.filter fst].
    destruct (Z.eqb_spec (sat_sub k 1) (Z.of_nat s)) as [Hk|Hk].
    + replace (Z.to_nat (sat_sub k 1)) with s by lia. rewrite list_lookup_alter_eq.
      destruct (active !! s) as [a|]; [|done]. simpl. f_equal.
      destruct (List.filter _ l) as [|y k']; destruct b; simpl; f_equal; lia.
    + rewrite list_lookup_alter_ne; [done|]. unfold sat_sub in *. lia.
Qed.

Lemma report_reports cpus active n s r :
  (∀ r e, ring_events (ring_submit r e) = ring_events r ++ [e]) →
  length active = n →
  (∀ i, (i < n)%nat → active !! i = Some (match cpus_of (s + Z.of_nat i) cpus with
                                          | [] => None
                                          | _ :: _ => Some (active_count (s + Z.of_nat i) cpus)
                                          end)) →
  ring_events (report s active r) = ring_events r ++ reports n s cpus.
Proof.
  intros Hring. revert s r active. induction n as [|n IH]; intros s r active Hlen Hact.
  - destruct active; [|done]. simpl. by rewrite app_nil_r.
  - destruct active as [|a active]; [done|]. pose proof (Hact 0%nat ltac:(lia)) as H0'.
    simpl in H0'. rewrite Z.add_0_r in H0'. injection H0' as ->.
    assert (Htail : ∀ r, ring_events (report (s + 1) active r) = ring_events r ++ reports n (s + 1) cpus).
    { intros r'. apply IH; [by injection Hlen|]. intros i Hi.
      specialize (Hact (S i) ltac:(lia)). simpl in Hact. rewrite Hact.
      by replace (s + Z.of_nat (S i)) with (s + 1 + Z.of_nat i) by lia. }
    simpl. destruct (cpus_of s cpus) as [|x l]; simpl; [by rewrite app_nil_r|].
    rewrite Htail. destruct (_ =? 0); [by rewrite Hring, <- app_assoc|].
    destruct (_ =? 1); [by rewrite Hring, <- app_assoc|done].
Qed.

(** C35: when the ring buffer has room, a tick reports, for each socket in turn up to the
    first one without a CPU, that it is idle when none of its CPUs ran since the previous
    tick and that it is in activation when exactly one did; nothing else is reported. *)
Theorem tick_reports st :
  (∀ r e, ring_events (ring_submit r e) = ring_events r ++ [e]) →
  ring_events (CPU_STATE_EVENTS (cpu_state_tick st))
  = ring_events (CPU_STATE_EVENTS st) ++ reports (Z.to_nat MAX_SOCKET) 0 (tick_cpus st).
Proof.
  intros Hring. unfold cpu_state_tick, tick_cpus. cbn [with_tick CPU_STATE_EVENTS].
  rewrite count_active_fold. generalize (mapped_cpus (Z.to_nat MAX_CPU) 0 st) as cpus.
  generalize (Z.to_nat MAX_SOCKET) as n. intros n cpus.
  assert (Hlen : ∀ l a, length (fold_left bump l a) = length a).
  { induction l as [|x l IH]; intros a; simpl; [done|]. rewrite IH. apply length_alter. }
  apply report_reports; [done|by rewrite Hlen, length_replicate|].
  intros i Hi. rewrite fold_bump_lookup, lookup_replicate_2 by done. simpl. done.
Qed.

Lemma copy_times_get n cpu times snapshot c :
  array_get (copy_times n cpu times snapshot) c
  = if (cpu <=? c) && (c <? cpu + Z.of_nat n) then
      match array_get times c with Some t => (λ _, t) <$> array_get snapshot c | None => array_get snapshot c end
    else array_get snapshot c.
Proof.
  revert cpu snapshot. induction n as [|n IH]; intros cpu snapshot; cbn [copy_times].
  - destruct (Z.leb_spec cpu c), (Z.ltb_spec c (cpu + Z.of_nat 0)); simpl; done || lia.
  - rewrite IH.
    assert (Hset : array_get (match array_get times cpu with Some t => array_set snapshot cpu t | None => snapshot end) c
      = if decide (c = cpu) then
          match array_get times c with Some t => (λ _, t) <$> array_get snapshot c | None => array_get snapshot c end
        else array_get snapshot c).
    { case_decide as Hc; [subst c|]; destruct (array_get times cpu); rewrite ?array_get_set;
        rewrite ?decide_True by done; rewrite ?decide_False by done; done. }
    rewrite Hset. case_decide as Hc.
    + subst c. destruct (Z.leb_spec (cpu + 1) cpu), (Z.leb_spec cpu cpu),
        (Z.ltb_spec cpu (cpu + Z.of_nat (S n))); simpl; done || lia.
    + destruct (Z.leb_spec (cpu + 1) c), (Z.leb_spec cpu c), (Z.ltb_spec c (cpu + 1 + Z.of_nat n)),
        (Z.ltb_spec c (cpu + Z.of_nat (S n))); simpl; done || lia.
Qed.

(** No CPU is active when the snapshot agrees with the times. *)
Lemma mapped_cpus_quiet n cpu st :
  (∀ c old new, cpu <= c < cpu + Z.of_nat n → array_get (CPU_SNAPSHOT st) c = Some old →
                array_get (CPU_TIME st) c = Some new → old = new) →
  Forall (λ x, x.2 = false) (mapped_cpus n cpu st).
Proof.
  revert cpu. induction n as [|n IH]; intros cpu Hq; cbn [mapped_cpus]; [constructor|].
  assert (Hn : Forall (λ x, x.2 = false) (mapped_cpus n (cpu + 1) st)).
  { apply IH. intros c old new Hc. apply Hq. lia. }
  destruct (array_get (CPU_SNAPSHOT st) cpu) as [old|] eqn:E1; [|done].
  destruct (array_get (CPU_TIME st) cpu) as [new|] eqn:E2; [|done].
  destruct (array_get (CPU_TO_SOCKET st) cpu) as [socket|]; [|done].
  destruct (socket =? 0); constructor; [|done]. simpl.
  rewrite (Hq cpu old new) by (done || lia). unfold wsub. by rewrite Z.sub_diag.
Qed.

Lemma active_count_quiet s cpus : Forall (λ x, x.2 = false) cpus → active_count s cpus = 0.
Proof.
  intros Hq. unfold active_count, cpus_of. induction Hq as [|[k b] l Hb Hl IH]; [done|].
  simpl in Hb. subst b. cbn [List.filter]. by destruct (_ =? s).
Qed.

Lemma reports_quiet n s cpus e :
  Forall (λ x, x.2 = false) cpus → e ∈ reports n s cpus → event_type e = IdleEvent.
Proof.
  intros Hq. revert s. induction n as [|n IH]; intros s; cbn [reports]; [by intros ?%elem_of_nil|].
  destruct (cpus_of s cpus); [by intros ?%elem_of_nil|]. rewrite active_count_quiet by done. simpl.
  intros [->|He]%elem_of_cons; [done|by eapply IH].
Qed.

(** A second tick that fires before any time is charged reports every socket it
    reports as idle, however busy its CPUs are.  ([bpf.rs] attaches the tick to one CPU of
    every socket, and each of its runs reads and overwrites the times of all of them.) *)
Theorem second_tick_reports_idle st e :
  (∀ r e, ring_events (ring_submit r e) = ring_events r ++ [e]) →
  let st1 := cpu_state_tick st in
  let st2 := cpu_state_tick st1 in
  ∃ new, ring_events (CPU_STATE_EVENTS st2) = ring_events (CPU_STATE_EVENTS st1) ++ new ∧
         (e ∈ new → event_type e = IdleEvent) ∧
         (cpus_of 0 (tick_cpus st1) ≠ [] → mkEvent 0 IdleEvent ∈ new).
Proof.
  intros Hring. cbv zeta. rewrite (tick_reports (cpu_state_tick st) Hring). eexists. split; [reflexivity|].
  assert (Hq : Forall (λ x, x.2 = false) (tick_cpus (cpu_state_tick st))).
  { apply mapped_cpus_quiet. intros c old new Hc.
    unfold cpu_state_tick. cbn [with_tick CPU_SNAPSHOT CPU_TIME]. rewrite copy_times_get.
    destruct (Z.leb_spec 0 c); [|lia]. destruct (Z.ltb_spec c (0 + Z.of_nat (Z.to_nat MAX_CPU))); [|lia].
    cbn [andb]. destruct (array_get (CPU_TIME st) c); [|done].
    destruct (array_get (CPU_SNAPSHOT st) c); simpl; congruence. }
  split; [by apply reports_quiet|]. revert Hq. generalize (tick_cpus (cpu_state_tick st)) as cpus.
  intros cpus Hq H0'. change (Z.to_nat MAX_SOCKET) with (S 63). cbn [reports].
  destruct (cpus_of 0 cpus) eqn:E; [done|].
  rewrite active_count_quiet by done. left.
Qed.
End Programs.

(** ** Maps without a size limit *)

(** The slot of a CPU in the slots of a key; a slot that was never written is zero. *)
Definition slot (v : option (gmap Z Z)) (c : Z) : option Z := (λ s : gmap Z Z, default 0 (s !! c)) <$> v.

Definition list_get (a : list Z) (i : Z) : option Z := if 0 <=? i then a !! Z.to_nat i else None.

#[local] Instance unbounded : Maps := {|
  pcpu := gmap Z (gmap Z Z);
  get_ptr m c k := slot (m !! k) c;
  set_ptr m c k v := alter (λ s : gmap Z Z, <[c := v]> s) k m;
  insert m c k v := <[k := <[c := v]> (default ∅ (m !! k))]> m;
  remove m k := delete k m;
  array := list Z;
  array_get := list_get;
  array_set a i v := if 0 <=? i then <[Z.to_nat i := v]> a else a;
  ring := list CpuStateEvent;
  ring_submit r e := r ++ [e];
  ring_events r := r |}.

Lemma slot_alter (m : gmap Z (gmap Z Z)) c k v c' k' :
  slot (alter (λ s : gmap Z Z, <[c := v]> s) k m !! k') c'
  = if decide (k' = k) then (λ s, if decide (c' = c) then v else s) <$> slot (m !! k') c'
    else slot (m !! k') c'.
Proof.
  case_decide as Hk; [subst k'|by rewrite lookup_alter_ne].
  rewrite lookup_alter_eq. destruct (m !! k) as [s|]; [|done]. simpl. f_equal. case_decide as Hc.
  - subst c'. by rewrite lookup_insert_eq.
  - by rewrite lookup_insert_ne.
Qed.

Lemma slot_insert (m : gmap Z (gmap Z Z)) c k v c' k' :
  slot (<[k := <[c := v]> (default ∅ (m !! k))]> m !! k') c'
  = if decide (k' = k) then Some (if decide (c' = c) then v else default 0 (slot (m !! k) c'))
    else slot (m !! k') c'.
Proof.
  case_decide as Hk; [subst k'|by rewrite lookup_insert_ne].
  rewrite lookup_insert_eq. simpl. f_equal. case_decide as Hc.
  - subst c'. by rewrite lookup_insert_eq.
  - rewrite lookup_insert_ne by done. by destruct (m !! k).
Qed.

Lemma slot_delete (m : gmap Z (gmap Z Z)) k c k' :
  slot (delete k m !! k') c = if decide (k' = k) then None else slot (m !! k') c.
Proof. case_decide as Hk; [subst; by rewrite lookup_delete_eq|by rewrite lookup_delete_ne]. Qed.

Lemma slot_None (m : gmap Z (gmap Z Z)) c c' k : slot (m !! k) c = None → slot (m !! k) c' = None.
Proof. by destruct (m !! k). Qed.

Lemma list_get_set a i v j :
  list_get (if 0 <=? i then <[Z.to_nat i := v]> a else a) j
  = if decide (j = i) then (λ _, v) <$> list_get a j else list_get a j.
Proof.
  unfold list_get. destruct (Z.leb_spec 0 i); case_decide as Hj.
  - subst j. destruct (Z.leb_spec 0 i); [|lia].
    destruct (a !! Z.to_nat i) eqn:E; simpl.
    + apply list_lookup_insert_eq. by eapply lookup_lt_Some.
    + apply lookup_ge_None in E. apply lookup_ge_None. by rewrite length_insert.
  - destruct (Z.leb_spec 0 j); [|done]. rewrite list_lookup_insert_ne by lia. done.
  - subst j. destruct (Z.leb_spec 0 i); [lia|done].
  - done.
Qed.

#[local] Instance unbounded_laws : @MapLaws unbounded.
Proof.
  split; intros m.
  - intros c k v Hk. refine (eq_trans (slot_alter m c k v c k) _). rewrite decide_True by done.
    change (get_ptr m c k) with (slot ((m : gmap Z (gmap Z Z)) !! k) c) in Hk.
    destruct (slot _ c) eqn:E; [simpl; by rewrite decide_True|by destruct (Hk eq_refl)].
  - intros c k v c' k' Hne. refine (eq_trans (slot_alter m c k v c' k') _).
    case_decide; [|done]. subst k'.
    change (get_ptr m c' k) with (slot ((m : gmap Z (gmap Z Z)) !! k) c').
    destruct (slot _ c'); [|done]. simpl. rewrite decide_False by congruence. done.
  - intros k c k'. apply slot_delete.
  - intros c k v c' k' Hk. refine (eq_trans (slot_insert m c k v c' k') _). by rewrite decide_False.
  - intros c k v c' Hc Hk. refine (eq_trans (slot_insert m c k v c' k) _).
    rewrite decide_True, decide_False by done.
    change (get_ptr m c' k) with (slot ((m : gmap Z (gmap Z Z)) !! k) c').
    change (get_ptr m c k) with (slot ((m : gmap Z (gmap Z Z)) !! k) c) in Hk.
    destruct (slot _ c') eqn:E; [done|]. by destruct (Hk (slot_None m c' c k E)).
  - intros c k v. left. refine (eq_trans (slot_insert m c k v c k) _). by rewrite !decide_True.
  - intros c k v c' Hc Hk _. refine (eq_trans (slot_insert m c k v c' k) _).
    rewrite decide_True, decide_False by done. by rewrite (slot_None m c c' k Hk).
  - intros c c' k. apply slot_None.
  - intros i v j. apply list_get_set.
  - auto.
Qed.

Lemma insert_room (m : pcpu) c k v : get_ptr (insert m c k v) c k = Some v.
Proof. refine (eq_trans (slot_insert m c k v c k) _). by rewrite !decide_True. Qed.

Definition empty_state (cpus : list Z) : State :=
  mkState (∅ : gmap Z (gmap Z Z)) (∅ : gmap Z (gmap Z Z)) [0; 0] [0; 0] [] cpus.

Definition one_thread_trace : list Event :=
  [Switch 100 0 0 7 0; Switch 110 1 0 8 0; Tick 150 7 1 0; Switch 180 0 7 0 1; Switch 200 1 8 7 1;
   Switch 250 0 0 8 0; Tick 260 7 1 1; Switch 300 1 7 0 1; Exit 350 0 8 1 1; Switch 400 0 8 0 1].

Lemma one_thread_scheduled : scheduled 0 ∅ one_thread_trace.
Proof.
  unfold one_thread_trace.
  repeat (apply scheduled_cons;
          [by split|apply (bool_decide_unpack (consistent _ _)); vm_compute; exact I|]).
  apply scheduled_nil.
Qed.

Lemma times_accounted_witness :
  let st := run (empty_state [1; 1]) one_thread_trace in
  (default 0 (get_ptr (PID_TIMES st) 0 7) = 80 ∧ default 0 (get_ptr (PID_TIMES st) 1 7) = 100) ∧
  array_get (CPU_TIME st) 0 = Some 180 ∧ array_get (CPU_TIME st) 1 = Some 190.
Proof.
  destruct (times_accounted insert_room (empty_state [1; 1]) one_thread_trace) as [Hp Hc].
  - split; [done|]. split; [done|]. intros c. change (array_get _ c) with (list_get [0; 0] c).
    unfold list_get. destruct (0 <=? c); [|done]. by destruct (Z.to_nat c) as [|[|n]].
  - exact one_thread_scheduled.
  - cbv zeta. split; split.
    + rewrite Hp; [vm_compute; reflexivity|done|]. repeat constructor; done.
    + rewrite Hp; [vm_compute; reflexivity|done|]. repeat constructor; done.
    + rewrite Hc; [vm_compute; reflexivity|done].
    + rewrite Hc; [vm_compute; reflexivity|done].
Defined.

Definition two_threads : State := run (empty_state [1; 1])
  [Switch 1000 0 0 7 1; Switch 1010 1 0 7 2; Switch 1020 0 7 0 1; Switch 1030 0 0 7 1;
   Switch 1040 1 7 0 2].

Lemma second_thread_charged_since_boot_witness :
  get_ptr (PID_TIMES two_threads) 1 7 = Some 1040 ∧ array_get (CPU_TIME two_threads) 1 = Some 1040.
Proof.
  apply (second_thread_charged_since_boot (empty_state [1; 1]) 7 0 1 1000 1010 1020 1030 1040 0);
    try done.
  intros. apply insert_room.
Defined.

(** Two CPUs of one socket, one of which ran. *)
Definition busy_state : State :=
  mkState (∅ : gmap Z (gmap Z Z)) (∅ : gmap Z (gmap Z Z)) [50; 0] [0; 0] [] [1; 1].

Lemma tick_reports_witness :
  ring_events (CPU_STATE_EVENTS (cpu_state_tick busy_state))
  = [mkEvent 0 ActivationEvent].
Proof.
  refine (eq_trans (tick_reports busy_state _) _); [done|].
  vm_compute. reflexivity.
Defined.

Lemma first_tick_reports :
  ring_events (CPU_STATE_EVENTS (cpu_state_tick busy_state))
  = [mkEvent 0 ActivationEvent].
Proof. vm_compute. reflexivity. Qed.

Lemma second_tick_reports_idle_witness :
  ∃ new, ring_events (CPU_STATE_EVENTS (cpu_state_tick (cpu_state_tick busy_state)))
         = [mkEvent 0 ActivationEvent] ++ new ∧ mkEvent 0 IdleEvent ∈ new.
Proof.
  destruct (second_tick_reports_idle busy_state (mkEvent 0 IdleEvent))
    as (new & Hn & _ & Hi); [done|].
  exists new. split; [exact (eq_trans Hn (f_equal (λ l, l ++ new) first_tick_reports))|].
  apply Hi. vm_compute. done.
Defined.
