(* ===== verification/Bpf.v ===== *)
(** * Loading the eBPF programs and reading their events ([bpf.rs], [sensors/mod.rs])

    At start-up user space loads the four programs, attaches the state tick to one CPU of
    each socket and tells the kernel side which socket each CPU belongs to; at each refresh
    it drains the events of the ring buffer. *)

From S2P Require Import Prelude Text Env Simulated Common.

Definition SAMPLE_TICK_HZ : Z := 200.
Definition CPU_STATE_TICK_HZ : Z := 100.

(** ** Encoding of the events

    [CpuStateEvent] is [repr(C)]: a [u16], two bytes of padding and a [u32]. *)

Definition size_of_event : nat := 8.

(** What the kernel side writes. *)
Definition encode_event (e : CpuStateEvent) : list Z :=
  [socket_id e mod 256; socket_id e / 256; 0; 0; discriminant (event_type e); 0; 0; 0].

(** [read_unaligned]; a discriminant outside of the enumeration is undefined behaviour. *)
Definition decode_event (bs : list Z) : outcome CpuStateEvent :=
  match bs with
  | [b0; b1; _; _; d0; d1; d2; d3] =>
      let d := d0 + 256 * (d1 + 256 * (d2 + 256 * d3)) in
      if d =? 0 then Done (mkEvent (b0 + 256 * b1) ActivationEvent)
      else if d =? 1 then Done (mkEvent (b0 + 256 * b1) IdleEvent)
      else Panic
  | _ => Panic
  end.

Section Bpf.
Context `{Os, !Aya}.

(** [while let Some(item) = buf.next()], for at most [fuel] items. *)
Fixpoint drain (fuel : nat) (buf : RingBuf) (events : list CpuStateEvent) : io (list CpuStateEvent) :=
  match fuel with
  | O => mret events
  | S fuel =>
      item ← effect (ring_next buf);
      match item with
      | None => mret events
      | Some item =>
          events ← (if decide (length item = size_of_event) then
                      event ← lift (decode_event item); mret (events ++ [event])
                    else mret events);
          drain fuel buf events
      end
  end.

(** The waiting items and the end of the buffer: fuel enough when nothing is added
    meanwhile. *)
Definition drain_cpu_state_events (buf : RingBuf) : io (list CpuStateEvent) :=
  λ w, drain (S (length (ring_items buf w))) buf [] w.

Definition take_cpu_state_buffer (ebpf : Ebpf) : io (option RingBuf) :=
  effect (take_cpu_state_events ebpf).

(** ** Loading *)

(** Calls that return [Err] end the function: [?]. *)
Definition attempt {A B} (m : io (option A)) (f : A → io (option B)) : io (option B) :=
  r ← m; match r with Some a => f a | None => mret None end.

(** [ebpf.program_mut(name).unwrap().try_into()?], then [load()?]. *)
Definition prepare {B} (ebpf : Ebpf) (name : string) (f : io (option B)) : io (option B) :=
  typed ← lift (unwrap (has_program ebpf name));
  if (typed : bool) then attempt (effect (load_program ebpf name)) (λ _, f) else mret None.

Fixpoint attach_each (ebpf : Ebpf) (name : string) (points : list AttachPoint) : io (option unit) :=
  match points with
  | [] => mret (Some tt)
  | p :: points => attempt (effect (attach_program ebpf name p)) (λ _, attach_each ebpf name points)
  end.

(** The socket of a CPU, 0 when its file cannot be read or parsed. *)
Definition socket_of_cpu (cpu : Z) : io Z :=
  content ← read_file ("/sys/devices/system/cpu/cpu" +:+ show_uint cpu +:+ "/topology/physical_package_id");
  mret (default 0 (content ≫= λ s, parse_uint 32 (trim s))).

(** Attach the state tick to the CPUs whose socket was not seen before. *)
Fixpoint attach_state_tick (ebpf : Ebpf) (seen_sockets cpus : list Z) : io (option unit) :=
  match cpus with
  | [] => mret (Some tt)
  | cpu :: cpus =>
      socket_id ← socket_of_cpu cpu;
      if decide (socket_id ∈ seen_sockets) then attach_state_tick ebpf seen_sockets cpus
      else attempt (effect (attach_program ebpf "cpu_state_tick" (CpuClock cpu CPU_STATE_TICK_HZ)))
                   (λ _, attach_state_tick ebpf (socket_id :: seen_sockets) cpus)
  end.

(** [load]; [None] for [Err]. *)
Definition load : io (option Ebpf) :=
  attempt (effect ebpf_load) (λ ebpf,
  prepare ebpf "context_switch_tracker" (
    attempt (effect (attach_program ebpf "context_switch_tracker" (RawTracePointAt "sched_switch"))) (λ _,
  prepare ebpf "process_exit_cleanup" (
    attempt (effect (attach_program ebpf "process_exit_cleanup" (TracePointAt "sched" "sched_process_exit"))) (λ _,
  prepare ebpf "sample_tick" (
    attempt (effect online_cpus) (λ cpus,
    attempt (attach_each ebpf "sample_tick" ((λ cpu, CpuClock cpu SAMPLE_TICK_HZ) <$> cpus)) (λ _,
  prepare ebpf "cpu_state_tick" (
    attempt (effect online_cpus) (λ cpus,
    attempt (attach_state_tick ebpf [] cpus) (λ _,
  mret (Some ebpf)))))))))))).

(** [read_physical_package_id]. *)
Definition read_physical_package_id (cpu : Z) : io (option Z) :=
  content ← read_file ("/sys/devices/system/cpu/cpu" +:+ show_uint cpu +:+ "/topology/physical_package_id");
  mret (content ≫= λ s, parse_uint 16 (trim s)).

(** [populate_cpu_to_socket_map]; the sockets are numbered from 1 for the kernel side,
    [socket + 1] being computed on 16 bits. *)
Fixpoint populate_cpus `{Profile} (map : SocketArray) (cpus : list Z) : io (option unit) :=
  match cpus with
  | [] => mret (Some tt)
  | cpu :: cpus =>
      if socket_array_len map <=? cpu then populate_cpus map cpus
      else
        attempt (read_physical_package_id cpu) (λ socket,
        id ← lift (uadd 16 socket 1);
        attempt (effect (socket_array_set map cpu id)) (λ _, populate_cpus map cpus))
  end.

Definition populate_cpu_to_socket_map `{Profile} (ebpf : Ebpf) : io (option unit) :=
  match cpu_to_socket_map ebpf with
  | Some map => attempt (effect online_cpus) (populate_cpus map)
  | None => mret None
  end.

(** ** Draining *)

Lemma decode_encode e : 0 <= socket_id e < 2 ^ 16 → decode_event (encode_event e) = Done e.
Proof.
  intros Hs. unfold encode_event, decode_event.
  assert (He : socket_id e mod 256 + 256 * (socket_id e / 256) = socket_id e)
    by (pose proof (Z.div_mod (socket_id e) 256); lia).
  destruct e as [s []]; simpl in *; by rewrite He.
Qed.

Lemma drain_all `{!RingLaws} fuel buf items events acc w :
  Forall2 (λ i e, decode_event i = Done e) items events →
  ring_items buf w = items → (length items < fuel)%nat →
  ∃ w', drain fuel buf acc w = Done (acc ++ events, w') ∧ ring_items buf w' = [].
Proof.
  intros Hd. revert fuel acc w. induction Hd as [|i e items events He Hd IH]; intros fuel acc w Hw Hf;
    (destruct fuel as [|fuel]; [simpl in Hf; lia|]); simpl drain; unfold mbind at 1, io_bind at 1, effect.
  - rewrite (ring_next_empty buf w Hw). exists w. by rewrite app_nil_r.
  - destruct (ring_next_item buf w i items Hw) as (w1 & Hn & Hi). rewrite Hn. simpl.
    rewrite decide_True.
    + unfold mbind at 1, io_bind at 1, lift. rewrite He. simpl.
      destruct (IH fuel (acc ++ [e]) w1 Hi) as (w2 & Hr & Hw2); [simpl in Hf; lia|].
      exists w2. rewrite <- app_assoc in Hr. done.
    + unfold decode_event in He. do 8 (destruct i as [|? i]; [done|]). by destruct i.
Qed.

Lemma decode_encoded events :
  Forall (λ e, 0 <= socket_id e < 2 ^ 16) events →
  Forall2 (λ i e, decode_event i = Done e) (encode_event <$> events) events.
Proof.
  induction 1 as [|e l He Hl IH]; [constructor|].
  rewrite fmap_cons. constructor; [by apply decode_encode|done].
Qed.

(** C34: draining terminates and returns exactly the events the kernel side encoded, in the
    order it wrote them, leaving the ring buffer empty. *)
Theorem drain_returns_events `{!RingLaws} buf w events :
  Forall (λ e, 0 <= socket_id e < 2 ^ 16) events →
  ring_items buf w = encode_event <$> events →
  ∃ w', drain_cpu_state_events buf w = Done (events, w') ∧ ring_items buf w' = [].
Proof.
  intros Hs Hw. unfold drain_cpu_state_events. apply (drain_all _ _ (ring_items buf w) events []).
  - rewrite Hw. by apply decode_encoded.
  - done.
  - lia.
Qed.
End Bpf.

(** ** Example on the simulated host *)

Definition sample_events : list CpuStateEvent := [mkEvent 0 IdleEvent; mkEvent 300 ActivationEvent].

#[local] Instance host : Os := simulated no_files.
#[local] Instance host_aya : Aya := simulated_aya no_files (encode_event <$> sample_events).

Lemma host_items (b : RingBuf) (t : Z) : ring_items b t = drop (Z.to_nat t) (encode_event <$> sample_events).
Proof. reflexivity. Qed.

Lemma host_next (b : RingBuf) (t : Z) :
  ring_next b t = match drop (Z.to_nat t) (encode_event <$> sample_events) with
                   | [] => (None, t)
                   | i :: _ => (Some i, Z.max 0 t + 1)
                   end.
Proof. reflexivity. Qed.

#[local] Instance host_ring : RingLaws.
Proof.
  split.
  - intros b t Hw. rewrite host_items in Hw. rewrite host_next, Hw. reflexivity.
  - intros b t i l Hw. rewrite host_items in Hw. rewrite host_next, Hw.
    exists (Z.max 0 t + 1). split; [reflexivity|]. rewrite host_items.
    replace (Z.to_nat (Z.max 0 t + 1)) with (Z.to_nat t + 1)%nat by lia.
    by rewrite <- drop_drop, Hw.
Qed.

Definition sample_ring : RingBuf := tt.

Lemma drain_returns_events_witness :
  ∃ w', drain_cpu_state_events sample_ring 0 = Done (sample_events, w') ∧ ring_items sample_ring w' = [].
Proof.
  apply (drain_returns_events sample_ring 0 sample_events); [|reflexivity].
  repeat constructor; done.
Defined.
