(* ===== verification/Topology.v ===== *)
(** * The topology ([sensors/mod.rs], Topology; [sensors/powercap_rapl.rs], its reader)

    The topology owns the sockets, the process tracker, the host-wide buffers and the
    handles of the eBPF maps.  [refresh] is the program's heart: it reads every counter
    once, in a fixed order, the estimates of the sockets first because the powers use
    them.  This file models its structure, its refresh and the host-wide metrics; the
    attribution of power to cores and processes is in [Attribution]. *)

From S2P Require Import Prelude Floats Text FloatText Units Env Simulated Records Energy Common.
From S2P Require Import Domain Core Socket ProcTracker Bpf.

Section Topology.
Context `{Profile, Layout, Os, !FileSystem, !Procfs, !PerfEvents, !Sysinfo, !Aya}.

Record Topology := mkTopology {
  sockets : list CPUSocket;
  proc_tracker : ProcessTracker;
  stat_buffer : list CPUStat;
  record_buffer : list Record_;
  buffer_max_kbytes : Z;
  domains_names : option (list string);
  sensor_data : gmap string string;
  ebpf : option Ebpf;
  cpu_state_buffer : option RingBuf;
  activation_idle_buffer : gmap Z (list CpuStateEvent);
  cpu_time_map : option CpuArray;
  cpu_time_buffer : list MultiValuedRecord;
}.

(** ** Field updates *)

Definition set_sockets (x : list CPUSocket) (t : Topology) : Topology :=
  mkTopology x (proc_tracker t) (stat_buffer t) (record_buffer t) (buffer_max_kbytes t)
    (domains_names t) (sensor_data t) (ebpf t) (cpu_state_buffer t) (activation_idle_buffer t)
    (cpu_time_map t) (cpu_time_buffer t).

Definition set_proc_tracker (x : ProcessTracker) (t : Topology) : Topology :=
  mkTopology (sockets t) x (stat_buffer t) (record_buffer t) (buffer_max_kbytes t)
    (domains_names t) (sensor_data t) (ebpf t) (cpu_state_buffer t) (activation_idle_buffer t)
    (cpu_time_map t) (cpu_time_buffer t).

Definition set_stat_buffer (x : list CPUStat) (t : Topology) : Topology :=
  mkTopology (sockets t) (proc_tracker t) x (record_buffer t) (buffer_max_kbytes t)
    (domains_names t) (sensor_data t) (ebpf t) (cpu_state_buffer t) (activation_idle_buffer t)
    (cpu_time_map t) (cpu_time_buffer t).

Definition set_record_buffer (x : list Record_) (t : Topology) : Topology :=
  mkTopology (sockets t) (proc_tracker t) (stat_buffer t) x (buffer_max_kbytes t)
    (domains_names t) (sensor_data t) (ebpf t) (cpu_state_buffer t) (activation_idle_buffer t)
    (cpu_time_map t) (cpu_time_buffer t).

(** [set_domains_names]. *)
Definition set_domains_names (x : list string) (t : Topology) : Topology :=
  mkTopology (sockets t) (proc_tracker t) (stat_buffer t) (record_buffer t) (buffer_max_kbytes t)
    (Some x) (sensor_data t) (ebpf t) (cpu_state_buffer t) (activation_idle_buffer t)
    (cpu_time_map t) (cpu_time_buffer t).

Definition set_sensor_data (x : gmap string string) (t : Topology) : Topology :=
  mkTopology (sockets t) (proc_tracker t) (stat_buffer t) (record_buffer t) (buffer_max_kbytes t)
    (domains_names t) x (ebpf t) (cpu_state_buffer t) (activation_idle_buffer t)
    (cpu_time_map t) (cpu_time_buffer t).

Definition set_activation_idle_buffer (x : gmap Z (list CpuStateEvent)) (t : Topology) : Topology :=
  mkTopology (sockets t) (proc_tracker t) (stat_buffer t) (record_buffer t) (buffer_max_kbytes t)
    (domains_names t) (sensor_data t) (ebpf t) (cpu_state_buffer t) x
    (cpu_time_map t) (cpu_time_buffer t).

Definition set_cpu_time_buffer (x : list MultiValuedRecord) (t : Topology) : Topology :=
  mkTopology (sockets t) (proc_tracker t) (stat_buffer t) (record_buffer t) (buffer_max_kbytes t)
    (domains_names t) (sensor_data t) (ebpf t) (cpu_state_buffer t) (activation_idle_buffer t)
    (cpu_time_map t) x.

(** ** Construction *)

(** A failure to fill the map of the sockets is only logged. *)
Definition new (sensor_data : gmap string string) : io Topology :=
  ebpf ← load;
  _ ← match ebpf with
      | Some e => populate_cpu_to_socket_map e
      | None => mret None
      end;
  cpu_state_buffer ← match ebpf with Some e => take_cpu_state_buffer e | None => mret None end;
  cpu_time_map ← match ebpf with Some e => effect (take_cpu_time e) | None => mret None end;
  proc_tracker ← ProcTracker.new 5 ebpf;
  mret {| sockets := []; proc_tracker := proc_tracker; stat_buffer := []; record_buffer := [];
          buffer_max_kbytes := 1; domains_names := None; sensor_data := sensor_data; ebpf := ebpf;
          cpu_state_buffer := cpu_state_buffer; activation_idle_buffer := ∅;
          cpu_time_map := cpu_time_map; cpu_time_buffer := [] |}.

(** A clone has no eBPF handle and a fresh process snapshot; its cores have no counters. *)
Definition clone_socket (s : CPUSocket) : CPUSocket := set_cpu_cores (Core.clone <$> cpu_cores s) s.

Definition clone (t : Topology) : io Topology :=
  pt ← ProcTracker.clone (proc_tracker t);
  mret (mkTopology (clone_socket <$> sockets t) pt (stat_buffer t) (record_buffer t)
          (buffer_max_kbytes t) (domains_names t) (sensor_data t) None None
          (activation_idle_buffer t) None (cpu_time_buffer t)).

(** The digits at the end of a CPU's name, [trim_start_matches] of everything else; the
    index when they are not a [u16]. *)
Fixpoint skip_non_digits (s : string) : string :=
  match s with
  | String c s' => if is_digit c then s else skip_non_digits s'
  | EmptyString => s
  end.

Definition cpu_id (idx : Z) (name : string) : Z := default idx (parse_uint 16 (skip_non_digits name)).

(** [(0_u16..).zip(...)], on a host with less than [2 ^ 16] CPUs. *)
Definition generate_core (get_info : Z → option (gmap string string)) (idx : Z) (c : SysCpu) : io CPUCore :=
  let id := cpu_id idx (c_name c) in
  info ← lift (unwrap (get_info id));
  Core.new id (<["brand"%string := c_brand c]>
              (<["vendor_id"%string := c_vendor_id c]>
              (<["name"%string := c_name c]>
              (<["frequency"%string := show_uint (c_frequency c)]> info)))).

Definition generate_cpu_cores : io (option (list CPUCore)) :=
  sysinfo_system ← effect new_all;
  cpuinfo ← effect cpu_info;
  get_info ← lift (unwrap cpuinfo);
  cores ← io_map (λ x : Z * SysCpu, generate_core get_info x.1 x.2)
            (imap (λ i c, (Z.of_nat i, c)) (cpus sysinfo_system));
  mret (Some cores).

Definition has_socket (socket_id : Z) (t : Topology) : bool :=
  existsb (λ s, Socket.id s =? socket_id) (sockets t).

Definition safe_add_socket (socket_id : Z) (domains : list Domain)
    (attributes : list (list (gmap string string))) (counter_uj_path : string)
    (buffer_max_kbytes : Z) (sensor_data : gmap string string) (t : Topology)
    : Topology * option CPUSocket :=
  if has_socket socket_id t then (t, None)
  else
    let socket := Socket.new socket_id domains attributes counter_uj_path buffer_max_kbytes sensor_data in
    (set_sockets (sockets t ++ [socket]) t, Some socket).

Definition safe_insert_socket (socket : CPUSocket) (t : Topology) : Topology :=
  if has_socket (Socket.id socket) t then t else set_sockets (sockets t ++ [socket]) t.

(** The names, each once, in the order of [str]: the hash map the source collects them in
    only removes duplicates. *)
Definition build_domains_names (t : Topology) : Topology :=
  let names := mjoin ((λ s, Domain.name <$> domains s) <$> sockets t) in
  set_domains_names (sort_by str_leb (remove_dups names)) t.

Definition safe_add_domain_to_socket (socket_id domain_id : Z) (name uj_counter : string)
    (buffer_max_kbytes : Z) (sensor_data : gmap string string) (t : Topology) : Topology :=
  build_domains_names (set_sockets
    ((λ s, if Socket.id s =? socket_id then
             safe_add_domain (Domain.new domain_id name uj_counter buffer_max_kbytes sensor_data) s
           else s) <$> sockets t) t).

(** One core goes to the first socket of its physical id, or else to the first socket. *)
Definition add_to_socket (socket_id : Z) (c : CPUCore) (l : list CPUSocket) : outcome (list CPUSocket) :=
  match l with
  | [] => Panic
  | _ :: _ =>
      let i := default 0%nat (fst <$> list_find (λ s, Socket.id s = socket_id) l) in
      Done (alter (add_cpu_core c) i l)
  end.

Definition add_core (l : list CPUSocket) (c : CPUCore) : outcome (list CPUSocket) :=
  physical_id ← unwrap (Core.attributes c !! "physical id"%string);
  socket_id ← unwrap (parse_uint 16 physical_id);
  add_to_socket socket_id c l.

(** [while let Some(c) = cores.pop()]: from the last core to the first. *)
Definition add_cpu_cores (t : Topology) : io Topology :=
  cores ← generate_cpu_cores;
  cores ← lift (unwrap cores);
  l ← lift (foldM add_core (sockets t) (rev cores));
  mret (set_sockets l t).

(** ** Refresh *)

Definition refresh_core_idle_records (t : Topology) : io Topology :=
  l ← io_map (λ s, cores ← io_map Core.refresh_record (cpu_cores s); mret (set_cpu_cores cores s))
        (sockets t);
  mret (set_sockets l t).

(** [entry(e.socket_id).or_insert(vec![]).push(e)]. *)
Definition push_event (b : gmap Z (list CpuStateEvent)) (e : CpuStateEvent) : gmap Z (list CpuStateEvent) :=
  <[socket_id e := default [] (b !! socket_id e) ++ [e]]> b.

Definition refresh_activation_idle_records (t : Topology) : io Topology :=
  match cpu_state_buffer t with
  | Some buffer =>
      events ← drain_cpu_state_events buffer;
      mret (set_activation_idle_buffer (fold_left push_event events (activation_idle_buffer t)) t)
  | None => mret t
  end.

(** Returns and removes the events of a socket. *)
Definition get_activation_idle_records (socket : Z) (t : Topology) : Topology * list CpuStateEvent :=
  (set_activation_idle_buffer (delete socket (activation_idle_buffer t)) t,
   default [] (activation_idle_buffer t !! socket)).

(** The events of each socket, in order. *)
Fixpoint take_idle_records (ids : list Z) (t : Topology) : Topology * list (list CpuStateEvent) :=
  match ids with
  | [] => (t, [])
  | id :: ids =>
      let '(t, r) := get_activation_idle_records id t in
      let '(t, rs) := take_idle_records ids t in
      (t, r :: rs)
  end.

(** The refresh of one socket and its domains. *)
Definition refresh_socket (s : CPUSocket) (records : list CpuStateEvent) : io CPUSocket :=
  s ← Socket.refresh_activation_idle_records records s;
  let s := distribute_background_to_domains s in
  s ← Socket.refresh_record s;
  s ← Socket.refresh_stats s;
  ds ← io_map Domain.refresh_record (domains s);
  mret (set_domains ds s).

Definition refresh_procs (t : Topology) : io Topology :=
  let pt := proc_tracker t in
  sys ← effect (sys_refresh_processes (sysinfo pt));
  let pt := set_sysinfo sys pt in
  current_procs ← io_map (λ p, times ← get_process_core_times (p_pid p) pt; new_process p times)
                    (processes sys);
  pt ← io_fold (λ pt p,
         r ← add_process_record p pt;
         match r.2 with inl _ => mret r.1 | inr _ => lift Panic end) pt current_procs;
  mret (set_proc_tracker pt t).

(** [for _ in 0..nb_to_delete]: one more than the other buffers. *)
Definition clean_old_cpu_time_records (t : Topology) : outcome Topology :=
  match cpu_time_buffer t with
  | [] => Done t
  | _ :: _ =>
      limit ← limit_bytes (buffer_max_kbytes t);
      let n := evictions limit size_MultiValuedRecord (Z.of_nat (length (cpu_time_buffer t))) in
      Done (set_cpu_time_buffer (remove_first (Z.to_nat n) (cpu_time_buffer t)) t)
  end.

Definition refresh_cpu_time_record (t : Topology) : io Topology :=
  match cpu_time_map t with
  | Some map =>
      values ← io_map (λ i, v ← effect (array_get map i); mret (show_uint (default 0 v)))
                 (seqZ 0 (nb_cores (proc_tracker t)));
      let units := replicate (Z.to_nat (nb_cores (proc_tracker t))) Numeric in
      now ← current_system_time_since_epoch;
      lift (clean_old_cpu_time_records
              (set_cpu_time_buffer (cpu_time_buffer t ++ [mkMultiValuedRecord now values units]) t))
  | None => mret t
  end.

Definition get_rapl_psys_energy_microjoules (t : Topology) : io (option Record_) :=
  match sensor_data t !! "psys"%string with
  | Some psys =>
      content ← read_file (psys +:+ "/energy_uj");
      match content with
      | Some value =>
          now ← current_system_time_since_epoch;
          mret (Some (mkRecord now value MicroJoule))
      | None => mret None
      end
  | None => mret None
  end.

(** [total += val] on [i128] when the record's value parses. *)
Definition add_record_value (total : Z) (r : option Record_) : outcome Z :=
  match r ≫= λ r, parse_int 128 (trim (r_value r)) with
  | Some val =>
      let total := total + val in
      if (- 2 ^ 127 <=? total) && (total <=? 2 ^ 127 - 1) then Done total
      else if overflow_checks then Panic
      else Done ((total + 2 ^ 127) mod 2 ^ 128 - 2 ^ 127)
  | None => Done total
  end.

(** A socket's package and its domains named dram. *)
Definition add_socket_energy (total : Z) (s : CPUSocket) : io Z :=
  r ← Socket.read_record s;
  total ← lift (add_record_value total r);
  io_fold (λ total d,
    if decide (Domain.name d = "dram"%string) then
      dr ← Domain.read_record d;
      lift (add_record_value total dr)
    else mret total) total (domains s).

(** [RecordReader for Topology]: psys when it can be read, or else packages and memory. *)
Definition read_record (t : Topology) : io (Record_ + string) :=
  psys ← get_rapl_psys_energy_microjoules t;
  match psys with
  | Some psys_record => mret (inl psys_record)
  | None =>
      total ← io_fold add_socket_energy 0 (sockets t);
      now ← current_system_time_since_epoch;
      mret (inl (mkRecord now (show_int total) MicroJoule))
  end.

(** The size is compared on 16 bits: [curr_size as u16]. *)
Definition clean_old_records (t : Topology) : outcome Topology :=
  match record_buffer t with
  | [] => Panic
  | _ :: _ =>
      limit ← limit_bytes (buffer_max_kbytes t);
      let len := Z.of_nat (length (record_buffer t)) in
      let n := if limit <? cast 16 (size_Record * len) then
                 (* the subtraction is on [usize]: [curr_size >= curr_size as u16] *)
                 let size_diff := size_Record * len - limit in
                 if size_Record <? size_diff then f32_ratio size_diff size_Record else 0
               else 0 in
      Done (set_record_buffer (remove_first (from_1_to n) (record_buffer t)) t)
  end.

Definition refresh_record (t : Topology) : io Topology :=
  r ← read_record t;
  let t := match r with
           | inl record => set_record_buffer (record_buffer t ++ [record]) t
           | inr _ => t
           end in
  match record_buffer t with
  | [] => mret t
  | _ :: _ => lift (clean_old_records t)
  end.

Definition get_records_passive (t : Topology) : list Record_ :=
  (λ r, mkRecord (r_timestamp r) (r_value r) MicroJoule) <$> record_buffer t.

Definition read_stats : io (option CPUStat) :=
  stats ← read_kernel_stats;
  mret (from_procfs_cputime ∘ ks_total <$> stats).

Definition clean_old_stats (t : Topology) : outcome Topology :=
  match stat_buffer t with
  | [] => Panic
  | _ :: _ =>
      b ← clean_back (buffer_max_kbytes t) size_CPUStat (stat_buffer t);
      Done (set_stat_buffer b t)
  end.

Definition refresh_stats (t : Topology) : io Topology :=
  stats ← read_stats;
  match stats with
  | Some stats => lift (clean_old_stats (set_stat_buffer (stats :: stat_buffer t) t))
  | None => mret t
  end.

Definition get_stats_diff (t : Topology) : outcome (option CPUStat) :=
  Records.get_stats_diff (stat_buffer t).

(** The events are distributed before the sockets are refreshed. *)
Definition refresh (t : Topology) : io Topology :=
  t ← refresh_activation_idle_records t;
  let socket_ids := Socket.id <$> sockets t in
  let '(t, idle_records) := take_idle_records socket_ids t in
  l ← io_map (λ x : CPUSocket * list CpuStateEvent, refresh_socket x.1 x.2) (zip (sockets t) idle_records);
  let t := set_sockets l t in
  pt ← ProcTracker.refresh (proc_tracker t);
  t ← refresh_core_idle_records (set_proc_tracker pt t);
  t ← refresh_procs t;
  t ← refresh_cpu_time_record t;
  t ← refresh_record t;
  refresh_stats t.

(** ** Structure *)

(** What identifies a domain and a socket, and where they read their counters. *)
Definition domain_key (d : Domain) : Z * string * gmap string string :=
  (Domain.id d, Domain.name d, Domain.sensor_data d).

Definition socket_key (s : CPUSocket) : Z * gmap string string * list (Z * string * gmap string string) :=
  (Socket.id s, Socket.sensor_data s, domain_key <$> domains s).

Definition skeleton (t : Topology) : list (Z * gmap string string * list (Z * string * gmap string string)) :=
  socket_key <$> sockets t.

(** Socket ids are distinct, and so are the domain ids of each socket. *)
Definition wf_structure (t : Topology) : Prop :=
  NoDup (Socket.id <$> sockets t) ∧ Forall (λ s, NoDup (Domain.id <$> domains s)) (sockets t).

Lemma domain_ids s : Domain.id <$> domains s = (λ x, x.1.1) <$> (socket_key s).2.
Proof. unfold socket_key. simpl. by rewrite <- list_fmap_compose. Qed.

Lemma wf_structure_skeleton t t' : skeleton t' = skeleton t → wf_structure t → wf_structure t'.
Proof.
  unfold wf_structure, skeleton. intros Hk.
  assert (Hids : Socket.id <$> sockets t' = Socket.id <$> sockets t).
  { change Socket.id with (fst ∘ fst ∘ socket_key). rewrite !(list_fmap_compose socket_key). by rewrite Hk. }
  rewrite Hids. intros [Hn Hd]. split; [done|].
  rewrite Forall_forall in Hd |- *. intros s' Hs'. rewrite domain_ids.
  assert (Hin : socket_key s' ∈ (socket_key <$> sockets t)) by (rewrite <- Hk; by apply list_elem_of_fmap_2).
  apply list_elem_of_fmap in Hin as (s & -> & Hs). rewrite <- domain_ids. by apply Hd.
Qed.

Lemma has_socket_spec i t : has_socket i t = true ↔ i ∈ (Socket.id <$> sockets t).
Proof.
  unfold has_socket. rewrite existsb_exists, list_elem_of_fmap. split.
  - intros (s & Hin & He%Z.eqb_eq). exists s. split; [by symmetry|by apply list_elem_of_In].
  - intros (s & -> & Hin). exists s. split; [by apply list_elem_of_In|apply Z.eqb_refl].
Qed.

Lemma insert_socket_wf s t :
  wf_structure t → NoDup (Domain.id <$> domains s) → has_socket (Socket.id s) t = false →
  wf_structure (set_sockets (sockets t ++ [s]) t).
Proof.
  intros [Hn Hd] Hs Hno. unfold wf_structure. cbn [sockets set_sockets].
  rewrite fmap_app. split.
  - apply NoDup_app. split; [done|]. split; [|apply NoDup_singleton].
    intros x Hx ->%list_elem_of_singleton. apply has_socket_spec in Hx. congruence.
  - apply Forall_app. split; [done|]. by constructor.
Qed.

Lemma safe_add_domain_ids d s :
  NoDup (Domain.id <$> domains s) → NoDup (Domain.id <$> domains (safe_add_domain d s)).
Proof.
  intros Hs. unfold safe_add_domain. destruct (existsb _ _) eqn:E; [done|]. simpl.
  rewrite fmap_app. apply NoDup_app. split; [done|]. split; [|apply NoDup_singleton].
  intros x Hx ->%list_elem_of_singleton. apply list_elem_of_fmap in Hx as (d' & He & Hin).
  apply not_true_iff_false in E. apply E, existsb_exists. exists d'.
  split; [by apply list_elem_of_In|]. by apply Z.eqb_eq.
Qed.

Lemma safe_add_domain_id d s : Socket.id (safe_add_domain d s) = Socket.id s.
Proof. unfold safe_add_domain. by destruct (existsb _ _). Qed.

Lemma add_domain_wf t t' f :
  wf_structure t → sockets t' = f <$> sockets t →
  (∀ s, Socket.id (f s) = Socket.id s ∧
        (NoDup (Domain.id <$> domains s) → NoDup (Domain.id <$> domains (f s)))) →
  wf_structure t'.
Proof.
  unfold wf_structure. intros [Hn Hd] -> Hf. split.
  - rewrite <- list_fmap_compose. erewrite list_fmap_ext; [exact Hn|]. intros i s _. apply Hf.
  - apply Forall_fmap. eapply Forall_impl; [exact Hd|]. intros s Hs. by apply Hf.
Qed.

Lemma alter_fmap_id {A B} (f : A → A) (g : A → B) (i : nat) (l : list A) :
  (∀ x, g (f x) = g x) → g <$> alter f i l = g <$> l.
Proof.
  intros Hg. revert i. induction l as [|x l IH]; intros [|i]; simpl; try done.
  - by rewrite Hg.
  - f_equal. apply IH.
Qed.

Lemma add_core_skeleton l c l' : add_core l c = Done l' → socket_key <$> l' = socket_key <$> l.
Proof.
  unfold add_core. intros (p & _ & (i & _ & Ha)%bind_Done_inv)%bind_Done_inv.
  unfold add_to_socket in Ha. destruct l as [|s l]; [done|]. injection Ha as <-.
  by apply (alter_fmap_id (add_cpu_core c)).
Qed.

Lemma io_map_skeleton {A B K} (f : A → io B) (ka : A → K) (kb : B → K) l w k w' :
  (∀ x w1 y w2, f x w1 = Done (y, w2) → kb y = ka x) →
  io_map f l w = Done (k, w') → kb <$> k = ka <$> l.
Proof.
  intros Hf Hm. apply (io_map_Forall2 f (λ x y, kb y = ka x)) in Hm; [|eauto].
  induction Hm as [|x y l k Hxy Hm IH]; [done|]. by rewrite !fmap_cons, Hxy, IH.
Qed.

Lemma domain_refresh_key d w d' w' : Domain.refresh_record d w = Done (d', w') → domain_key d' = domain_key d.
Proof.
  unfold Domain.refresh_record. intros (r & w1 & _ & Hr)%io_bind_inv.
  set (e := match r with Some _ => _ | None => d end) in *.
  assert (He : domain_key e = domain_key d) by (unfold e; by destruct r).
  destruct (Domain.record_buffer e) eqn:E; [by injection Hr as <- _|].
  apply lift_inv in Hr as [Hr _]. unfold Domain.clean_old_records in Hr. rewrite E in Hr.
  apply bind_Done_inv in Hr as (b & _ & [= <-]). done.
Qed.

Lemma socket_refresh_record_key s w s' w' :
  Socket.refresh_record s w = Done (s', w') → socket_key s' = socket_key s.
Proof.
  unfold Socket.refresh_record. intros (r & w1 & _ & Hr)%io_bind_inv.
  set (e := match r with Some _ => _ | None => s end) in *.
  assert (He : socket_key e = socket_key s) by (unfold e; by destruct r). rewrite <- He.
  destruct (Socket.record_buffer e) eqn:E; [by injection Hr as <- _|].
  apply lift_inv in Hr as [Hr _]. unfold Socket.clean_old_records in Hr. rewrite E in Hr.
  apply bind_Done_inv in Hr as (b & _ & Hr).
  cbn [Socket.activation_idle_buffer Socket.set_record_buffer] in Hr.
  destruct (Socket.activation_idle_buffer e); [by injection Hr as <-|].
  apply bind_Done_inv in Hr as (b' & _ & [= <-]). done.
Qed.

Lemma socket_estimates_key records s w s' w' :
  Socket.refresh_activation_idle_records records s w = Done (s', w') → socket_key s' = socket_key s.
Proof.
  unfold Socket.refresh_activation_idle_records. by intros ([r|] & w1 & _ & [= <- _])%io_bind_inv.
Qed.

Lemma socket_stats_key s w s' w' :
  Socket.refresh_stats s w = Done (s', w') → socket_key s' = socket_key s.
Proof.
  unfold Socket.refresh_stats. intros (e & w1 & He & Hr)%io_bind_inv.
  assert (Hk : socket_key e = socket_key s).
  { destruct (Socket.stat_buffer s) eqn:E; [by injection He as <- _|].
    apply lift_inv in He as [He _]. unfold Socket.clean_old_stats in He. rewrite E in He.
    by apply bind_Done_inv in He as (b & _ & [= <-]). }
  rewrite <- Hk. apply io_bind_inv in Hr as (st & w2 & _ & Hr).
  by apply io_bind_inv in Hr as (st' & w3 & _ & [= <- _]).
Qed.

Lemma distribute_key s : socket_key (distribute_background_to_domains s) = socket_key s.
Proof.
  unfold distribute_background_to_domains. destruct (feqb _ _); [done|].
  unfold socket_key. simpl. f_equal. generalize (power_f64 (Socket.get_records_diff_power_microwatts s)).
  intros total. generalize (F64.of_Z (Z.of_nat (length (domains s)))). intros n.
  generalize (default F64.zero (parse_f64 (background_value s))). intros bg.
  induction (domains s) as [|d l IH]; [done|]. rewrite fmap_cons. simpl zip_with. rewrite !fmap_cons. by f_equal.
Qed.

Lemma refresh_socket_key s records w s' w' :
  refresh_socket s records w = Done (s', w') → socket_key s' = socket_key s.
Proof.
  unfold refresh_socket. intros (s1 & w1 & H1'%socket_estimates_key & Hr)%io_bind_inv.
  apply io_bind_inv in Hr as (s2 & w2 & H2'%socket_refresh_record_key & Hr).
  rewrite distribute_key in H2'.
  apply io_bind_inv in Hr as (s3 & w3 & H3'%socket_stats_key & Hr).
  apply io_bind_inv in Hr as (ds & w4 & Hds & [= <- _]).
  apply (io_map_skeleton _ domain_key domain_key) in Hds; [|intros; by eapply domain_refresh_key].
  rewrite <- H1', <- H2', <- H3'. unfold socket_key. simpl. by rewrite Hds.
Qed.

Lemma take_idle_records_sockets ids t t' rs :
  take_idle_records ids t = (t', rs) → sockets t' = sockets t ∧ length rs = length ids.
Proof.
  revert t rs. induction ids as [|i ids IH]; intros t rs; simpl; [by intros [= <- <-]|].
  destruct (take_idle_records ids _) as [u us] eqn:E. intros [= <- <-].
  apply IH in E as [-> <-]. done.
Qed.

Lemma take_idle_records_tracker ids t t' rs :
  take_idle_records ids t = (t', rs) → proc_tracker t' = proc_tracker t.
Proof.
  revert t t' rs. induction ids as [|i ids IH]; intros t t' rs; simpl; [by intros [= <- _]|].
  destruct (take_idle_records ids _) as [t2 k] eqn:E. intros [= <- _]. by apply IH in E.
Qed.

(** What the later steps of a refresh leave alone: the records of the host and the tracker
    apart, and the tracker too once it is refreshed. *)
Definition parts (t : Topology) : list CPUSocket * gmap Z (list CpuStateEvent) :=
  (sockets t, activation_idle_buffer t).

Definition tracked (t : Topology) : list CPUSocket * gmap Z (list CpuStateEvent) * ProcessTracker :=
  (parts t, proc_tracker t).

Lemma drain_sockets t w t' w' :
  refresh_activation_idle_records t w = Done (t', w') → sockets t' = sockets t.
Proof.
  unfold refresh_activation_idle_records. destruct (cpu_state_buffer t); [|by intros [= <- _]].
  by intros (ev & w1 & _ & [= <- _])%io_bind_inv.
Qed.

(** The same socket but for its cores. *)
Definition other_cores (s s' : CPUSocket) : Prop := s' = set_cpu_cores (cpu_cores s') s.

Lemma core_idle_parts t w t' w' :
  refresh_core_idle_records t w = Done (t', w') →
  Forall2 other_cores (sockets t) (sockets t') ∧ activation_idle_buffer t' = activation_idle_buffer t.
Proof.
  unfold refresh_core_idle_records. intros (l & w1 & Hl & [= <- _])%io_bind_inv. split; [|done].
  eapply io_map_Forall2; [|exact Hl].
  intros s w2 s' w3 _. by intros (c & w4 & _ & [= <- _])%io_bind_inv.
Qed.

Lemma other_cores_keys l l' : Forall2 other_cores l l' → socket_key <$> l' = socket_key <$> l.
Proof. induction 1 as [|s s' l l' ->]; [done|]. rewrite !fmap_cons. by f_equal. Qed.

Lemma procs_parts t w t' w' : refresh_procs t w = Done (t', w') → parts t' = parts t.
Proof.
  unfold refresh_procs. intros (sys & w1 & _ & Hr)%io_bind_inv.
  apply io_bind_inv in Hr as (ps & w2 & _ & Hr).
  by apply io_bind_inv in Hr as (pt & w3 & _ & [= <- _]).
Qed.

Lemma cpu_time_tracked t w t' w' :
  refresh_cpu_time_record t w = Done (t', w') → tracked t' = tracked t.
Proof.
  unfold refresh_cpu_time_record. destruct (cpu_time_map t); [|by intros [= <- _]].
  intros (v & w1 & _ & Hr)%io_bind_inv. apply io_bind_inv in Hr as (now & w2 & _ & Hr).
  apply lift_inv in Hr as [Hr _]. unfold clean_old_cpu_time_records in Hr.
  destruct (cpu_time_buffer _); [by injection Hr as <-|].
  by apply bind_Done_inv in Hr as (n & _ & [= <-]).
Qed.

Lemma record_tracked t w t' w' : refresh_record t w = Done (t', w') → tracked t' = tracked t.
Proof.
  unfold refresh_record. intros (r & w1 & _ & Hr)%io_bind_inv.
  set (u := match r with inl _ => _ | inr _ => t end) in *.
  assert (Hu : tracked u = tracked t) by (unfold u; by destruct r). rewrite <- Hu.
  destruct (record_buffer u) eqn:E; [by injection Hr as <- _|].
  apply lift_inv in Hr as [Hr _]. unfold clean_old_records in Hr. rewrite E in Hr.
  by apply bind_Done_inv in Hr as (n & _ & [= <-]).
Qed.

Lemma stats_tracked t w t' w' : refresh_stats t w = Done (t', w') → tracked t' = tracked t.
Proof.
  unfold refresh_stats. intros (st & w1 & _ & Hr)%io_bind_inv.
  destruct st; [|by injection Hr as <- _]. apply lift_inv in Hr as [Hr _].
  unfold clean_old_stats in Hr. cbn [stat_buffer set_stat_buffer] in Hr.
  by apply bind_Done_inv in Hr as (n & _ & [= <-]).
Qed.

Lemma refresh_sockets_skeleton (l : list CPUSocket) rs w k w' :
  length rs = length l →
  io_map (λ x : CPUSocket * list CpuStateEvent, refresh_socket x.1 x.2) (zip l rs) w = Done (k, w') →
  socket_key <$> k = socket_key <$> l.
Proof.
  intros Hl Hm. apply (io_map_skeleton _ (λ x, socket_key x.1) socket_key) in Hm;
    [|by intros [s r] ????%refresh_socket_key].
  rewrite Hm. change (((socket_key ∘ fst) <$> zip l rs) = socket_key <$> l).
  rewrite list_fmap_compose. f_equal. apply fst_zip. lia.
Qed.

(** What a refresh does to the sockets and their events, in terms of its first step. *)
Lemma refresh_parts t w t' w' t1 w1 :
  refresh_activation_idle_records t w = Done (t1, w1) → refresh t w = Done (t', w') →
  let r := take_idle_records (Socket.id <$> sockets t) t1 in
  ∃ l w2, io_map (λ x : CPUSocket * list CpuStateEvent, refresh_socket x.1 x.2)
                 (zip (sockets t) r.2) w1 = Done (l, w2) ∧
          Forall2 other_cores l (sockets t') ∧
          activation_idle_buffer t' = activation_idle_buffer r.1.
Proof.
  intros Hd Hr. pose proof (drain_sockets _ _ _ _ Hd) as Hs1. unfold refresh in Hr.
  unfold mbind at 1, io_bind at 1 in Hr. rewrite Hd, Hs1 in Hr.
  destruct (take_idle_records _ t1) as [t2 rs] eqn:E.
  apply take_idle_records_sockets in E as [E2 _]. rewrite E2, Hs1 in Hr. cbn [fst snd].
  apply io_bind_inv in Hr as (l & w2 & Hl & Hr). exists l, w2. split; [exact Hl|].
  apply io_bind_inv in Hr as (pt & w3 & _ & Hr).
  apply io_bind_inv in Hr as (t3 & w4 & H3'%core_idle_parts & Hr).
  apply io_bind_inv in Hr as (t4 & w5 & H4'%procs_parts & Hr).
  apply io_bind_inv in Hr as (t5 & w6 & H5'%cpu_time_tracked & Hr).
  apply io_bind_inv in Hr as (t6 & w7 & H6'%record_tracked & Hr). apply stats_tracked in Hr.
  rewrite H6', H5' in Hr. unfold tracked in Hr. rewrite H4' in Hr. injection Hr as -> -> _. exact H3'.
Qed.

Lemma refresh_skeleton t w t' w' : refresh t w = Done (t', w') → skeleton t' = skeleton t.
Proof.
  intros Hr. pose proof Hr as Hr0. unfold refresh in Hr0.
  apply io_bind_inv in Hr0 as (t1 & w1 & Hd & _).
  destruct (refresh_parts _ _ _ _ _ _ Hd Hr) as (l & w2 & Hl & Hc%other_cores_keys & _).
  unfold skeleton. rewrite Hc. eapply refresh_sockets_skeleton; [|exact Hl].
  destruct (take_idle_records _ t1) as [t2 rs] eqn:E.
  apply take_idle_records_sockets in E as [_ E]. by rewrite length_fmap in E.
Qed.

(** *** The tracker *)

Lemma new_process_pid p l w q w' : new_process p l w = Done (q, w') → pid q = p_pid p.
Proof.
  unfold new_process. intros (n & w1 & _ & Hr)%io_bind_inv. apply io_bind_inv in Hr as (st & w2 & _ & Hr).
  apply io_bind_inv in Hr as ([[u s] b] & w3 & _ & Hr). apply io_bind_inv in Hr as (ks & w4 & _ & Hr).
  apply io_bind_inv in Hr as (nb & w5 & _ & Hr). by apply io_bind_inv in Hr as (c & w6 & _ & [= <- _]).
Qed.

Lemma refresh_procs_tidy `{!SysinfoLaws} t w t' w' :
  tidy (proc_tracker t) → refresh_procs t w = Done (t', w') → tidy (proc_tracker t').
Proof.
  intros [Hm Hv Hn Hp]. unfold refresh_procs. intros (sys & w1 & _ & Hr)%io_bind_inv.
  apply io_bind_inv in Hr as (ps & w2 & Hps & Hr). apply io_bind_inv in Hr as (pt & w3 & Hf & [= <- _]).
  assert (Hpos : Forall2 (λ p q, 0 <= pid q) (processes sys) ps).
  { eapply io_map_Forall2; [|exact Hps]. intros p w4 q w5 Hin (l & w6 & _ & ->%new_process_pid)%io_bind_inv.
    pose proof (processes_pos sys) as Hs. rewrite Forall_forall in Hs. by apply Hs. }
  apply (io_fold_inv _ tidy) in Hf; [exact Hf| |by split].
  intros pt0 p w4 pt1 w5 Hin Ht (r & w6 & Ha & Hr)%io_bind_inv.
  destruct (add_process_record_tidy p pt0 w4 r w6 Ht) as [Htidy _]; [|exact Ha|].
  - apply list_elem_of_lookup_1 in Hin as [i Hi]. by apply (Forall2_lookup_r _ _ _ _ _ Hpos) in Hi as (x & _ & ?).
  - destruct r as [pt2 [m|m]]; [by injection Hr as <- _|by apply lift_inv in Hr as [? _]].
Qed.

Lemma refresh_tidy `{!SysinfoLaws} t w t' w' :
  tidy (proc_tracker t) → refresh t w = Done (t', w') → tidy (proc_tracker t').
Proof.
  intros Ht Hr. unfold refresh in Hr. apply io_bind_inv in Hr as (t1 & w1 & Hd & Hr).
  assert (E1 : proc_tracker t1 = proc_tracker t).
  { unfold refresh_activation_idle_records in Hd. destruct (cpu_state_buffer t); [|by injection Hd as <- _].
    by apply io_bind_inv in Hd as (ev & w2 & _ & [= <- _]). }
  destruct (take_idle_records _ t1) as [t2 rs] eqn:E. apply take_idle_records_tracker in E.
  apply io_bind_inv in Hr as (l & w2 & _ & Hr). apply io_bind_inv in Hr as (pt & w3 & Hpt & Hr).
  apply io_bind_inv in Hr as (t3 & w4 & H3' & Hr). apply io_bind_inv in Hr as (t4 & w5 & H4' & Hr).
  apply io_bind_inv in Hr as (t5 & w6 & H5'%cpu_time_tracked & Hr).
  apply io_bind_inv in Hr as (t6 & w7 & H6'%record_tracked & Hr). apply stats_tracked in Hr.
  rewrite H6', H5' in Hr. injection Hr as _ _ ->. eapply refresh_procs_tidy; [|exact H4'].
  unfold refresh_core_idle_records in H3'. apply io_bind_inv in H3' as (k & w8 & _ & [= <- _]).
  unfold ProcTracker.refresh in Hpt. repeat (apply io_bind_inv in Hpt as (? & ? & _ & Hpt)).
  injection Hpt as <- _. cbn [proc_tracker set_sockets set_proc_tracker]. rewrite E, E1. by destruct Ht.
Qed.

Lemma add_cores_skeleton t w t' w' : add_cpu_cores t w = Done (t', w') → skeleton t' = skeleton t.
Proof.
  unfold add_cpu_cores. intros (cs & w1 & _ & Hr)%io_bind_inv.
  apply io_bind_inv in Hr as (cs' & w2 & _ & Hr). apply io_bind_inv in Hr as (l & w3 & Hl & [= <- _]).
  apply lift_inv in Hl as [Hl _]. unfold skeleton.
  eapply (foldM_inv add_core (λ l, socket_key <$> l = socket_key <$> sockets t)); [|done|exact Hl].
  intros l1 c l2 _ Hl1 Hc%add_core_skeleton. by rewrite <- Hl1.
Qed.

(** The topologies the operations of the structure and the refreshes build, in any order,
    from a new one. *)
Inductive reachable : Topology → Prop :=
  | reach_new data w t w' : new data w = Done (t, w') → reachable t
  | reach_add_socket i ds a c kb data t :
      reachable t → NoDup (Domain.id <$> ds) → reachable (safe_add_socket i ds a c kb data t).1
  | reach_insert_socket s t :
      reachable t → NoDup (Domain.id <$> domains s) → reachable (safe_insert_socket s t)
  | reach_add_domain i j name uj kb data t :
      reachable t → reachable (safe_add_domain_to_socket i j name uj kb data t)
  | reach_names t : reachable t → reachable (build_domains_names t)
  | reach_add_cores t w t' w' : reachable t → add_cpu_cores t w = Done (t', w') → reachable t'
  | reach_clone t w t' w' : reachable t → clone t w = Done (t', w') → reachable t'
  | reach_refresh t w t' w' : reachable t → refresh t w = Done (t', w') → reachable t'.

(** C13: whatever the order of the operations and of the refreshes, no two sockets of the
    topology have the same id and no two domains of a socket have the same id: the guards
    of the insertions are enough, and nothing else changes an identity. *)
Theorem reachable_wf t : reachable t → wf_structure t.
Proof.
  induction 1 as [data w t w' Hn|i ds a c kb data t _ IH Hds|s t _ IH Hs|i j name uj kb data t _ IH
                 |t _ IH|t w t' w' _ IH Hc|t w t' w' _ IH Hc|t w t' w' _ IH Hr].
  - unfold new in Hn. repeat (apply io_bind_inv in Hn as (? & ? & _ & Hn)).
    injection Hn as <- _. split; constructor.
  - unfold safe_add_socket. destruct (has_socket i t) eqn:E; [done|]. by apply insert_socket_wf.
  - unfold safe_insert_socket. destruct (has_socket _ t) eqn:E; [done|]. by apply insert_socket_wf.
  - eapply add_domain_wf; [exact IH|reflexivity|]. intros s. cbv beta. destruct (_ =? _); [|done].
    split; [apply safe_add_domain_id|apply safe_add_domain_ids].
  - exact IH.
  - exact (wf_structure_skeleton _ _ (add_cores_skeleton _ _ _ _ Hc) IH).
  - unfold clone in Hc. apply io_bind_inv in Hc as (pt & w1 & _ & [= <- _]).
    eapply add_domain_wf; [exact IH|reflexivity|done].
  - exact (wf_structure_skeleton _ _ (refresh_skeleton _ _ _ _ Hr) IH).
Qed.

(** ** Names *)

(** The names of the domains are exactly those of the domains of the sockets, each once,
    in the order of [str]. *)
Theorem domains_names_exact t :
  ∃ names, domains_names (build_domains_names t) = Some names ∧
    StronglySorted (λ x y, str_leb x y = true) names ∧ NoDup names ∧
    (∀ n, n ∈ names ↔ ∃ s d, s ∈ sockets t ∧ d ∈ domains s ∧ Domain.name d = n) ∧
    sockets (build_domains_names t) = sockets t.
Proof.
  set (all := mjoin ((λ s, Domain.name <$> domains s) <$> sockets t)).
  exists (sort_by str_leb (remove_dups all)). split; [done|].
  split; [|split; [|split; [|done]]].
  - apply sort_str_sorted.
  - rewrite sort_by_perm. apply NoDup_remove_dups.
  - intros n. rewrite sort_by_perm, elem_of_remove_dups. unfold all.
    rewrite list_elem_of_join. setoid_rewrite list_elem_of_fmap. split.
    + intros (l & Hn & s & -> & Hs). apply list_elem_of_fmap in Hn as (d & -> & Hd). eauto.
    + intros (s & d & Hs & Hd & <-). exists (Domain.name <$> domains s).
      split; [by apply list_elem_of_fmap; eauto|eauto].
Qed.

(** ** Events *)

Lemma push_events_lookup id evs b :
  default [] (fold_left push_event evs b !! id)
  = default [] (b !! id) ++ List.filter (λ e, socket_id e =? id) evs.
Proof.
  revert b. induction evs as [|e evs IH]; intros b; simpl; [by rewrite app_nil_r|].
  rewrite IH. unfold push_event. destruct (Z.eqb_spec (socket_id e) id) as [<-|Hne].
  - rewrite lookup_insert_eq. simpl. by rewrite <- app_assoc.
  - by rewrite lookup_insert_ne.
Qed.

Lemma take_idle_records_spec ids t :
  NoDup ids →
  let r := take_idle_records ids t in
  r.2 = (λ i, default [] (activation_idle_buffer t !! i)) <$> ids ∧
  ∀ i, activation_idle_buffer r.1 !! i = if decide (i ∈ ids) then None else activation_idle_buffer t !! i.
Proof.
  intros Hn. revert t. induction Hn as [|id ids Hid Hn IH]; intros t; [done|].
  specialize (IH (get_activation_idle_records id t).1). cbn zeta in *. simpl in *.
  destruct (take_idle_records ids _) as [u us]. destruct IH as [IHr IHb]. cbn [fst snd] in *. split.
  - rewrite IHr. simpl. f_equal. apply list_fmap_ext. intros k i Hi.
    rewrite lookup_delete_ne; [done|]. intros ->. by eapply Hid, list_elem_of_lookup_2.
  - intros i. rewrite IHb. destruct (decide (i = id)) as [->|Hne].
    + rewrite lookup_delete_eq, (decide_True (P := id ∈ id :: ids)) by (by left). by destruct (decide (id ∈ ids)).
    + rewrite lookup_delete_ne by done. apply decide_ext. rewrite elem_of_cons. split; [by right|by intros [?|?]].
Qed.

(** The events of a socket: those left from earlier refreshes, then the new ones. *)
Definition events_of (b : gmap Z (list CpuStateEvent)) (evs : list CpuStateEvent) (id : Z) : list CpuStateEvent :=
  default [] (b !! id) ++ List.filter (λ e, socket_id e =? id) evs.

Lemma drain_step `{!RingLaws} t w buf evs :
  cpu_state_buffer t = Some buf → Forall (λ e, 0 <= socket_id e < 2 ^ 16) evs →
  ring_items buf w = encode_event <$> evs →
  ∃ w1, refresh_activation_idle_records t w
        = Done (set_activation_idle_buffer (fold_left push_event evs (activation_idle_buffer t)) t, w1).
Proof.
  intros Hb Hev%decode_encoded Hring. unfold refresh_activation_idle_records. rewrite Hb.
  destruct (drain_all (S (length (ring_items buf w))) buf _ evs [] w Hev Hring) as (w1 & Hd & _).
  { rewrite Hring. lia. }
  exists w1. unfold mbind, io_bind, drain_cpu_state_events. by rewrite Hd.
Qed.

Lemma refresh_each (f : CPUSocket → list CpuStateEvent) l w k w' :
  io_map (λ x : CPUSocket * list CpuStateEvent, refresh_socket x.1 x.2) (zip l (f <$> l)) w = Done (k, w') →
  Forall2 (λ s s1, ∃ u u1, refresh_socket s (f s) u = Done (s1, u1)) l k.
Proof.
  revert w k. induction l as [|s l IH]; intros w k; [intros [= <- _]; constructor|].
  rewrite fmap_cons. simpl zip. simpl io_map. intros (s1 & w1 & Hs & Hr)%io_bind_inv.
  apply io_bind_inv in Hr as (k1 & w2 & Hk & [= <- <-]).
  constructor; [by exists w, w1|]. exact (IH _ _ Hk).
Qed.

(** C2: at a refresh every event waiting in the ring buffer reaches the socket it names, and
    no other, in the order the kernel side wrote it; what was left of an earlier refresh
    comes first, no event of a known socket is left over, and the events of an unknown
    socket wait. *)
Theorem refresh_routes_events `{!RingLaws} t w t' w' buf evs :
  wf_structure t → cpu_state_buffer t = Some buf →
  Forall (λ e, 0 <= socket_id e < 2 ^ 16) evs → ring_items buf w = encode_event <$> evs →
  refresh t w = Done (t', w') →
  Forall2 (λ s s', ∃ u s1 u1,
             refresh_socket s (events_of (activation_idle_buffer t) evs (Socket.id s)) u = Done (s1, u1) ∧
             other_cores s1 s') (sockets t) (sockets t') ∧
  ∀ i, default [] (activation_idle_buffer t' !! i) =
       if has_socket i t then [] else events_of (activation_idle_buffer t) evs i.
Proof.
  intros [Hn _] Hb Hev Hring Hr.
  destruct (drain_step t w buf evs Hb Hev Hring) as (w1 & Hd).
  destruct (refresh_parts _ _ _ _ _ _ Hd Hr) as (l & w2 & Hl & Hc & Hab).
  destruct (take_idle_records_spec _ (set_activation_idle_buffer
    (fold_left push_event evs (activation_idle_buffer t)) t) Hn) as [Hrs Hleft].
  cbn [activation_idle_buffer set_activation_idle_buffer] in Hrs, Hleft. split.
  - rewrite Hrs, <- list_fmap_compose in Hl. apply refresh_each in Hl.
    eapply Forall2_compose; [exact Hl|exact Hc|]. cbv beta.
    intros s s1 s' (u & u1 & Hs) Ho. exists u, s1, u1. split; [|done].
    rewrite <- Hs. unfold compose. by rewrite push_events_lookup.
  - intros i. rewrite Hab, Hleft. destruct (has_socket i t) eqn:E.
    + apply has_socket_spec in E. by rewrite decide_True.
    + rewrite decide_False; [apply push_events_lookup|]. intros Hi%has_socket_spec. congruence.
Qed.

(** ** Cores *)

(** The socket a core names. *)
Definition core_socket (c : CPUCore) : option Z :=
  Core.attributes c !! "physical id"%string ≫= parse_uint 16.

Definition belongs (s : CPUSocket) (c : CPUCore) : bool := bool_decide (core_socket c = Some (Socket.id s)).

Definition with_cores (cs : list CPUCore) (s : CPUSocket) : CPUSocket :=
  set_cpu_cores (cpu_cores s ++ List.filter (belongs s) cs) s.

Lemma add_core_to_own l c i :
  NoDup (Socket.id <$> l) → core_socket c = Some i → i ∈ (Socket.id <$> l) →
  add_core l c = Done (with_cores [c] <$> l).
Proof.
  intros Hn Hc Hi. unfold add_core. unfold core_socket in Hc.
  destruct (Core.attributes c !! "physical id"%string) as [p|] eqn:Ep; [|done]. simpl in Hc |- *.
  rewrite Hc. simpl. unfold add_to_socket. destruct l as [|s0 l0]; [by apply elem_of_nil in Hi|].
  remember (s0 :: l0) as l eqn:El. clear El. f_equal.
  assert (Hb : ∀ s, with_cores [c] s = if Socket.id s =? i then add_cpu_core c s else s).
  { intros s. unfold with_cores, belongs, core_socket, List.filter. rewrite Ep. simpl. rewrite Hc.
    destruct (Z.eqb_spec (Socket.id s) i) as [->|Hne].
    - by rewrite bool_decide_true.
    - rewrite bool_decide_false by congruence. rewrite app_nil_r. by destruct s. }
  induction l as [|s l IH]; [done|]. rewrite fmap_cons, Hb. simpl in Hn. apply NoDup_cons in Hn as [Hs Hn].
  simpl list_find. destruct (decide (Socket.id s = i)) as [<-|Hne].
  - simpl. rewrite Z.eqb_refl. f_equal. symmetry. rewrite <- (list_fmap_id l) at 2.
    apply list_fmap_ext. intros k s' Hk. rewrite Hb. destruct (Z.eqb_spec (Socket.id s') (Socket.id s)); [|done].
    exfalso. apply Hs, list_elem_of_fmap. exists s'. split; [done|by eapply list_elem_of_lookup_2].
  - rewrite (proj2 (Z.eqb_neq _ _) Hne). apply elem_of_cons in Hi as [?|Hi]; [congruence|].
    rewrite <- IH by done. destruct (list_find _ l) as [[k s']|] eqn:E; [done|].
    apply list_find_None in E. apply list_elem_of_fmap in Hi as (s' & -> & Hs').
    rewrite Forall_forall in E. by apply E in Hs'.
Qed.

Lemma add_cores_to_own l cs :
  NoDup (Socket.id <$> l) → Forall (λ c, ∃ i, core_socket c = Some i ∧ i ∈ (Socket.id <$> l)) cs →
  foldM add_core l cs = Done (with_cores cs <$> l).
Proof.
  intros Hn Hc. revert l Hn Hc. induction cs as [|c cs IH]; intros l Hn Hc.
  - simpl. f_equal. symmetry. rewrite <- (list_fmap_id l) at 2. apply list_fmap_ext.
    intros k s _. unfold with_cores. rewrite app_nil_r. by destruct s.
  - inversion_clear Hc as [|? ? (i & Hi & Hin) Hcs]. simpl.
    rewrite (add_core_to_own l c i) by done. simpl.
    assert (Hids : Socket.id <$> (with_cores [c] <$> l) = Socket.id <$> l) by by rewrite <- list_fmap_compose.
    rewrite IH; [|by rewrite Hids|by rewrite Hids]. f_equal. rewrite <- list_fmap_compose. apply list_fmap_ext.
    intros k s _. unfold compose, with_cores, belongs. simpl. unfold set_cpu_cores. simpl.
    rewrite <- app_assoc. by destruct (bool_decide _).
Qed.

(** When the sockets have distinct ids and every generated core names one of them, each
    socket receives exactly its own cores, once each, after those it had; nothing else of a
    socket changes. *)
Theorem cores_reach_their_socket t w cores w' :
  wf_structure t → generate_cpu_cores w = Done (Some cores, w') →
  Forall (λ c, ∃ i, core_socket c = Some i ∧ has_socket i t = true) cores →
  add_cpu_cores t w = Done (set_sockets (with_cores (rev cores) <$> sockets t) t, w').
Proof.
  intros [Hn _] Hg Hc. unfold add_cpu_cores.
  unfold mbind at 1, io_bind at 1. rewrite Hg. unfold mbind, io_bind, lift. simpl.
  rewrite add_cores_to_own; [done|done|]. apply Forall_rev.
  eapply Forall_impl; [exact Hc|]. intros c (i & Hi & Hin). exists i. by rewrite <- has_socket_spec.
Qed.

(** ** Host energy *)

Section Stable.
(** Files that do not change during the reading, a clock that works, and counters that are
    not negative. *)
Context (content : string → option string).
Context (Hstable : ∀ p w, read_to_string p w = (content p, w)).
Context (Hclock : ∀ w, ∃ d w', clock w = (Some d, w')).
Context (Hpos : ∀ p v n, content p = Some v → parse_int 128 (trim v) = Some n → 0 <= n).

(** What a counter file says, 0 when it cannot be read or parsed. *)
Definition reading (path : string) : Z :=
  default 0 (content path ≫= λ v, parse_int 128 (trim v)).

Definition source (data : gmap string string) : string := default "" (data !! "source_file"%string).

Definition is_dram (d : Domain) : bool := bool_decide (Domain.name d = "dram"%string).

Definition memory_energy (ds : list Domain) : Z :=
  list_sum ((λ d, reading (source (Domain.sensor_data d))) <$> List.filter is_dram ds).

Definition socket_energy (s : CPUSocket) : Z :=
  reading (source (Socket.sensor_data s)) + memory_energy (domains s).

Definition packages_and_memory (t : Topology) : Z := list_sum (socket_energy <$> sockets t).

Lemma reading_pos p : 0 <= reading p.
Proof.
  unfold reading. destruct (content p) as [v|] eqn:E; [|done]. simpl.
  destruct (parse_int 128 (trim v)) as [n|] eqn:En; [|done]. simpl. eauto.
Qed.

Lemma memory_pos ds : 0 <= memory_energy ds.
Proof. apply list_sum_pos. intros d. apply reading_pos. Qed.

Lemma socket_energy_pos s : 0 <= socket_energy s.
Proof.
  unfold socket_energy. pose proof (reading_pos (source (Socket.sensor_data s))).
  pose proof (memory_pos (domains s)). lia.
Qed.

Lemma add_record_value_ok total r :
  let n := default 0 (r ≫= λ r, parse_int 128 (trim (r_value r))) in
  0 <= total + n <= 2 ^ 127 - 1 → add_record_value total r = Done (total + n).
Proof.
  intros n Hn. subst n. unfold add_record_value. destruct (r ≫= _) as [n|]; simpl in *.
  - destruct (Z.leb_spec (- 2 ^ 127) (total + n)), (Z.leb_spec (total + n) (2 ^ 127 - 1)); simpl; try done.
    all: lia.
  - by rewrite Z.add_0_r.
Qed.

(** What reading a counter and adding it to the total does. *)
Lemma add_reading (get : io (option Record_)) path total w :
  (∀ w, get w = (content ← read_file path;
                 match content with
                 | Some value =>
                     now ← current_system_time_since_epoch; mret (Some (mkRecord now value MicroJoule))
                 | None => mret None
                 end) w) →
  0 <= total → total + reading path <= 2 ^ 127 - 1 →
  ∃ w', (r ← get; lift (add_record_value total r)) w = Done (total + reading path, w').
Proof.
  intros Hget Ht Hmax. pose proof (reading_pos path) as Hr. unfold mbind at 1, io_bind at 1. rewrite Hget.
  unfold mbind, io_bind, read_file, reading in *. rewrite Hstable.
  destruct (content path) as [v|]; simpl in *.
  - unfold current_system_time_since_epoch. destruct (Hclock w) as (d & w' & ->). simpl.
    exists w'. unfold lift. rewrite add_record_value_ok; simpl; [done|lia].
  - exists w. by rewrite Z.add_0_r.
Qed.

Lemma lift_ret {A} (a : A) (w : world) : lift (Done a) w = Done (a, w).
Proof. done. Qed.

(** A source file is registered for everything that is summed. *)
Definition has_source (s : CPUSocket) : Prop :=
  is_Some (Socket.sensor_data s !! "source_file"%string) ∧
  Forall (λ d, is_dram d = true → is_Some (Domain.sensor_data d !! "source_file"%string)) (domains s).

Lemma read_socket s w :
  is_Some (Socket.sensor_data s !! "source_file"%string) →
  Socket.read_record s w = (content ← read_file (source (Socket.sensor_data s));
    match content with
    | Some value => now ← current_system_time_since_epoch; mret (Some (mkRecord now value MicroJoule))
    | None => mret None
    end) w.
Proof. intros [f Hf]. unfold Socket.read_record, source. by rewrite Hf. Qed.

Lemma read_domain d w :
  is_Some (Domain.sensor_data d !! "source_file"%string) →
  Domain.read_record d w = (content ← read_file (source (Domain.sensor_data d));
    match content with
    | Some value => now ← current_system_time_since_epoch; mret (Some (mkRecord now value MicroJoule))
    | None => mret None
    end) w.
Proof. intros [f Hf]. unfold Domain.read_record, source. by rewrite Hf. Qed.

Lemma memory_cons d ds :
  memory_energy (d :: ds)
  = (if is_dram d then reading (source (Domain.sensor_data d)) else 0) + memory_energy ds.
Proof. unfold memory_energy. simpl. by destruct (is_dram d). Qed.

Lemma add_memory ds total w :
  Forall (λ d, is_dram d = true → is_Some (Domain.sensor_data d !! "source_file"%string)) ds →
  0 <= total → total + memory_energy ds <= 2 ^ 127 - 1 →
  ∃ w', io_fold (λ total d,
          if decide (Domain.name d = "dram"%string) then
            dr ← Domain.read_record d; lift (add_record_value total dr)
          else mret total) total ds w = Done (total + memory_energy ds, w').
Proof.
  intros Hds. revert total w. induction Hds as [|d ds Hd Hds IH]; intros total w Ht Hmax.
  - exists w. unfold memory_energy. simpl. by rewrite Z.add_0_r.
  - rewrite memory_cons in Hmax |- *. simpl io_fold. unfold mbind at 1, io_bind at 1.
    pose proof (memory_pos ds) as Hm. pose proof (reading_pos (source (Domain.sensor_data d))) as Hp.
    assert (Hdec : is_dram d = true ↔ Domain.name d = "dram"%string) by apply bool_decide_eq_true.
    destruct (decide (Domain.name d = "dram"%string)) as [He|He].
    + rewrite (proj2 Hdec He) in Hmax |- *.
      destruct (add_reading (Domain.read_record d) (source (Domain.sensor_data d)) total w) as (w1 & Hr);
        [intros; by apply read_domain, Hd, Hdec|done|lia|].
      rewrite Hr, Z.add_assoc. apply IH; lia.
    + destruct (is_dram d); [by destruct He; apply Hdec|]. apply IH; lia.
Qed.

Lemma add_sockets l total w :
  Forall has_source l → 0 <= total → total + list_sum (socket_energy <$> l) <= 2 ^ 127 - 1 →
  ∃ w', io_fold add_socket_energy total l w = Done (total + list_sum (socket_energy <$> l), w').
Proof.
  intros Hl. revert total w. induction Hl as [|s l [Hs Hds] Hl IH]; intros total w Ht Hmax.
  - exists w. simpl. by rewrite Z.add_0_r.
  - rewrite fmap_cons, list_sum_cons in Hmax |- *.
    pose proof (list_sum_pos socket_energy l socket_energy_pos) as Hrest.
    pose proof (memory_pos (domains s)) as Hm. pose proof (reading_pos (source (Socket.sensor_data s))) as Hp.
    unfold socket_energy at 1 in Hmax. unfold socket_energy at 1. simpl io_fold.
    unfold mbind at 1, io_bind at 1. unfold add_socket_energy at 1.
    destruct (add_reading (Socket.read_record s) (source (Socket.sensor_data s)) total w) as (w1 & Hr);
      [intros; by apply read_socket|done|lia|].
    assert (Ha : ∀ g : Z → io Z, (r ← Socket.read_record s; total ← lift (add_record_value total r); g total) w
                 = g (total + reading (source (Socket.sensor_data s))) w1).
    { intros g. revert Hr. unfold mbind, io_bind. destruct (Socket.read_record s w) as [[r w2]|]; [|done].
      unfold lift. destruct (add_record_value total r); [|done]. by intros [= -> ->]. }
    rewrite Ha. destruct (add_memory (domains s) (total + reading (source (Socket.sensor_data s))) w1 Hds)
      as (w2 & Hr2); [lia|lia|]. rewrite Hr2.
    destruct (IH (total + (reading (source (Socket.sensor_data s)) + memory_energy (domains s))) w2)
      as (w3 & Hr3); [lia|lia|].
    exists w3. rewrite <- (Z.add_assoc total _ (memory_energy _)), Hr3. f_equal. f_equal. lia.
Qed.

Definition psys_energy (t : Topology) : option string :=
  sensor_data t !! "psys"%string ≫= λ f, content (f +:+ "/energy_uj").

Lemma read_psys t w :
  match psys_energy t with
  | Some v => ∃ now w', get_rapl_psys_energy_microjoules t w = Done (Some (mkRecord now v MicroJoule), w')
  | None => get_rapl_psys_energy_microjoules t w = Done (None, w)
  end.
Proof.
  unfold psys_energy, get_rapl_psys_energy_microjoules.
  destruct (sensor_data t !! "psys"%string) as [f|]; [|done]. simpl option_bind.
  change (Some f ≫= _) with (content (f +:+ "/energy_uj")).
  destruct (content (f +:+ "/energy_uj")) as [v|] eqn:E;
    unfold mbind, io_bind, read_file; rewrite Hstable, E; [|done].
  unfold current_system_time_since_epoch. destruct (Hclock w) as (d & w2 & Hc). rewrite Hc. by exists d, w2.
Qed.

(** C12: the energy of the host is the platform counter as read when there is one, and
    otherwise the exact sum of the package counters and of the memory counters, those of
    the domains named dram only: a counter that cannot be read or parsed counts for
    nothing and is not an error. *)
Theorem host_energy t w :
  Forall has_source (sockets t) → packages_and_memory t <= 2 ^ 127 - 1 →
  ∃ now w', read_record t w = Done (inl (mkRecord now
    (default (show_int (packages_and_memory t)) (psys_energy t)) MicroJoule), w').
Proof.
  intros Hs Hmax. unfold read_record. pose proof (read_psys t w) as Hp.
  unfold mbind at 1, io_bind at 1. destruct (psys_energy t) as [v|].
  - destruct Hp as (now & w' & ->). by exists now, w'.
  - rewrite Hp. destruct (add_sockets (sockets t) 0 w Hs) as (w1 & Hw1); [done|exact Hmax|].
    unfold mbind, io_bind. rewrite Hw1, Z.add_0_l. unfold current_system_time_since_epoch.
    destruct (Hclock w1) as (d & w2 & Hc). rewrite Hc. by exists d, w2.
Qed.
End Stable.
End Topology.

(** ** Examples on the simulated host *)

#[local] Existing Instances x86_64.
#[local] Instance checked : Profile := true.
Definition counter_files : files :=
  λ p _, if decide (p = "/pkg"%string) then Some "1000" else
         if decide (p = "/dram"%string) then Some "500" else None.
#[local] Instance host : Os := simulated counter_files.
#[local] Instance host_fs : FileSystem := simulated_fs counter_files.
#[local] Instance host_procfs : Procfs := simulated_procfs counter_files.
#[local] Instance host_perf : PerfEvents := simulated_perf counter_files.
#[local] Instance host_sysinfo : Sysinfo := simulated_sysinfo counter_files 2 [].
Definition waiting_events : list CpuStateEvent :=
  [mkEvent 0 IdleEvent; mkEvent 7 IdleEvent; mkEvent 0 ActivationEvent].
#[local] Instance host_aya : Aya := simulated_aya counter_files (encode_event <$> waiting_events).

Definition named (file : string) : gmap string string := {["source_file"%string := file]}.

(** A socket with its memory and its cores' domain, and events left for two sockets. *)
Definition sample_topology : Topology := {|
  sockets := [Socket.new 0 [Domain.new 0 "dram" "/dram" 1 (named "/dram");
                            Domain.new 1 "core" "/core" 1 (named "/core")] [] "/pkg" 1 (named "/pkg")];
  proc_tracker := mkTracker [] 2 None 5 tt;
  stat_buffer := []; record_buffer := []; buffer_max_kbytes := 1; domains_names := None;
  sensor_data := ∅; ebpf := None; cpu_state_buffer := Some tt;
  activation_idle_buffer := {[7 := [mkEvent 7 ActivationEvent]]};
  cpu_time_map := None; cpu_time_buffer := [] |}.

Definition start : world := 0.

Lemma sample_wf : wf_structure sample_topology.
Proof. split; apply (bool_decide_unpack _); vm_compute; done. Qed.

Lemma sample_created : is_done (new ∅ start) = true.
Proof. vm_compute. reflexivity. Qed.

Lemma reachable_wf_witness :
  ∃ t, reachable t ∧ wf_structure t ∧ (λ s, (Socket.id s, Domain.id <$> domains s)) <$> sockets t = [(3, [5])].
Proof.
  destruct (is_done_inv _ sample_created) as [[t w] E].
  assert (Hs : sockets t = []).
  { apply (f_equal (λ r, match r with Done (t, _) => length (sockets t) | Panic => 1%nat end)) in E.
    destruct (sockets t); [done|]. vm_compute in E. discriminate. }
  set (t1 := (safe_add_socket 3 [] [] "/pkg" 1 (named "/pkg") t).1).
  set (t2 := safe_add_domain_to_socket 3 5 "dram" "/dram" 1 (named "/dram") t1).
  set (t3 := safe_add_domain_to_socket 3 5 "core" "/core" 1 (named "/core") t2).
  assert (Hr : reachable t3).
  { apply reach_add_domain, reach_add_domain, reach_add_socket; [|constructor]. exact (reach_new _ _ _ _ E). }
  exists t3. split; [exact Hr|]. split; [exact (reachable_wf t3 Hr)|].
  unfold t3, t2, t1, safe_add_socket, has_socket. rewrite Hs. reflexivity.
Defined.

Lemma sample_refreshed : is_done (refresh sample_topology start) = true.
Proof. vm_compute. reflexivity. Qed.

Lemma ring_of_host (b : RingBuf) (t : Z) : ring_items b t = drop (Z.to_nat t) (encode_event <$> waiting_events).
Proof. reflexivity. Qed.

Lemma ring_next_of_host (b : RingBuf) (t : Z) :
  ring_next b t = match drop (Z.to_nat t) (encode_event <$> waiting_events) with
                   | [] => (None, t)
                   | i :: _ => (Some i, Z.max 0 t + 1)
                   end.
Proof. reflexivity. Qed.

#[local] Instance host_ring_laws : RingLaws.
Proof.
  split.
  - intros b t Hw. rewrite ring_of_host in Hw. rewrite ring_next_of_host, Hw. reflexivity.
  - intros b t i l Hw. rewrite ring_of_host in Hw. rewrite ring_next_of_host, Hw.
    exists (Z.max 0 t + 1). split; [reflexivity|]. rewrite ring_of_host.
    replace (Z.to_nat (Z.max 0 t + 1)) with (Z.to_nat t + 1)%nat by lia.
    by rewrite <- drop_drop, Hw.
Qed.

(** The socket sees its two events; the one of the unknown socket 7 joins those waiting. *)
Lemma refresh_routes_events_witness :
  ∃ t' w', refresh sample_topology start = Done (t', w') ∧
           default [] (activation_idle_buffer t' !! 0) = [] ∧
           default [] (activation_idle_buffer t' !! 7) = [mkEvent 7 ActivationEvent; mkEvent 7 IdleEvent].
Proof.
  destruct (is_done_inv _ sample_refreshed) as [[t' w'] E]. exists t', w'. split; [exact E|].
  destruct (refresh_routes_events sample_topology start t' w' tt waiting_events sample_wf eq_refl) as [_ H];
    [repeat constructor; done|reflexivity|exact E|].
  split; [exact (H 0)|exact (H 7)].
Defined.

Lemma sample_cores :
  match generate_cpu_cores start with
  | Done (Some cores, _) => forallb (λ c, bool_decide (core_socket c = Some 0)) cores && (0 <? Z.of_nat (length cores))
  | _ => false
  end = true.
Proof. vm_compute. reflexivity. Qed.

Lemma cores_reach_their_socket_witness :
  ∃ cores w', generate_cpu_cores start = Done (Some cores, w') ∧ 0 < Z.of_nat (length cores) ∧
              add_cpu_cores sample_topology start
              = Done (set_sockets (with_cores (rev cores) <$> sockets sample_topology) sample_topology, w').
Proof.
  pose proof sample_cores as Hc. destruct (generate_cpu_cores start) as [[[cores|] w']|] eqn:E; [|done|done].
  apply andb_true_iff in Hc as [Hc Hl%Z.ltb_lt]. exists cores, w'. split; [reflexivity|]. split; [exact Hl|].
  apply (cores_reach_their_socket sample_topology start cores w' sample_wf E).
  apply Forall_forall. intros c Hin. exists 0. split; [|reflexivity].
  rewrite forallb_forall in Hc. specialize (Hc c (proj1 (list_elem_of_In _ _) Hin)).
  exact (bool_decide_unpack _ (Is_true_true_2 _ Hc)).
Defined.

Lemma sample_energy : packages_and_memory (λ p, counter_files p 0) sample_topology = 1500.
Proof. vm_compute. reflexivity. Qed.

Lemma host_energy_witness :
  ∃ now w', read_record sample_topology start = Done (inl (mkRecord now "1500" MicroJoule), w').
Proof.
  refine (host_energy (λ p, counter_files p 0) (λ p w, _) (λ w, _) _ sample_topology start _ _).
  - reflexivity.
  - exists (mkDuration w 0), (w + 1). reflexivity.
  - intros p v n. unfold counter_files. destruct (decide _); [intros [= <-]; vm_compute; intros [= <-]; done|].
    destruct (decide _); [intros [= <-]; vm_compute; intros [= <-]; done|done].
  - repeat constructor; try (intros; eexists; reflexivity).
  - rewrite sample_energy. lia.
Defined.
