(* ===== verification/Generators.v ===== *)
(** * The buffers of records behind one interface ([RecordGenerator] of [sensors/mod.rs])

    The trait [RecordGenerator] is implemented by the topology, the sockets and the domains.
    Its contract is an abstract one: everything that was ever read is a log, and the buffer
    is the window on the log that the limit leaves: its newest records, two of them at least
    when there were two (a power is the difference of two), and less than the limit plus two
    in size.  The implementations meet it, and so does the whole refresh of a topology. *)

From S2P Require Import Prelude Floats Text FloatText Units Env Simulated Records Energy Common.
From S2P Require Import Domain Core Socket ProcTracker Bpf Topology.

(** ** The window on a log *)

Record window (kb size : Z) {R} (log buffer : list R) : Prop := {
  window_newest : ∃ older, log = older ++ buffer;
  window_bounded : within kb size (length buffer);
  window_two : 0 < kb → (Nat.min 2 (length log) <= length buffer)%nat;
}.

(** What an eviction keeps. *)
Definition keep {R} (kb size : Z) (l : list R) : list R := drop (evicted kb size (length l)) l.

Lemma within_nil kb size : 0 <= kb → 0 < size → within kb size 0.
Proof. unfold within. lia. Qed.

Lemma window_nil kb size {R} : 0 <= kb → 0 < size → window kb size (R := R) [] [].
Proof. intros. split; [by exists []|by apply within_nil|simpl; lia]. Qed.

Lemma keep_within kb size {R} (l : list R) :
  0 <= kb → 0 < size → within kb size (length l) → keep kb size l = l.
Proof.
  unfold keep, within. intros Hkb Hs Hl.
  assert (evicted kb size (length l) = 0%nat) as ->; [|by rewrite drop_0].
  unfold evicted. set (d := size * Z.of_nat (length l) - kb * 1000).
  assert (d / size < 2) by (apply Z.div_lt_upper_bound; lia). lia.
Qed.

Lemma keep_bounded kb size {R} (l : list R) :
  0 <= kb <= 65 → 0 < size < 2 ^ 16 → within kb size (length (keep kb size l)).
Proof.
  intros Hkb Hs. unfold within, keep. rewrite length_drop.
  pose proof (evicted_bounds kb size Hkb Hs (length l)) as [Hb _]. nia.
Qed.

Lemma window_append kb size {R} (log buffer : list R) x :
  0 <= kb <= 65 → 0 < size < 2 ^ 16 → window kb size log buffer →
  window kb size (log ++ [x]) (keep kb size (buffer ++ [x])).
Proof.
  intros Hkb Hs [[older ->] _ H2]. split.
  - exists (older ++ take (evicted kb size (length (buffer ++ [x]))) (buffer ++ [x])).
    unfold keep. by rewrite <- !app_assoc, take_drop.
  - by apply keep_bounded.
  - intros Hpos. specialize (H2 Hpos). unfold keep. rewrite length_drop.
    pose proof (evicted_keeps_two kb size Hkb Hs (length (buffer ++ [x])) Hpos).
    rewrite !length_app in *. cbn [length] in *. lia.
Qed.

(** So a power is the one of the log. *)
Lemma last_two_window kb size {R} (log buffer : list R) :
  0 < kb → window kb size log buffer → last_two buffer = last_two log.
Proof.
  intros Hpos [[older ->] _ H2]. specialize (H2 Hpos). rewrite length_app in H2.
  destruct (last_two buffer) as [[p x]|] eqn:E.
  - apply last_two_Some in E as [k ->]. by rewrite app_assoc, last_two_app.
  - symmetry. rewrite last_two_None in *. rewrite length_app. lia.
Qed.

(** ** The trait and its contract *)

Class RecordGenerator `{Os} (G : Type) := {
  refresh_record_of : G → io G;
  records_of : G → list Record_;
  clean_old_records_of : G → outcome G;
}.

Class Contract `{Layout} `{RecordGenerator G} := {
  (** One reading; the limit, and whether the code's arithmetic is exact for it. *)
  reading : G → io (option Record_);
  limit_kb : G → Z;
  fits : Z → Prop;
  fits_range kb : fits kb → 0 <= kb <= 65;
  refresh_reads g w g' w' :
    fits (limit_kb g) → within (limit_kb g) size_Record (length (records_of g)) →
    refresh_record_of g w = Done (g', w') →
    ∃ o, reading g w = Done (o, w') ∧ limit_kb g' = limit_kb g ∧
         records_of g' = keep (limit_kb g) size_Record (records_of g ++ option_list o);
  refresh_total g w o w' :
    fits (limit_kb g) → within (limit_kb g) size_Record (length (records_of g)) →
    reading g w = Done (o, w') → ∃ g', refresh_record_of g w = Done (g', w');
  clean_keeps g g' :
    fits (limit_kb g) → within (limit_kb g) size_Record (length (records_of g)) →
    clean_old_records_of g = Done g' → limit_kb g' = limit_kb g ∧ records_of g' = records_of g;
}.

#[global] Arguments reading {_ _ _ _ _} _.
#[global] Arguments limit_kb {_ _ _ _ _} _.

(** The buffer of a component is the window on its log. *)
Record logged `{Contract G} (log : list Record_) (g : G) : Prop := {
  logged_fits : fits (limit_kb g);
  logged_window : window (limit_kb g) size_Record log (records_of g);
}.

(** The log gains what a reading of the component gives, if anything. *)
Definition gains `{Contract G} (g : G) (log log' : list Record_) : Prop :=
  ∃ o w w', reading g w = Done (o, w') ∧ log' = log ++ option_list o.

Section Client.
Context `{Contract G}.

(** Two components that read the same gain the same. *)
Lemma gains_same g g' log log' : (∀ w, reading g' w = reading g w) → gains g log log' → gains g' log log'.
Proof. intros Hr (o & w & w' & Ho & ->). exists o, w, w'. by rewrite Hr. Qed.

Lemma refresh_logged log g w g' w' :
  logged log g → refresh_record_of g w = Done (g', w') →
  ∃ o, reading g w = Done (o, w') ∧ logged (log ++ option_list o) g'.
Proof.
  intros [Hf Hw] Hr. pose proof (fits_range _ Hf) as Hkb. pose proof size_Record_range as Hs.
  destruct (refresh_reads _ _ _ _ Hf (window_bounded _ _ _ _ Hw) Hr) as (o & Ho & Hl & Hb).
  exists o. split; [done|]. split; rewrite Hl; [done|]. rewrite Hb. destruct o as [r|]; simpl.
  - by apply window_append.
  - rewrite !app_nil_r, keep_within by (done || lia || apply Hw). done.
Qed.

(** What else happens to a component leaves its records alone. *)
Lemma logged_elsewhere log g g' :
  limit_kb g' = limit_kb g → records_of g' = records_of g → logged log g → logged log g'.
Proof. intros Hl Hb [Hf Hw]. split; rewrite Hl; [done|by rewrite Hb]. Qed.

Lemma clean_logged log g g' : logged log g → clean_old_records_of g = Done g' → logged log g'.
Proof.
  intros Hg Hc. pose proof Hg as [Hf Hw]. destruct (clean_keeps _ _ Hf (window_bounded _ _ _ _ Hw) Hc).
  by eapply logged_elsewhere.
Qed.
End Client.

(** ** The implementations

    They share a shape: a reading is stored at the end of a buffer, which is then cleaned when
    it holds something. *)

Definition in_microjoules (r : Record_) : Record_ := mkRecord (r_timestamp r) (r_value r) MicroJoule.

Lemma keep_fmap {A B} kb size (f : A → B) l : f <$> keep kb size l = keep kb size (f <$> l).
Proof. unfold keep. by rewrite fmap_drop, length_fmap. Qed.

(** Short of three elements too many, the eviction of the code keeps as much. *)
Lemma clean_front_keep `{Profile} {A} kb size (l : list A) :
  0 <= kb <= 65 → 0 < size < 2 ^ 16 → size * Z.of_nat (length l) < kb * 1000 + 3 * size →
  clean_front kb size l = Done (keep kb size l).
Proof. intros Hkb Hs Hl. unfold keep. rewrite clean_front_drop by lia. done. Qed.

Section Buffered.
Context `{Layout, Os} {G : Type} (buf : G → list Record_) (set : list Record_ → G → G) (kb : G → Z) (fits : Z → Prop).
Context (read : G → io (option Record_)) (clean : G → outcome G) (refresh : G → io G).
Context (Hfits : ∀ kb, fits kb → 0 <= kb <= 65).
Context (Hset : ∀ b g, buf (set b g) = b ∧ kb (set b g) = kb g).
Context (Hunit : ∀ g w r w', read g w = Done (Some r, w') → in_microjoules r = r).
Context (Hempty : ∀ g, buf g = [] → clean g = Panic).
Context (Hclean : ∀ g, fits (kb g) → buf g ≠ [] →
  size_Record * Z.of_nat (length (buf g)) < kb g * 1000 + 3 * size_Record →
  ∃ g', clean g = Done g' ∧ kb g' = kb g ∧ buf g' = keep (kb g) size_Record (buf g)).
Context (Hrefresh : ∀ g w, refresh g w =
  (o ← read g;
   let g := match o with Some r => set (buf g ++ [r]) g | None => g end in
   match buf g with [] => mret g | _ :: _ => lift (clean g) end) w).

Lemma buffered_clean g w :
  fits (kb g) → size_Record * Z.of_nat (length (buf g)) < kb g * 1000 + 3 * size_Record →
  ∃ g', match buf g with [] => mret g | _ :: _ => lift (clean g) end w = Done (g', w) ∧ kb g' = kb g ∧
        buf g' = keep (kb g) size_Record (buf g).
Proof.
  intros Hf Hl. destruct (decide (buf g = [])) as [E|E].
  - exists g. rewrite E. split; [done|]. split; [done|]. unfold keep. by rewrite drop_nil.
  - destruct (Hclean g Hf E Hl) as (g' & Hc & Hk). exists g'. split; [|done].
    destruct (buf g); [done|]. unfold lift. by rewrite Hc.
Qed.

Lemma buffered_refresh g w :
  fits (kb g) → within (kb g) size_Record (length (buf g)) →
  match read g w with
  | Done (o, w') => ∃ g', refresh g w = Done (g', w') ∧ kb g' = kb g ∧
                          buf g' = keep (kb g) size_Record (buf g ++ option_list o)
  | Panic => refresh g w = Panic
  end.
Proof.
  intros Hf Hw. pose proof size_Record_range. rewrite Hrefresh. unfold mbind, io_bind.
  destruct (read g w) as [[o w']|]; [|done]. unfold within in Hw. destruct o as [r|]; cbv zeta; simpl option_list.
  - destruct (Hset (buf g ++ [r]) g) as [Eb Ek].
    destruct (buffered_clean (set (buf g ++ [r]) g) w') as (g' & Hc & Hk & Hb).
    + by rewrite Ek.
    + rewrite Eb, Ek, length_app. simpl. lia.
    + exists g'. split; [exact Hc|]. by rewrite Hk, Hb, Eb, Ek.
  - rewrite app_nil_r. apply buffered_clean; [done|lia].
Qed.

Definition buffered_contract (R : RecordGenerator G) :
  (∀ g, records_of g = in_microjoules <$> buf g) → refresh_record_of = refresh → clean_old_records_of = clean →
  Contract (H1 := R).
Proof.
  intros Hrec Href Hcl.
  assert (Hlen : ∀ g, length (records_of g) = length (buf g)) by (intros g; by rewrite Hrec, length_fmap).
  assert (Hback : ∀ g w, fits (kb g) → within (kb g) size_Record (length (records_of g)) → _)
    by (intros g w Hf Hw; rewrite Hlen in Hw; exact (buffered_refresh g w Hf Hw)).
  refine (Build_Contract _ _ _ _ read kb fits Hfits _ _ _); rewrite ?Href, ?Hcl.
  - intros g w g' w' Hf Hw Hr. specialize (Hback g w Hf Hw). destruct (read g w) as [[o w1]|] eqn:E; [|congruence].
    destruct Hback as (g1 & Hr' & Hk & Hb). rewrite Hr in Hr'. injection Hr' as <- <-. exists o. split; [done|].
    split; [done|]. rewrite !Hrec, Hb, keep_fmap, fmap_app. do 2 f_equal.
    destruct o; [|done]. simpl. f_equal. by eapply Hunit.
  - intros g w o w' Hf Hw Hr. specialize (Hback g w Hf Hw). rewrite Hr in Hback.
    destruct Hback as (g' & Hr' & _). by exists g'.
  - intros g g' Hf Hw Hc. rewrite Hlen in Hw. pose proof size_Record_range.
    destruct (decide (buf g = [])) as [E|E]; [by rewrite (Hempty g E) in Hc|].
    destruct (Hclean g Hf E) as (g1 & Hc' & Hk & Hb); [unfold within in Hw; lia|].
    rewrite Hc in Hc'. injection Hc' as <-. split; [done|]. rewrite !Hrec, Hb, keep_within; [done|..].
    + destruct (Hfits _ Hf). lia.
    + lia.
    + exact Hw.
Defined.
End Buffered.

(** The domains, the sockets, and the topology, whose size is compared on 16 bits. *)
Section Implementations.
Context `{Profile, Layout, Os, !FileSystem, !Procfs, !PerfEvents, !Sysinfo, !Aya}.

#[export] Instance domain_generator : RecordGenerator Domain := {|
  refresh_record_of := Domain.refresh_record; records_of := Domain.get_records_passive;
  clean_old_records_of := Domain.clean_old_records |}.

#[export] Instance socket_generator : RecordGenerator CPUSocket := {|
  refresh_record_of := Socket.refresh_record; records_of := Socket.get_records_passive;
  clean_old_records_of := Socket.clean_old_records |}.

#[export] Instance topology_generator : RecordGenerator Topology := {|
  refresh_record_of := Topology.refresh_record; records_of := Topology.get_records_passive;
  clean_old_records_of := Topology.clean_old_records |}.

Definition sixteen_bits (kb : Z) : Prop := 0 <= kb <= 65.

#[export] Instance domain_contract : @Contract _ _ Domain domain_generator.
Proof.
  refine (buffered_contract Domain.record_buffer Domain.set_record_buffer Domain.buffer_max_kbytes sixteen_bits
            Domain.read_record Domain.clean_old_records Domain.refresh_record _ _ _ _ _ _ _ _ eq_refl eq_refl);
    try done.
  - intros d w r w'. unfold Domain.read_record. intros (f & w1 & _ & Hr)%io_bind_inv.
    apply io_bind_inv in Hr as (c & w2 & _ & Hr). destruct c; [|done].
    by apply io_bind_inv in Hr as (now & w3 & _ & [= <- _]).
  - intros d E. unfold Domain.clean_old_records. by rewrite E.
  - intros d Hf E Hl. pose proof size_Record_range.
    exists (Domain.set_record_buffer (keep (Domain.buffer_max_kbytes d) size_Record (Domain.record_buffer d)) d).
    split; [|done]. unfold Domain.clean_old_records. rewrite clean_front_keep by done.
    by destruct (Domain.record_buffer d).
Defined.

#[export] Instance socket_contract : @Contract _ _ CPUSocket socket_generator.
Proof.
  refine (buffered_contract Socket.record_buffer Socket.set_record_buffer Socket.buffer_max_kbytes sixteen_bits
            Socket.read_record Socket.clean_old_records Socket.refresh_record _ _ _ _ _ _ _ _ eq_refl eq_refl);
    try done.
  - intros d w r w'. unfold Socket.read_record. intros (f & w1 & _ & Hr)%io_bind_inv.
    apply io_bind_inv in Hr as (c & w2 & _ & Hr). destruct c; [|done].
    by apply io_bind_inv in Hr as (now & w3 & _ & [= <- _]).
  - intros d E. unfold Socket.clean_old_records. by rewrite E.
  - intros s Hf E Hl. pose proof size_Record_range. unfold Socket.clean_old_records.
    rewrite clean_front_keep by done. simpl. destruct (Socket.record_buffer s) as [|r b] eqn:Eb; [done|].
    destruct (Socket.activation_idle_buffer s); [by eexists|].
    unfold clean_front. rewrite limit_bytes_ok by done. simpl. by eexists.
Defined.

Definition below_wrap (kb : Z) : Prop := 0 <= kb ∧ kb * 1000 + 3 * size_Record <= 2 ^ 16.

Definition topology_reading (t : Topology) : io (option Record_) :=
  r ← Topology.read_record t; mret (match r with inl record => Some record | inr _ => None end).

Lemma topology_reading_unit t w r w' : topology_reading t w = Done (Some r, w') → in_microjoules r = r.
Proof.
  unfold topology_reading, Topology.read_record. intros (x & w1 & Hx & [= Hr <-])%io_bind_inv.
  apply io_bind_inv in Hx as (psys & w2 & Hp & Hx). destruct psys as [p|].
  - injection Hx as <- <-. injection Hr as <-. unfold get_rapl_psys_energy_microjoules in Hp.
    destruct (Topology.sensor_data t !! _); [|done]. apply io_bind_inv in Hp as (c & w3 & _ & Hp). destruct c; [|done].
    by apply io_bind_inv in Hp as (now & w4 & _ & [= <- _]).
  - apply io_bind_inv in Hx as (total & w3 & _ & Hx). apply io_bind_inv in Hx as (now & w4 & _ & [= <- _]).
    by injection Hr as <-.
Qed.

#[export] Instance topology_contract : @Contract _ _ Topology topology_generator.
Proof.
  refine (buffered_contract Topology.record_buffer Topology.set_record_buffer Topology.buffer_max_kbytes below_wrap
            topology_reading Topology.clean_old_records Topology.refresh_record _ _ _ _ _ _ _ _ eq_refl eq_refl);
    try done.
  - intros kb [Hp Hl]. pose proof size_Record_range. lia.
  - intros t w r w'. apply topology_reading_unit.
  - intros t E. unfold Topology.clean_old_records. by rewrite E.
  - intros t [Hp Hf] E Hl. pose proof size_Record_range.
    exists (Topology.set_record_buffer (keep (Topology.buffer_max_kbytes t) size_Record (Topology.record_buffer t)) t).
    split; [|done]. unfold Topology.clean_old_records.
    assert (Hne : ∀ (A : Type) (x y : A), match Topology.record_buffer t with [] => x | _ :: _ => y end = y)
      by (intros; by destruct (Topology.record_buffer t)).
    rewrite Hne, limit_bytes_ok by lia. simpl.
    set (len := Z.of_nat (length (Topology.record_buffer t))) in *.
    assert (cast 16 (size_Record * len) = size_Record * len) as -> by (unfold cast; apply Z.mod_small; lia).
    change (if _ <? _ then _ else 0) with (evictions (Topology.buffer_max_kbytes t * 1000) size_Record len).
    unfold keep, evicted. rewrite remove_first_drop, evictions_exact by lia. done.
  - intros t w. unfold Topology.refresh_record, topology_reading, mbind, io_bind.
    destruct (Topology.read_record t w) as [[[r|e] w']|]; reflexivity.
Defined.
End Implementations.

(** ** The refresh of a topology *)

(** A log for each buffer: the host, and each socket with its domains. *)
Record Logs := mkLogs { log_host : list Record_; log_sockets : list (list Record_ * list (list Record_)) }.

Section Refresh.
Context `{Profile, Layout, Os, !FileSystem, !Procfs, !PerfEvents, !Sysinfo, !Aya}.

Definition socket_logged (l : list Record_ * list (list Record_)) (s : CPUSocket) : Prop :=
  logged l.1 s ∧ Forall2 logged l.2 (domains s).

Definition all_logged (L : Logs) (t : Topology) : Prop :=
  logged (log_host L) t ∧ Forall2 socket_logged (log_sockets L) (sockets t).

(** Each log gains a reading of its component. *)
Definition socket_gains (s : CPUSocket) (l l' : list Record_ * list (list Record_)) : Prop :=
  gains s l.1 l'.1 ∧ Forall3 gains (domains s) l.2 l'.2.

Definition logs_grow (t : Topology) (L L' : Logs) : Prop :=
  gains t (log_host L) (log_host L') ∧ Forall3 socket_gains (sockets t) (log_sockets L) (log_sockets L').

(** What is read depends on the keys only. *)
Lemma domain_reads d d' w : domain_key d' = domain_key d → Domain.read_record d' w = Domain.read_record d w.
Proof. unfold Domain.read_record. intros [= _ _ ->]. done. Qed.

Lemma socket_reads s s' w : socket_key s' = socket_key s → Socket.read_record s' w = Socket.read_record s w.
Proof. unfold Socket.read_record. intros [= _ -> _]. done. Qed.

Lemma io_bind_ext {A B} (m m' : io A) (f f' : A → io B) w :
  (∀ w, m' w = m w) → (∀ a w, f' a w = f a w) → (m' ≫= f') w = (m ≫= f) w.
Proof. intros Hm Hf. unfold mbind, io_bind. rewrite Hm. destruct (m w) as [[a w']|]; [apply Hf|done]. Qed.

(** A fold over what has the same keys. *)
Lemma io_fold_ext {A K S} (key : A → K) (f : S → A → io S) l l' :
  (∀ x x' st w, key x' = key x → f st x' w = f st x w) → key <$> l' = key <$> l →
  ∀ st w, io_fold f st l' w = io_fold f st l w.
Proof.
  intros Hf. revert l'. induction l as [|x l IH]; intros [|x' l'] [=]; intros st w; [done|]. simpl.
  apply io_bind_ext; [intros; by apply Hf|intros; by apply IH].
Qed.

Lemma socket_energy_same total s s' w :
  socket_key s' = socket_key s → add_socket_energy total s' w = add_socket_energy total s w.
Proof.
  intros Hs. unfold add_socket_energy. apply io_bind_ext; [intros; by apply socket_reads|].
  intros r w1. apply io_bind_ext; [done|]. intros n w2. apply (io_fold_ext domain_key); [|by injection Hs].
  intros d d' st w3 Hd. pose proof (λ w, domain_reads d d' w Hd) as Hr. injection Hd as _ -> _.
  case_decide; [|done]. by apply io_bind_ext.
Qed.

Lemma topology_reads t t' w :
  skeleton t' = skeleton t → Topology.sensor_data t' = Topology.sensor_data t →
  topology_reading t' w = topology_reading t w.
Proof.
  intros Hs Hd. unfold topology_reading. apply io_bind_ext; [|done]. intros w1. unfold Topology.read_record.
  apply io_bind_ext; [intros w2; unfold get_rapl_psys_energy_microjoules; by rewrite Hd|].
  intros [r|] w2; [done|]. apply io_bind_ext; [|done]. intros w3.
  apply (io_fold_ext socket_key); [|exact Hs]. intros. by apply socket_energy_same.
Qed.

Lemma domains_gain ds ds' ls ls' :
  domain_key <$> ds' = domain_key <$> ds → Forall3 gains ds ls ls' → Forall3 gains ds' ls ls'.
Proof.
  intros Hk Hall. revert ds' Hk. induction Hall as [|d l l' ds ls ls' Hg Hall IH]; intros [|d' ds'] Hk; try done; [constructor|].
  rewrite !fmap_cons in Hk. assert (domain_key d' = domain_key d ∧ domain_key <$> ds' = domain_key <$> ds) as [Hd Hds]
    by (split; congruence).
  constructor; [|by apply IH]. eapply gains_same; [|exact Hg]. intros w. by apply domain_reads.
Qed.

(** What a step leaves alone. *)
Definition buffer_of (t : Topology) : list Record_ * Z * gmap string string :=
  (Topology.record_buffer t, Topology.buffer_max_kbytes t, Topology.sensor_data t).

Lemma logged_buffer log t t' : buffer_of t' = buffer_of t → logged log t → logged log t'.
Proof.
  intros [= Hb Hk _]. apply logged_elsewhere; [done|]. simpl. unfold Topology.get_records_passive. by rewrite Hb.
Qed.

Lemma drain_buffer t w t' w' : refresh_activation_idle_records t w = Done (t', w') → buffer_of t' = buffer_of t.
Proof.
  unfold refresh_activation_idle_records. destruct (cpu_state_buffer t); [|by intros [= <- _]].
  by intros (ev & w1 & _ & [= <- _])%io_bind_inv.
Qed.

Lemma take_buffer ids t : buffer_of (take_idle_records ids t).1 = buffer_of t.
Proof.
  revert t. induction ids as [|i ids IH]; intros t; simpl; [done|].
  specialize (IH (get_activation_idle_records i t).1). simpl in IH. by destruct (take_idle_records ids _).
Qed.

Lemma cores_buffer t w t' w' : refresh_core_idle_records t w = Done (t', w') → buffer_of t' = buffer_of t.
Proof. unfold refresh_core_idle_records. by intros (l & w1 & _ & [= <- _])%io_bind_inv. Qed.

Lemma procs_buffer t w t' w' : refresh_procs t w = Done (t', w') → buffer_of t' = buffer_of t.
Proof.
  unfold refresh_procs. intros (sys & w1 & _ & Hr)%io_bind_inv. apply io_bind_inv in Hr as (ps & w2 & _ & Hr).
  by apply io_bind_inv in Hr as (pt & w3 & _ & [= <- _]).
Qed.

Lemma cpu_time_buffer_of t w t' w' : refresh_cpu_time_record t w = Done (t', w') → buffer_of t' = buffer_of t.
Proof.
  unfold refresh_cpu_time_record. destruct (cpu_time_map t); [|by intros [= <- _]].
  intros (v & w1 & _ & Hr)%io_bind_inv. apply io_bind_inv in Hr as (now & w2 & _ & Hr).
  apply lift_inv in Hr as [Hr _]. unfold clean_old_cpu_time_records in Hr.
  destruct (cpu_time_buffer _); [by injection Hr as <-|]. by apply bind_Done_inv in Hr as (n & _ & [= <-]).
Qed.

Lemma stats_buffer t w t' w' : Topology.refresh_stats t w = Done (t', w') → buffer_of t' = buffer_of t.
Proof.
  unfold Topology.refresh_stats. intros (st & w1 & _ & Hr)%io_bind_inv. destruct st; [|by injection Hr as <- _].
  apply lift_inv in Hr as [Hr _]. unfold Topology.clean_old_stats in Hr. cbn [Topology.stat_buffer Topology.set_stat_buffer] in Hr.
  by apply bind_Done_inv in Hr as (n & _ & [= <-]).
Qed.

Lemma refresh_host_logged log t w t' w' :
  logged log t → Topology.refresh t w = Done (t', w') → ∃ log', gains t log log' ∧ logged log' t'.
Proof.
  intros Hl Hr0. pose proof (refresh_skeleton _ _ _ _ Hr0) as Hsk. revert Hr0. unfold Topology.refresh. intros (t1 & w1 & H1'%drain_buffer & Hr)%io_bind_inv.
  pose proof (take_buffer (Socket.id <$> sockets t1) t1) as H2'. destruct (take_idle_records _ t1) as [t2 rs].
  apply io_bind_inv in Hr as (l & w2 & _ & Hr). apply io_bind_inv in Hr as (pt & w3 & _ & Hr).
  apply io_bind_inv in Hr as (t3 & w4 & H3'%cores_buffer & Hr). apply io_bind_inv in Hr as (t4 & w5 & H4'%procs_buffer & Hr).
  apply io_bind_inv in Hr as (t5 & w6 & H5'%cpu_time_buffer_of & Hr).
  apply io_bind_inv in Hr as (t6 & w7 & H6' & Hst).
  pose proof (stats_buffer _ _ _ _ Hst) as H7'. apply stats_tracked in Hst.
  pose proof (record_tracked _ _ _ _ H6') as Ht6. unfold tracked in Hst, Ht6. injection Hst as Hst _ _. injection Ht6 as Ht6 _ _.
  assert (Hb5 : buffer_of t5 = buffer_of t) by (by rewrite H5', H4', H3', <- H1', <- H2').
  assert (Hl5 : logged log t5).
  { by eapply logged_buffer. }
  destruct (refresh_logged _ _ _ _ _ Hl5 H6') as (o & Ho & Hl6). exists (log ++ option_list o).
  split; [|by eapply logged_buffer]. apply (gains_same t5); [|by exists o, w6, w7].
  intros w8. symmetry. apply topology_reads; [|unfold buffer_of in Hb5; congruence]. by rewrite <- Hsk; unfold skeleton; rewrite Hst, Ht6.
Qed.

Lemma domains_logged ls (ds : list Domain) w ds' w' :
  Forall2 logged ls ds → io_map Domain.refresh_record ds w = Done (ds', w') →
  ∃ ls', Forall3 gains ds ls ls' ∧ Forall2 logged ls' ds'.
Proof.
  intros Hl. revert w ds' w'. induction Hl as [|l d ls ds Hd Hl IH]; intros w ds' w'; simpl.
  - intros [= <- _]. exists []. split; constructor.
  - intros (d' & w1 & Hr & Hrest)%io_bind_inv. apply io_bind_inv in Hrest as (k & w2 & Hk & [= <- _]).
    destruct (refresh_logged _ _ _ _ _ Hd Hr) as (o & Ho & Hd'). destruct (IH _ _ _ Hk) as (ls' & Hg & Hls).
    exists ((l ++ option_list o) :: ls'). split; constructor; [by exists o, w, w1|done..].
Qed.

Lemma domains_records ls (ds ds' : list Domain) :
  Forall2 (λ d d', limit_kb d' = limit_kb d ∧ records_of d' = records_of d) ds ds' →
  Forall2 logged ls ds → Forall2 logged ls ds'.
Proof.
  intros Hs. revert ls. induction Hs as [|d d' ds ds' [Hk Hb] Hs IH]; intros ls Hl; inversion_clear Hl; constructor.
  - by eapply logged_elsewhere.
  - by apply IH.
Qed.

Lemma distribute_logged l s : socket_logged l s → socket_logged l (distribute_background_to_domains s).
Proof.
  unfold distribute_background_to_domains. destruct (feqb _ _); [done|]. intros [Hs Hd].
  split; [eapply (logged_elsewhere _ s); [done..|exact Hs]|]. eapply domains_records; [|exact Hd].
  generalize (background_share (default F64.zero (parse_f64 (background_value s)))
    (power_f64 (Socket.get_records_diff_power_microwatts s)) (F64.of_Z (Z.of_nat (length (domains s))))). intros f.
  simpl. clear. induction (domains s) as [|d ds IH]; [constructor|]. by constructor.
Qed.

(** Steps of a socket that leave its records and its domains alone. *)
Lemma socket_logged_elsewhere l s s' :
  Socket.buffer_max_kbytes s' = Socket.buffer_max_kbytes s → Socket.record_buffer s' = Socket.record_buffer s →
  domains s' = domains s → socket_logged l s → socket_logged l s'.
Proof.
  intros Hk Hb Hd [Hs Hds]. split; [|by rewrite Hd]. eapply logged_elsewhere; [exact Hk| |exact Hs].
  simpl. unfold Socket.get_records_passive. by rewrite Hb.
Qed.

Lemma refresh_socket_logged l s rs w s' w' :
  socket_logged l s → refresh_socket s rs w = Done (s', w') →
  ∃ l', socket_gains s l l' ∧ socket_logged l' s'.
Proof.
  intros Hl. unfold refresh_socket. intros (s1 & w1 & H1' & Hr)%io_bind_inv.
  pose proof (socket_estimates_key _ _ _ _ _ H1') as Hk1. rewrite <- distribute_key in Hk1.
  assert (Hl1 : socket_logged l s1).
  { unfold Socket.refresh_activation_idle_records in H1'. apply io_bind_inv in H1' as (o & w2 & _ & H1').
    destruct o; injection H1' as <- _; [eapply (socket_logged_elsewhere _ s); [done..|exact Hl]|exact Hl]. }
  apply distribute_logged in Hl1. cbv zeta in Hr. apply io_bind_inv in Hr as (s2 & w2 & H2' & Hr).
  assert (Hds2 : domains s2 = domains (distribute_background_to_domains s1)).
  { unfold Socket.refresh_record in H2'. apply io_bind_inv in H2' as (o & w3 & _ & H2').
    set (e := match o with Some _ => _ | None => distribute_background_to_domains s1 end) in *.
    assert (He : domains e = domains (distribute_background_to_domains s1)) by (unfold e; by destruct o).
    rewrite <- He. clearbody e. destruct (Socket.record_buffer e) eqn:E; [by injection H2' as <- _|].
    apply lift_inv in H2' as [H2' _]. unfold Socket.clean_old_records in H2'. rewrite E in H2'.
    apply bind_Done_inv in H2' as (b & _ & H2'). cbn [Socket.activation_idle_buffer Socket.set_record_buffer] in H2'.
    destruct (Socket.activation_idle_buffer e); [by injection H2' as <-|].
    by apply bind_Done_inv in H2' as (b' & _ & [= <-]). }
  pose proof (socket_refresh_record_key _ _ _ _ H2') as Hk2. rewrite Hk1 in Hk2.
  destruct Hl1 as [Hs1 Hd1]. destruct (refresh_logged _ _ _ _ _ Hs1 H2') as (o & Ho & Hs2). rewrite <- Hds2 in Hd1.
  apply io_bind_inv in Hr as (s3 & w3 & H3' & Hr).
  pose proof (socket_stats_key _ _ _ _ H3') as Hk3. rewrite Hk2 in Hk3.
  assert (Hl3 : socket_logged (l.1 ++ option_list o, l.2) s3).
  { eapply socket_logged_elsewhere; [..|split; [exact Hs2|exact Hd1]]; unfold Socket.refresh_stats in H3';
      apply io_bind_inv in H3' as (e & w4 & He & H3'); apply io_bind_inv in H3' as (st & w5 & _ & H3');
      apply io_bind_inv in H3' as (st' & w6 & _ & [= <- _]); simpl;
      (destruct (Socket.stat_buffer s2) eqn:E; [by injection He as <- _|]); apply lift_inv in He as [He _];
      unfold Socket.clean_old_stats in He; rewrite E in He; by apply bind_Done_inv in He as (b & _ & [= <-]). }
  apply io_bind_inv in Hr as (ds & w4 & Hds & [= <- _]). destruct Hl3 as [Hs3 Hd3].
  destruct (domains_logged _ _ _ _ _ Hd3 Hds) as (ls' & Hg & Hls).
  exists (l.1 ++ option_list o, ls'). split; [split|].
  { exists o, w1, w2. split; [|done]. rewrite <- Ho. symmetry. by apply socket_reads. }
  { eapply domains_gain; [|exact Hg]. unfold socket_key in Hk3. congruence. }
  split; [eapply (logged_elsewhere _ s3); [done..|exact Hs3]|exact Hls].
Qed.

Lemma refresh_sockets_logged L (l : list CPUSocket) rs w k w' :
  Forall2 socket_logged L l → length rs = length l →
  io_map (λ x : CPUSocket * list CpuStateEvent, refresh_socket x.1 x.2) (zip l rs) w = Done (k, w') →
  ∃ L', Forall3 socket_gains l L L' ∧ Forall2 socket_logged L' k.
Proof.
  intros Hl. revert rs w k w'. induction Hl as [|x s L l Hs Hl IH]; intros rs w k w' Hlen.
  - intros [= <- _]. exists []. split; constructor.
  - destruct rs as [|r rs]; [done|]. simpl. intros (s' & w1 & Hr & Hrest)%io_bind_inv.
    apply io_bind_inv in Hrest as (k' & w2 & Hk & [= <- _]).
    destruct (refresh_socket_logged _ _ _ _ _ _ Hs Hr) as (x' & Hg & Hs').
    injection Hlen as Hlen.
    destruct (IH _ _ _ _ Hlen Hk) as (L' & HL & Hk'). exists (x' :: L'). by split; constructor.
Qed.

Lemma other_cores_logged L l l' : Forall2 other_cores l l' → Forall2 socket_logged L l → Forall2 socket_logged L l'.
Proof.
  intros Hc. revert L. induction Hc as [|s s' l l' -> Hc IH]; intros L Hl; inversion_clear Hl; constructor.
  - eapply (socket_logged_elsewhere _ s); done.
  - by apply IH.
Qed.

(** The last two records of each buffer, of which a power is made. *)
Definition pairs_of_logs (L : Logs) (t : Topology) : Prop :=
  (0 < Topology.buffer_max_kbytes t → last_two (records_of t) = last_two (log_host L)) ∧
  Forall2 (λ l s, (0 < Socket.buffer_max_kbytes s → last_two (records_of s) = last_two l.1) ∧
                  Forall2 (λ k d, 0 < Domain.buffer_max_kbytes d → last_two (records_of d) = last_two k) l.2 (domains s))
    (log_sockets L) (sockets t).

Lemma logged_pair `{Contract G} log g : logged log g → 0 < limit_kb g → last_two (records_of g) = last_two log.
Proof. intros [_ Hw] Hpos. by eapply last_two_window. Qed.

Lemma all_logged_pairs L t : all_logged L t → pairs_of_logs L t.
Proof.
  intros [Ht Hs]. split; [intros Hpos; by eapply logged_pair|]. eapply Forall2_impl; [exact Hs|].
  intros l s [Hl Hd]. split; [intros Hpos; by eapply logged_pair|]. eapply Forall2_impl; [exact Hd|].
  intros k d Hk Hpos. by eapply logged_pair.
Qed.

(** C11: the buffers of the host, of the sockets and of the domains refine logs of all that was
    ever read: a refresh of the topology adds to each log what one reading of its component
    gives, if anything, and nothing else changes in it; each buffer is again the window on its log that its limit leaves: its
    newest records, within the limit and two elements more, and with the last two of the log
    unless the limit is zero, so that every power is the one that the whole log would give. *)
Theorem buffers_refine_logs L t w t' w' :
  all_logged L t → Topology.refresh t w = Done (t', w') →
  ∃ L', logs_grow t L L' ∧ all_logged L' t' ∧ pairs_of_logs L' t'.
Proof.
  intros [Hh Hs] Hr. destruct (refresh_host_logged _ _ _ _ _ Hh Hr) as (h' & Hg & Hh').
  pose proof Hr as Hr0. unfold Topology.refresh in Hr0. apply io_bind_inv in Hr0 as (t1 & w1 & Hd & _).
  destruct (refresh_parts _ _ _ _ _ _ Hd Hr) as (l & w2 & Hl & Hc & _).
  assert (Hlen : length (take_idle_records (Socket.id <$> sockets t) t1).2 = length (sockets t)).
  { destruct (take_idle_records _ t1) as [t2 rs] eqn:E. apply take_idle_records_sockets in E as [_ E].
    by rewrite length_fmap in E. }
  destruct (refresh_sockets_logged _ _ _ _ _ _ Hs Hlen Hl) as (S' & HS & Hl'). exists (mkLogs h' S').
  split; [by split|]. assert (all_logged (mkLogs h' S') t') as Ht' by (split; [done|by eapply other_cores_logged]).
  split; [done|by apply all_logged_pairs].
Qed.

(** A topology that was never refreshed, with limits that fit. *)
Definition fresh_socket (s : CPUSocket) : Prop :=
  Socket.record_buffer s = [] ∧ sixteen_bits (Socket.buffer_max_kbytes s) ∧
  Forall (λ d, Domain.record_buffer d = [] ∧ sixteen_bits (Domain.buffer_max_kbytes d)) (domains s).

Definition fresh (t : Topology) : Prop :=
  Topology.record_buffer t = [] ∧ below_wrap (Topology.buffer_max_kbytes t) ∧ Forall fresh_socket (sockets t).

#[export] Instance sixteen_bits_dec kb : Decision (sixteen_bits kb).
Proof. unfold sixteen_bits. apply _. Defined.

#[export] Instance below_wrap_dec kb : Decision (below_wrap kb).
Proof. unfold below_wrap. apply _. Defined.

#[export] Instance fresh_socket_dec s : Decision (fresh_socket s).
Proof. unfold fresh_socket. apply _. Defined.

#[export] Instance fresh_dec t : Decision (fresh t).
Proof. unfold fresh. apply _. Defined.

Definition empty_logs (t : Topology) : Logs :=
  mkLogs [] ((λ s, ([], (λ _, []) <$> domains s)) <$> sockets t).

Lemma logged_nil `{Contract G} g : fits (limit_kb g) → records_of g = [] → logged [] g.
Proof.
  intros Hf Hb. split; [done|]. rewrite Hb. pose proof size_Record_range. apply fits_range in Hf.
  apply window_nil; lia.
Qed.

Lemma fresh_logged t : fresh t → all_logged (empty_logs t) t.
Proof.
  intros (Hb & Hf & Hs). split.
  - apply logged_nil; [exact Hf|]. simpl. unfold Topology.get_records_passive. by rewrite Hb.
  - apply Forall2_fmap_l, Forall_Forall2_diag. eapply Forall_impl; [exact Hs|]. intros s (Hsb & Hsf & Hd). split.
    + apply logged_nil; [exact Hsf|]. simpl. unfold Socket.get_records_passive. by rewrite Hsb.
    + apply Forall2_fmap_l, Forall_Forall2_diag. eapply Forall_impl; [exact Hd|]. intros d [Hdb Hdf].
      apply logged_nil; [exact Hdf|]. simpl. unfold Domain.get_records_passive. by rewrite Hdb.
Qed.
End Refresh.
