(* ===== verification/Attribution.v ===== *)
(** * Host metrics and attribution of power ([sensors/mod.rs], Topology)

    What the exporters ask the topology for: the power of the host and of its cores, the
    power and the resources of a process, and the metrics the system library provides.

    A process is charged, on each core, the share of the core's power that its busy time
    takes in the core's busy time.  Both times come from the eBPF maps; without them the
    share is estimated from the process's share of the CPU time of the host. *)

From S2P Require Import Prelude Floats Text FloatText Units Env Simulated Records Energy Common.
From S2P Require Import Domain Core Socket ProcTracker Bpf Topology.
From Stdlib Require Import SpecFloat.

Section Attribution.
Context `{Profile, Layout, Os, !FileSystem, !Procfs, !PerfEvents, !Sysinfo, !Aya}.

(** ** CPU time deltas *)

(** [u64::MAX - pv + lv], from left to right, when the counter went back. *)
Definition time_delta (lv pv : Z) : outcome Z :=
  if pv <=? lv then usub 64 lv pv
  else d ← usub 64 (umax 64) pv; uadd 64 d lv.

Definition value_or_0 (s : string) : Z := default 0 (parse_uint 64 s).

Definition get_cpu_time_diff (t : Topology) : outcome (option MultiValuedRecord) :=
  match last_two (cpu_time_buffer t) with
  | None => Done None
  | Some (prev, last) =>
      diffs ← traverse (λ x : string * string, show_uint <$> time_delta (value_or_0 x.1) (value_or_0 x.2))
                (zip (m_values last) (m_values prev));
      if forallb (String.eqb "0") diffs then Done None
      else Done (Some (mkMultiValuedRecord (m_timestamp last) diffs (m_units last)))
  end.

(** ** Power of the host *)

Definition idle_power (t : Topology) : outcome Z := usum 64 0 (idle_u64 <$> sockets t).
Definition activation_power (t : Topology) : outcome Z := usum 64 0 (activation_u64 <$> sockets t).

Definition get_idle_power_microwatts (t : Topology) : io (option Record_) :=
  total ← lift (idle_power t); stamped (Some (show_uint total)) MicroWatt.

Definition get_activation_power_microwatts (t : Topology) : io (option Record_) :=
  total ← lift (activation_power t); stamped (Some (show_uint total)) MicroWatt.

Definition background_power (t : Topology) : outcome Z :=
  idle ← idle_power t; activation ← activation_power t; Done (Z.max idle activation).

Definition get_background_power_microwatts (t : Topology) : io (option Record_) :=
  total ← lift (background_power t); stamped (Some (show_uint total)) MicroWatt.

(** Three records are needed. *)
Definition get_records_diff (t : Topology) : outcome (option Record_) :=
  if 2 <? Z.of_nat (length (record_buffer t)) then
    match last_two (record_buffer t) with
    | Some (previous, last) =>
        last_value ← unwrap (value_u64 last);
        previous_value ← unwrap (value_u64 previous);
        if previous_value <=? last_value then
          diff ← usub 64 last_value previous_value;
          Done (Some (mkRecord (r_timestamp last) (show_uint diff) (r_unit last)))
        else Done None
    | None => Done None
    end
  else Done None.

Definition get_records_diff_power_microwatts (t : Topology) : outcome (option Record_) :=
  match last_two (record_buffer t) with
  | None => Done None
  | Some (previous_record, last_record) =>
      background_conso ← background_power t;
      match parse_uint 128 (trim (r_value previous_record)),
            parse_uint 128 (trim (r_value last_record)) with
      | Some previous_microjoules, Some last_microjoules =>
          if last_microjoules <? previous_microjoules then Done None
          else
            Done (Some (mkRecord (r_timestamp last_record)
              (show_uint (net_power (last_microjoules - previous_microjoules)
                            (r_timestamp last_record) (r_timestamp previous_record) background_conso))
              MicroWatt))
      | _, _ => Done None
      end
  end.

(** ** Power of the cores *)

Definition get_cores (t : Topology) : list CPUCore :=
  sort_by_key Core.id (mjoin (Socket.get_cores <$> sockets t)).

(** The powers of all the cores, by core id; [None] as soon as a socket has none. *)
Definition socket_core_powers (s : CPUSocket) : option (list (Z * string)) :=
  powers ← core_powers s; Some (zip (Core.id <$> Socket.get_cores s) powers).

Definition core_powers (t : Topology) : option (list string) :=
  v ← mapM socket_core_powers (sockets t);
  Some (snd <$> sort_by_key fst (mjoin v)).

Definition get_proportional_core_diff_power_microwatts (t : Topology) : io (option MultiValuedRecord) :=
  match core_powers t with
  | Some v =>
      now ← current_system_time_since_epoch;
      mret (Some (mkMultiValuedRecord now v ((λ _, MicroWatt) <$> v)))
  | None => mret None
  end.

Definition get_core_coefs (t : Topology) : list float :=
  snd <$> sort_by_key fst
    (mjoin ((λ s, zip (Core.id <$> Socket.get_cores s) (Socket.get_core_coefs s)) <$> sockets t)).

Definition get_core_proportions (t : Topology) : list float := proportions (get_core_coefs t).

(** ** Shares of a process *)

(** [(process_ns / total_ns).min(1.0)], or 0 when the core was not busy. *)
Definition core_share (process_ns total_ns : Z) : float :=
  if 0 <? total_ns then fmin (F64.div (F64.of_Z process_ns) (F64.of_Z total_ns)) F64.one
  else F64.zero.

Definition nth_ns (l : list Z) (c : CPUCore) : outcome Z := unwrap (l !! Z.to_nat (Core.id c)).

Definition total_ns_of (diff : MultiValuedRecord) (c : CPUCore) : Z :=
  default 0 (v ← m_values diff !! Z.to_nat (Core.id c); parse_uint 64 v).

Definition get_process_core_time_data (p : Z) (t : Topology)
    : outcome (option (list Z * list Z * list float)) :=
  let cores := get_cores t in
  core_time_deltas ← get_per_core_cpu_time_delta p (proc_tracker t);
  match core_time_deltas with
  | None => Done None
  | Some deltas =>
      cpu_time_diff ← get_cpu_time_diff t;
      match cpu_time_diff with
      | None => Done None
      | Some diff =>
          let total_ns := total_ns_of diff <$> cores in
          proportions ← traverse (λ c, let total := total_ns_of diff c in
            if 0 <? total then d ← nth_ns deltas c; Done (core_share d total) else Done F64.zero) cores;
          proc_ns ← traverse (nth_ns deltas) cores;
          Done (Some (proc_ns, total_ns, proportions))
      end
  end.

(** The estimate without eBPF data. *)
Definition estimated_share (process_cpu_percentage : float) (m : option CPUCoreMetrics) : float :=
  match m with
  | Some m => F64.mul (F64.div process_cpu_percentage (F64.of_Z 100))
                      (F64.div (cpu_time_percentage m) (F64.of_Z 100))
  | None => F64.zero
  end.

Definition get_process_core_proportions (p : Z) (t : Topology) : outcome (option (list float)) :=
  data ← get_process_core_time_data p t;
  match data with
  | Some (_, _, proportions) => Done (Some proportions)
  | None =>
      Done (process_cpu_percentage ← get_process_cpu_time_delta_as_percentage p (proc_tracker t);
            Some ((λ c, estimated_share process_cpu_percentage (get_core_metrics_delta c)) <$> get_cores t))
  end.

(** The sum over the cores of their power times the share of the process; indexing the
    shares panics when there are fewer of them than powers. *)
Definition process_power (powers : list string) (shares : list float) : outcome float :=
  l ← traverse (λ x : nat * string,
        percentage ← unwrap (shares !! x.1);
        Done (F64.mul (default F64.zero (parse_f64 x.2)) percentage))
        (imap pair powers);
  Done (F64.sum l).

(** ** Metrics of a process *)

Definition csv {A} (show : A → string) (l : list A) : string := join "," (show <$> l).

Definition get_all_per_process (p : Z) (t : Topology)
    : outcome (option (gmap string (string * Record_))) :=
  match get_process_last_record p (proc_tracker t) with
  | None => Done (Some ∅)
  | Some record =>
      let r := process record in
      let add (name description value : string) (u : Unit) (res : gmap string (string * Record_)) :=
        <[name := (description, mkRecord (timestamp record) value u)]> res in
      ebpf_core_data ← get_process_core_time_data p t;
      core_percentages ← get_process_core_proportions p t;
      let res :=
        match get_process_cpu_time_delta_as_percentage p (proc_tracker t) with
        | Some process_cpu_percentage =>
            add "scaph_process_disk_total_read_bytes" "Total data read on disk by the process, in bytes"
                (show_uint (total_disk_read r)) Bytes
            (add "scaph_process_disk_total_write_bytes" "Total data written on disk by the process, in bytes"
                (show_uint (total_disk_written r)) Bytes
            (add "scaph_process_disk_read_bytes" "Data read on disk by the process, in bytes"
                (show_uint (disk_read r)) Bytes
            (add "scaph_process_disk_write_bytes" "Data written on disk by the process, in bytes"
                (show_uint (disk_written r)) Bytes
            (add "scaph_process_memory_bytes" "Physical RAM usage by the process, in bytes"
                (show_uint (memory r)) Bytes
            (add "scaph_process_memory_virtual_bytes" "Virtual RAM usage by the process, in bytes"
                (show_uint (virtual_memory r)) Percentage
            (add "scaph_process_cpu_usage_percentage"
                "CPU time consumed by the process, as a percentage of the capacity of all the CPU Cores"
                (show_f64 process_cpu_percentage) Percentage ∅))))))
        | None => ∅
        end in
      match core_percentages with
      | None => Done (Some res)
      | Some shares =>
          result ← match core_powers t with
                   | Some powers => process_power powers shares
                   | None => Done F64.zero
                   end;
          let res := add "scaph_process_power_consumption_microwatts"
                         "Total data read on disk by the process, in bytes" (show_f64 result) MicroWatt res in
          match ebpf_core_data with
          | Some (proc_ns, total_ns, proportions) =>
              Done (Some (
                add "scaph_process_core_proportion"
                    "Per-core fraction of CPU time used by this process (CSV, indexed by logical CPU)"
                    (csv show_f64 proportions) Numeric
                (add "scaph_process_core_total_time_ns"
                    "Per-core total CPU busy time delta in nanoseconds (CSV, indexed by logical CPU)"
                    (csv show_uint total_ns) Numeric
                (add "scaph_process_core_time_ns"
                    "Per-core process busy time delta in nanoseconds (CSV, indexed by logical CPU)"
                    (csv show_uint proc_ns) Numeric res))))
          | None => Done (Some res)
          end
      end
  end.

(** One metric of the newest record of a process. *)
Definition process_metric (f : IProcess → string) (u : Unit) (p : Z) (t : Topology) : option Record_ :=
  (λ r, mkRecord (timestamp r) (f (process r)) u) <$> get_process_last_record p (proc_tracker t).

Definition get_process_cpu_usage_percentage (p : Z) (t : Topology) : option Record_ :=
  process_metric (λ r, show_f32 (F32.div (cpu_usage_percentage r) (F32.of_Z (nb_cores (proc_tracker t)))))
    Percentage p t.
Definition get_process_memory_virtual_bytes : Z → Topology → option Record_ :=
  process_metric (λ r, show_uint (virtual_memory r)) Bytes.
Definition get_process_memory_bytes : Z → Topology → option Record_ :=
  process_metric (λ r, show_uint (memory r)) Bytes.
Definition get_process_disk_written_bytes : Z → Topology → option Record_ :=
  process_metric (λ r, show_uint (disk_written r)) Bytes.
Definition get_process_disk_read_bytes : Z → Topology → option Record_ :=
  process_metric (λ r, show_uint (disk_read r)) Bytes.
Definition get_process_disk_total_read_bytes : Z → Topology → option Record_ :=
  process_metric (λ r, show_uint (total_disk_read r)) Bytes.
Definition get_process_disk_total_write_bytes : Z → Topology → option Record_ :=
  process_metric (λ r, show_uint (total_disk_written r)) Bytes.

Definition get_process_power_consumption_microwatts (p : Z) (t : Topology) : outcome (option Record_) :=
  match get_process_last_record p (proc_tracker t) with
  | None => Done None
  | Some record =>
      process_cpu_percentage ← unwrap (get_process_cpu_usage_percentage p t);
      topo_conso ← get_records_diff_power_microwatts t;
      match topo_conso with
      | Some conso =>
          conso_f64 ← unwrap (parse_f64 (r_value conso));
          percentage ← unwrap (parse_f64 (r_value process_cpu_percentage));
          Done (Some (mkRecord (timestamp record)
            (show_f64 (F64.div (F64.mul conso_f64 percentage) (F64.of_Z 100))) MicroWatt))
      | None => Done None
      end
  end.

(** ** Metrics of the system *)

Definition read_nb_process_total_count : io (option Z) :=
  ks ← read_kernel_stats; mret (ks_processes <$> ks).
Definition read_nb_process_running_current : io (option Z) :=
  ks ← read_kernel_stats; mret (ks ≫= ks_procs_running).
Definition read_nb_process_blocked_current : io (option Z) :=
  ks ← read_kernel_stats; mret (ks ≫= ks_procs_blocked).
Definition read_nb_context_switches_total_count : io (option Z) :=
  ks ← read_kernel_stats; mret (ks_ctxt <$> ks).

(** A value of the current time. *)
Definition stamp (value : string) (u : Unit) : io Record_ :=
  now ← current_system_time_since_epoch; mret (mkRecord now value u).

Definition host (t : Topology) : System := sysinfo (proc_tracker t).

Definition get_cpu_frequency (t : Topology) : io Record_ :=
  stamp (show_uint (ProcTracker.get_cpu_frequency (proc_tracker t))) MegaHertz.
Definition get_total_memory_bytes (t : Topology) : io Record_ := stamp (show_uint (total_memory (host t))) Bytes.
Definition get_available_memory_bytes (t : Topology) : io Record_ := stamp (show_uint (available_memory (host t))) Bytes.
Definition get_free_memory_bytes (t : Topology) : io Record_ := stamp (show_uint (free_memory (host t))) Bytes.
Definition get_total_swap_bytes (t : Topology) : io Record_ := stamp (show_uint (total_swap (host t))) Bytes.
Definition get_free_swap_bytes (t : Topology) : io Record_ := stamp (show_uint (free_swap (host t))) Bytes.

(** The one, five and fifteen minutes averages. *)
Definition get_load_avg (t : Topology) : io (option (list Record_)) :=
  let '(one, five, fifteen) := load_average (host t) in
  now ← current_system_time_since_epoch;
  mret (Some [mkRecord now (show_f64 one) Numeric; mkRecord now (show_f64 five) Numeric;
              mkRecord now (show_f64 five) Numeric]).

Definition insert_opt (k : string) (v : option string) (m : gmap string string) : gmap string string :=
  match v with Some v => <[k := v]> m | None => m end.

Definition disk_attributes (d : SysDisk) : gmap string string :=
  insert_opt "disk_name" (d_name d)
  (<["disk_is_removable"%string := if d_is_removable d then "true"%string else "false"%string]>
  (<["disk_type"%string := match d_type d with SSD => "SSD" | HDD => "HDD" | UnknownDisk => "Unknown" end%string]>
  (insert_opt "disk_mount_point" (d_mount_point d)
  (insert_opt "disk_file_system" (d_file_system d) ∅)))).

Definition add_disk (now : Duration) (res : gmap string (string * gmap string string * Record_)) (d : SysDisk)
    : gmap string (string * gmap string string * Record_) :=
  <["scaph_host_disk_available_bytes"%string :=
      ("Available disk space, in bytes."%string, disk_attributes d,
       mkRecord now (show_uint (d_available_space d)) Bytes)]>
  (<["scaph_host_disk_total_bytes"%string :=
      ("Total disk size, in bytes."%string, disk_attributes d,
       mkRecord now (show_uint (d_total_space d)) Bytes)]> res).

Definition get_disks (t : Topology) : io (gmap string (string * gmap string string * Record_)) :=
  now ← current_system_time_since_epoch;
  mret (fold_left (add_disk now) (disks (host t)) ∅).

(** ** CPU times *)

(** The difference between two readings of a busy time never overflows; it is exact
    when the counter did not wrap, and one less than the time really spent when it did:
    [u64::MAX] stands for the period of the counter, which is one more. *)
Theorem time_delta_exact lv pv :
  u64 lv → u64 pv →
  time_delta lv pv = Done (if pv <=? lv then (lv - pv) mod 2 ^ 64 else (lv - pv) mod 2 ^ 64 - 1).
Proof.
  unfold u64, umax, time_delta. intros Hl Hp. destruct (Z.leb_spec pv lv).
  - rewrite usub_ok by (unfold umax; lia). rewrite Z.mod_small by lia. done.
  - rewrite usub_ok by (unfold umax; lia). simpl. rewrite uadd_ok by (unfold umax; lia).
    f_equal. rewrite <- (Z.mod_unique (lv - pv) (2 ^ 64) (- 1) (lv - pv + 2 ^ 64)) by lia.
    unfold umax. lia.
Qed.

(** ** Background power *)

Definition idle_sum (t : Topology) : Z := list_sum (idle_u64 <$> sockets t).
Definition activation_sum (t : Topology) : Z := list_sum (activation_u64 <$> sockets t).

Lemma usum_estimates (f : CPUSocket → Z) l :
  (∀ s, u64 (f s)) → usum 64 0 (f <$> l) = arith 64 (list_sum (f <$> l)).
Proof.
  intros Hf. rewrite usum_arith; [done|lia|unfold umax; lia|].
  apply Forall_fmap, Forall_true. intros s. apply Hf.
Qed.

Lemma background_power_ok t :
  idle_sum t <= umax 64 → activation_sum t <= umax 64 →
  background_power t = Done (Z.max (idle_sum t) (activation_sum t)).
Proof.
  intros Hi Ha. unfold background_power, idle_power, activation_power.
  rewrite !usum_estimates by (apply idle_u64_range || apply activation_u64_range).
  pose proof (list_sum_pos idle_u64 (sockets t) (λ s, proj1 (idle_u64_range s))).
  pose proof (list_sum_pos activation_u64 (sockets t) (λ s, proj1 (activation_u64_range s))).
  rewrite (arith_ok 64 (list_sum (idle_u64 <$> sockets t))) by (split; [lia|exact Hi]). simpl.
  by rewrite arith_ok.
Qed.

(** C4: the power of the host between its two newest records is the average of the energy
    consumed over the interval between their times of measure ([average_power]: the energy
    divided by the interval, of which double precision loses less than five microseconds,
    and by exactly the interval when the times are whole seconds), less the greater of the
    summed idle and the summed activation estimates of the sockets; unlike the power of a
    domain there is none when the counter went back. *)
Theorem host_power t k r0 r1 e0 e1 :
  record_buffer t = k ++ [r0; r1] →
  parse_uint 128 (trim (r_value r0)) = Some e0 → parse_uint 128 (trim (r_value r1)) = Some e1 →
  measured (r_timestamp r0) → measured (r_timestamp r1) →
  5000 < elapsed_nanos (r_timestamp r1) (r_timestamp r0) →
  idle_sum t <= umax 64 → activation_sum t <= umax 64 →
  (e1 < e0 → get_records_diff_power_microwatts t = Done None) ∧
  (e0 <= e1 → ∃ p, average_power (e1 - e0) (r_timestamp r1) (r_timestamp r0) p ∧
     get_records_diff_power_microwatts t
     = Done (Some (mkRecord (r_timestamp r1)
                     (show_uint (sat_sub p (Z.max (idle_sum t) (activation_sum t)))) MicroWatt))).
Proof.
  intros Hb Hv0 Hv1 Ht0 Ht1 Hs Hi Ha. pose proof (parse_uint_range _ _ _ Hv0). pose proof (parse_uint_range _ _ _ Hv1) as He1.
  unfold get_records_diff_power_microwatts. rewrite Hb, last_two_app, background_power_ok by done. simpl. rewrite Hv0, Hv1.
  destruct (Z.ltb_spec e1 e0); (split; intros; [done || lia|]); [lia|].
  destruct (net_power_average (e1 - e0) (r_timestamp r1) (r_timestamp r0) (Z.max (idle_sum t) (activation_sum t)))
    as (p & Hn & Hp); [done..|unfold umax in He1; lia|]. exists p. split; [exact Hp|]. by rewrite Hn.
Qed.

(** At whole seconds there is no limit on the time. *)
Lemma host_power_whole_seconds t k r0 r1 e0 e1 s0 s1 :
  record_buffer t = k ++ [r0; r1] →
  parse_uint 128 (trim (r_value r0)) = Some e0 → parse_uint 128 (trim (r_value r1)) = Some e1 →
  r_timestamp r0 = mkDuration s0 0 → r_timestamp r1 = mkDuration s1 0 →
  0 <= s0 < s1 → s1 < 2 ^ 53 → e1 - e0 < 2 ^ 53 →
  idle_sum t <= umax 64 → activation_sum t <= umax 64 →
  get_records_diff_power_microwatts t =
    Done (if e1 <? e0 then None
          else Some (mkRecord (r_timestamp r1)
                 (show_uint (sat_sub ((e1 - e0) / (s1 - s0)) (Z.max (idle_sum t) (activation_sum t)))) MicroWatt)).
Proof.
  intros Hb Hv0 Hv1 Ht0 Ht1 Hs Hs1 He Hi Ha. unfold get_records_diff_power_microwatts.
  rewrite Hb, last_two_app, background_power_ok by done. simpl. rewrite Hv0, Hv1.
  destruct (Z.ltb_spec e1 e0); [done|]. rewrite Ht0, Ht1, net_power_exact; try done; [lia|].
  pose proof (list_sum_pos idle_u64 (sockets t) (λ s, proj1 (idle_u64_range s))).
  unfold idle_sum. lia.
Qed.

(** The difference of the host's records is only reported from the third record on. *)
Theorem records_diff_needs_three t :
  (length (record_buffer t) <= 2)%nat → get_records_diff t = Done None.
Proof.
  intros Hl. unfold get_records_diff. destruct (Z.ltb_spec 2 (Z.of_nat (length (record_buffer t)))); [lia|done].
Qed.

(** ** Cores *)

Lemma core_powers_length s l : Socket.core_powers s = Some l → length l = length (Socket.get_cores s).
Proof.
  unfold Socket.core_powers. intros (conso & _ & [= <-])%bind_Some.
  unfold Socket.get_core_proportions, proportions, Socket.get_core_coefs. by rewrite !length_fmap.
Qed.

(** Each core of the sockets with its power. *)
Definition powered (l : list CPUSocket) (v : list (CPUCore * string)) : Prop :=
  ∃ ps, Forall2 (λ s p, Socket.core_powers s = Some p) l ps ∧
        v = mjoin (zip_with (λ s p, zip (Socket.get_cores s) p) l ps).

Lemma zip_fmap_l {A B C} (f : A → C) (l : list A) (q : list B) :
  zip (f <$> l) q = (λ x : A * B, (f x.1, x.2)) <$> zip l q.
Proof.
  revert q. induction l as [|x l IH]; intros [|y q]; [done..|]. rewrite fmap_cons. simpl. by rewrite IH.
Qed.

Lemma socket_core_powers_powered l v :
  mapM socket_core_powers l = Some v →
  ∃ u, powered l u ∧ mjoin v = (λ x, (Core.id x.1, x.2)) <$> u ∧ mjoin (Socket.get_cores <$> l) = u.*1.
Proof.
  intros Hm%mapM_Some. induction Hm as [|s p l v Hs Hm IH].
  - exists []. split; [|done]. by exists [].
  - destruct IH as (u & (ps & Hps & ->) & Hu & Hc). unfold socket_core_powers in Hs.
    destruct (Socket.core_powers s) as [q|] eqn:Eq; [|done]. injection Hs as <-.
    exists (zip (Socket.get_cores s) q ++ mjoin (zip_with (λ s p, zip (Socket.get_cores s) p) l ps)).
    split; [|split].
    + exists (q :: ps). split; [by constructor|done].
    + rewrite fmap_app, <- Hu. simpl. f_equal. apply zip_fmap_l.
    + rewrite fmap_app, <- Hc. rewrite fmap_cons. simpl. f_equal. symmetry. apply fst_zip.
      by rewrite (core_powers_length s q).
Qed.

(** C31: when every socket has a power, the powers of the cores of the host are in the order
    of [get_cores], that of their ids: one for each core, the one its own socket attributes
    to it. *)
Theorem core_powers_aligned t powers :
  core_powers t = Some powers →
  ∃ u v, powered (sockets t) u ∧ v ≡ₚ u ∧ get_cores t = v.*1 ∧ powers = v.*2.
Proof.
  unfold core_powers. destruct (mapM _ _) as [l|] eqn:E; [|done]. intros [= <-].
  destruct (socket_core_powers_powered _ _ E) as (u & Hu & Hj & Hc).
  exists u, (sort_by_key (λ x, Core.id x.1) u). split; [done|]. split; [apply sort_by_key_perm|].
  unfold get_cores. rewrite Hj, Hc, !sort_by_key_fmap, <- list_fmap_compose. done.
Qed.

(** ** Shares *)

Lemma core_share_bounds p n :
  0 <= p → n < 2 ^ 53 →
  SFleb F64.zero (core_share p n) = true ∧ SFleb (core_share p n) F64.one = true.
Proof.
  intros Hp Hn. unfold core_share. destruct (Z.ltb_spec 0 n); [|done].
  apply fmin_bounds; [|done]. unfold F64.div, F64.of_Z.
  rewrite (of_Z_exact 53 1024 ltac:(lia) ltac:(lia) n) by lia.
  apply div_nonneg, of_Z_nonneg. done.
Qed.

Lemma shares_of_times deltas diff cores shares proc_ns :
  traverse (λ c, let total := total_ns_of diff c in
    if 0 <? total then d ← nth_ns deltas c; Done (core_share d total) else Done F64.zero) cores
    = Done shares →
  traverse (nth_ns deltas) cores = Done proc_ns →
  shares = zip_with core_share proc_ns (total_ns_of diff <$> cores).
Proof.
  revert shares proc_ns. induction cores as [|c cores IH]; intros shares proc_ns; simpl;
    [by intros [= <-] [= <-]|].
  intros (x & Hx & (xs & Hxs & [= <-])%bind_Done_inv)%bind_Done_inv.
  intros (d & Hd & (ds & Hds & [= <-])%bind_Done_inv)%bind_Done_inv. rewrite Hd in Hx.
  specialize (IH _ _ Hxs Hds). rewrite IH. simpl. f_equal. revert Hx. unfold core_share.
  destruct (0 <? _); by intros [= <-].
Qed.

(** C5: with eBPF data the time of a process on each core, the busy time of each core and
    the shares have one value per core, in the order of [get_cores]; a share is the quotient
    of the two times, always a number between 0 and 1, even when a process seems to have
    used more than its core. *)
Theorem process_shares p t proc_ns total_ns shares :
  get_process_core_time_data p t = Done (Some (proc_ns, total_ns, shares)) →
  Forall (λ n, n < 2 ^ 53) total_ns →
  length proc_ns = length (get_cores t) ∧ length total_ns = length (get_cores t) ∧
  shares = zip_with core_share proc_ns total_ns ∧
  Forall (λ x, SFleb F64.zero x = true ∧ SFleb x F64.one = true) shares.
Proof.
  unfold get_process_core_time_data. intros (o & Hd & Hr)%bind_Done_inv Hmax.
  destruct o as [deltas|]; [|done]. apply bind_Done_inv in Hr as (diff & _ & Hr).
  destruct diff as [diff|]; [|done]. apply bind_Done_inv in Hr as (sh & Hsh & Hr).
  apply bind_Done_inv in Hr as (pn & Hpn & [= -> <- ->]).
  pose proof (shares_of_times _ _ _ _ _ Hsh Hpn) as Hs.
  pose proof (traverse_length _ _ _ Hpn) as Hl. split; [done|]. split; [by rewrite length_fmap|].
  split; [exact Hs|]. apply per_core_delta_nonneg in Hd.
  apply traverse_Forall2 in Hpn.
  rewrite Hs. clear Hs Hsh Hl. revert Hmax. induction Hpn as [|c d l ds Hc _ IH]; [constructor|].
  rewrite fmap_cons. intros Hmax. inversion_clear Hmax as [|? ? Hn Hns]. constructor; [|by apply IH].
  apply core_share_bounds; [|done]. unfold nth_ns in Hc.
  destruct (deltas !! _) eqn:E; [|done]. injection Hc as ->.
  by apply (Forall_lookup_1 _ _ _ _ Hd) in E.
Qed.

Lemma process_core_proportions_length p t shares :
  get_process_core_proportions p t = Done (Some shares) → length shares = length (get_cores t).
Proof.
  unfold get_process_core_proportions. intros (o & Ho & Hr)%bind_Done_inv.
  destruct o as [[[pn tn] sh]|].
  - injection Hr as ->. unfold get_process_core_time_data in Ho.
    apply bind_Done_inv in Ho as ([deltas|] & _ & Ho); [|done].
    apply bind_Done_inv in Ho as ([diff|] & _ & Ho); [|done].
    apply bind_Done_inv in Ho as (sh' & Hsh & Ho). apply bind_Done_inv in Ho as (pn' & _ & [= _ _ ->]).
    by apply traverse_length in Hsh.
  - destruct (get_process_cpu_time_delta_as_percentage _ _); [|done]. injection Hr as <-. by rewrite length_fmap.
Qed.

Lemma core_powers_count t powers : core_powers t = Some powers → length powers = length (get_cores t).
Proof.
  unfold core_powers. destruct (mapM _ _) as [l|] eqn:E; [|done]. intros [= <-].
  destruct (socket_core_powers_powered _ _ E) as (u & Hu & Hj & Hc).
  unfold get_cores, sort_by_key. rewrite length_fmap, !sort_by_length, Hc, Hj. by rewrite !length_fmap.
Qed.

Lemma traverse_imap powers shares pre :
  length powers = length shares →
  traverse (λ x : nat * string,
    percentage ← unwrap ((pre ++ shares) !! x.1);
    Done (F64.mul (default F64.zero (parse_f64 x.2)) percentage)) (imap (λ i, pair (length pre + i)%nat) powers)
  = Done (zip_with (λ w x, F64.mul (default F64.zero (parse_f64 w)) x) powers shares).
Proof.
  revert pre shares. induction powers as [|w powers IH]; intros pre [|x shares] Hl; try done.
  simpl. rewrite Nat.add_0_r, lookup_app_r, Nat.sub_diag by lia. simpl.
  specialize (IH (pre ++ [x]) shares ltac:(simpl in Hl; lia)). rewrite <- app_assoc in IH. simpl in IH.
  rewrite length_app in IH. simpl in IH.
  erewrite (imap_ext _ (λ i, pair (length pre + 1 + i)%nat)); [by rewrite IH|].
  intros i y _. unfold compose. simpl. f_equal. lia.
Qed.

(** The power of a process indexes the shares by the rank of each core power and never
    out of range: there are as many shares as powers, whether the shares come from eBPF or
    are estimated. *)
Theorem process_power_defined p t powers shares :
  core_powers t = Some powers → get_process_core_proportions p t = Done (Some shares) →
  process_power powers shares
  = Done (F64.sum (zip_with (λ w x, F64.mul (default F64.zero (parse_f64 w)) x) powers shares)).
Proof.
  intros Hp%core_powers_count Hs%process_core_proportions_length. rewrite <- Hs in Hp. clear Hs.
  unfold process_power. exact (f_equal (λ m, m ≫= λ l, Done (F64.sum l)) (traverse_imap powers shares [] Hp)).
Qed.

(** ** Metrics *)

Definition resource_metrics : gset string := list_to_set
  ["scaph_process_disk_total_read_bytes"; "scaph_process_disk_total_write_bytes";
   "scaph_process_disk_read_bytes"; "scaph_process_disk_write_bytes"; "scaph_process_memory_bytes";
   "scaph_process_memory_virtual_bytes"; "scaph_process_cpu_usage_percentage"]%string.

Definition core_metrics : gset string := list_to_set
  ["scaph_process_core_proportion"; "scaph_process_core_total_time_ns"; "scaph_process_core_time_ns"]%string.

(** The metrics of a process, by what is known of it: its usage, its shares, its times. *)
Definition metrics_of {A B} (usage : option A) (shares : option B) (times : bool) : gset string :=
  (if shares is Some _ then if times then core_metrics else ∅ else ∅) ∪
  ((if shares is Some _ then {["scaph_process_power_consumption_microwatts"%string]} else ∅) ∪
   (if usage is Some _ then resource_metrics else ∅)).

(** All the records of a set of metrics were measured at the same time. *)
Definition measured_at (now : Duration) (m : gmap string (string * Record_)) : Prop :=
  map_Forall (λ _ x, r_timestamp x.2 = now) m.

(** The metrics of a process are none when it is not tracked; otherwise its resources
    when its CPU usage is known, its power when its shares are known and its times per
    core when eBPF measured them, all with the time of its newest record. *)
Theorem process_metrics p t m :
  get_all_per_process p t = Done (Some m) →
  match get_process_last_record p (proc_tracker t) with
  | None => m = ∅
  | Some record =>
      measured_at (timestamp record) m ∧
      ∃ times shares, get_process_core_time_data p t = Done times ∧
        get_process_core_proportions p t = Done shares ∧
        dom m = metrics_of (get_process_cpu_time_delta_as_percentage p (proc_tracker t)) shares
                  (bool_decide (is_Some times))
  end.
Proof.
  unfold get_all_per_process. destruct (get_process_last_record _ _) as [record|]; [|by intros [= <-]].
  intros (times & Ht & (shares & Hs & Hr)%bind_Done_inv)%bind_Done_inv. rewrite Ht, Hs. clear Ht Hs.
  set (res := match get_process_cpu_time_delta_as_percentage _ _ with Some _ => _ | None => _ end) in Hr.
  assert (Hres : measured_at (timestamp record) res ∧
                 dom res = if get_process_cpu_time_delta_as_percentage p (proc_tracker t) is Some _
                           then resource_metrics else ∅).
  { unfold res. destruct (get_process_cpu_time_delta_as_percentage _ _); [|split; [apply map_Forall_empty|apply dom_empty_L]].
    split; [|rewrite !dom_insert_L, dom_empty_L; reflexivity].
    do 7 (apply map_Forall_insert_2; [done|]). apply map_Forall_empty. }
  destruct Hres as [Hm Hd]. clearbody res.
  destruct shares as [shares|]; cycle 1.
  { injection Hr as <-. split; [done|]. exists times, None. split; [done|]. split; [done|].
    unfold metrics_of. by rewrite !(left_id_L ∅ (∪)). }
  apply bind_Done_inv in Hr as (result & _ & Hr).
  destruct times as [[[proc_ns total_ns] props]|]; injection Hr as <-.
  - split; [repeat (apply map_Forall_insert_2; [done|]); done|].
    exists (Some (proc_ns, total_ns, props)), (Some shares). split; [done|]. split; [done|].
    rewrite !dom_insert_L, Hd. unfold metrics_of. simpl. unfold core_metrics. simpl.
    by rewrite <- !(assoc_L (∪)), !(left_id_L ∅ (∪)).
  - split; [repeat (apply map_Forall_insert_2; [done|]); done|].
    exists None, (Some shares). split; [done|]. split; [done|].
    rewrite !dom_insert_L, Hd. unfold metrics_of. simpl. by rewrite (left_id_L ∅ (∪)).
Qed.

Lemma add_disk_again now m d' d : add_disk now (add_disk now m d') d = add_disk now m d.
Proof.
  unfold add_disk. apply map_eq. intros k.
  destruct (decide (k = "scaph_host_disk_available_bytes"%string)) as [->|Ha]; [by rewrite !lookup_insert_eq|].
  destruct (decide (k = "scaph_host_disk_total_bytes"%string)) as [->|Ht].
  - rewrite !(lookup_insert_ne _ "scaph_host_disk_available_bytes"%string) by done. by rewrite !lookup_insert_eq.
  - by repeat (rewrite lookup_insert_ne by done).
Qed.

(** The metrics of the disks only hold those of the last one: they are stored under the
    same two names for every disk. *)
Theorem only_last_disk t w l d m w' :
  disks (host t) = l ++ [d] → get_disks t w = Done (m, w') → ∃ now, m = add_disk now ∅ d.
Proof.
  intros Hd. unfold get_disks. intros (now & w1 & _ & [= <- _])%io_bind_inv. exists now.
  rewrite Hd, fold_left_app. simpl. clear Hd. induction l as [|d' l IH] using rev_ind; [done|].
  rewrite fold_left_app. simpl. by rewrite add_disk_again.
Qed.
End Attribution.

(** ** Examples on the simulated host *)

#[local] Existing Instances x86_64.
#[local] Instance checked : Profile := true.
#[local] Instance host_os : Os := simulated no_files.
#[local] Instance host_fs : FileSystem := simulated_fs no_files.
#[local] Instance host_procfs : Procfs := simulated_procfs no_files.
#[local] Instance host_perf : PerfEvents := simulated_perf no_files.
#[local] Instance host_sysinfo : Sysinfo := simulated_sysinfo no_files 2 [].
#[local] Instance host_aya : Aya := simulated_aya no_files [].

(** Two cores on one socket that drew six watts; the second did three times the work. *)
Definition sample_core (i cycles : Z) : CPUCore :=
  let reading t := record_of (mkDuration t 0)
    {| rd_idle_us := 0; rd_mperf := cycles * t; rd_aperf := cycles * t; rd_core_busy := 0;
       rd_core_total := 10 * t; rd_node_busy := 0; rd_node_total := 20 * t; rd_instr := F64.zero;
       rd_cyc := F64.of_Z (cycles * t); rd_tsc := 1000 * t |} in
  mkCPUCore i ∅ [reading 3; reading 4] 1 None None.

Definition energy (t uj : Z) : Record_ := mkRecord (mkDuration t 0) (show_uint uj) MicroJoule.

Definition sample_socket : CPUSocket :=
  set_cpu_cores [sample_core 1 300; sample_core 0 100]
    (Socket.set_record_buffer [energy 3 1000000; energy 4 7000000] (Socket.new 0 [] [] "" 1 ∅)).

(** A process that used a tenth of CPU 0 and half of CPU 1. *)
Definition sample_process (busy : list Z) (t : Z) : ProcessRecord :=
  mkProcessRecord {| pid := 42; owner := 0; comm := "/bin/a"; cmdline := ["a"%string]; cpu_busy_time := 2 * t;
     node_busy_time := 10 * t; core_busy_times := Some busy; cpu_usage_percentage := F32.of_Z 20;
     virtual_memory := 2; memory := 1; disk_read := 0; disk_written := 0; total_disk_read := 0;
     total_disk_written := 0; stime := 0; utime := 0 |} (mkDuration t 0).

Definition busy_times (t a b : Z) : MultiValuedRecord :=
  mkMultiValuedRecord (mkDuration t 0) [show_uint a; show_uint b] [Numeric; Numeric].

Definition sample_topology : Topology := {|
  sockets := [sample_socket];
  proc_tracker := mkTracker [[sample_process [200; 700] 4; sample_process [100; 200] 3]] 2 None 5 tt;
  stat_buffer := []; record_buffer := [energy 3 2000000; energy 4 9000000]; buffer_max_kbytes := 1;
  domains_names := None; sensor_data := ∅; ebpf := None; cpu_state_buffer := None;
  activation_idle_buffer := ∅; cpu_time_map := None;
  cpu_time_buffer := [busy_times 3 1000 1000; busy_times 4 2000 2000] |}.

Definition sample_powers : list string := default [] (core_powers sample_topology).
Definition sample_times : list Z * list Z * list float :=
  match get_process_core_time_data 42 sample_topology with Done (Some x) => x | _ => ([], [], []) end.

Lemma sample_powers_spec : core_powers sample_topology = Some sample_powers ∧ length sample_powers = 2%nat.
Proof. split; vm_compute; reflexivity. Qed.

Lemma sample_times_spec : get_process_core_time_data 42 sample_topology = Done (Some sample_times).
Proof. vm_compute. reflexivity. Qed.

(** A counter that wrapped: 15 nanoseconds are counted as 14. *)
Lemma time_delta_exact_witness : time_delta 5 (2 ^ 64 - 10) = Done 14.
Proof. apply (time_delta_exact 5 (2 ^ 64 - 10)); unfold u64, umax; lia. Defined.

(** Two records 1.5 seconds apart. *)
Definition host_records : Topology :=
  set_record_buffer [mkRecord (mkDuration 3 250000000) "2000000" MicroJoule;
                     mkRecord (mkDuration 4 750000000) "9000000" MicroJoule] sample_topology.

Lemma host_power_witness :
  ∃ p, 4666651 <= p <= 4666682 ∧
    get_records_diff_power_microwatts host_records
    = Done (Some (mkRecord (mkDuration 4 750000000)
              (show_uint (sat_sub p (Z.max (idle_sum host_records) (activation_sum host_records)))) MicroWatt)).
Proof.
  destruct (host_power host_records [] (mkRecord (mkDuration 3 250000000) "2000000" MicroJoule)
              (mkRecord (mkDuration 4 750000000) "9000000" MicroJoule) 2000000 9000000) as [_ Hp];
    [vm_compute; first [done|split; split; done|split; done]..|].
  destruct (Hp ltac:(lia)) as (p & [Hb _] & Hr). exists p. split; [exact Hb|exact Hr].
Defined.

Lemma core_powers_aligned_witness :
  ∃ u v, powered [sample_socket] u ∧ v ≡ₚ u ∧ get_cores sample_topology = v.*1 ∧ sample_powers = v.*2.
Proof. exact (core_powers_aligned sample_topology sample_powers (proj1 sample_powers_spec)). Defined.

Lemma process_shares_witness :
  sample_times.2 = zip_with core_share [100; 500] [1000; 1000] ∧
  Forall (λ x, SFleb F64.zero x = true ∧ SFleb x F64.one = true) sample_times.2.
Proof.
  destruct (process_shares 42 sample_topology [100; 500] [1000; 1000] sample_times.2) as (_ & _ & Hs & Hb);
    [vm_compute; reflexivity|repeat constructor; lia|].
  split; [exact Hs|exact Hb].
Defined.

Lemma process_power_defined_witness :
  ∃ x, process_power sample_powers sample_times.2 = Done x.
Proof.
  eexists. apply (process_power_defined 42 sample_topology sample_powers sample_times.2);
    vm_compute; reflexivity.
Defined.

Lemma sample_metrics : 
  match get_all_per_process 42 sample_topology with Done (Some m) => true | _ => false end = true.
Proof. vm_compute. reflexivity. Qed.

Lemma process_metrics_witness :
  ∃ m, get_all_per_process 42 sample_topology = Done (Some m) ∧ measured_at (mkDuration 4 0) m.
Proof.
  pose proof sample_metrics as Hm. destruct (get_all_per_process 42 sample_topology) as [[m|]|] eqn:E; [|done|done].
  exists m. split; [reflexivity|]. exact (proj1 (process_metrics 42 sample_topology m E)).
Defined.

Lemma only_last_disk_witness :
  ∃ m w' now, get_disks sample_topology 0 = Done (m, w') ∧ m = add_disk now ∅ (simulated_disk "sdb" 900 800).
Proof.
  destruct (is_done_inv (get_disks sample_topology 0) eq_refl) as [[m w'] E].
  destruct (only_last_disk sample_topology 0 [simulated_disk "sda" 500 100] _ m w' eq_refl E) as [now Hm].
  exists m, w', now. split; [exact E|exact Hm].
Defined.
