(* ===== verification/Powercap.v ===== *)
(** * The powercap sensor ([sensors/powercap_rapl.rs])

    [generate_topology] builds the topology from the folders of the powercap tree: the
    domain folders first, the socket folders when there is none, then the platform counter.
    The folders are visited in the order in which the file system lists them. *)

From S2P Require Import Prelude Floats Text FloatText Units Env Simulated Records Energy Common.
From S2P Require Import Domain Core Socket ProcTracker Bpf Topology.
From Stdlib Require Import Ascii.

(** [procfs::modules]: the names of the loaded kernel modules; [None] for [Err]. *)
Class KernelModules `{Os} := modules : world → option (list string) * world.

Definition DEFAULT_BUFFER_PER_SOCKET_MAX_KBYTES : Z := 1.
Definition DEFAULT_BUFFER_PER_DOMAIN_MAX_KBYTES : Z := 1.

Record PowercapRAPLSensor := {
  base_path : string;
  buffer_per_socket_max_kbytes : Z;
  buffer_per_domain_max_kbytes : Z;
  virtual_machine : bool;
}.

(** [path] is the variable [SCAPHANDRE_POWERCAP_PATH], read for a virtual machine only. *)
Definition new (path : option string) (per_socket per_domain : Z) (vm : bool) : PowercapRAPLSensor := {|
  base_path := if vm then default "/var/scaphandre" path else "/sys/class/powercap";
  buffer_per_socket_max_kbytes := per_socket;
  buffer_per_domain_max_kbytes := per_domain;
  virtual_machine := vm |}.

Section Powercap.
Context `{Profile, Layout, Os, !FileSystem, !Procfs, !PerfEvents, !Sysinfo, !Aya, Regex, !KernelModules}.

(** [inr] when no module is loaded. *)
Definition check_module : io (string + string) :=
  m ← effect modules;
  m ← lift (unwrap m);
  let is_rapl n := bool_decide (n ∈ ["intel_rapl"; "intel_rapl_msr"; "intel_rapl_common"]%string) in
  mret (if existsb is_rapl m then
          inl "intel_rapl or intel_rapl_msr+intel_rapl_common modules found."%string
        else inr "None of intel_rapl, intel_rapl_common or intel_rapl_msr kernel modules found."%string).

(** ** Folders *)

Definition re_socket : string := "^.*/intel-rapl:\d+$".
Definition re_domain : string := "^.*/intel-rapl:\d+:\d+$".
Definition re_socket_mmio : string := "^.*/intel-rapl-mmio:\d+$".
Definition re_domain_mmio : string := "^.*/intel-rapl-mmio:\d+:\d+$".

(** [folder.unwrap().path().to_str().unwrap()]. *)
Definition folder_name (entry : option string) : outcome string :=
  path ← unwrap entry; unwrap (to_str path).

(** The [i]-th number of a folder's name: [splitted.next().unwrap().parse().unwrap()]. *)
Definition number (i : nat) (folder : string) : outcome Z :=
  piece ← unwrap (split_on ":"%char folder !! i); unwrap (parse_uint 16 piece).

(** Insert the range of a counter when its file can be read. *)
Definition with_range (file : string) (data : gmap string string) : io (gmap string string) :=
  max ← read_file file;
  mret (match max with
        | Some max => <["max_energy_range_uj"%string := trim max]> data
        | None => data
        end).

Definition socket_folder (sensor : PowercapRAPLSensor) (socket_id : Z) : string :=
  base_path sensor +:+ "/intel-rapl:" +:+ show_uint socket_id.

(** Register the socket of a folder, of a domain or its own. *)
Definition register_socket (sensor : PowercapRAPLSensor) (socket_id : Z) (topo : Topology) : io Topology :=
  let source_file := socket_folder sensor socket_id +:+ "/energy_uj" in
  data ← with_range (socket_folder sensor socket_id +:+ "/max_energy_range_uj")
                    {["source_file"%string := source_file]};
  mret (safe_add_socket socket_id [] [] source_file (buffer_per_socket_max_kbytes sensor) data topo).1.

Definition register_domain (sensor : PowercapRAPLSensor) (folder : string) (socket_id domain_id : Z)
    (topo : Topology) : io Topology :=
  let source_file := socket_folder sensor socket_id +:+ ":" +:+ show_uint domain_id +:+ "/energy_uj" in
  data ← with_range (folder +:+ "/max_energy_range_uj") {["source_file"%string := source_file]};
  domain_name ← read_file (folder +:+ "/name");
  match domain_name with
  | Some domain_name =>
      resource ← lift (parse_resource (trim domain_name));
      mret (safe_add_domain_to_socket socket_id domain_id (trim domain_name) source_file
              (buffer_per_domain_max_kbytes sensor)
              (<["related_resource"%string := resource_to_string resource]> data) topo)
  | None => mret topo
  end.

(** [d.sensor_data.insert(k, v)]. *)
Definition set_domain_data (k v : string) (d : Domain) : Domain :=
  mkDomain (Domain.id d) (Domain.name d) (Domain.counter_uj_path d) (Domain.record_buffer d)
    (Domain.buffer_max_kbytes d) (Domain.rapl_max_uj d) (background_power_uw d)
    (<[k := v]> (Domain.sensor_data d)).

Definition set_socket_data (k v : string) (s : CPUSocket) : CPUSocket :=
  Socket.set_sensor_data (<[k := v]> (Socket.sensor_data s)) s.

Definition register_socket_mmio (sensor : PowercapRAPLSensor) (socket_id : Z) (topo : Topology) : Topology :=
  set_sockets ((λ s, if Socket.id s =? socket_id then
      set_socket_data "mmio" (base_path sensor +:+ "/intel-rapl-mmio:" +:+ show_uint socket_id +:+ "/energy_uj") s
    else s) <$> sockets topo) topo.

(** The domains of the socket that have the name in the folder: the ids of the two trees
    do not match. *)
Definition register_domain_mmio (folder : string) (socket_id : Z) (topo : Topology) : io Topology :=
  l ← io_map (λ s,
        if Socket.id s =? socket_id then
          ds ← io_map (λ d,
                 name_in_folder ← read_file (folder +:+ "/name");
                 name_in_folder ← lift (unwrap name_in_folder);
                 mret (if decide (trim (Domain.name d) = trim name_in_folder) then
                         set_domain_data "mmio" (folder +:+ "/energy_uj") d
                       else d)) (domains s);
          mret (set_domains ds s)
        else mret s) (sockets topo);
  mret (set_sockets l topo).

(** ** Generation *)

(** The body of the first loop; the boolean is [re_domain_matched]. *)
Definition visit_folder (sensor : PowercapRAPLSensor) (st : Topology * bool) (entry : option string)
    : io (Topology * bool) :=
  let '(topo, re_domain_matched) := st in
  folder ← lift (folder_name entry);
  if is_match re_domain folder then
    socket_id ← lift (number 1 folder);
    domain_id ← lift (number 2 folder);
    topo ← register_socket sensor socket_id topo;
    topo ← register_domain sensor folder socket_id domain_id topo;
    mret (topo, true)
  else if is_match re_socket_mmio folder then
    socket_id ← lift (number 1 folder);
    mret (register_socket_mmio sensor socket_id topo, re_domain_matched)
  else if is_match re_domain_mmio folder then
    socket_id ← lift (number 1 folder);
    topo ← register_domain_mmio folder socket_id topo;
    mret (topo, re_domain_matched)
  else mret st.

(** The body of the second loop; the name is compared as read, without trimming. *)
Definition visit_socket_folder (sensor : PowercapRAPLSensor) (topo : Topology) (entry : option string)
    : io Topology :=
  folder ← lift (folder_name entry);
  domain_name ← read_file (folder +:+ "/name");
  match domain_name with
  | Some domain_name =>
      if negb (bool_decide (domain_name = "psys"%string)) && is_match re_socket folder then
        socket_id ← lift (number 1 folder);
        register_socket sensor socket_id topo
      else mret topo
  | None => mret topo
  end.

(** The body of the third loop. *)
Definition visit_psys (topo : Topology) (entry : option string) : io Topology :=
  folder ← lift (folder_name entry);
  domain_name ← read_file (folder +:+ "/name");
  mret (match domain_name with
        | Some domain_name =>
            if decide (trim domain_name = "psys"%string) then
              Topology.set_sensor_data (<["psys"%string := folder]> (Topology.sensor_data topo)) topo
            else topo
        | None => topo
        end).

Definition for_each_folder {S} (sensor : PowercapRAPLSensor) (visit : S → option string → io S) (st : S) : io S :=
  entries ← effect (read_dir (base_path sensor));
  entries ← lift (unwrap entries);
  io_fold visit st entries.

(** A missing module is only logged. *)
Definition generate_topology (sensor : PowercapRAPLSensor) : io Topology :=
  _ ← check_module;
  topo ← Topology.new ∅;
  '(topo, re_domain_matched) ← for_each_folder sensor (visit_folder sensor) (topo, false);
  topo ← (if (re_domain_matched : bool) then mret topo
          else for_each_folder sensor (visit_socket_folder sensor) topo);
  topo ← for_each_folder sensor visit_psys topo;
  add_cpu_cores topo.

(** [generate_topology] never returns [Err]. *)
Definition get_topology (sensor : PowercapRAPLSensor) : io (option Topology) :=
  topo ← generate_topology sensor; mret (Some topo).

(** ** Invariant *)

Definition has_file (data : gmap string string) : Prop := is_Some (data !! "source_file"%string).

(** Every socket and every domain knows the file of its counter. *)
Definition sourced_socket (s : CPUSocket) : Prop :=
  has_file (Socket.sensor_data s) ∧ Forall (λ d, has_file (Domain.sensor_data d)) (domains s).

Definition well_formed (t : Topology) : Prop := wf_structure t ∧ Forall sourced_socket (sockets t).

Lemma well_formed_skeleton t t' : skeleton t' = skeleton t → well_formed t → well_formed t'.
Proof.
  intros Hk [Hw Hs]. split; [by eapply wf_structure_skeleton|].
  rewrite Forall_forall in Hs |- *. intros s' Hs'.
  assert (Hin : socket_key s' ∈ skeleton t) by (rewrite <- Hk; by apply list_elem_of_fmap_2).
  apply list_elem_of_fmap in Hin as (s & He & Hin). specialize (Hs s Hin) as [Hf Hd].
  unfold socket_key in He. injection He as _ Hsd Hds. split; [by rewrite Hsd|].
  rewrite Forall_forall in Hd |- *. intros d' Hd'.
  assert (Hin' : domain_key d' ∈ (domain_key <$> domains s)) by (rewrite <- Hds; by apply list_elem_of_fmap_2).
  apply list_elem_of_fmap in Hin' as (d & He & Hdin). injection He as _ _ ->. by apply Hd.
Qed.

(** Changing the sockets one by one. *)
Lemma well_formed_map t t' :
  Forall2 (λ s s', Socket.id s' = Socket.id s ∧
                   (NoDup (Domain.id <$> domains s) → NoDup (Domain.id <$> domains s')) ∧
                   (sourced_socket s → sourced_socket s')) (sockets t) (sockets t') →
  well_formed t → well_formed t'.
Proof.
  intros Hf [[Hn Hd] Hs].
  assert (Hids : Socket.id <$> sockets t' = Socket.id <$> sockets t).
  { clear -Hf. induction Hf as [|s s' l l' (He & _) Hl IH]; [done|]. by rewrite !fmap_cons, He, IH. }
  split; [split; [by rewrite Hids|]|]; clear Hn Hids.
  - induction Hf as [|s s' l l' (_ & Hf & _) Hl IH]; inversion_clear Hd; inversion_clear Hs; constructor; auto.
  - induction Hf as [|s s' l l' (_ & _ & Hf) Hl IH]; inversion_clear Hd; inversion_clear Hs; constructor; auto.
Qed.

Lemma with_range_file file data w data' w' :
  has_file data → with_range file data w = Done (data', w') → has_file data'.
Proof.
  intros Hd. unfold with_range. intros (max & w1 & _ & [= <- _])%io_bind_inv.
  destruct max; [|done]. unfold has_file. by rewrite lookup_insert_ne.
Qed.

Lemma source_has_file f : has_file {["source_file"%string := f]}.
Proof. exists f. apply lookup_singleton_eq. Qed.

Lemma register_socket_wf sensor i t w t' w' :
  register_socket sensor i t w = Done (t', w') → well_formed t → well_formed t'.
Proof.
  unfold register_socket. intros (data & w1 & Hd & [= <- _])%io_bind_inv [Hw Hs].
  apply with_range_file in Hd; [|apply source_has_file].
  unfold safe_add_socket. destruct (has_socket i t) eqn:E; [by split|]. split.
  - apply insert_socket_wf; [done|constructor|done].
  - apply Forall_app. split; [done|]. constructor; [|done]. by split.
Qed.

Lemma add_domain_sourced d s :
  has_file (Domain.sensor_data d) → sourced_socket s → sourced_socket (safe_add_domain d s).
Proof.
  intros Hd [Hf Hds]. unfold safe_add_domain. destruct (existsb _ _); [done|]. split; [done|].
  simpl. apply Forall_app. split; [done|by constructor].
Qed.

Lemma register_domain_wf sensor folder i j t w t' w' :
  register_domain sensor folder i j t w = Done (t', w') → well_formed t → well_formed t'.
Proof.
  unfold register_domain. intros (data & w1 & Hd & Hr)%io_bind_inv Hw.
  apply with_range_file in Hd; [|apply source_has_file].
  apply io_bind_inv in Hr as (name & w2 & _ & Hr). destruct name as [name|]; [|by injection Hr as <- _].
  apply io_bind_inv in Hr as (r & w3 & _ & [= <- _]).
  eapply well_formed_map; [|exact Hw]. apply Forall2_fmap_r, Forall_Forall2_diag, Forall_true.
  intros s. unfold compose. destruct (_ =? _); [|done].
  split; [apply safe_add_domain_id|]. split; [apply safe_add_domain_ids|].
  apply add_domain_sourced. simpl. unfold has_file. by rewrite lookup_insert_ne.
Qed.

Lemma register_socket_mmio_wf sensor i t : well_formed t → well_formed (register_socket_mmio sensor i t).
Proof.
  apply well_formed_map. apply Forall2_fmap_r, Forall_Forall2_diag, Forall_true.
  intros s. unfold compose. destruct (_ =? _); [|done]. split; [done|]. split; [done|]. intros [Hf Hd]. split; [|done].
  simpl. unfold has_file. by rewrite lookup_insert_ne.
Qed.

Lemma register_domain_mmio_wf folder i t w t' w' :
  register_domain_mmio folder i t w = Done (t', w') → well_formed t → well_formed t'.
Proof.
  unfold register_domain_mmio. intros (l & w1 & Hl & [= <- _])%io_bind_inv.
  apply well_formed_map. eapply io_map_Forall2; [|exact Hl]. clear. intros s w s' w' _ Hs.
  cbv beta in Hs. destruct (_ =? _); [|by injection Hs as <- _].
  apply io_bind_inv in Hs as (ds & w1 & Hds & [= <- _]).
  assert (Hd : Forall2 (λ d d', Domain.id d' = Domain.id d ∧
                  (has_file (Domain.sensor_data d) → has_file (Domain.sensor_data d'))) (domains s) ds).
  { eapply io_map_Forall2; [|exact Hds]. intros d w2 d' w3 _ (n & w4 & _ & Hr)%io_bind_inv.
    apply io_bind_inv in Hr as (n' & w5 & _ & [= <- _]). destruct (decide _); [|done].
    split; [done|]. simpl. unfold has_file. by rewrite lookup_insert_ne. }
  split; [done|]. split.
  - assert (Domain.id <$> ds = Domain.id <$> domains s) as Hids; [|simpl; by rewrite Hids].
    clear -Hd. induction Hd as [|d d' l l' (He & _) Hl IH]; [done|]. by rewrite !fmap_cons, He, IH.
  - intros [Hf Hfs]. split; [done|]. simpl. clear -Hd Hfs.
    induction Hd as [|d d' l l' (_ & He) Hl IH]; inversion_clear Hfs; constructor; auto.
Qed.

Lemma visit_folder_wf sensor t b e w t' b' w' :
  visit_folder sensor (t, b) e w = Done ((t', b'), w') → well_formed t → well_formed t'.
Proof.
  unfold visit_folder. intros (folder & w1 & _ & Hr)%io_bind_inv Hw.
  destruct (is_match re_domain folder).
  { apply io_bind_inv in Hr as (i & w2 & _ & Hr). apply io_bind_inv in Hr as (j & w3 & _ & Hr).
    apply io_bind_inv in Hr as (t1 & w4 & Ht1%register_socket_wf & Hr); [|done].
    by apply io_bind_inv in Hr as (t2 & w5 & Ht2%register_domain_wf & [= <- _ _]). }
  destruct (is_match re_socket_mmio folder).
  { apply io_bind_inv in Hr as (i & w2 & _ & [= <- _ _]). by apply register_socket_mmio_wf. }
  destruct (is_match re_domain_mmio folder); [|by injection Hr as <- _ _].
  apply io_bind_inv in Hr as (i & w2 & _ & Hr).
  by apply io_bind_inv in Hr as (t1 & w3 & Ht1%register_domain_mmio_wf & [= <- _ _]).
Qed.

Lemma visit_socket_folder_wf sensor t e w t' w' :
  visit_socket_folder sensor t e w = Done (t', w') → well_formed t → well_formed t'.
Proof.
  unfold visit_socket_folder. intros (folder & w1 & _ & Hr)%io_bind_inv Hw.
  apply io_bind_inv in Hr as (name & w2 & _ & Hr). destruct name; [|by injection Hr as <- _].
  destruct (_ && _); [|by injection Hr as <- _]. apply io_bind_inv in Hr as (i & w3 & _ & Hr).
  by eapply register_socket_wf.
Qed.

Lemma visit_psys_wf t e w t' w' : visit_psys t e w = Done (t', w') → well_formed t → well_formed t'.
Proof.
  unfold visit_psys. intros (folder & w1 & _ & Hr)%io_bind_inv Hw.
  apply io_bind_inv in Hr as (name & w2 & _ & [= <- _]). destruct name; [|done]. by destruct (decide _).
Qed.

Lemma for_each_folder_inv {S} sensor (visit : S → option string → io S) (I : S → Prop) st w st' w' :
  (∀ s e w1 s' w2, visit s e w1 = Done (s', w2) → I s → I s') →
  for_each_folder sensor visit st w = Done (st', w') → I st → I st'.
Proof.
  intros Hv. unfold for_each_folder. intros (l & w1 & _ & Hr)%io_bind_inv Hst.
  apply io_bind_inv in Hr as (l' & w2 & _ & Hr).
  eapply (io_fold_inv visit I); [|exact Hst|exact Hr]. eauto.
Qed.

Lemma generate_topology_wf sensor w t w' : generate_topology sensor w = Done (t, w') → well_formed t.
Proof.
  unfold generate_topology. intros (m & w1 & _ & Hr)%io_bind_inv.
  apply io_bind_inv in Hr as (t0 & w2 & Hn & Hr). apply io_bind_inv in Hr as ([t1 b] & w3 & H1' & Hr).
  apply io_bind_inv in Hr as (t2 & w4 & H2' & Hr). apply io_bind_inv in Hr as (t3 & w5 & H3' & Hr).
  assert (Hw0 : well_formed t0).
  { unfold Topology.new in Hn. repeat (apply io_bind_inv in Hn as (? & ? & _ & Hn)).
    injection Hn as <- _. split; [split; constructor|constructor]. }
  apply (for_each_folder_inv sensor _ (λ st, well_formed st.1)) in H1';
    [|intros [s b'] e w6 [s' b''] w7; apply visit_folder_wf|exact Hw0]. simpl in H1'.
  assert (Hw2 : well_formed t2).
  { destruct b; [by injection H2' as <- _|].
    by apply (for_each_folder_inv sensor _ well_formed) in H2'; [|intros *; apply visit_socket_folder_wf|]. }
  apply (for_each_folder_inv sensor _ well_formed) in H3'; [|intros *; apply visit_psys_wf|done].
  apply add_cores_skeleton in Hr. by eapply well_formed_skeleton.
Qed.

(** The topologies of a run: generated from the powercap tree, then refreshed. *)
Inductive run (sensor : PowercapRAPLSensor) : Topology → Prop :=
  | run_generate w t w' : generate_topology sensor w = Done (t, w') → run sensor t
  | run_refresh t w t' w' : run sensor t → refresh t w = Done (t', w') → run sensor t'.

(** C3: whatever the powercap tree holds and in whatever order its folders are listed, the
    topology generated from it and refreshed any number of times has sockets with distinct
    ids, domains with distinct ids in each socket, and a counter file for each of them: the
    file that every reading takes for granted is never missing. *)
Theorem run_well_formed sensor t :
  run sensor t →
  wf_structure t ∧
  Forall (λ s, has_file (Socket.sensor_data s) ∧ Forall (λ d, has_file (Domain.sensor_data d)) (domains s))
         (sockets t).
Proof.
  change (run sensor t → well_formed t).
  induction 1 as [w t w' Hg|t w t' w' _ IH Hr]; [by eapply generate_topology_wf|].
  eapply well_formed_skeleton; [by eapply refresh_skeleton|exact IH].
Qed.

(** ** Visiting a folder *)

Abbreviation no_colon := (differs ":"%char).

Lemma digits_no_colon n : 0 <= n → all_chars no_colon (show_uint n) = true.
Proof.
  intros Hn. apply (all_chars_impl is_digit); [|by apply all_digits_show].
  intros c Hc. unfold differs. by destruct (bool_decide_reflect (c = ":"%char)) as [->|].
Qed.

Definition u16 (n : Z) : Prop := 0 <= n <= umax 16.

(** The folders of the tree, named after the ids. *)
Definition domain_folder (base : string) (i j : Z) : string :=
  (base +:+ "/intel-rapl") +:+ String ":" (show_uint i +:+ String ":" (show_uint j)).

Lemma number_of_domain_folder base i j :
  all_chars no_colon base = true → u16 i → u16 j →
  number 1 (domain_folder base i j) = Done i ∧ number 2 (domain_folder base i j) = Done j.
Proof.
  intros Hb Hi Hj. unfold number, domain_folder.
  rewrite split_on_app by (rewrite all_chars_app, Hb; done).
  rewrite split_on_app by (apply digits_no_colon; unfold u16 in *; lia).
  rewrite split_on_single by (apply digits_no_colon; unfold u16 in *; lia).
  simpl. rewrite !parse_show_uint by done. done.
Qed.

(** Files that do not change while the tree is visited. *)
Section Stable.
Context (content : string → option string).
Context (Hstable : ∀ p w, read_to_string p w = (content p, w)).

(** The data of a counter: its file, and its range when it is known. *)
Definition counter_data (source range : string) : gmap string string :=
  match content range with
  | Some max => <["max_energy_range_uj"%string := trim max]> {["source_file"%string := source]}
  | None => {["source_file"%string := source]}
  end.

Lemma with_range_stable file source w :
  with_range file {["source_file"%string := source]} w = Done (counter_data source file, w).
Proof. unfold with_range, mbind, io_bind, read_file, counter_data. by rewrite Hstable. Qed.

(** The socket and the domain of a domain folder. *)
Definition folder_socket (sensor : PowercapRAPLSensor) (i : Z) (topo : Topology) : Topology :=
  let source := socket_folder sensor i +:+ "/energy_uj" in
  (safe_add_socket i [] [] source (buffer_per_socket_max_kbytes sensor)
     (counter_data source (socket_folder sensor i +:+ "/max_energy_range_uj")) topo).1.

Definition folder_domain (sensor : PowercapRAPLSensor) (folder name : string) (i j : Z) (r : DomainResource)
    : Domain :=
  let source := socket_folder sensor i +:+ ":" +:+ show_uint j +:+ "/energy_uj" in
  Domain.new j name source (buffer_per_domain_max_kbytes sensor)
    (<["related_resource"%string := resource_to_string r]>
       (counter_data source (folder +:+ "/max_energy_range_uj"))).

Lemma visit_domain_folder sensor topo b i j name r w :
  let folder := domain_folder (base_path sensor) i j in
  all_chars no_colon (base_path sensor) = true → u16 i → u16 j → to_str folder = Some folder →
  is_match re_domain folder = true →
  content (folder +:+ "/name") = Some name → parse_resource (trim name) = Done r →
  ∃ t', visit_folder sensor (topo, b) (Some folder) w = Done ((t', true), w) ∧
        sockets t' = (λ s, if Socket.id s =? i then safe_add_domain (folder_domain sensor folder (trim name) i j r) s
                           else s) <$> sockets (folder_socket sensor i topo).
Proof.
  intros folder Hb Hi Hj Hs Hm Hn Hr. destruct (number_of_domain_folder _ i j Hb Hi Hj) as [H1' H2'].
  fold folder in H1', H2'. eexists. split.
  - unfold visit_folder, folder_name. simpl unwrap. unfold mbind at 1, io_bind at 1, lift at 1. simpl.
    rewrite Hs. simpl. rewrite Hm. unfold mbind at 1 2, io_bind at 1 2, lift at 1 2. rewrite H1', H2'.
    unfold mbind at 1 2, io_bind at 1 2, register_socket. unfold mbind at 1, io_bind at 1.
    rewrite with_range_stable. simpl. unfold register_domain. unfold mbind at 1, io_bind at 1.
    rewrite with_range_stable. unfold mbind at 1, io_bind at 1, read_file. rewrite Hstable, Hn.
    unfold mbind, io_bind, lift. rewrite Hr. reflexivity.
  - reflexivity.
Qed.

(** A domain folder [intel-rapl:i:j] registers domain [j] of socket [i], and the socket
    when it is not known yet: the domain has the name of the folder, the resource of that
    name, the counter of its own folder and, when the file can be read, its range; the
    other sockets do not change. *)
Theorem domain_folder_registered sensor topo b i j name r w :
  let folder := domain_folder (base_path sensor) i j in
  all_chars no_colon (base_path sensor) = true → u16 i → u16 j → to_str folder = Some folder →
  is_match re_domain folder = true →
  content (folder +:+ "/name") = Some name → parse_resource (trim name) = Done r →
  (∀ s d, s ∈ sockets topo → Socket.id s = i → d ∈ domains s → Domain.id d ≠ j) →
  ∃ t' s, visit_folder sensor (topo, b) (Some folder) w = Done ((t', true), w) ∧
    s ∈ sockets t' ∧ Socket.id s = i ∧ folder_domain sensor folder (trim name) i j r ∈ domains s ∧
    List.filter (λ s, negb (Socket.id s =? i)) (sockets t')
    = List.filter (λ s, negb (Socket.id s =? i)) (sockets topo).
Proof.
  intros folder Hb Hi Hj Hs Hm Hn Hr Hfresh.
  destruct (visit_domain_folder sensor topo b i j name r w Hb Hi Hj Hs Hm Hn Hr) as (t' & Hv & Hl).
  fold folder in Hv, Hl. set (d := folder_domain sensor folder (trim name) i j r) in *.
  assert (Hsock : ∃ s, s ∈ sockets (folder_socket sensor i topo) ∧ Socket.id s = i ∧
                       ∀ d', d' ∈ domains s → Domain.id d' ≠ j).
  { unfold folder_socket, safe_add_socket. destruct (has_socket i topo) eqn:E.
    - apply has_socket_spec, list_elem_of_fmap in E as (s & He & Hin). exists s. split; [done|]. split; [done|]. eauto.
    - eexists. split; [simpl; apply elem_of_app; right; by left|]. split; [done|].
      simpl. intros d' Hd'. by apply elem_of_nil in Hd'. }
  destruct Hsock as (s & Hin & Hid & Hno).
  exists t', (safe_add_domain d s). split; [exact Hv|]. rewrite Hl. split; [|split; [|split]].
  - apply list_elem_of_fmap. exists s. split; [|done]. by rewrite Hid, Z.eqb_refl.
  - by rewrite safe_add_domain_id.
  - unfold safe_add_domain. destruct (existsb _ _) eqn:E; [|apply elem_of_app; right; by left].
    apply existsb_exists in E as (d' & Hd' & He%Z.eqb_eq). exfalso.
    by apply (Hno d'); [apply list_elem_of_In|].
  - clear - topo. unfold folder_socket, safe_add_socket.
    assert (Hf : ∀ l, List.filter (λ s, negb (Socket.id s =? i))
              ((λ s, if Socket.id s =? i then safe_add_domain d s else s) <$> l)
            = List.filter (λ s, negb (Socket.id s =? i)) l).
    { intros l. induction l as [|s l IH]; [done|]. rewrite fmap_cons. simpl.
      destruct (Socket.id s =? i) eqn:E; simpl; [by rewrite safe_add_domain_id, E|by rewrite E, IH]. }
    rewrite Hf. destruct (has_socket i topo); [done|]. simpl. rewrite List.filter_app. simpl.
    by rewrite Z.eqb_refl, app_nil_r.
Qed.
End Stable.

(** An mmio folder whose socket is not known yet changes nothing: whether a socket gets
    its mmio counter depends on the order in which the file system lists the folders. *)
Theorem early_mmio_folder_ignored sensor topo b folder i w :
  to_str folder = Some folder → is_match re_domain folder = false →
  is_match re_socket_mmio folder || is_match re_domain_mmio folder = true →
  number 1 folder = Done i → has_socket i topo = false →
  ∃ t', visit_folder sensor (topo, b) (Some folder) w = Done ((t', b), w) ∧ sockets t' = sockets topo.
Proof.
  intros Hs Hd Hm Hn Hno.
  assert (Hids : ∀ s, s ∈ sockets topo → (Socket.id s =? i) = false).
  { intros s Hin. apply not_true_iff_false. intros He. apply not_true_iff_false in Hno. apply Hno.
    unfold has_socket. apply existsb_exists. exists s. split; [by apply list_elem_of_In|done]. }
  unfold visit_folder, folder_name. simpl unwrap. unfold mbind at 1, io_bind at 1, lift at 1. simpl.
  rewrite Hs. simpl. rewrite Hd. destruct (is_match re_socket_mmio folder).
  - unfold mbind, io_bind, lift. rewrite Hn. eexists. split; [reflexivity|]. simpl.
    clear -Hids. induction (sockets topo) as [|s l IH]; [done|]. rewrite fmap_cons.
    rewrite Hids by by left. f_equal. apply IH. intros s' Hin. apply Hids. by right.
  - simpl in Hm. rewrite Hm. unfold mbind at 1, io_bind at 1, lift. rewrite Hn.
    unfold register_domain_mmio. unfold mbind at 1 2, io_bind at 1 2.
    assert (He : ∀ (f : CPUSocket → io CPUSocket) l, (∀ s, s ∈ l → (Socket.id s =? i) = false) →
              io_map (λ s, if Socket.id s =? i then f s else mret s) l w = Done (l, w)).
    { intros f l. induction l as [|s l IH]; intros Hl; [done|]. simpl.
      unfold mbind at 1, io_bind at 1. rewrite Hl by by left. simpl.
      unfold mbind at 1, io_bind at 1. rewrite IH; [done|]. intros s' Hin. apply Hl. by right. }
    rewrite He by exact Hids. eexists. split; [reflexivity|]. done.
Qed.
End Powercap.

(** ** Examples on the simulated host *)

Definition digits (s : string) : bool := negb (bool_decide (s = ""%string)) && all_chars is_digit s.

(** The four patterns of the sensor on ASCII paths. *)
#[local] Instance host_regex : Regex := λ pattern s,
  match rev (split_on "/"%char s) with
  | last :: _ :: _ =>
      match split_on ":"%char last with
      | [p; i] =>
          (bool_decide (pattern = re_socket) && bool_decide (p = "intel-rapl"%string)
           || bool_decide (pattern = re_socket_mmio) && bool_decide (p = "intel-rapl-mmio"%string))
          && digits i
      | [p; i; j] =>
          (bool_decide (pattern = re_domain) && bool_decide (p = "intel-rapl"%string)
           || bool_decide (pattern = re_domain_mmio) && bool_decide (p = "intel-rapl-mmio"%string))
          && digits i && digits j
      | _ => false
      end
  | _ => false
  end.

#[local] Existing Instances x86_64.
#[local] Instance checked : Profile := true.

Definition newline : string := String "010" "".

(** The names of the folders, as the kernel writes them: with a newline. *)
Definition name_files : files := λ p _,
  let b := "/sys/class/powercap/" in
  if decide (p = b +:+ "intel-rapl:0/name")%string then Some ("package-0" +:+ newline) else
  if decide (p = b +:+ "intel-rapl:1/name")%string then Some ("psys" +:+ newline) else
  if decide (p = b +:+ "intel-rapl:0:0/name")%string then Some ("core" +:+ newline) else
  if decide (p = b +:+ "intel-rapl:0:0/max_energy_range_uj")%string then Some ("1000" +:+ newline) else None.

#[local] Instance host : Os := simulated name_files.
#[local] Instance host_procfs : Procfs := simulated_procfs name_files.
#[local] Instance host_perf : PerfEvents := simulated_perf name_files.
#[local] Instance host_sysinfo : Sysinfo := simulated_sysinfo name_files 2 [].
#[local] Instance host_aya : Aya := simulated_aya name_files [].
#[local] Instance host_modules : KernelModules := λ w, (Some ["intel_rapl_msr"%string], w).

(** A file system whose every directory holds the given folders of the powercap tree. *)
Definition tree (folders : list string) : @FileSystem host :=
  @Build_FileSystem host
    (λ _ w, (Some ((λ f, Some ("/sys/class/powercap/" +:+ f)%string) <$> folders), w))
    (λ _ w, (false, w)) (λ _ _ _ w, (Some [0], w)).

Definition sample_sensor : PowercapRAPLSensor := new None 1 1 false.
Definition start : world := 0.

Lemma host_stable p (w : world) : read_to_string p w = (name_files p 0, w).
Proof. reflexivity. Qed.

Section Tree.
#[local] Instance sample_tree : FileSystem :=
  tree ["intel-rapl-mmio:0"; "intel-rapl:0"; "intel-rapl:0:0"; "intel-rapl:1"].

Lemma sample_generated : is_done (generate_topology sample_sensor start) = true.
Proof. vm_compute. reflexivity. Qed.

Lemma run_well_formed_witness : ∃ t, run sample_sensor t ∧ wf_structure t.
Proof.
  destruct (is_done_inv _ sample_generated) as [[t w] E]. exists t.
  assert (Hr : run sample_sensor t) by exact (run_generate _ _ _ _ E).
  split; [exact Hr|]. exact (proj1 (run_well_formed sample_sensor t Hr)).
Defined.

Definition empty_topology : Topology := {|
  sockets := []; proc_tracker := mkTracker [] 2 None 5 tt; stat_buffer := []; record_buffer := [];
  buffer_max_kbytes := 1; domains_names := None; sensor_data := ∅; ebpf := None; cpu_state_buffer := None;
  activation_idle_buffer := ∅; cpu_time_map := None; cpu_time_buffer := [] |}.

Lemma domain_folder_registered_witness :
  ∃ t' s d, visit_folder sample_sensor (empty_topology, false)
              (Some "/sys/class/powercap/intel-rapl:0:0"%string) start = Done ((t', true), start) ∧
    s ∈ sockets t' ∧ Socket.id s = 0 ∧ d ∈ domains s ∧
    Domain.name d = "core"%string ∧ Domain.rapl_max_uj d = 1000.
Proof.
  destruct (domain_folder_registered (λ p, name_files p 0) host_stable sample_sensor empty_topology
              false 0 0 ("core" +:+ newline) CPU start) as (t' & s & Hv & Hs & Hi & Hd & _);
    try (vm_compute; reflexivity); try (unfold u16, umax; lia).
  - intros s d Hs. by apply elem_of_nil in Hs.
  - exists t', s. eexists. split; [exact Hv|]. split; [exact Hs|]. split; [exact Hi|]. split; [exact Hd|].
    split; vm_compute; reflexivity.
Defined.

Lemma early_mmio_folder_ignored_witness :
  ∃ t', visit_folder sample_sensor (empty_topology, false)
          (Some "/sys/class/powercap/intel-rapl-mmio:0"%string) start = Done ((t', false), start) ∧
        sockets t' = [].
Proof.
  apply (early_mmio_folder_ignored sample_sensor empty_topology false
           "/sys/class/powercap/intel-rapl-mmio:0" 0 start); vm_compute; reflexivity.
Defined.
End Tree.

Section Fallback.
#[local] Instance flat_tree : FileSystem := tree ["intel-rapl:0"; "intel-rapl:1"].

(** Without domain folders the folder of the platform counter becomes a second socket: its
    name is compared with the newline the kernel ends it with. *)
Lemma psys_taken_for_a_socket :
  match generate_topology sample_sensor start with
  | Done (t, _) => Socket.id <$> sockets t = [0; 1] ∧
                   Topology.sensor_data t !! "psys"%string = Some "/sys/class/powercap/intel-rapl:1"%string
  | Panic => False
  end.
Proof. vm_compute. split; reflexivity. Qed.
End Fallback.
