(* ===== verification/ExporterUtils.v ===== *)
(** * Helpers of the exporters ([exporters/utils.rs])

    The text of a sample in the Prometheus format, the filtering of command lines and the
    name of a virtual machine.  A map of labels is the list of its entries in the order in
    which the hash map is iterated. *)

From S2P Require Import Prelude Text TextOps.
From Stdlib Require Import Ascii.

#[local] Arguments String.append : simpl nomatch.

Definition quote : ascii := "034".
Definition backslash : ascii := "092".
Definition newline : ascii := "010".

Definition filter_cmdline (cmdline : string) : string :=
  replace_char newline "" (replace_char quote (String backslash (String quote "")) cmdline).

(** Quotes become underscores, then the backslashes are removed. *)
Definition label_value (v : string) : string := replace_char backslash "" (replace_char quote "_" v).

(** The name, an equal sign, the quoted value and a comma. *)
Definition write_label (result : string) (l : string * string) : string :=
  result +:+ l.1 +:+ "=" +:+ String quote (label_value l.2 +:+ String quote ",").

Definition format_prometheus_metric (key value : string) (labels : option (list (string * string))) : string :=
  let result :=
    match labels with
    | Some labels => drop_last (fold_left write_label labels (key +:+ "{")) +:+ "}"
    | None => key
    end in
  result +:+ " " +:+ value +:+ String newline "".

(** [vmname[1]] exists when the command line holds [guest=]. *)
Definition filter_qemu_cmdline (cmdline : string) : outcome (option string) :=
  if contains "qemu-system" cmdline && contains "guest=" cmdline then
    let vmname := split_on ","%char <$> split_str "guest=" cmdline in
    name ← unwrap (vmname !! 1%nat);
    first ← unwrap (name !! 0%nat);
    Done (if (length name =? 1)%nat then None
          else if decide (first = ""%string) then None
          else Some first)
  else Done None.

(** [crate_version!()] is the version of the package. *)
Definition get_scaphandre_version (crate_version : string) : outcome string :=
  let version_parts := split_on "."%char crate_version in
  major_version ← unwrap (version_parts !! 0%nat);
  patch_version ← unwrap (version_parts !! 1%nat);
  minor_version ← unwrap (version_parts !! 2%nat);
  Done (major_version +:+ "." +:+ patch_version +:+ minor_version).

(** ** Reading a sample back

    A reader of the exposition format: a name, labels whose quoted values end at the next
    quote and hold no end of line, a space, the value up to the end of the line. *)

Definition expect (c : ascii) (s : string) : option string :=
  match s with String d s' => if ascii_dec c d then Some s' else None | EmptyString => None end.

Fixpoint read_labels (fuel : nat) (s : string) : option (list (string * string) * string) :=
  match fuel with
  | O => None
  | S fuel =>
      '(name, s) ← cut "="%char s;
      s ← expect quote s;
      '(v, s) ← cut quote s;
      if negb (all_chars (differs newline) v) then None else
      match s with
      | String c s =>
          if ascii_dec c "}"%char then Some ([(name, v)], s)
          else if ascii_dec c ","%char then
            '(l, rest) ← read_labels fuel s; Some ((name, v) :: l, rest)
          else None
      | EmptyString => None
      end
  end.

(** The longest prefix of characters that satisfy [P], and what follows it. *)
Fixpoint span (P : ascii → bool) (s : string) : string * string :=
  match s with
  | EmptyString => (""%string, ""%string)
  | String c s' => if P c then let '(a, b) := span P s' in (String c a, b) else (""%string, s)
  end.

Definition name_char (c : ascii) : bool := differs "{"%char c && differs " "%char c && differs "#"%char c.

(** The name, the labels, the value and what follows the line. *)
Definition read_sample (s : string) : option (string * list (string * string) * string * string) :=
  let '(key, s) := span name_char s in
  '(labels, s) ← match expect "{"%char s with
                 | Some s => read_labels (String.length s) s
                 | None => Some ([], s)
                 end;
  s ← expect " "%char s;
  '(value, rest) ← cut newline s;
  Some (key, labels, value, rest).

Definition without (c : ascii) (s : string) : Prop := all_chars (differs c) s = true.

Lemma label_value_plain v : without quote (label_value v) ∧ without backslash (label_value v).
Proof.
  split.
  - apply replace_char_keeps; [done|]. by apply replace_char_absent.
  - by apply replace_char_absent.
Qed.

(** The ends of line of a value remain. *)
Lemma label_value_newline v : without newline v → without newline (label_value v).
Proof. intros Hv. by repeat (apply replace_char_keeps; [done|]). Qed.

(** A value without quotes and backslashes is exported as it is. *)
Lemma label_value_id v : without quote v → without backslash v → label_value v = v.
Proof. intros Hq Hb. unfold label_value. by rewrite !replace_char_id by (rewrite ?replace_char_id; done). Qed.

Definition label (l : string * string) : string :=
  l.1 +:+ "=" +:+ String quote (label_value l.2 +:+ String quote "").

Fixpoint labels_text (l : string * string) (ls : list (string * string)) : string :=
  match ls with
  | [] => label l
  | l' :: ls => label l +:+ String "," (labels_text l' ls)
  end.

Lemma write_label_eq s l : write_label s l = s +:+ label l +:+ ",".
Proof. unfold write_label, label. autorewrite with text. simpl. by autorewrite with text. Qed.

Lemma write_labels l ls s : fold_left write_label (l :: ls) s = s +:+ labels_text l ls +:+ ",".
Proof.
  revert l s. induction ls as [|l' ls IH]; intros l s; [by apply write_label_eq|].
  change (fold_left write_label (l :: l' :: ls) s) with (fold_left write_label (l' :: ls) (write_label s l)).
  rewrite IH, write_label_eq. simpl. autorewrite with text. simpl. by autorewrite with text.
Qed.

Lemma format_labels key value l ls :
  format_prometheus_metric key value (Some (l :: ls))
  = key +:+ String "{" (labels_text l ls +:+ String "}" (String " " (value +:+ String newline ""))).
Proof.
  unfold format_prometheus_metric. rewrite write_labels. rewrite <- (app_assoc_str (key +:+ "{")%string).
  change "," with (String ","%char ""). rewrite drop_last_snoc. autorewrite with text. simpl. by autorewrite with text.
Qed.

Lemma read_labels_text fuel l ls rest :
  Forall (λ x, without "="%char x.1 ∧ without newline x.2) (l :: ls) → (length ls < fuel)%nat →
  read_labels fuel (labels_text l ls +:+ String "}" rest)
  = Some ((λ x, (x.1, label_value x.2)) <$> (l :: ls), rest).
Proof.
  revert l fuel. induction ls as [|l' ls IH]; intros l fuel Hn Hf; (destruct fuel as [|fuel]; [simpl in Hf; lia|]);
    inversion_clear Hn as [|? ? [Hl Hnl%label_value_newline] Hls]; destruct (label_value_plain l.2) as [Hq _].
  - simpl labels_text. unfold label. autorewrite with text. simpl. autorewrite with text.
    rewrite cut_app by done. simpl. rewrite cut_app by done. simpl. by rewrite Hnl.
  - simpl labels_text. unfold label at 1. autorewrite with text. simpl. autorewrite with text.
    rewrite cut_app by done. simpl. rewrite cut_app by done. simpl. rewrite Hnl. simpl. rewrite IH; [done|done|simpl in Hf; lia].
Qed.

Lemma span_app P s c t : all_chars P s = true → P c = false → span P (s +:+ String c t) = (s, String c t).
Proof.
  intros Hs Hc. induction s as [|d s IH]; simpl in *; [by rewrite Hc|].
  apply andb_true_iff in Hs as [Hd Hs]. by rewrite Hd, IH.
Qed.

Lemma labels_text_length l ls : (length ls < String.length (labels_text l ls))%nat.
Proof.
  revert l. induction ls as [|l' ls IH]; intros l; simpl; unfold label; rewrite !length_app_str; simpl; [lia|].
  specialize (IH l'). lia.
Qed.

(** A sample of the Prometheus format reads back as its name, its labels and its value,
    the only change being in the values of the labels, where a quote becomes an underscore
    and a backslash disappears; nothing of a value can end its quoted text, and what
    follows the sample is what was written after it. *)
Lemma sample_round_trip key value labels rest :
  labels ≠ Some [] → all_chars name_char key = true → without newline value →
  Forall (λ x, without "="%char x.1 ∧ without newline x.2) (default [] labels) →
  read_sample (format_prometheus_metric key value labels +:+ rest)
  = Some (key, (λ x, (x.1, label_value x.2)) <$> default [] labels, value, rest).
Proof.
  intros Hne Hk Hv Hl. unfold read_sample. destruct labels as [[|l ls]|]; [done| |].
  - rewrite format_labels. autorewrite with text. simpl. autorewrite with text. simpl. autorewrite with text.
    rewrite span_app by done. simpl.
    rewrite read_labels_text; [|done|].
    + simpl. autorewrite with text. simpl. rewrite cut_app by done. done.
    + rewrite length_app_str. pose proof (labels_text_length l ls). lia.
  - unfold format_prometheus_metric. autorewrite with text. simpl. autorewrite with text. simpl.
    rewrite span_app by done. simpl. rewrite cut_app by done. done.
Qed.

(** ** Virtual machines *)

(** Reading the name of a virtual machine never indexes out of range, and a name it
    gives is that of a guest of a qemu command line: it follows [guest=], ends at a comma,
    is not empty and holds no comma. *)
Theorem qemu_name_sound cmdline :
  ∃ r, filter_qemu_cmdline cmdline = Done r ∧
    match r with
    | Some name =>
        contains "qemu-system" cmdline = true ∧ name ≠ ""%string ∧ without ","%char name ∧
        ∃ a b, cmdline = a +:+ "guest=" +:+ name +:+ String "," b
    | None => True
    end.
Proof.
  unfold filter_qemu_cmdline. destruct (contains "qemu-system" cmdline) eqn:Hq; [|by exists None].
  destruct (contains "guest=" cmdline) eqn:Hg; simpl; [|by exists None].
  destruct (contains_split "guest=" cmdline ltac:(discriminate) Hg) as (a & b & l & Hl).
  pose proof (join_split_str "guest=" cmdline ltac:(discriminate)) as Hj. rewrite Hl in Hj |- *. simpl.
  pose proof (join_split_on ","%char b) as Hb. pose proof (split_on_without ","%char b) as Hw.
  destruct (split_on ","%char b) as [|first pieces] eqn:Eb; [by apply split_on_nonempty in Eb|]. simpl.
  eexists. split; [reflexivity|]. destruct pieces as [|w ws]; [done|]. simpl.
  destruct (decide (first = ""%string)) as [|Hf]; [done|].
  split; [done|]. split; [done|]. split; [by inversion_clear Hw|].
  simpl in Hb. destruct l as [|v l]; simpl in Hj.
  - exists a, (join "," (w :: ws)). rewrite <- Hj, <- Hb. done.
  - exists a, (join "," (w :: ws) +:+ "guest=" +:+ join "guest=" (v :: l)). rewrite <- Hj, <- Hb.
    autorewrite with text. simpl. by autorewrite with text.
Qed.

(** A guest before which [guest=] does not occur is found. *)
Theorem qemu_name_complete a name b :
  contains "qemu-system" (a +:+ "guest=" +:+ name +:+ String "," b) = true →
  no_match "guest=" a ("guest=" +:+ name +:+ String "," b) = true →
  no_match "guest=" (name +:+ ",") b = true → name ≠ ""%string → without ","%char name →
  filter_qemu_cmdline (a +:+ "guest=" +:+ name +:+ String "," b) = Done (Some name).
Proof.
  intros Hq Ha Hn Hne Hc. unfold filter_qemu_cmdline. rewrite Hq.
  assert (contains "guest=" (a +:+ "guest=" +:+ name +:+ String "," b) = true) as ->
    by (apply contains_app; by exists a, (name +:+ String "," b)%string).
  cbn [andb].
  rewrite split_str_no_match by done. rewrite split_str_match by done.
  replace (name +:+ String "," b) with ((name +:+ ",") +:+ b) by (by autorewrite with text).
  rewrite split_str_no_match by done. pose proof (split_go_nonempty "guest=" 0 b) as Hb.
  unfold split_str. destruct (split_go "guest=" 0 b) as [|w ws]; [done|]. rewrite !fmap_cons.
  autorewrite with text. simpl. rewrite split_on_app by done. simpl.
  pose proof (split_on_nonempty ","%char w) as Hs. destruct (split_on ","%char w); [done|]. simpl.
  by rewrite decide_False.
Qed.

(** ** Examples *)

(** An end of line in the value of a label, which nothing removes, breaks the sample. *)
Lemma newline_breaks_sample :
  let exe := ("/bin/a" +:+ String newline "b")%string in
  read_sample (format_prometheus_metric "scaph_process_memory_bytes" "1" (Some [("exe"%string, exe)])) = None.
Proof. reflexivity. Qed.

Lemma qemu_name_complete_witness :
  filter_qemu_cmdline ("/usr/bin/qemu-system-x86_64-name" +:+ "guest=" +:+ "fedora33" +:+ String "," "debug-threads=on")
  = Done (Some "fedora33"%string).
Proof. by apply qemu_name_complete. Defined.

Lemma version : get_scaphandre_version "1.0.0" = Done "1.00"%string.
Proof. reflexivity. Qed.
