(* ===== verification/Containers.v ===== *)
(** * The labels of containers ([sensors/utils.rs], [get_process_container_description])

    A process of a container is recognised by the path names of its control groups: the
    first one that belongs to a container technology decides. *)

From S2P Require Import Prelude Floats Text TextOps Env ProcTracker.
From Stdlib Require Import Ascii.

Definition regex_cgroup_docker : string := "^.*/docker.*$".
Definition regex_cgroup_kubernetes : string := "^/kubepods.*$".
Definition regex_cgroup_containerd : string := "/system.slice/containerd.service/.*$".
Definition regex_clean_container_id : string := "[[:alnum:]]{12,}".

Section Containers.
Context `{Profile, Os, !Procfs, !Sysinfo, !Aya, !HashMaps, !ContainerRuntimes, Regex, Captures}.

Abbreviation labels := (gmap string string).

(** The key of a label of a container. *)
Definition label_key (k : string) : string :=
  "container_label_" +:+
  replace_char " " "_" (replace_char ":" "_" (replace_char "." "_" (replace_char "-" "_" k))).

(** [names.push_str(&n.trim().replace('/', ""))]. *)
Definition container_names (c : Container) : string :=
  fold_left (λ names n, names +:+ replace_char "/" "" (trim n)) (container_Names c) "".

(** The labels of a known docker container, whose own labels come in the order of their
    hash map. *)
Definition describe_container (docker_version : string) (c : Container) (d : labels) : io labels :=
  let d := <["container_docker_version"%string := docker_version]>
           (<["container_names"%string := container_names c]> d) in
  match container_Labels c with
  | Some own =>
      l ← iterate own;
      mret (fold_left (λ d x, <[label_key x.1 := x.2]> d) l d)
  | None => mret d
  end.

(** The identifier of a container without its scheme. *)
Definition final_id (id : string) : option string :=
  match strip_prefix "docker://" id with
  | Some i => Some i
  | None => strip_prefix "containerd://" id
  end.

Definition has_container (container_id : string) (p : Pod) : bool :=
  match pod_statuses p with
  | Some (Some ids) =>
      existsb (λ y, match y ≫= final_id with Some i => String.eqb i container_id | None => false end) ids
  | _ => false
  end.

Definition insert_some (k : string) (v : option string) (d : labels) : labels :=
  match v with Some v => <[k := v]> d | None => d end.

Definition describe_pod (pods : list Pod) (container_id : string) (d : labels) : labels :=
  match List.find (has_container container_id) pods with
  | Some p =>
      insert_some "kubernetes_node_name" (node ← pod_spec p; node)
      (insert_some "kubernetes_pod_namespace" (pod_namespace p)
      (insert_some "kubernetes_pod_name" (pod_name p)
      (<["container_scheduler"%string := "kubernetes"%string]> d)))
  | None => d
  end.

(** A control group that docker does not manage. *)
Definition describe_cgroup (pods : list Pod) (pathname : string) (d : labels) : labels :=
  let container_id := extract_pod_id_from_cgroup_path pathname in
  describe_pod pods container_id (<["container_id"%string := container_id]> d).

(** The loop over the control groups, left at the first one that decides. *)
Fixpoint describe_cgroups (containers : list Container) (docker_version : string) (pods : list Pod)
    (cgroups : list string) (d : labels) : io labels :=
  match cgroups with
  | [] => mret d
  | cg :: cgroups =>
      if is_match regex_cgroup_docker cg then
        let d := <["container_scheduler"%string := "docker"%string]> d in
        match captures regex_clean_container_id cg with
        | Some container_id =>
            let d := <["container_id"%string := container_id]> d in
            match List.find (λ x, String.eqb (container_Id x) container_id) containers with
            | Some c => describe_container docker_version c d
            | None => mret d
            end
        | None => describe_cgroups containers docker_version pods cgroups d
        end
      else if is_match regex_cgroup_containerd cg then
        mret (describe_cgroup pods cg (<["container_runtime"%string := "containerd"%string]> d))
      else if is_match regex_cgroup_kubernetes cg then mret (describe_cgroup pods cg d)
      else describe_cgroups containers docker_version pods cgroups d
  end.

(** Panics for a process without records and for a pid of 32 bits. *)
Definition get_process_container_description (pid : Z) (containers : list Container)
    (docker_version : string) (pods : list Pod) (pt : ProcessTracker) : io labels :=
  _ ← lift (unwrap (head (List.filter (is_vector_of pid) (procs pt))));
  pid ← lift (unwrap (parse_int 32 (show_int pid)));
  cgroups ← effect (process_cgroups pid);
  match cgroups with
  | Some cgroups => describe_cgroups containers docker_version pods cgroups ∅
  | None => mret ∅
  end.

(** ** Insertions under computed keys *)

Lemma insert_all_other {A} (f : string → string) (l : list (string * A)) (d : gmap string A) key :
  Forall (λ x, f x.1 ≠ key) l → fold_left (λ d x, <[f x.1 := x.2]> d) l d !! key = d !! key.
Proof.
  intros Hl. revert d. induction Hl as [|x l Hx Hl IH]; intros d; [done|]. simpl.
  rewrite IH. by apply lookup_insert_ne.
Qed.

Lemma insert_all_lookup {A} (f : string → string) (l : list (string * A)) (d : gmap string A) k v :
  NoDup l.*1 → (k, v) ∈ l → (∀ x, x ∈ l → f x.1 = f k → x.1 = k) →
  fold_left (λ d x, <[f x.1 := x.2]> d) l d !! f k = Some v.
Proof.
  revert d. induction l as [|x l IH]; intros d Hn Hin Hf; [by apply elem_of_nil in Hin|].
  rewrite fmap_cons in Hn. apply NoDup_cons in Hn as [Hx Hn]. simpl.
  apply elem_of_cons in Hin as [<-|Hin].
  - rewrite insert_all_other; [apply lookup_insert_eq|]. apply Forall_forall. intros y Hy He.
    apply Hx. apply list_elem_of_fmap. exists y. split; [|done]. symmetry. apply Hf; [by right|done].
  - apply IH; [done|done|]. intros y Hy. apply Hf. by right.
Qed.

(** ** Properties *)

(** A control group of no container technology. *)
Definition unrelated (cg : string) : Prop :=
  is_match regex_cgroup_docker cg = false ∧ is_match regex_cgroup_containerd cg = false ∧
  is_match regex_cgroup_kubernetes cg = false.

Lemma unrelated_skipped containers v pods l cgs d :
  Forall unrelated l →
  describe_cgroups containers v pods (l ++ cgs) d = describe_cgroups containers v pods cgs d.
Proof. intros Hl. induction Hl as [|cg l (H1' & H2' & H3') Hl IH]; simpl; [done|]. by rewrite H1', H2', H3'. Qed.

Lemma label_key_prefix k : ∃ s, label_key k = "container_label_" +:+ s.
Proof. by eexists. Qed.

Lemma describe_container_keys `{!HashLaws} v c d w :
  ∃ d' w', describe_container v c d w = Done (d', w') ∧
    (∀ key, (∀ s, key ≠ "container_label_" +:+ s) →
       d' !! key = (<["container_docker_version"%string := v]>
                   (<["container_names"%string := container_names c]> d)) !! key) ∧
    (∀ own k x, container_Labels c = Some own → own !! k = Some x →
       (∀ k' y, own !! k' = Some y → label_key k' = label_key k → k' = k) →
       d' !! label_key k = Some x).
Proof.
  unfold describe_container. destruct (container_Labels c) as [own|] eqn:Ec.
  2:{ eexists _, _. split; [reflexivity|]. split; [done|]. by intros. }
  unfold mbind, io_bind. destruct (iterate own w) as [[l w1]|] eqn:El; [|by unfold iterate, effect in El].
  apply iterate_inv in El. eexists _, _. split; [reflexivity|]. split.
  - intros key Hk. apply insert_all_other. apply Forall_true. intros x He.
    destruct (label_key_prefix x.1) as [s Hs]. apply (Hk s). congruence.
  - intros own' k x [= <-] Hx Hu. apply insert_all_lookup.
    + rewrite El. apply NoDup_fst_map_to_list.
    + rewrite El. by apply elem_of_map_to_list.
    + intros [k' y] Hy. rewrite El in Hy. apply elem_of_map_to_list in Hy. exact (Hu _ _ Hy).
Qed.

(** A process with a control group of docker that names the identifier of a known
    container carries this identifier, the names of the container, the version of docker
    and each of the container's own labels whose key stays distinct once its punctuation
    is replaced, whatever control groups of no container technology come before. *)
Theorem docker_process_described `{!HashLaws} pid containers v pods pt w l cg rest id c :
  List.filter (is_vector_of pid) (procs pt) ≠ [] → 0 <= pid < 2 ^ 31 →
  (process_cgroups pid w).1 = Some (l ++ cg :: rest) → Forall unrelated l →
  is_match regex_cgroup_docker cg = true → captures regex_clean_container_id cg = Some id →
  List.find (λ x, String.eqb (container_Id x) id) containers = Some c →
  ∃ d w', get_process_container_description pid containers v pods pt w = Done (d, w') ∧
    d !! "container_scheduler"%string = Some "docker"%string ∧
    d !! "container_id"%string = Some (container_Id c) ∧
    d !! "container_names"%string = Some (container_names c) ∧
    d !! "container_docker_version"%string = Some v ∧
    ∀ own k x, container_Labels c = Some own → own !! k = Some x →
      (∀ k' y, own !! k' = Some y → label_key k' = label_key k → k' = k) →
      d !! label_key k = Some x.
Proof.
  intros Ht Hp Hc Hl Hm Hid Hf. unfold get_process_container_description.
  destruct (List.filter (is_vector_of pid) (procs pt)) as [|u us]; [done|].
  unfold mbind at 1, io_bind at 1. simpl.
  unfold mbind at 1, io_bind at 1. rewrite parse_show_int by (done || lia). simpl.
  unfold mbind, io_bind, effect. destruct (process_cgroups pid w) as [r w1]. simpl in Hc. subst r.
  rewrite unrelated_skipped by done. simpl. rewrite Hm, Hid, Hf.
  pose proof (find_some _ _ Hf) as [_ He%String.eqb_eq]. subst id.
  edestruct (describe_container_keys v c) as (d & w2 & -> & Hd & Hown).
  exists d, w2. split; [done|]. split_and!; [..|exact Hown]; rewrite Hd; by simplify_map_eq || by intros.
Qed.
End Containers.
