(* ===== verification/Metrics.v ===== *)
(** * The metrics of the exporters ([exporters/mod.rs], MetricGenerator)

    The generator turns the topology into a vector of metrics, in a fixed order: those of
    the program itself, of the host, of the sockets and domains, of the system and of the
    processes.  The exporters take the vector from its end.  A series is identified by the
    name of a metric and its attributes. *)

From S2P Require Import Prelude Floats Text TextOps FloatText Units Env Simulated Records Energy Common.
From S2P Require Import Domain Core Socket ProcTracker Bpf Topology Attribution Containers ExporterUtils.

Inductive MetricValueType :=
  | Text (text : string)
  | IntUnsigned (value : Z).

Definition value_to_string (v : MetricValueType) : string :=
  match v with Text text => text | IntUnsigned value => show_uint value end.

Record Metric := mkMetric {
  name : string;
  metric_type : string;
  ttl : float;
  hostname : string;
  state : string;
  tags : list string;
  attributes : gmap string string;
  description : string;
  metric_value : MetricValueType;
  measured_at : Duration;
}.

(** The fields that every metric has alike. *)
Definition metric (metric_type name hostname : string) (timestamp : Duration)
    (attributes : gmap string string) (description : string) (value : MetricValueType) : Metric := {|
  name := name; metric_type := metric_type; ttl := F32.of_Z 60; hostname := hostname; state := "ok";
  tags := ["scaphandre"%string]; attributes := attributes; description := description;
  metric_value := value; measured_at := timestamp |}.

Definition gauge := metric "gauge".
Definition counter := metric "counter".

Section Metrics.
Context `{Profile, Layout, Os, !FileSystem, !Procfs, !PerfEvents, !Sysinfo, !Aya}.
Context `{!HashMaps, !ContainerRuntimes, Regex, Captures}.

(** [get_current_pid] and [crate_version!]. *)
Context (current_pid : Z) (crate_version : string).

Record MetricGenerator := mkGenerator {
  data : list Metric;
  topology : Topology;
  host_name : string;
  qemu : bool;
  watch_containers : bool;
  containers_last_check : string;
  containers : list Container;
  docker_version : string;
  docker_client : option Docker;
  watch_docker : bool;
  watch_kubernetes : bool;
  kubernetes_client : option Kubernetes;
  pods : list Pod;
  pods_last_check : string;
}.

Definition set_data (x : list Metric) (g : MetricGenerator) : MetricGenerator :=
  mkGenerator x (topology g) (host_name g) (qemu g) (watch_containers g) (containers_last_check g)
    (containers g) (docker_version g) (docker_client g) (watch_docker g) (watch_kubernetes g)
    (kubernetes_client g) (pods g) (pods_last_check g).

Definition set_topology (x : Topology) (g : MetricGenerator) : MetricGenerator :=
  mkGenerator (data g) x (host_name g) (qemu g) (watch_containers g) (containers_last_check g)
    (containers g) (docker_version g) (docker_client g) (watch_docker g) (watch_kubernetes g)
    (kubernetes_client g) (pods g) (pods_last_check g).

Definition set_containers_last_check (x : string) (g : MetricGenerator) : MetricGenerator :=
  mkGenerator (data g) (topology g) (host_name g) (qemu g) (watch_containers g) x
    (containers g) (docker_version g) (docker_client g) (watch_docker g) (watch_kubernetes g)
    (kubernetes_client g) (pods g) (pods_last_check g).

Definition set_containers (x : list Container) (g : MetricGenerator) : MetricGenerator :=
  mkGenerator (data g) (topology g) (host_name g) (qemu g) (watch_containers g) (containers_last_check g)
    x (docker_version g) (docker_client g) (watch_docker g) (watch_kubernetes g)
    (kubernetes_client g) (pods g) (pods_last_check g).

Definition set_docker_version (x : string) (g : MetricGenerator) : MetricGenerator :=
  mkGenerator (data g) (topology g) (host_name g) (qemu g) (watch_containers g) (containers_last_check g)
    (containers g) x (docker_client g) (watch_docker g) (watch_kubernetes g)
    (kubernetes_client g) (pods g) (pods_last_check g).

Definition set_watch_docker (x : bool) (g : MetricGenerator) : MetricGenerator :=
  mkGenerator (data g) (topology g) (host_name g) (qemu g) (watch_containers g) (containers_last_check g)
    (containers g) (docker_version g) (docker_client g) x (watch_kubernetes g)
    (kubernetes_client g) (pods g) (pods_last_check g).

Definition set_pods (x : list Pod) (g : MetricGenerator) : MetricGenerator :=
  mkGenerator (data g) (topology g) (host_name g) (qemu g) (watch_containers g) (containers_last_check g)
    (containers g) (docker_version g) (docker_client g) (watch_docker g) (watch_kubernetes g)
    (kubernetes_client g) x (pods_last_check g).

Definition set_pods_last_check (x : string) (g : MetricGenerator) : MetricGenerator :=
  mkGenerator (data g) (topology g) (host_name g) (qemu g) (watch_containers g) (containers_last_check g)
    (containers g) (docker_version g) (docker_client g) (watch_docker g) (watch_kubernetes g)
    (kubernetes_client g) (pods g) x.

(** [self.data.push] of each metric. *)
Definition push_all (l : list Metric) (g : MetricGenerator) : MetricGenerator := set_data (data g ++ l) g.

(** [get_docker_client] and [get_kubernetes_client] ([exporters/utils.rs]); [None] for an error. *)
Definition get_docker_client : io (option Docker) := effect docker_connect.
Definition get_kubernetes_client : io (option Kubernetes) := effect kubernetes_connect.

(** [MetricGenerator::new]: the runtimes are only looked for when containers are watched. *)
Definition new (topology : Topology) (hostname : string) (qemu watch_containers : bool) : io MetricGenerator :=
  '(docker_client, kubernetes_client) ←
    if watch_containers then
      d ← get_docker_client; k ← get_kubernetes_client; mret (d, k)
    else mret (None, None);
  mret {| data := []; topology := topology; host_name := hostname; qemu := qemu;
          watch_containers := watch_containers; containers_last_check := ""; containers := [];
          docker_version := ""; docker_client := docker_client; watch_docker := true;
          watch_kubernetes := true; kubernetes_client := kubernetes_client; pods := [];
          pods_last_check := "" |}.

(** The metric of a value that there may be. *)
Definition metric_of {A} (o : option A) (f : A → Metric) : list Metric :=
  match o with Some x => [f x] | None => [] end.

(** ** The program itself *)

Definition unsigned (s : string) : outcome MetricValueType := IntUnsigned <$> unwrap (parse_uint 64 s).

(** The metric of a value that is parsed; panics when it is not a number. *)
Definition metric_of_unsigned (o : option Record_) (f : Record_ → MetricValueType → Metric)
    : outcome (list Metric) :=
  match o with Some r => v ← unsigned (r_value r); Done [f r v] | None => Done [] end.

Definition nb {A} (l : list A) : MetricValueType := IntUnsigned (Z.of_nat (length l)).

Definition self_domain_metrics (h : string) (now : Duration) (s : CPUSocket) (d : Domain) : list Metric :=
  [gauge "scaph_self_domain_records_nb" h now
     (<["rapl_domain_name"%string := Domain.name d]> {["socket_id"%string := show_uint (Socket.id s)]})
     "Number of energy consumption Records stored for a Domain" (nb (Domain.record_buffer d))].

Definition self_socket_metrics (h : string) (now : Duration) (s : CPUSocket) : list Metric :=
  let attributes := {["socket_id"%string := show_uint (Socket.id s)]} in
  [gauge "scaph_self_socket_stats_nb" h now attributes
     "Number of CPUStat traces stored for each socket" (nb (Socket.stat_buffer s));
   gauge "scaph_self_socket_records_nb" h now attributes
     "Number of energy consumption Records stored for each socket" (nb (Socket.record_buffer s))]
  ++ (domains s ≫= self_domain_metrics h now s).

Definition gen_self_metrics (g : MetricGenerator) : io MetricGenerator :=
  let t := topology g in
  let h := host_name g in
  me ← myself current_pid (proc_tracker t);
  now ← current_system_time_since_epoch;
  version ← lift (get_scaphandre_version crate_version);
  virtual ← lift (metric_of_unsigned (get_process_memory_virtual_bytes (pid me) t) (λ r v,
    gauge "scaph_self_memory_virtual_bytes" h now ∅
      ("Total program size, measured in " +:+ unit_to_string (r_unit r) +:+ ".") v));
  resident ← lift (metric_of_unsigned (get_process_memory_bytes (pid me) t) (λ _ v,
    gauge "scaph_self_memory_bytes" h now ∅ "Resident set size, measured in bytes." v));
  mret (push_all (
    [gauge "scaph_self_version" h now ∅ "Version number of scaphandre represented as a float." (Text version)]
    ++ metric_of (get_process_cpu_usage_percentage (pid me) t) (λ r,
         gauge "scaph_self_cpu_usage_percent" h (r_timestamp r) ∅
           ("CPU time consumed by scaphandre, as " +:+ unit_to_string (r_unit r)) (Text (r_value r)))
    ++ virtual ++ resident
    ++ [gauge "scaph_self_topo_stats_nb" h now ∅
          "Number of CPUStat traces stored for the host." (nb (Topology.stat_buffer t));
        gauge "scaph_self_topo_records_nb" h now ∅
          "Number of energy consumption Records stored for the host." (nb (Topology.record_buffer t));
        gauge "scaph_self_topo_procs_nb" h now ∅
          "Number of processes monitored for the host." (nb (procs (proc_tracker t)))]
    ++ (sockets t ≫= self_socket_metrics h now)) g).

(** ** The host *)

Definition value_source (t : Topology) : gmap string string :=
  let d := Topology.sensor_data t in
  if decide (is_Some (d !! "psys"%string)) then {["value_source"%string := "powercap_rapl_psys"%string]}
  else if decide (is_Some (d !! "source_file"%string)) then
    {["value_source"%string := "powercap_rapl_pkg"%string]}
  else if decide (is_Some (d !! "DRIVER_NAME"%string)) then
    {["value_source"%string := "scaphandredrv_rapl_pkg"%string]}
  else ∅.

(** One metric per core, by its index. *)
Definition core_metrics (name h : string) (now : Duration) (description : string) (values : list string)
    : list Metric :=
  imap (λ i v, gauge name h now {["core_id"%string := show_uint (Z.of_nat i)]} description (Text v)) values.

(** A metric without attributes that has the time and the value of a record. *)
Definition plain (name h description : string) (r : Record_) : Metric :=
  gauge name h (r_timestamp r) ∅ description (Text (r_value r)).

(** The metrics of the host's power, when there is a record of its energy. *)
Definition host_power_metrics (h : string) (t : Topology) (record : Record_) : io (list Metric) :=
  let attributes := value_source t in
  power ← lift (Attribution.get_records_diff_power_microwatts t);
  idle ← Attribution.get_idle_power_microwatts t;
  activation ← Attribution.get_activation_power_microwatts t;
  background ← Attribution.get_background_power_microwatts t;
  cores ← Attribution.get_proportional_core_diff_power_microwatts t;
  now ← current_system_time_since_epoch;
  mret (
    [counter "scaph_host_energy_microjoules" h (r_timestamp record) attributes
       "Energy measurement for the whole host, as extracted from the sensor, in microjoules."
       (Text (r_value record))]
    ++ metric_of power (λ r, gauge "scaph_host_power_microwatts" h (r_timestamp r) attributes
         "Active power measurement on the whole host, in microwatts" (Text (r_value r)))
    ++ metric_of idle (plain "scaph_host_idle_power_microwatts" h
         "Idle power measurement for the whole host, in microwatts")
    ++ metric_of activation (plain "scaph_host_activation_power_microwatts" h
         "Activation power measurement for the whole host, in microwatts")
    ++ metric_of background (plain "scaph_host_background_power_microwatts" h
         "Background power (max of idle and activation) for the whole host, in microwatts")
    ++ match cores with
       | Some cores => core_metrics "scaph_host_core_power_microwatts" h (m_timestamp cores)
                         "Per-core power consumption in microwatts" (m_values cores)
       | None => []
       end
    ++ core_metrics "scaph_host_core_coefficient" h now
         "Per-core IPC/frequency coefficient used for power attribution"
         (show_f64 <$> Attribution.get_core_coefs t)
    ++ core_metrics "scaph_host_core_proportion" h now
         "Per-core proportion of total power attributed to this core (0.0–1.0)"
         (show_f64 <$> Attribution.get_core_proportions t)).

Definition load_metrics (h : string) (load : list Record_) : outcome (list Metric) :=
  one ← unwrap (load !! 0%nat);
  five ← unwrap (load !! 1%nat);
  fifteen ← unwrap (load !! 2%nat);
  Done [plain "scaph_host_load_avg_one" h "Load average on 1 minute." one;
        plain "scaph_host_load_avg_five" h "Load average on 5 minutes." five;
        plain "scaph_host_load_avg_fifteen" h "Load average on 15 minutes." fifteen].

Definition disk_metric (h : string) (x : string * (string * gmap string string * Record_)) : Metric :=
  gauge x.1 h (r_timestamp x.2.2) x.2.1.2 x.2.1.1 (Text (r_value x.2.2)).

Definition memory_metrics (h : string) (t : Topology) : io (list Metric) :=
  total ← get_total_memory_bytes t;
  available ← get_available_memory_bytes t;
  free ← get_free_memory_bytes t;
  free_swap ← get_free_swap_bytes t;
  total_swap ← get_total_swap_bytes t;
  mret [plain "scaph_host_memory_total_bytes" h "Random Access Memory installed on the host, in bytes." total;
        plain "scaph_host_memory_available_bytes" h
          "Random Access Memory available to be re-used on the host, in bytes." available;
        plain "scaph_host_memory_free_bytes" h
          "Random Access Memory free to be used (not reused) on the host, in bytes." free;
        plain "scaph_host_swap_free_bytes" h "Swap space free to be used on the host, in bytes." free_swap;
        plain "scaph_host_swap_total_bytes" h "Total swap space on the host, in bytes." total_swap].

Definition gen_host_metrics (g : MetricGenerator) : io MetricGenerator :=
  let t := topology g in
  let h := host_name g in
  powers ← match last (Topology.get_records_passive t) with
           | Some record => host_power_metrics h t record
           | None => mret []
           end;
  load ← Attribution.get_load_avg t;
  loads ← match load with Some load => lift (load_metrics h load) | None => mret [] end;
  freq ← Attribution.get_cpu_frequency t;
  ds ← get_disks t;
  ds ← iterate ds;
  memories ← memory_metrics h t;
  mret (push_all (powers ++ loads
    ++ [plain "scaph_host_cpu_frequency" h
          ("Global frequency of all the cpus. In " +:+ unit_to_string (r_unit freq)) freq]
    ++ (disk_metric h <$> ds) ++ memories) g).

(** ** Sockets and domains *)

(** The metrics of a socket's energy, when there is a record of it. *)
Definition socket_power_metrics (h : string) (attributes : gmap string string) (s : CPUSocket)
    (record : Record_) : io (list Metric) :=
  idle ← Socket.get_idle_power_microwatts s;
  activation ← Socket.get_activation_power_microwatts s;
  background ← Socket.get_background_power_microwatts s;
  let value name description (r : Record_) := gauge name h (r_timestamp r) attributes description (Text (r_value r)) in
  mret (
    [counter "scaph_socket_energy_microjoules" h (r_timestamp record) attributes
       "Socket related energy measurement in microjoules." (Text (r_value record))]
    ++ metric_of (Socket.get_records_diff_power_microwatts s) (value "scaph_socket_power_microwatts"%string
         "Active power measurement relative to a CPU socket, in microwatts"%string)
    ++ metric_of idle (value "scaph_socket_idle_power_microwatts"%string
         "Idle power measurement relative to a CPU socket, in microwatts"%string)
    ++ metric_of activation (value "scaph_socket_activation_power_microwatts"%string
         "Activation power measurement relative to a CPU socket, in microwatts"%string)
    ++ metric_of background (value "scaph_socket_background_power_microwatts"%string
         "Background power (max of idle and activation) relative to a CPU socket, in microwatts"%string)).

Definition domain_attributes (s : CPUSocket) (d : Domain) : gmap string string :=
  <["socket_id"%string := show_uint (Socket.id s)]>
  (<["domain_id"%string := show_uint (Domain.id d)]> {["domain_name"%string := Domain.name d]}).

Definition domain_metrics (h : string) (s : CPUSocket) (d : Domain) : io (list Metric) :=
  match last (Domain.get_records_passive d) with
  | Some record =>
      let attributes := domain_attributes s d in
      mmio ← Domain.get_rapl_mmio_energy_microjoules d;
      mret (
        [counter "scaph_domain_energy_microjoules" h (r_timestamp record) attributes
           "Domain related energy measurement in microjoules." (Text (r_value record))]
        ++ metric_of (Domain.get_records_diff_power_microwatts d) (λ r,
             gauge "scaph_domain_power_microwatts" h (r_timestamp r) attributes
               "Power measurement relative to a RAPL Domain, in microwatts" (Text (r_value r)))
        ++ metric_of mmio (λ r,
             counter "scaph_domain_rapl_mmio_energy_microjoules" h (r_timestamp r)
               (<["value_source"%string := "powercap_rapl_mmio"%string]> attributes)
               ("Energy counter from RAPL mmio interface for the " +:+ Domain.name d +:+ " domain, socket "
                +:+ show_uint (Socket.id s) +:+ ".") (Text (r_value r))))
  | None => mret []
  end.

Definition socket_metrics (h : string) (s : CPUSocket) : io (list Metric) :=
  let attributes := {["socket_id"%string := show_uint (Socket.id s)]} in
  powers ← match last (Socket.get_records_passive s) with
           | Some record => socket_power_metrics h attributes s record
           | None => mret []
           end;
  mmio ← Socket.get_rapl_mmio_energy_microjoules s;
  ds ← io_map (domain_metrics h s) (domains s);
  mret (powers
    ++ metric_of mmio (λ r,
         counter "scaph_socket_rapl_mmio_energy_microjoules" h (r_timestamp r) attributes
           ("Energy counter from RAPL mmio interface for Package-0 of CPU socket " +:+ show_uint (Socket.id s))
           (Text (r_value r)))
    ++ mjoin ds).

Definition gen_socket_metrics (g : MetricGenerator) : io MetricGenerator :=
  l ← io_map (socket_metrics (host_name g)) (sockets (topology g));
  mret (push_all (mjoin l) g).

(** ** The system *)

Definition gen_system_metrics (g : MetricGenerator) : io MetricGenerator :=
  let h := host_name g in
  now ← current_system_time_since_epoch;
  let number make name description (o : option Z) :=
    metric_of o (λ n, make name h now (∅ : gmap string string) description (IntUnsigned n)) in
  total ← read_nb_process_total_count;
  running ← read_nb_process_running_current;
  blocked ← read_nb_process_blocked_current;
  switches ← read_nb_context_switches_total_count;
  mret (push_all (
    number counter "scaph_forks_since_boot_total"%string
      "Number of forks that have occured since boot (number of processes to have existed so far)."%string total
    ++ number gauge "scaph_processes_running_current"%string
         "Number of processes currently running."%string running
    ++ number gauge "scaph_processes_blocked_current"%string
         "Number of processes currently blocked waiting for I/O."%string blocked
    ++ number counter "scaph_context_switches_total"%string
         "Number of context switches since boot."%string switches) g).

(** ** Processes *)

(** [current_system_time_since_epoch().as_secs().to_string()]. *)
Definition now_in_seconds : io string := now ← current_system_time_since_epoch; mret (show_uint (secs now)).

Definition gen_docker_containers_basic_metadata (g : MetricGenerator) : io MetricGenerator :=
  match docker_client g with
  | Some docker =>
      if watch_docker g then
        r ← effect (docker_get_containers docker);
        match r with
        | Some l => now ← now_in_seconds; mret (set_containers_last_check now (set_containers l g))
        | None => mret g
        end
      else mret g
  | None => mret g
  end.

(** The time of the check changes even when the list could not be read. *)
Definition gen_kubernetes_pods_basic_metadata (g : MetricGenerator) : io MetricGenerator :=
  if watch_kubernetes g then
    g ← match kubernetes_client g with
        | Some kubernetes =>
            r ← effect (kubernetes_list_pods kubernetes);
            mret (match r with Some l => set_pods l g | None => g end)
        | None => mret g
        end;
    now ← now_in_seconds;
    mret (set_pods_last_check now g)
  else mret g.

(** The first check asks for the version and the containers, a later one for the events
    since the last one. *)
Definition check_docker (now : string) (docker : Docker) (g : MetricGenerator) : io MetricGenerator :=
  g ← if decide (containers_last_check g = ""%string) then
        r ← effect (docker_get_version docker);
        match r with
        | Some version => gen_docker_containers_basic_metadata (set_docker_version version g)
        | None => mret (set_watch_docker false g)
        end
      else
        r ← effect (docker_get_events docker (Some (containers_last_check g)) (Some now));
        match r with
        | Some (_ :: _) => gen_docker_containers_basic_metadata g
        | _ => mret g
        end;
  now ← now_in_seconds;
  mret (set_containers_last_check now g).

(** [parse::<i32>().unwrap()]. *)
Definition seconds_i32 (s : string) : outcome Z := unwrap (parse_int 32 s).

(** The pods are listed again after more than 20 seconds. *)
Definition check_kubernetes (now : string) (g : MetricGenerator) : io MetricGenerator :=
  g ← if decide (pods_last_check g = ""%string) then gen_kubernetes_pods_basic_metadata g else mret g;
  n ← lift (seconds_i32 now);
  last_check ← lift (seconds_i32 (pods_last_check g));
  if 20 <? n - last_check then gen_kubernetes_pods_basic_metadata g else mret g.

Definition check_containers (g : MetricGenerator) : io MetricGenerator :=
  if watch_containers g then
    now ← now_in_seconds;
    g ← match docker_client g with
        | Some docker => if watch_docker g then check_docker now docker g else mret g
        | None => mret g
        end;
    match kubernetes_client g with
    | Some _ => if watch_kubernetes g then check_kubernetes now g else mret g
    | None => mret g
    end
  else mret g.

(** The labels of a process: those of its container, then its own. *)
Definition process_attributes (g : MetricGenerator) (pid : Z) : io (gmap string string) :=
  let pt := proc_tracker (topology g) in
  exe ← lift (get_process_name pid pt);
  cmdline ← lift (ProcTracker.get_process_cmdline pid pt);
  attributes ←
    if watch_containers g && negb (bool_decide (containers g = []) && bool_decide (pods g = [])) then
      container_data ← get_process_container_description pid (containers g) (docker_version g) (pods g) pt;
      entries ← iterate container_data;
      mret (fold_left (λ a x, <[x.1 := x.2]> a) entries ∅)
    else mret ∅;
  let attributes := <["exe"%string := exe]> (<["pid"%string := show_uint pid]> attributes) in
  match cmdline with
  | Some cmdline_str =>
      vmname ← lift (if qemu g then filter_qemu_cmdline cmdline_str else Done None);
      mret (insert_some "vmname" vmname (<["cmdline"%string := filter_cmdline cmdline_str]> attributes))
  | None => mret attributes
  end.

Definition process_metrics (g : MetricGenerator) (pid : Z) : io (list Metric) :=
  attributes ← process_attributes g pid;
  metrics ← lift (get_all_per_process pid (topology g));
  match metrics with
  | Some metrics =>
      l ← iterate metrics;
      mret ((λ x : string * (string * Record_),
        gauge x.1 (host_name g) (r_timestamp x.2.2) attributes x.2.1 (Text (r_value x.2.2))) <$> l)
  | None => mret []
  end.

Definition gen_process_metrics (g : MetricGenerator) : io MetricGenerator :=
  g ← check_containers g;
  l ← io_map (process_metrics g) (get_alive_pids (proc_tracker (topology g)));
  mret (push_all (mjoin l) g).

(** The processes whose container's name matches, the greatest consumers first. *)
Definition get_processes_filtered_by_container_name (container_regex : string → bool) (g : MetricGenerator)
    : io (list (IProcess * float)) :=
  let pt := proc_tracker (topology g) in
  io_fold (λ consumers p,
    match p with
    | first :: _ :: _ =>
        let diff := get_cpu_usage_percentage (pid (process first)) (nb_cores pt) pt in
        p_record ← lift (unwrap (last p));
        container_description ←
          get_process_container_description (pid (process p_record)) (containers g) (docker_version g) (pods g) pt;
        mret (match container_description !! "container_names"%string with
              | Some name => if container_regex name then
                               sort_consumers (consumers ++ [(process p_record, f64_of_f32 diff)])
                             else consumers
              | None => consumers
              end)
    | _ => mret consumers
    end) [] (procs pt).

(** ** All the metrics *)

Definition gen_all_metrics (g : MetricGenerator) : io MetricGenerator :=
  g ← gen_self_metrics g;
  g ← gen_host_metrics g;
  g ← gen_socket_metrics g;
  g ← gen_system_metrics g;
  gen_process_metrics g.

(** [while !self.data.is_empty() { res.push(self.data.pop().unwrap()) }]: the last one
    first; [None] when the fuel runs out. *)
Fixpoint pop_go (fuel : nat) (data res : list Metric) : option (list Metric * list Metric) :=
  match last data with
  | None => Some (data, res)
  | Some m => match fuel with O => None | S fuel => pop_go fuel (removelast data) (res ++ [m]) end
  end.

Definition pop_metrics (g : MetricGenerator) : option (MetricGenerator * list Metric) :=
  '(rest, res) ← pop_go (length (data g)) (data g) [];
  Some (set_data rest g, res).

Lemma pop_metrics_eq g : pop_metrics g = Some (set_data [] g, rev (data g)).
Proof.
  unfold pop_metrics.
  assert (∀ l res, pop_go (length l) l res = Some ([], res ++ rev l)) as ->; [|done].
  intros l. induction l as [|m l IH] using rev_ind; intros res; [by rewrite app_nil_r|].
  rewrite length_app, Nat.add_comm. simpl. rewrite last_snoc, removelast_last, IH, rev_app_distr.
  by rewrite <- app_assoc.
Qed.

(** Taking the metrics ends, gives all of them with the newest first, and leaves none. *)
Theorem pop_metrics_all g :
  ∃ g' l, pop_metrics g = Some (g', l) ∧ l = rev (data g) ∧ data g' = [] ∧ topology g' = topology g.
Proof. rewrite pop_metrics_eq. by eexists _, _. Qed.

(** ** The year 2038 *)

(** What the checks of the containers do not change. *)
Definition kept (g : MetricGenerator) : list Metric * Topology * string * bool * bool * option Kubernetes * bool :=
  (data g, topology g, host_name g, qemu g, watch_containers g, kubernetes_client g, watch_kubernetes g).

Lemma docker_metadata_kept g w g' w' :
  gen_docker_containers_basic_metadata g w = Done (g', w') → kept g' = kept g.
Proof.
  unfold gen_docker_containers_basic_metadata. destruct (docker_client g); [|by intros [= <- _]].
  destruct (watch_docker g); [|by intros [= <- _]].
  intros (r & w1 & _ & Hr)%io_bind_inv. destruct r; [|by injection Hr as <- _].
  by apply io_bind_inv in Hr as (n & w2 & _ & [= <- _]).
Qed.

Lemma check_docker_kept now d g w g' w' : check_docker now d g w = Done (g', w') → kept g' = kept g.
Proof.
  unfold check_docker. intros (g1 & w1 & H1' & Hr)%io_bind_inv.
  apply io_bind_inv in Hr as (n & w2 & _ & [= <- _]). trans (kept g1); [done|].
  destruct (decide _); apply io_bind_inv in H1' as (r & w3 & _ & Hr).
  - destruct r; [by apply docker_metadata_kept in Hr|by injection Hr as <- _].
  - destruct r as [[|]|]; [by injection Hr as <- _|by apply docker_metadata_kept in Hr|by injection Hr as <- _].
Qed.

Lemma kubernetes_metadata_kept g w g' w' :
  gen_kubernetes_pods_basic_metadata g w = Done (g', w') → kept g' = kept g.
Proof.
  unfold gen_kubernetes_pods_basic_metadata. destruct (watch_kubernetes g); [|by intros [= <- _]].
  intros (g1 & w1 & H1' & Hr)%io_bind_inv. apply io_bind_inv in Hr as (n & w2 & _ & [= <- _]).
  trans (kept g1); [done|]. destruct (kubernetes_client g) eqn:E; [|by injection H1' as <- _].
  apply io_bind_inv in H1' as (r & w3 & _ & [= <- _]). by destruct r.
Qed.

Lemma check_kubernetes_kept now g w g' w' : check_kubernetes now g w = Done (g', w') → kept g' = kept g.
Proof.
  unfold check_kubernetes. intros (g1 & w1 & H1' & Hr)%io_bind_inv.
  apply io_bind_inv in Hr as (n & w2 & _ & Hr). apply io_bind_inv in Hr as (c & w3 & _ & Hr).
  trans (kept g1).
  - destruct (_ <? _); [by apply kubernetes_metadata_kept in Hr|by injection Hr as <- _].
  - destruct (decide _); [by apply kubernetes_metadata_kept in H1'|by injection H1' as <- _].
Qed.

(** Every generation pushes some metrics and changes nothing else that is kept. *)
Lemma gen_self_pushes g w g' w' : gen_self_metrics g w = Done (g', w') → ∃ l, g' = push_all l g.
Proof.
  unfold gen_self_metrics. intros Hr. do 5 (apply io_bind_inv in Hr as (? & ? & _ & Hr)).
  injection Hr as <- _. by eexists.
Qed.

Lemma gen_host_pushes g w g' w' : gen_host_metrics g w = Done (g', w') → ∃ l, g' = push_all l g.
Proof.
  unfold gen_host_metrics. intros Hr. do 7 (apply io_bind_inv in Hr as (? & ? & _ & Hr)).
  injection Hr as <- _. by eexists.
Qed.

Lemma gen_socket_pushes g w g' w' : gen_socket_metrics g w = Done (g', w') → ∃ l, g' = push_all l g.
Proof. unfold gen_socket_metrics. intros (l & w1 & _ & [= <- _])%io_bind_inv. by eexists. Qed.

Lemma gen_system_pushes g w g' w' : gen_system_metrics g w = Done (g', w') → ∃ l, g' = push_all l g.
Proof.
  unfold gen_system_metrics. intros Hr. do 5 (apply io_bind_inv in Hr as (? & ? & _ & Hr); cbv zeta beta in Hr).
  injection Hr as <- _. by eexists.
Qed.

(** The first part of the checks, before the pods. *)
Lemma check_docker_first g now w g' w' :
  (match docker_client g with
   | Some docker => if watch_docker g then check_docker now docker g else mret g
   | None => mret g
   end) w = Done (g', w') → kept g' = kept g.
Proof.
  destruct (docker_client g); [|by intros [= <- _]]. destruct (watch_docker g); [|by intros [= <- _]].
  apply check_docker_kept.
Qed.

Lemma check_containers_kept g w g' w' : check_containers g w = Done (g', w') → kept g' = kept g.
Proof.
  unfold check_containers. destruct (watch_containers g); [|by intros [= <- _]].
  intros (now & w1 & _ & Hr)%io_bind_inv. apply io_bind_inv in Hr as (g1 & w2 & Hg%check_docker_first & Hr).
  rewrite <- Hg. destruct (kubernetes_client g1); [|by injection Hr as <- _].
  destruct (watch_kubernetes g1); [|by injection Hr as <- _]. by apply check_kubernetes_kept in Hr.
Qed.

Lemma gen_all_topology g w g' w' : gen_all_metrics g w = Done (g', w') → topology g' = topology g.
Proof.
  unfold gen_all_metrics. intros (g1 & w1 & (l1 & ->)%gen_self_pushes & Hr)%io_bind_inv.
  apply io_bind_inv in Hr as (g2 & w2 & (l2 & ->)%gen_host_pushes & Hr).
  apply io_bind_inv in Hr as (g3 & w3 & (l3 & ->)%gen_socket_pushes & Hr).
  apply io_bind_inv in Hr as (g4 & w4 & (l4 & ->)%gen_system_pushes & Hr).
  unfold gen_process_metrics in Hr. apply io_bind_inv in Hr as (g5 & w5 & Hk%check_containers_kept & Hr).
  apply io_bind_inv in Hr as (l & w6 & _ & [= <- _]). by injection Hk as _ ? _ _ _ _ _.
Qed.

Lemma check_kubernetes_late n g w : 2 ^ 31 <= n → check_kubernetes (show_uint n) g w = Panic.
Proof.
  intros Hn. unfold check_kubernetes. apply io_bind_panic. intros g1 w1 _. apply io_bind_panic.
  intros m w2 (E & _)%lift_inv. exfalso. revert E. unfold seconds_i32. rewrite parse_int_show by lia.
  by destruct (Z.leb_spec n (2 ^ (32 - 1) - 1)); [lia|].
Qed.

(** From 2038-01-19 03:14:08 UTC on, the generator panics whenever it watches the pods
    of a Kubernetes node: the seconds of the clock no longer fit the signed 32-bit type they
    are parsed as. *)
Theorem pods_check_ends_in_2038 g w d w1 k :
  watch_containers g = true → kubernetes_client g = Some k → watch_kubernetes g = true →
  clock w = (Some d, w1) → 2 ^ 31 <= secs d → gen_process_metrics g w = Panic.
Proof.
  intros Hw Hk Hwk Hc Hd. unfold gen_process_metrics. apply io_bind_panic. intros g0 w0 E. exfalso. revert E.
  assert (check_containers g w = Panic) as ->; [|done].
  unfold check_containers. rewrite Hw. apply io_bind_panic. intros now w2 En.
  assert (now = show_uint (secs d)) as ->.
  { apply io_bind_inv in En as (d' & w3 & Ed & [= <- _]). unfold current_system_time_since_epoch in Ed.
    rewrite Hc in Ed. by injection Ed as <- _. }
  apply io_bind_panic. intros g1 w3 E%check_docker_first. injection E as _ _ _ _ _ -> ->.
  rewrite Hk, Hwk. by apply check_kubernetes_late.
Qed.
End Metrics.
