(* ===== verification/Samples.v ===== *)
(** * A sample host for the exporters

    A host with one socket, two domains, two cores, a running container and two samples of
    everything, on which the exporters are evaluated, and the examples of the previous two
    files. *)

From S2P Require Import Prelude Floats Text TextOps FloatText Units Env Simulated Records Energy Common.
From S2P Require Import Domain Core Socket ProcTracker Bpf Topology Attribution Containers ExporterUtils Metrics.
From Stdlib Require Import Ascii.

Module SampleHost.

#[export] Existing Instances x86_64.
#[export] Instance checked : Profile := true.

Definition counter_files : files :=
  λ p _, if decide (p = "/pkg"%string) then Some "1000" else
         if decide (p = "/dram"%string) then Some "500" else None.

(** A process of a container, and the program itself. *)
Definition sys_process (p : Z) (exe : string) : SysProcess := {|
  p_pid := p; p_exe := Some exe; p_cmd := [exe; "-v"%string]; p_cpu_usage := F32.of_Z 20;
  p_memory := 1; p_virtual_memory := 2;
  p_disk_usage := {| read_bytes := 0; written_bytes := 0; total_read_bytes := 0; total_written_bytes := 0 |};
  p_status := Run |}.

Definition container_id : string := "0123456789ab".

Definition sample_container : Container :=
  mkContainer container_id ["/web"%string] (Some {["com.docker:tier"%string := "front"%string]}).

Definition docker_cgroup : string := "/system.slice/docker/" +:+ container_id.

#[export] Instance host : Os := simulated counter_files.
#[export] Instance host_fs : FileSystem := simulated_fs counter_files.
#[export] Instance host_procfs : Procfs := simulated_procfs counter_files.
#[export] Instance host_perf : PerfEvents := simulated_perf counter_files.
#[export] Instance host_sysinfo : Sysinfo :=
  simulated_sysinfo counter_files 2 [sys_process 42 "/bin/a"; sys_process 7 "/bin/scaphandre"].
#[export] Instance host_aya : Aya := simulated_aya counter_files [].
#[export] Instance host_maps : HashMaps := simulated_maps counter_files.
#[export] Instance host_maps_laws : HashLaws := simulated_maps_laws counter_files.
#[export] Instance host_instants : Instants := simulated_instants counter_files.
#[export] Instance host_runtimes : ContainerRuntimes :=
  simulated_runtimes counter_files [sample_container] docker_cgroup.

(** What the expressions of the sources find on the path names used here. *)
#[export] Instance host_regex : Regex :=
  λ p s, if decide (p = regex_cgroup_docker) then contains "/docker" s
         else if decide (p = regex_cgroup_containerd) then contains "/containerd.service/" s
         else starts_with "/kubepods" s.
#[export] Instance host_captures : Captures :=
  λ _ s, List.find (λ x, (12 <=? String.length x)%nat && all_chars (differs ".") x) (split_on "/"%char s).

Definition start : world := 5.

(** ** The topology *)

Definition energy (t uj : Z) : Record_ := mkRecord (mkDuration t 0) (show_uint uj) MicroJoule.
Definition named (file : string) : gmap string string := {["source_file"%string := file]}.

Definition sample_core (i cycles : Z) : CPUCore :=
  let reading t := record_of (mkDuration t 0)
    {| rd_idle_us := 0; rd_mperf := cycles * t; rd_aperf := cycles * t; rd_core_busy := 0;
       rd_core_total := 10 * t; rd_node_busy := 0; rd_node_total := 20 * t; rd_instr := F64.zero;
       rd_cyc := F64.of_Z (cycles * t); rd_tsc := 1000 * t |} in
  mkCPUCore i ∅ [reading 3; reading 4] 1 None None.

Definition sample_domain (i : Z) (name file : string) : Domain :=
  Domain.set_record_buffer [energy 3 100; energy 4 300] (Domain.new i name file 1 (named file)).

Definition sample_socket : CPUSocket :=
  set_cpu_cores [sample_core 0 100; sample_core 1 300]
    (Socket.set_record_buffer [energy 3 1000000; energy 4 7000000]
       (Socket.new 0 [sample_domain 0 "core" "/core"; sample_domain 1 "dram" "/dram"] [] "/pkg" 1 (named "/pkg"))).

Definition sample_record (p t : Z) (exe : string) : ProcessRecord :=
  mkProcessRecord {| pid := p; owner := 0; comm := exe; cmdline := [exe; "-v"%string]; cpu_busy_time := 2 * t;
     node_busy_time := 10 * t; core_busy_times := None; cpu_usage_percentage := F32.of_Z 20;
     virtual_memory := 2; memory := 1; disk_read := 0; disk_written := 0; total_disk_read := 0;
     total_disk_written := 0; stime := 0; utime := 0 |} (mkDuration t 0).

Definition sample_tracker : ProcessTracker :=
  mkTracker [[sample_record 42 4 "/bin/a"; sample_record 42 3 "/bin/a"];
             [sample_record 7 4 "/bin/scaphandre"]] 2 (Some tt) 5 tt.

Definition sample_topology : Topology := {|
  sockets := [sample_socket]; proc_tracker := sample_tracker; stat_buffer := [];
  record_buffer := [energy 3 2000000; energy 4 9000000]; buffer_max_kbytes := 1;
  domains_names := None; sensor_data := named "/pkg"; ebpf := Some tt; cpu_state_buffer := Some tt;
  activation_idle_buffer := ∅; cpu_time_map := Some tt; cpu_time_buffer := [] |}.

Definition sample_generator : MetricGenerator := {|
  data := []; topology := sample_topology; host_name := "host"; qemu := true; watch_containers := true;
  containers_last_check := ""; containers := []; docker_version := ""; docker_client := Some tt;
  watch_docker := true; watch_kubernetes := true; kubernetes_client := None; pods := [];
  pods_last_check := "" |}.

(** The program has pid 7. *)
Definition collect : outcome (MetricGenerator * world) := gen_all_metrics 7 "1.0.0" sample_generator start.

Lemma collected : is_done collect = true.
Proof. vm_compute. reflexivity. Qed.
End SampleHost.

Import SampleHost.

(** ** Containers *)

Lemma docker_process_described_witness :
  ∃ d w', get_process_container_description 42 [sample_container] "20.10" [] sample_tracker start = Done (d, w') ∧
    d !! "container_names"%string = Some "web"%string ∧
    d !! "container_label_com_docker_tier"%string = Some "front"%string.
Proof.
  destruct (docker_process_described 42 [sample_container] "20.10" [] sample_tracker start [] docker_cgroup []
              container_id sample_container) as (d & w' & E & _ & _ & Hn & _ & Hl); try reflexivity.
  - discriminate.
  - lia.
  - constructor.
  - exists d, w'. split; [exact E|]. split; [exact Hn|].
    refine (Hl _ "com.docker:tier"%string "front"%string eq_refl _ _); [apply lookup_singleton_eq|].
    intros k' y Hy _. apply lookup_singleton_Some in Hy as [<- _]. reflexivity.
Defined.

(** ** The end of the signed seconds *)

Definition late : world := 2 ^ 31.
Definition watching_pods : MetricGenerator := {|
  data := []; topology := sample_topology; host_name := "host"; qemu := true; watch_containers := true;
  containers_last_check := ""; containers := []; docker_version := ""; docker_client := None;
  watch_docker := true; watch_kubernetes := true; kubernetes_client := Some tt; pods := [];
  pods_last_check := "" |}.

Lemma pods_check_ends_in_2038_witness :
  is_done (gen_process_metrics watching_pods start) = true ∧ gen_process_metrics watching_pods late = Panic.
Proof.
  split; [vm_compute; reflexivity|].
  refine (pods_check_ends_in_2038 watching_pods late (mkDuration (2 ^ 31) 0) (2 ^ 31 + 1) tt _ _ _ _ _); reflexivity.
Defined.
