(* ===== verification/Clones.v ===== *)
(** * Clones of a topology ([sensors/mod.rs], Clone for Topology)

    The Prometheus exporters work on a clone of the topology of the sensor.  A clone has
    none of the handles of the eBPF maps, and this file shows what it can never report. *)

From S2P Require Import Prelude Floats Text FloatText Units Env Simulated Records Energy Common.
From S2P Require Import Domain Core Socket ProcTracker Bpf Topology Attribution.
From S2P Require Import Containers ExporterUtils Metrics Samples.

Section Clones.
Context `{Profile, Layout, Os, !FileSystem, !Procfs, !PerfEvents, !Sysinfo, !Aya}.

(** No estimate was ever made for the socket. *)
Definition no_estimate (s : CPUSocket) : Prop := Socket.activation_idle_buffer s = [].

(** No handle, no event that waits, no reading of the busy times, no estimate. *)
Record blind (t : Topology) : Prop := {
  bl_events : cpu_state_buffer t = None;
  bl_times : cpu_time_map t = None;
  bl_process_times : core_times_map (proc_tracker t) = None;
  bl_waiting : Topology.activation_idle_buffer t = ∅;
  bl_buffer : cpu_time_buffer t = [];
  bl_estimates : Forall no_estimate (sockets t);
}.

Definition clean_terminated (t : Topology) : Topology :=
  Topology.set_proc_tracker (clean_terminated_process_records_vectors (proc_tracker t)) t.

(** What the exporters do with their topology between two collections. *)
Inductive used : Topology → Topology → Prop :=
  | used_nil t : used t t
  | used_refresh t w t' w' t'' : Topology.refresh t w = Done (t', w') → used t' t'' → used t t''
  | used_clean t t'' : used (clean_terminated t) t'' → used t t''.

(** ** One socket *)

Lemma socket_record_no_estimate s w s' w' :
  no_estimate s → Socket.refresh_record s w = Done (s', w') → no_estimate s'.
Proof.
  intros Hs. unfold Socket.refresh_record. intros (r & w1 & _ & Hr)%io_bind_inv.
  set (e := match r with Some _ => _ | None => s end) in *.
  assert (He : no_estimate e) by (unfold e; by destruct r).
  destruct (Socket.record_buffer e) eqn:E; [by injection Hr as <- _|].
  apply lift_inv in Hr as [Hr _]. unfold Socket.clean_old_records in Hr. rewrite E in Hr.
  apply bind_Done_inv in Hr as (b & _ & Hr). unfold no_estimate in *. simpl in Hr. rewrite He in Hr.
  by injection Hr as <-.
Qed.

Lemma socket_stats_no_estimate s w s' w' :
  no_estimate s → Socket.refresh_stats s w = Done (s', w') → no_estimate s'.
Proof.
  intros Hs. unfold Socket.refresh_stats. intros (e & w1 & He & Hr)%io_bind_inv.
  assert (no_estimate e).
  { destruct (Socket.stat_buffer s) eqn:E; [by injection He as <- _|].
    apply lift_inv in He as [He _]. unfold Socket.clean_old_stats in He. rewrite E in He.
    by apply bind_Done_inv in He as (b & _ & [= <-]). }
  apply io_bind_inv in Hr as (st & w2 & _ & Hr). by apply io_bind_inv in Hr as (st' & w3 & _ & [= <- _]).
Qed.

(** Without events there is no new estimate. *)
Lemma refresh_socket_no_estimate s w s' w' :
  no_estimate s → refresh_socket s [] w = Done (s', w') → no_estimate s'.
Proof.
  intros Hs. unfold refresh_socket. intros (s1 & w1 & H1' & Hr)%io_bind_inv. injection H1' as <- _. cbv zeta in Hr.
  assert (Hd : no_estimate (distribute_background_to_domains s)).
  { unfold distribute_background_to_domains. by destruct (feqb _ _). }
  apply io_bind_inv in Hr as (s2 & w2 & H2'%socket_record_no_estimate & Hr); [|done].
  apply io_bind_inv in Hr as (s3 & w3 & H3'%socket_stats_no_estimate & Hr); [|done].
  by apply io_bind_inv in Hr as (ds & w4 & _ & [= <- _]).
Qed.

Lemma no_estimate_powers s :
  no_estimate s → background_entry 0 s = None ∧ background_entry 1 s = None ∧ idle_u64 s = 0 ∧ activation_u64 s = 0.
Proof. intros Hs. unfold idle_u64, activation_u64, background_entry. by rewrite Hs. Qed.

(** ** The topology *)

(** The handles, which a refresh never sets. *)
Definition handles (t : Topology) : option RingBuf * option CpuArray * option PidMap :=
  (cpu_state_buffer t, cpu_time_map t, core_times_map (proc_tracker t)).

Lemma add_records_handle l pt w pt' w' :
  io_fold (λ pt p, r ← add_process_record p pt; match r.2 with inl _ => mret r.1 | inr _ => lift Panic end)
    pt l w = Done (pt', w') → core_times_map pt' = core_times_map pt.
Proof.
  intros Hf. refine (io_fold_inv _ (λ x, core_times_map x = core_times_map pt) l pt w pt' w' _ eq_refl Hf).
  intros s p w1 s' w2 _ <- (r & w3 & Hr & Hs)%io_bind_inv.
  unfold add_process_record in Hr. apply io_bind_inv in Hr as (x & w4 & _ & [= <- _]). by injection Hs as <- _.
Qed.

Lemma refresh_procs_handles t w t' w' :
  refresh_procs t w = Done (t', w') → handles t' = handles t ∧ cpu_time_buffer t' = cpu_time_buffer t.
Proof.
  unfold refresh_procs. intros (sys & w1 & _ & Hr)%io_bind_inv. apply io_bind_inv in Hr as (ps & w2 & _ & Hr).
  apply io_bind_inv in Hr as (pt & w3 & Hp%add_records_handle & [= <- _]). unfold handles. simpl. by rewrite Hp.
Qed.

Lemma refresh_record_handles t w t' w' :
  Topology.refresh_record t w = Done (t', w') → handles t' = handles t ∧ cpu_time_buffer t' = cpu_time_buffer t.
Proof.
  unfold Topology.refresh_record. intros (r & w1 & _ & Hr)%io_bind_inv.
  set (u := match r with inl _ => _ | inr _ => t end) in *.
  assert (Hu : handles u = handles t ∧ cpu_time_buffer u = cpu_time_buffer t) by (unfold u; by destruct r).
  destruct (Topology.record_buffer u) eqn:E; [by injection Hr as <- _|].
  apply lift_inv in Hr as [Hr _]. unfold Topology.clean_old_records in Hr. rewrite E in Hr.
  by apply bind_Done_inv in Hr as (n & _ & [= <-]).
Qed.

Lemma refresh_stats_handles t w t' w' :
  Topology.refresh_stats t w = Done (t', w') → handles t' = handles t ∧ cpu_time_buffer t' = cpu_time_buffer t.
Proof.
  unfold Topology.refresh_stats. intros (st & w1 & _ & Hr)%io_bind_inv. destruct st; [|by injection Hr as <- _].
  apply lift_inv in Hr as [Hr _]. unfold Topology.clean_old_stats in Hr. cbn [Topology.stat_buffer Topology.set_stat_buffer] in Hr.
  by apply bind_Done_inv in Hr as (n & _ & [= <-]).
Qed.

(** The records of events that a blind topology gives its sockets are empty. *)
Lemma take_idle_records_blind ids t :
  Topology.activation_idle_buffer t = ∅ →
  let r := take_idle_records ids t in
  r.2 = replicate (length ids) [] ∧ r.1 = t.
Proof.
  revert t. induction ids as [|i ids IH]; intros t Ht; [done|]. simpl.
  assert (get_activation_idle_records i t = (t, [])) as Hg.
  { unfold get_activation_idle_records. rewrite Ht, lookup_empty, delete_empty. destruct t. simpl in Ht. by subst. }
  unfold get_activation_idle_records in Hg. injection Hg as Hg _. rewrite Hg.
  specialize (IH t Ht). destruct (take_idle_records ids t) as [u us]. simpl in *. destruct IH as [-> ->].
  by rewrite Ht, lookup_empty.
Qed.

Lemma refresh_blind t w t' w' : blind t → Topology.refresh t w = Done (t', w') → blind t'.
Proof.
  intros [He Hm Hp Hw Hb Hs]. unfold Topology.refresh. intros (t1 & w1 & Ht & Hr)%io_bind_inv.
  unfold Topology.refresh_activation_idle_records in Ht. rewrite He in Ht. injection Ht as <- _.
  destruct (take_idle_records_blind (Socket.id <$> sockets t) t Hw) as [Hrs Ht].
  destruct (take_idle_records _ t) as [t2 rs]. simpl in Hrs, Ht. subst t2 rs.
  apply io_bind_inv in Hr as (l & w2 & Hl & Hr). apply io_bind_inv in Hr as (pt & w3 & Hpt & Hr).
  assert (Hpt' : core_times_map pt = None).
  { unfold ProcTracker.refresh in Hpt. do 5 (apply io_bind_inv in Hpt as (? & ? & _ & Hpt)). by injection Hpt as <- _. }
  apply io_bind_inv in Hr as (t3 & w4 & H3' & Hr).
  pose proof (core_idle_parts _ _ _ _ H3') as [Hc Ha3].
  assert (handles t3 = (None, None, None) ∧ cpu_time_buffer t3 = []) as [Hh3 Hb3].
  { unfold refresh_core_idle_records in H3'. apply io_bind_inv in H3' as (k & w5 & _ & [= <- _]).
    unfold handles. simpl. by rewrite He, Hm, Hpt'. }
  apply io_bind_inv in Hr as (t4 & w5 & H4' & Hr).
  pose proof (procs_parts _ _ _ _ H4') as P4. apply refresh_procs_handles in H4' as [Hh4 Hb4].
  apply io_bind_inv in Hr as (t5 & w6 & H5' & Hr). unfold refresh_cpu_time_record in H5'.
  rewrite Hh3 in Hh4. pose proof Hh4 as Hh4'. injection Hh4' as _ Hm4 _. rewrite Hm4 in H5'. injection H5' as <- _.
  apply io_bind_inv in Hr as (t6 & w7 & H6' & Hr).
  pose proof (f_equal fst (record_tracked _ _ _ _ H6')) as P6. cbn [fst tracked] in P6. apply refresh_record_handles in H6' as [Hh6 Hb6].
  pose proof (f_equal fst (stats_tracked _ _ _ _ Hr)) as P7. cbn [fst tracked] in P7. apply refresh_stats_handles in Hr as [Hh7 Hb7].
  rewrite Hh6, Hh4 in Hh7. rewrite Hb6, Hb4, Hb3 in Hb7. rewrite P6, P4 in P7. injection P7 as Hs7 Ha7.
  injection Hh7 as E1 E2 E3. split; try done; [by rewrite Ha7, Ha3|].
  rewrite Hs7. assert (Forall no_estimate l) as Hl'.
  { rewrite length_fmap in Hl. clear -Hl Hs. revert w1 w2 l Hl. induction Hs as [|s ss Hs _ IH]; intros w1 w2 l.
    - by intros [= <- _].
    - simpl. intros (s' & w3 & Hs'%refresh_socket_no_estimate & Hr)%io_bind_inv; [|done].
      apply io_bind_inv in Hr as (l' & w4 & Hl' & [= <- _]). constructor; [done|by eapply IH]. }
  clear -Hc Hl'. simpl in Hc. induction Hc as [|s s' l k Hss Hc IH]; [constructor|].
  inversion_clear Hl'. constructor; [by rewrite Hss|auto].
Qed.

Lemma clean_blind t : blind t → blind (clean_terminated t).
Proof. by intros [? ? ? ? ? ?]. Qed.

Lemma used_blind t t' : blind t → used t t' → blind t'.
Proof.
  intros Hb Hu. induction Hu as [t|t w t' w' t'' Hr Hu IH|t t'' Hu IH]; [done|..].
  - by eapply IH, refresh_blind.
  - by apply IH, clean_blind.
Qed.

(** C28: an exporter that works on a clone of a new topology never sees the work of the eBPF
    programs: however often the clone is refreshed, no socket and not the host ever has an
    idle or activation power, the background subtracted from every power is 0, and the
    share of a process is never computed from busy times. *)
Theorem clone_is_blind t w t' w' t'' :
  Topology.activation_idle_buffer t = ∅ → cpu_time_buffer t = [] → Forall no_estimate (sockets t) →
  Topology.clone t w = Done (t', w') → used t' t'' →
  Forall (λ s, background_entry 0 s = None ∧ background_entry 1 s = None) (sockets t'') ∧
  background_power t'' = Done 0 ∧
  ∀ p data, get_process_core_time_data p t'' = Done data → data = None.
Proof.
  intros Hw Hb Hs Hc Hu. unfold Topology.clone in Hc. apply io_bind_inv in Hc as (pt & w1 & Hpt & [= <- _]).
  assert (Hpt' : core_times_map pt = None).
  { unfold ProcTracker.clone in Hpt. by apply io_bind_inv in Hpt as (s & w2 & _ & [= <- _]). }
  apply used_blind in Hu.
  2:{ split; try done. simpl. apply Forall_fmap. eapply Forall_impl; [exact Hs|]. done. }
  destruct Hu as [_ _ _ _ Hbuf Hest]. split; [|split].
  - eapply Forall_impl; [exact Hest|]. intros s H1'%no_estimate_powers. tauto.
  - assert (Hz : idle_sum t'' = 0 ∧ activation_sum t'' = 0).
    { unfold idle_sum, activation_sum. clear -Hest. induction Hest as [|s l H1'%no_estimate_powers _ [IHi IHa]]; [done|].
      rewrite !fmap_cons. rewrite !list_sum_cons. destruct H1' as (_ & _ & -> & ->). lia. }
    destruct Hz as [Hi Ha]. rewrite background_power_ok, Hi, Ha by (rewrite ?Hi, ?Ha; unfold umax; lia). done.
  - intros p data. unfold get_process_core_time_data. intros (d & _ & Hr)%bind_Done_inv.
    destruct d; [|by injection Hr as <-]. unfold get_cpu_time_diff in Hr. rewrite Hbuf in Hr. simpl in Hr.
    by injection Hr as <-.
Qed.
End Clones.

(** ** Example *)

Import SampleHost.

Lemma sample_clone_refreshed :
  match Topology.clone sample_topology start with
  | Done (t, w) => is_done (Topology.refresh t w)
  | Panic => false
  end = true.
Proof. vm_compute. reflexivity. Qed.

(** The sensor's topology has all its handles. *)
Lemma clone_is_blind_witness :
  ∃ t' w' t'' w'', Topology.clone sample_topology start = Done (t', w') ∧
    Topology.refresh t' w' = Done (t'', w'') ∧ background_power t'' = Done 0.
Proof.
  pose proof sample_clone_refreshed as Hs.
  destruct (Topology.clone sample_topology start) as [[t' w']|] eqn:Ec; [|done].
  destruct (is_done_inv _ Hs) as [[t'' w''] Er].
  exists t', w', t'', w''. split; [reflexivity|]. split; [exact Er|].
  refine (proj1 (proj2 (clone_is_blind sample_topology start t' w' t'' eq_refl eq_refl _ Ec _))).
  - repeat constructor.
  - exact (used_refresh _ _ _ _ _ Er (used_nil _)).
Defined.
