(* ===== verification/Series.v ===== *)
(** * The series of the exporters

    A time-series database identifies a series by the name of its metric and its labels,
    and refuses two samples of a series in one collection.  This file proves that the
    generator never gives two: the five groups of metrics have different names, and within
    a group the labels tell the sockets, the domains, the cores and the processes apart. *)

From S2P Require Import Prelude Floats Text TextOps FloatText Units Env Simulated Records Energy Common.
From S2P Require Import Domain Core Socket ProcTracker Bpf Topology Attribution Containers ExporterUtils Metrics Samples.

Definition series (m : Metric) : string * gmap string string := (name m, attributes m).

(** The metrics have pairwise different series, and their names are among [names]. *)
Definition distinct (names : list string) (l : list Metric) : Prop :=
  NoDup (series <$> l) ∧ Forall (λ m, name m ∈ names) l.

(** ** Building such lists *)

Lemma distinct_nil names : distinct names [].
Proof. split; constructor. Qed.

Lemma distinct_one names m : name m ∈ names → distinct names [m].
Proof. intros Hm. split; [apply NoDup_singleton|by constructor]. Qed.

Lemma distinct_of {A} n (o : option A) f : (∀ x, name (f x) = n) → distinct [n] (metric_of o f).
Proof. intros Hf. destruct o; [by apply distinct_one, list_elem_of_singleton|apply distinct_nil]. Qed.

Lemma distinct_weaken names names' l : Forall (λ n, n ∈ names') names → distinct names l → distinct names' l.
Proof.
  rewrite Forall_forall. intros Hs [Hn Hl]. split; [done|]. eapply Forall_impl; [exact Hl|]. intros m. apply Hs.
Qed.

Lemma distinct_app n1 n2 l1 l2 :
  Forall (λ n, n ∉ n2) n1 → distinct n1 l1 → distinct n2 l2 → distinct (n1 ++ n2) (l1 ++ l2).
Proof.
  rewrite Forall_forall. intros Hd [H1 F1] [H2 F2]. rewrite Forall_forall in F1, F2. split.
  - rewrite fmap_app. apply NoDup_app. split; [done|]. split; [|done]. intros x Hx Hy.
    apply list_elem_of_fmap in Hx as (m & -> & Hm). apply list_elem_of_fmap in Hy as (m' & He & Hm').
    apply (Hd (name m)); [by apply F1|]. injection He as -> _. by apply F2.
  - apply Forall_app. split; apply Forall_forall; intros m Hm; apply elem_of_app; [left|right]; auto.
Qed.

Lemma distinct_cons n names m l :
  n ∉ names → name m = n → distinct names l → distinct (n :: names) (m :: l).
Proof.
  intros Hn <- Hl. apply (distinct_app [name m] names [m]); [by repeat constructor| |done].
  apply distinct_one. by left.
Qed.

(** Blocks of metrics that a label tells apart. *)
Lemma distinct_blocks {A} names key (tag : A → string) (blocks : list (list Metric)) (l : list A) :
  Forall2 (λ x b, distinct names b ∧ Forall (λ m, attributes m !! key = Some (tag x)) b) l blocks →
  NoDup (tag <$> l) → distinct names (mjoin blocks).
Proof.
  intros Hb. induction Hb as [|x b l blocks [[Hn Hf] Ht] Hb IH]; intros Hl; [apply distinct_nil|].
  rewrite fmap_cons in Hl. apply NoDup_cons in Hl as [Hx Hl]. destruct (IH Hl) as [Hn' Hf']. simpl. split.
  - rewrite fmap_app. apply NoDup_app. split; [done|]. split; [|done]. intros s Hs Hs'.
    apply list_elem_of_fmap in Hs as (m & -> & Hm). apply list_elem_of_fmap in Hs' as (m' & He & Hm').
    apply list_elem_of_join in Hm' as (b' & Hm' & Hb').
    apply list_elem_of_lookup in Hb' as [i Hi].
    destruct (Forall2_lookup_r _ _ _ _ _ Hb Hi) as (y & Hy & _ & Hty).
    rewrite Forall_forall in Ht, Hty. injection He as _ He.
    apply Hx, list_elem_of_fmap. exists y. split; [|by eapply list_elem_of_lookup_2].
    apply (inj Some). rewrite <- (Ht m), <- (Hty m') by done. by rewrite He.
  - by apply Forall_app.
Qed.

Lemma distinct_bind {A} names key (tag : A → string) (f : A → list Metric) (l : list A) :
  Forall (λ x, distinct names (f x) ∧ Forall (λ m, attributes m !! key = Some (tag x)) (f x)) l →
  NoDup (tag <$> l) → distinct names (l ≫= f).
Proof.
  intros Hf Hn. replace (l ≫= f) with (mjoin (f <$> l)).
  - eapply distinct_blocks; [|exact Hn]. by apply Forall2_fmap_r, Forall_Forall2_diag.
  - clear. induction l as [|x l IH]; [done|]. exact (f_equal (app (f x)) IH).
Qed.

(** ** Automation: the names are constants, compared by computation. *)

Ltac by_names := apply (bool_decide_unpack _); vm_compute; exact I.

Ltac solve_distinct :=
  lazymatch goal with
  | |- distinct _ [] => apply (distinct_nil [])
  | |- distinct _ (metric_of _ _) => eapply distinct_of; intros ?; cbv beta iota delta [name gauge counter metric plain]; reflexivity
  | |- distinct _ (_ :: _) => eapply distinct_cons; [|reflexivity|solve_distinct]; by_names
  | |- distinct _ (_ ++ _) => eapply distinct_app; [|solve_distinct|solve_distinct]; by_names
  | |- _ => eassumption
  end.

(** Against a given list of names. *)
Ltac distinct_in := eapply distinct_weaken; [|solve_distinct]; by_names.

(** ** Printed integers *)

Lemma show_uint_inj m n : 0 <= m → 0 <= n → show_uint m = show_uint n → m = n.
Proof. intros Hm Hn He. apply (inj Some). by rewrite <- (parse_nat_show m), <- (parse_nat_show n), He. Qed.

Lemma NoDup_shown {A} (f : A → Z) l : Forall (λ x, 0 <= f x) l → NoDup (f <$> l) → NoDup ((show_uint ∘ f) <$> l).
Proof.
  intros Hp. induction Hp as [|x l Hx Hp IH]; [constructor|]. rewrite !fmap_cons.
  intros [Hn Hl]%NoDup_cons. apply NoDup_cons. split; [|by apply IH].
  intros Hin. apply Hn. apply list_elem_of_fmap in Hin as (y & He & Hy). apply list_elem_of_fmap.
  exists y. split; [|done]. rewrite Forall_forall in Hp. by apply show_uint_inj; [|apply Hp|].
Qed.

Section Series.
Context `{Profile, Layout, Os, !FileSystem, !Procfs, !PerfEvents, !Sysinfo, !Aya}.
Context `{!HashMaps, !ContainerRuntimes, Regex, Captures}.
Context (current_pid : Z) (crate_version : string).

(** ** The program itself *)

Definition self_names : list string :=
  ["scaph_self_version"; "scaph_self_cpu_usage_percent"; "scaph_self_memory_virtual_bytes";
   "scaph_self_memory_bytes"; "scaph_self_topo_stats_nb"; "scaph_self_topo_records_nb";
   "scaph_self_topo_procs_nb"; "scaph_self_socket_stats_nb"; "scaph_self_socket_records_nb";
   "scaph_self_domain_records_nb"]%string.

Definition self_socket_names : list string :=
  ["scaph_self_socket_stats_nb"; "scaph_self_socket_records_nb"; "scaph_self_domain_records_nb"]%string.

(** What the labels rest on: distinct ids of sockets, domains and processes, and the
    distinct names of the domains of a socket. *)
Record labelled (t : Topology) : Prop := {
  lab_structure : wf_structure t;
  lab_sockets : Forall (λ s, 0 <= Socket.id s) (sockets t);
  lab_domains : Forall (λ s, Forall (λ d, 0 <= Domain.id d) (domains s)) (sockets t);
  lab_names : Forall (λ s, NoDup (Domain.name <$> domains s)) (sockets t);
  lab_pids : NoDup (omap vector_pid (procs (proc_tracker t)));
  lab_pos : Forall (λ p, 0 <= p) (omap vector_pid (procs (proc_tracker t)));
}.

Lemma self_domains_distinct h now s :
  NoDup (Domain.name <$> domains s) →
  distinct ["scaph_self_domain_records_nb"%string] (domains s ≫= self_domain_metrics h now s).
Proof.
  intros Hn. apply (distinct_bind _ "rapl_domain_name" Domain.name); [|exact Hn].
  apply Forall_true. intros d. split; [unfold self_domain_metrics; solve_distinct|].
  by repeat constructor.
Qed.

Lemma self_sockets_distinct h now t :
  labelled t → distinct self_socket_names (sockets t ≫= self_socket_metrics h now).
Proof.
  intros [[Hi _] Hp _ Hn _ _]. apply (distinct_bind _ "socket_id" (show_uint ∘ Socket.id)).
  - eapply Forall_impl; [exact Hn|]. intros s Hs.
    pose proof (self_domains_distinct h now s Hs). split; [unfold self_socket_metrics; distinct_in|].
    constructor; [done|]. constructor; [done|]. simpl.
    apply Forall_forall. intros m Hm. apply list_elem_of_bind in Hm as (d & Hm & _).
    apply list_elem_of_singleton in Hm as ->. simpl. by simplify_map_eq.
  - by apply NoDup_shown.
Qed.

Lemma gen_self_distinct g w g' w' :
  labelled (topology g) → gen_self_metrics current_pid crate_version g w = Done (g', w') →
  ∃ l, g' = push_all l g ∧ distinct self_names l.
Proof.
  intros Ht. unfold gen_self_metrics. intros (me & w1 & _ & Hr)%io_bind_inv.
  apply io_bind_inv in Hr as (now & w2 & _ & Hr). apply io_bind_inv in Hr as (version & w3 & _ & Hr).
  apply io_bind_inv in Hr as (virtual & w4 & [Hv _]%lift_inv & Hr).
  apply io_bind_inv in Hr as (resident & w5 & [Hres _]%lift_inv & Hr). injection Hr as <- _.
  assert (Hu : ∀ n o f l, (∀ r v, name (f r v) = n) → metric_of_unsigned o f = Done l → distinct [n] l).
  { intros n o f l Hf. unfold metric_of_unsigned. destruct o; [|intros [= <-]; apply distinct_nil].
    intros (v & _ & [= <-])%bind_Done_inv. apply distinct_one, list_elem_of_singleton, Hf. }
  apply (Hu "scaph_self_memory_virtual_bytes"%string) in Hv; [|done].
  apply (Hu "scaph_self_memory_bytes"%string) in Hres; [|done].
  pose proof (self_sockets_distinct (host_name g) now (topology g) Ht) as Hs.
  eexists. split; [reflexivity|]. distinct_in.
Qed.

(** ** The host *)

Definition host_names : list string :=
  ["scaph_host_energy_microjoules"; "scaph_host_power_microwatts"; "scaph_host_idle_power_microwatts";
   "scaph_host_activation_power_microwatts"; "scaph_host_background_power_microwatts";
   "scaph_host_core_power_microwatts"; "scaph_host_core_coefficient"; "scaph_host_core_proportion";
   "scaph_host_load_avg_one"; "scaph_host_load_avg_five"; "scaph_host_load_avg_fifteen";
   "scaph_host_cpu_frequency"; "scaph_host_disk_total_bytes"; "scaph_host_disk_available_bytes";
   "scaph_host_memory_total_bytes"; "scaph_host_memory_available_bytes"; "scaph_host_memory_free_bytes";
   "scaph_host_swap_free_bytes"; "scaph_host_swap_total_bytes"]%string.

Definition power_names : list string := take 8 host_names.
Definition disk_names : list string := ["scaph_host_disk_total_bytes"; "scaph_host_disk_available_bytes"]%string.

Lemma core_metrics_distinct n h now d values : distinct [n] (core_metrics n h now d values).
Proof.
  unfold core_metrics. split.
  - apply NoDup_alt. intros i j x Hi Hj. rewrite list_lookup_fmap, list_lookup_imap in Hi, Hj.
    assert (Hk : ∀ k o, series <$> ((λ v, gauge n h now {["core_id"%string := show_uint (Z.of_nat k)]} d (Text v))
                 <$> o) = Some x → x.2 !! "core_id"%string = Some (show_uint (Z.of_nat k))).
    { intros k [v|] Hv; [|done]. apply (inj Some) in Hv. subst x. apply lookup_singleton_eq. }
    apply Hk in Hi, Hj. rewrite Hi in Hj. apply (inj Some), show_uint_inj in Hj; lia.
  - apply Forall_forall. intros m (i & v & -> & _)%elem_of_lookup_imap_1. by left.
Qed.

Lemma host_power_distinct h t r w l w' :
  host_power_metrics h t r w = Done (l, w') → distinct power_names l.
Proof.
  unfold host_power_metrics. intros (power & w1 & _ & Hr)%io_bind_inv.
  do 3 (apply io_bind_inv in Hr as (? & ? & _ & Hr)).
  apply io_bind_inv in Hr as (cores & w2 & _ & Hr). apply io_bind_inv in Hr as (now & w3 & _ & [= <- _]).
  assert (Hc : distinct ["scaph_host_core_power_microwatts"%string]
    match cores with
    | Some cores => core_metrics "scaph_host_core_power_microwatts" h (m_timestamp cores)
                      "Per-core power consumption in microwatts" (m_values cores)
    | None => []
    end) by (destruct cores; [apply core_metrics_distinct|apply distinct_nil]).
  pose proof (core_metrics_distinct "scaph_host_core_coefficient" h now
    "Per-core IPC/frequency coefficient used for power attribution" (show_f64 <$> get_core_coefs t)).
  pose proof (core_metrics_distinct "scaph_host_core_proportion" h now
    "Per-core proportion of total power attributed to this core (0.0–1.0)" (show_f64 <$> get_core_proportions t)).
  distinct_in.
Qed.

(** A metric per entry of a map, named by its key. *)
Lemma distinct_entries {V} names (f : string * V → Metric) (m : gmap string V) l :
  (∀ x, name (f x) = x.1) → map_Forall (λ k _, k ∈ names) m → l ≡ₚ map_to_list m →
  distinct names (f <$> l).
Proof.
  intros Hf Hm Hl. split.
  - apply (NoDup_fmap_1 fst). rewrite <- !list_fmap_compose.
    replace (_ <$> l) with l.*1; [rewrite Hl; apply NoDup_fst_map_to_list|].
    apply list_fmap_ext. intros i x _. symmetry. apply Hf.
  - apply Forall_fmap. rewrite Hl. apply Forall_forall. intros [k v] Hin. simpl. rewrite Hf.
    apply elem_of_map_to_list in Hin. by eapply (Hm k v).
Qed.

Lemma get_disks_names t w ds w' :
  get_disks t w = Done (ds, w') → map_Forall (λ k _, k ∈ disk_names) ds.
Proof.
  unfold get_disks. intros (now & w1 & _ & [= <- _])%io_bind_inv.
  assert (Hb : map_Forall (λ k _, k ∈ disk_names) (∅ : gmap string (string * gmap string string * Record_)))
    by apply map_Forall_empty.
  revert Hb. generalize (∅ : gmap string (string * gmap string string * Record_)).
  induction (disks (host t)) as [|d l IH]; intros m Hm; [done|]. apply IH. unfold add_disk.
  by repeat (apply map_Forall_insert_2; [by_names|]).
Qed.

(** The metrics of the power come first. *)
Lemma gen_host_distinct `{!HashLaws} g w g' w' :
  gen_host_metrics g w = Done (g', w') →
  ∃ powers rest, g' = push_all (powers ++ rest) g ∧ distinct power_names powers ∧ distinct (drop 8 host_names) rest ∧
    (powers = [] ∨ ∃ record w w', host_power_metrics (host_name g) (topology g) record w = Done (powers, w')).
Proof.
  unfold gen_host_metrics. intros (powers & w1 & Hp & Hr)%io_bind_inv.
  assert (distinct power_names powers ∧
    (powers = [] ∨ ∃ record w w', host_power_metrics (host_name g) (topology g) record w = Done (powers, w')))
    as [Hpn Hpp].
  { destruct (last _); [|injection Hp as <- _; split; [apply distinct_nil|by left]].
    split; [by eapply host_power_distinct|right; eauto]. }
  apply io_bind_inv in Hr as (load & w2 & _ & Hr). apply io_bind_inv in Hr as (loads & w3 & Hl & Hr).
  assert (distinct ["scaph_host_load_avg_one"; "scaph_host_load_avg_five"; "scaph_host_load_avg_fifteen"]%string loads).
  { destruct load as [load|]; [|injection Hl as <- _; apply distinct_nil]. apply lift_inv in Hl as [Hl _].
    unfold load_metrics in Hl. do 3 (apply bind_Done_inv in Hl as (? & _ & Hl)). injection Hl as <-.
    solve_distinct. }
  apply io_bind_inv in Hr as (freq & w4 & _ & Hr). apply io_bind_inv in Hr as (ds & w5 & Hd%get_disks_names & Hr).
  apply io_bind_inv in Hr as (entries & w6 & He%iterate_inv & Hr).
  pose proof (distinct_entries _ (disk_metric (host_name g)) _ _ (λ x, eq_refl) Hd He).
  apply io_bind_inv in Hr as (memories & w7 & Hm & [= <- _]).
  assert (distinct (drop 14 host_names) memories).
  { unfold memory_metrics in Hm. do 5 (apply io_bind_inv in Hm as (? & ? & _ & Hm)). injection Hm as <- _.
    distinct_in. }
  eexists powers, _. split; [reflexivity|]. split; [done|]. split; [distinct_in|done].
Qed.

(** ** Sockets and domains *)

Definition domain_metric_names : list string :=
  ["scaph_domain_energy_microjoules"; "scaph_domain_power_microwatts";
   "scaph_domain_rapl_mmio_energy_microjoules"]%string.

Definition socket_names : list string :=
  ["scaph_socket_energy_microjoules"; "scaph_socket_power_microwatts"; "scaph_socket_idle_power_microwatts";
   "scaph_socket_activation_power_microwatts"; "scaph_socket_background_power_microwatts";
   "scaph_socket_rapl_mmio_energy_microjoules"]%string ++ domain_metric_names.

(** The metrics carry the value of a label. *)
Definition carry (key value : string) (l : list Metric) : Prop := Forall (λ m, attributes m !! key = Some value) l.

Lemma carry_of {A} key value (o : option A) f :
  (∀ x, attributes (f x) !! key = Some value) → carry key value (metric_of o f).
Proof. intros Hf. destruct o; repeat constructor; auto. Qed.

Lemma domain_metrics_distinct h s d w l w' :
  domain_metrics h s d w = Done (l, w') →
  distinct domain_metric_names l ∧ carry "domain_id" (show_uint (Domain.id d)) l ∧
  carry "socket_id" (show_uint (Socket.id s)) l.
Proof.
  unfold domain_metrics. destruct (last _); [|intros [= <- _]; split_and!; [apply distinct_nil|constructor..]].
  intros (mmio & w1 & _ & [= <- _])%io_bind_inv. split; [distinct_in|].
  assert (Hid : domain_attributes s d !! "domain_id"%string = Some (show_uint (Domain.id d)) ∧
                domain_attributes s d !! "socket_id"%string = Some (show_uint (Socket.id s))) by done.
  destruct Hid as [Hd Hs].
  split; constructor; try done; apply Forall_app; split; apply carry_of; intros x; simpl; [done| |done|];
    by rewrite lookup_insert_ne.
Qed.

Lemma socket_metrics_distinct h s w l w' :
  NoDup (Domain.id <$> domains s) → Forall (λ d, 0 <= Domain.id d) (domains s) →
  socket_metrics h s w = Done (l, w') →
  distinct socket_names l ∧ carry "socket_id" (show_uint (Socket.id s)) l.
Proof.
  intros Hn Hp. unfold socket_metrics. intros (powers & w1 & Hpow & Hr)%io_bind_inv.
  assert (distinct (take 5 socket_names) powers ∧ carry "socket_id" (show_uint (Socket.id s)) powers) as [Hd Hc].
  { destruct (last _); [|injection Hpow as <- _; split; [apply distinct_nil|constructor]].
    unfold socket_power_metrics in Hpow. do 3 (apply io_bind_inv in Hpow as (? & ? & _ & Hpow)).
    injection Hpow as <- _. split; [distinct_in|].
    constructor; [done|]. repeat (apply Forall_app; split); by apply carry_of. }
  apply io_bind_inv in Hr as (mmio & w2 & _ & Hr). apply io_bind_inv in Hr as (ds & w3 & Hds & [= <- _]).
  eapply (io_map_Forall2 _ (λ d l, distinct domain_metric_names l ∧ carry "domain_id" (show_uint (Domain.id d)) l ∧
            carry "socket_id" (show_uint (Socket.id s)) l)) in Hds;
    [|intros d w4 k w5 _; apply domain_metrics_distinct].
  assert (distinct domain_metric_names (mjoin ds)).
  { eapply (distinct_blocks _ "domain_id" (show_uint ∘ Domain.id)); [|by apply NoDup_shown].
    eapply Forall2_impl; [exact Hds|]. by intros d k (? & ? & _). }
  split; [unfold socket_names; distinct_in|].
  apply Forall_app. split; [done|]. apply Forall_app. split; [by apply carry_of|].
  clear -Hds. induction Hds as [|d k ds' ks (_ & _ & Hk) _ IH]; [constructor|]. by apply Forall_app.
Qed.

Lemma gen_socket_distinct g w g' w' :
  labelled (topology g) → gen_socket_metrics g w = Done (g', w') →
  ∃ ls, g' = push_all (mjoin ls) g ∧ distinct socket_names (mjoin ls) ∧
    Forall2 (λ s l, ∃ w w', socket_metrics (host_name g) s w = Done (l, w')) (sockets (topology g)) ls.
Proof.
  intros [[Hi Hd] Hp Hdp _ _ _]. unfold gen_socket_metrics. intros (l & w1 & Hl & [= <- _])%io_bind_inv.
  eexists. split; [reflexivity|].
  split; [|eapply io_map_Forall2; [|exact Hl]; eauto].
  eapply (distinct_blocks _ "socket_id" (show_uint ∘ Socket.id)); [|by apply NoDup_shown].
  eapply io_map_Forall2; [|exact Hl]. intros s w2 k w3 Hs. rewrite Forall_forall in Hd, Hdp.
  apply socket_metrics_distinct; [by apply Hd|by apply Hdp].
Qed.

(** ** The system *)

Definition system_names : list string :=
  ["scaph_forks_since_boot_total"; "scaph_processes_running_current"; "scaph_processes_blocked_current";
   "scaph_context_switches_total"]%string.

Lemma gen_system_distinct g w g' w' :
  gen_system_metrics g w = Done (g', w') → ∃ l, g' = push_all l g ∧ distinct system_names l.
Proof.
  unfold gen_system_metrics. intros (now & w1 & _ & Hr)%io_bind_inv. cbv zeta beta in Hr.
  do 4 (apply io_bind_inv in Hr as (? & ? & _ & Hr)). injection Hr as <- _.
  eexists. split; [reflexivity|]. distinct_in.
Qed.

(** ** Processes *)

Definition process_names : list string :=
  ["scaph_process_cpu_usage_percentage"; "scaph_process_memory_virtual_bytes"; "scaph_process_memory_bytes";
   "scaph_process_disk_write_bytes"; "scaph_process_disk_read_bytes"; "scaph_process_disk_total_write_bytes";
   "scaph_process_disk_total_read_bytes"; "scaph_process_power_consumption_microwatts";
   "scaph_process_core_time_ns"; "scaph_process_core_total_time_ns"; "scaph_process_core_proportion"]%string.

Lemma alive_pids_sublist pt : get_alive_pids pt `sublist_of` omap vector_pid (procs pt).
Proof.
  unfold get_alive_pids, get_alive_processes. induction (procs pt) as [|v vs IH]; [done|]. simpl.
  destruct (match vector_pid v ≫= _ with Some _ => _ | None => _ end); simpl; destruct (vector_pid v);
    first [exact IH|apply sublist_skip; exact IH|apply sublist_cons; exact IH].
Qed.

Lemma alive_pids_pos t : labelled t → Forall (λ p, 0 <= p) (get_alive_pids (proc_tracker t)).
Proof.
  intros [_ _ _ _ _ Hp]. rewrite Forall_forall in Hp |- *. intros p Hin. apply Hp.
  eapply elem_of_sublist; [exact Hin|]. apply alive_pids_sublist.
Qed.

Lemma alive_pids_distinct t : labelled t → NoDup (show_uint <$> get_alive_pids (proc_tracker t)).
Proof.
  intros Ht. apply (NoDup_shown (λ x : Z, x)); [by apply alive_pids_pos|]. rewrite list_fmap_id.
  destruct Ht as [_ _ _ _ Hn _]. eapply sublist_NoDup; [exact Hn|apply alive_pids_sublist].
Qed.

Lemma per_process_names p t m :
  get_all_per_process p t = Done (Some m) → map_Forall (λ k _, k ∈ process_names) m.
Proof.
  unfold get_all_per_process. destruct (get_process_last_record p _) as [record|];
    [|intros [= <-]; apply map_Forall_empty].
  intros (ebpf & _ & Hr)%bind_Done_inv. apply bind_Done_inv in Hr as (shares & _ & Hr). cbv zeta in Hr.
  set (res := match get_process_cpu_time_delta_as_percentage _ _ with Some _ => _ | None => _ end) in Hr.
  assert (Hres : map_Forall (λ k _, k ∈ process_names) res).
  { unfold res. destruct (get_process_cpu_time_delta_as_percentage _ _); [|apply map_Forall_empty].
    repeat (apply map_Forall_insert_2; [by_names|]). apply map_Forall_empty. }
  clearbody res. destruct shares; [|by injection Hr as <-].
  apply bind_Done_inv in Hr as (result & _ & Hr).
  destruct ebpf as [[[ns total] proportions]|]; injection Hr as <-;
    by repeat (apply map_Forall_insert_2; [by_names|]).
Qed.

Lemma process_attributes_own g p w a w' :
  process_attributes g p w = Done (a, w') →
  a !! "pid"%string = Some (show_uint p) ∧ is_Some (a !! "exe"%string).
Proof.
  unfold process_attributes. intros (exe & w1 & _ & Hr)%io_bind_inv.
  apply io_bind_inv in Hr as (cmdline & w2 & _ & Hr). apply io_bind_inv in Hr as (b & w3 & _ & Hr).
  cbv zeta in Hr. destruct cmdline as [c|].
  - apply io_bind_inv in Hr as (vmname & w4 & _ & [= <- _]). unfold insert_some.
    destruct vmname; cbv beta iota; rewrite !lookup_insert_ne, lookup_insert_eq by done;
      (split; [done|]; rewrite !lookup_insert_ne, lookup_insert_eq by done; by eexists).
  - injection Hr as <- _. rewrite lookup_insert_ne, !lookup_insert_eq by done. split; [done|by eexists].
Qed.

Lemma process_metrics_distinct `{!HashLaws} g p w l w' :
  process_metrics g p w = Done (l, w') → distinct process_names l ∧ carry "pid" (show_uint p) l.
Proof.
  unfold process_metrics. intros (a & w1 & [Ha _]%process_attributes_own & Hr)%io_bind_inv.
  apply io_bind_inv in Hr as (metrics & w2 & [Hm _]%lift_inv & Hr). destruct metrics as [metrics|].
  - apply per_process_names in Hm. apply io_bind_inv in Hr as (entries & w3 & He%iterate_inv & [= <- _]).
    split; [eapply distinct_entries; [|exact Hm|exact He]; by intros|]. by apply Forall_fmap, Forall_true.
  - injection Hr as <- _. split; [apply distinct_nil|constructor].
Qed.

Lemma gen_process_distinct `{!HashLaws} g w g' w' :
  labelled (topology g) → gen_process_metrics g w = Done (g', w') →
  ∃ ls, data g' = data g ++ mjoin ls ∧ distinct process_names (mjoin ls) ∧
    Forall2 (λ p l, ∃ g1 w w', topology g1 = topology g ∧ process_metrics g1 p w = Done (l, w'))
            (get_alive_pids (proc_tracker (topology g))) ls.
Proof.
  intros Hlabels. unfold gen_process_metrics. intros (g1 & w1 & Hg & Hr)%io_bind_inv.
  apply check_containers_kept in Hg. injection Hg as Hd Ht _ _ _ _ _. apply io_bind_inv in Hr as (l & w2 & Hl & [= <- _]).
  exists l. split; [by rewrite <- Hd|]. rewrite Ht in Hl. split; [|eapply io_map_Forall2; [|exact Hl]; eauto 10].
  eapply (distinct_blocks _ "pid" show_uint).
  - eapply io_map_Forall2; [|exact Hl]. intros p w3 k w4 _. apply process_metrics_distinct.
  - by apply alive_pids_distinct.
Qed.

(** ** All the metrics *)

(** The groups of a collection, and where the metrics of the sockets and of the processes
    come from. *)
Record parts (g : MetricGenerator) (l : list Metric) (l1 l2 : list Metric) (ls : list (list Metric))
    (l4 : list Metric) (lp : list (list Metric)) : Prop := {
  parts_all : l = l1 ++ l2 ++ mjoin ls ++ l4 ++ mjoin lp;
  parts_self : distinct self_names l1;
  parts_host : distinct host_names l2;
  parts_sockets : distinct socket_names (mjoin ls);
  parts_system : distinct system_names l4;
  parts_processes : distinct process_names (mjoin lp);
  parts_of_host : ∃ powers rest, l2 = powers ++ rest ∧ distinct (drop 8 host_names) rest ∧
    (powers = [] ∨ ∃ record w w', host_power_metrics (host_name g) (topology g) record w = Done (powers, w'));
  parts_of_socket :
    Forall2 (λ s l, ∃ w w', socket_metrics (host_name g) s w = Done (l, w')) (sockets (topology g)) ls;
  parts_of_process :
    Forall2 (λ p l, ∃ g1 w w', topology g1 = topology g ∧ process_metrics g1 p w = Done (l, w'))
            (get_alive_pids (proc_tracker (topology g))) lp;
}.

Lemma gen_all_parts `{!HashLaws} g w g' w' :
  labelled (topology g) → gen_all_metrics current_pid crate_version g w = Done (g', w') →
  ∃ l l1 l2 ls l4 lp, data g' = data g ++ l ∧ parts g l l1 l2 ls l4 lp.
Proof.
  intros Ht. unfold gen_all_metrics. intros (g1 & w1 & (l1 & -> & H1')%gen_self_distinct & Hr)%io_bind_inv; [|done].
  apply io_bind_inv in Hr as (g2 & w2 & (powers & rest & -> & Hpn & Hrn & Hpp)%gen_host_distinct & Hr).
  assert (H2' : distinct host_names (powers ++ rest)) by distinct_in. cbn [host_name topology push_all set_data] in Hpp.
  apply io_bind_inv in Hr as (g3 & w3 & (ls & -> & H3' & Hs)%gen_socket_distinct & Hr); [|done].
  apply io_bind_inv in Hr as (g4 & w4 & (l4 & -> & H4')%gen_system_distinct & Hr).
  apply gen_process_distinct in Hr as (lp & -> & H5' & Hp); [|done].
  exists (l1 ++ (powers ++ rest) ++ mjoin ls ++ l4 ++ mjoin lp), l1, (powers ++ rest), ls, l4, lp.
  split; [simpl; by rewrite <- !app_assoc|]. split; try done. by exists powers, rest.
Qed.

(** C6: one collection never holds two samples of a series: whenever the generator returns,
    on a topology with distinct ids of sockets, domains and processes and distinct names of
    the domains of a socket, no two of the metrics it adds have the same name and the same
    labels, whatever the order in which the hash maps are iterated and whatever labels the
    containers bring. *)
Theorem series_distinct `{!HashLaws} g w g' w' :
  labelled (topology g) → gen_all_metrics current_pid crate_version g w = Done (g', w') →
  ∃ l, data g' = data g ++ l ∧ NoDup (series <$> l).
Proof.
  intros Ht (l & l1 & l2 & ls & l4 & lp & Hd & [-> H1' H2' H3' H4' H5' _ _ _])%gen_all_parts; [|done].
  eexists. split; [exact Hd|].
  eassert (distinct _ (l1 ++ l2 ++ mjoin ls ++ l4 ++ mjoin lp)) as [Hn _]; [|exact Hn]. solve_distinct.
Qed.
End Series.

(** ** Example *)

Import SampleHost.

Lemma sample_labelled : labelled sample_topology.
Proof. split; [split|..]; apply (bool_decide_unpack _); vm_compute; exact I. Qed.

Lemma series_distinct_witness :
  ∃ g' w' l, collect = Done (g', w') ∧ data g' = l ∧ NoDup (series <$> l).
Proof.
  destruct (is_done_inv _ collected) as [[g' w'] E].
  destruct (series_distinct 7 "1.0.0" sample_generator start g' w' sample_labelled E) as (l & Hl & Hn).
  exists g', w', l. split; [exact E|]. split; [exact Hl|exact Hn].
Defined.
