(* ===== verification/Shapes.v ===== *)
(** * The types of the metrics

    A metric has a type: whether it is a gauge or a counter, whether its value is an integer
    or a text, and which labels it has, as a closed row (these and no others) or an open one
    (these at least: the containers of a process bring labels of their own).  The exporters
    look metrics up by their name and rely on the type without saying so: the text of
    Prometheus announces one type per name, the summary and the reports search by label.
    This file gives the type of every name and proves that the generator keeps to it. *)

From S2P Require Import Prelude Floats Text TextOps FloatText Units Env Simulated Records Energy Common.
From S2P Require Import Domain Core Socket ProcTracker Bpf Topology Attribution Containers ExporterUtils Metrics Samples Series.

(** ** Types and the typing of a metric *)

Inductive sort_of_value := TextValue | IntegerValue.

(** [Closed optional]: the labels required, and no others but the optional ones. *)
Inductive row := Closed (optional : list string) | Open.

Record shape := mkShape { announced : string; value_sort : sort_of_value; required : list string; others : row }.

Definition sort_of (v : MetricValueType) : sort_of_value :=
  match v with Text _ => TextValue | IntUnsigned _ => IntegerValue end.

Definition text_gauge := mkShape "gauge" TextValue.
Definition integer_gauge := mkShape "gauge" IntegerValue.
Definition text_counter := mkShape "counter" TextValue.
Definition integer_counter := mkShape "counter" IntegerValue.

(** The type of each name. *)
Definition shapes : list (string * shape) := [
  ("scaph_self_version", text_gauge [] (Closed []));
  ("scaph_self_cpu_usage_percent", text_gauge [] (Closed []));
  ("scaph_self_memory_virtual_bytes", integer_gauge [] (Closed []));
  ("scaph_self_memory_bytes", integer_gauge [] (Closed []));
  ("scaph_self_topo_stats_nb", integer_gauge [] (Closed []));
  ("scaph_self_topo_records_nb", integer_gauge [] (Closed []));
  ("scaph_self_topo_procs_nb", integer_gauge [] (Closed []));
  ("scaph_self_socket_stats_nb", integer_gauge ["socket_id"] (Closed []));
  ("scaph_self_socket_records_nb", integer_gauge ["socket_id"] (Closed []));
  ("scaph_self_domain_records_nb", integer_gauge ["socket_id"; "rapl_domain_name"] (Closed []));
  ("scaph_host_energy_microjoules", text_counter [] (Closed ["value_source"]));
  ("scaph_host_power_microwatts", text_gauge [] (Closed ["value_source"]));
  ("scaph_host_idle_power_microwatts", text_gauge [] (Closed []));
  ("scaph_host_activation_power_microwatts", text_gauge [] (Closed []));
  ("scaph_host_background_power_microwatts", text_gauge [] (Closed []));
  ("scaph_host_core_power_microwatts", text_gauge ["core_id"] (Closed []));
  ("scaph_host_core_coefficient", text_gauge ["core_id"] (Closed []));
  ("scaph_host_core_proportion", text_gauge ["core_id"] (Closed []));
  ("scaph_host_load_avg_one", text_gauge [] (Closed []));
  ("scaph_host_load_avg_five", text_gauge [] (Closed []));
  ("scaph_host_load_avg_fifteen", text_gauge [] (Closed []));
  ("scaph_host_cpu_frequency", text_gauge [] (Closed []));
  ("scaph_host_disk_total_bytes",
   text_gauge ["disk_is_removable"; "disk_type"] (Closed ["disk_name"; "disk_mount_point"; "disk_file_system"]));
  ("scaph_host_disk_available_bytes",
   text_gauge ["disk_is_removable"; "disk_type"] (Closed ["disk_name"; "disk_mount_point"; "disk_file_system"]));
  ("scaph_host_memory_total_bytes", text_gauge [] (Closed []));
  ("scaph_host_memory_available_bytes", text_gauge [] (Closed []));
  ("scaph_host_memory_free_bytes", text_gauge [] (Closed []));
  ("scaph_host_swap_free_bytes", text_gauge [] (Closed []));
  ("scaph_host_swap_total_bytes", text_gauge [] (Closed []));
  ("scaph_socket_energy_microjoules", text_counter ["socket_id"] (Closed []));
  ("scaph_socket_power_microwatts", text_gauge ["socket_id"] (Closed []));
  ("scaph_socket_idle_power_microwatts", text_gauge ["socket_id"] (Closed []));
  ("scaph_socket_activation_power_microwatts", text_gauge ["socket_id"] (Closed []));
  ("scaph_socket_background_power_microwatts", text_gauge ["socket_id"] (Closed []));
  ("scaph_socket_rapl_mmio_energy_microjoules", text_counter ["socket_id"] (Closed []));
  ("scaph_domain_energy_microjoules", text_counter ["socket_id"; "domain_id"; "domain_name"] (Closed []));
  ("scaph_domain_power_microwatts", text_gauge ["socket_id"; "domain_id"; "domain_name"] (Closed []));
  ("scaph_domain_rapl_mmio_energy_microjoules",
   text_counter ["socket_id"; "domain_id"; "domain_name"; "value_source"] (Closed []));
  ("scaph_forks_since_boot_total", integer_counter [] (Closed []));
  ("scaph_processes_running_current", integer_gauge [] (Closed []));
  ("scaph_processes_blocked_current", integer_gauge [] (Closed []));
  ("scaph_context_switches_total", integer_counter [] (Closed []))
]%string ++ ((λ n, (n, text_gauge ["pid"; "exe"]%string Open)) <$> process_names).

Definition shape_of (n : string) : option shape :=
  snd <$> (snd <$> list_find (λ x, x.1 = n) shapes).

Definition has_labels (sh : shape) (a : gmap string string) : Prop :=
  Forall (λ k, is_Some (a !! k)) (required sh) ∧
  match others sh with
  | Closed optional => map_Forall (λ k _, k ∈ required sh ++ optional) a
  | Open => True
  end.

(** The typing of a metric collected on host [h]. *)
Record conforms (h : string) (m : Metric) : Prop := {
  conforms_shape : ∃ sh, shape_of (name m) = Some sh ∧ metric_type m = announced sh ∧
    sort_of (metric_value m) = value_sort sh ∧ has_labels sh (attributes m);
  conforms_host : hostname m = h;
  conforms_constants : ttl m = F32.of_Z 60 ∧ state m = "ok"%string ∧ tags m = ["scaphandre"%string];
}.

(** Metrics of one name have one type, and carry the same labels where the row is closed
    without options. *)
Lemma conforms_alike h m m' :
  conforms h m → conforms h m' → name m = name m' →
  metric_type m = metric_type m' ∧ sort_of (metric_value m) = sort_of (metric_value m').
Proof.
  intros [(sh & Hs & -> & -> & _) _ _] [(sh' & Hs' & -> & -> & _) _ _] He.
  rewrite He, Hs' in Hs. by injection Hs as ->.
Qed.

(** ** Typing rules *)

Lemma conforms_metric h kind n t a d v sh :
  shape_of n = Some sh → kind = announced sh → sort_of v = value_sort sh → has_labels sh a →
  conforms h (metric kind n h t a d v).
Proof. intros. split; [by exists sh|done|done]. Qed.

Lemma conforms_of {A} h (o : option A) f : (∀ x, conforms h (f x)) → Forall (conforms h) (metric_of o f).
Proof. intros Hf. destruct o; simpl; auto. Qed.

Lemma conforms_bind {A} h (l : list A) f : (∀ x, Forall (conforms h) (f x)) → Forall (conforms h) (l ≫= f).
Proof. intros Hf. by apply Forall_bind, Forall_true. Qed.

(** A metric per entry of a map. *)
Lemma conforms_entries {V} h (f : string * V → Metric) (m : gmap string V) l :
  map_Forall (λ k x, conforms h (f (k, x))) m → l ≡ₚ map_to_list m → Forall (conforms h) (f <$> l).
Proof.
  intros Hm Hl. apply Forall_fmap. rewrite Hl. apply Forall_forall. intros [k x] Hin%elem_of_map_to_list.
  by apply (Hm k x).
Qed.

Lemma labels_none sh : required sh = [] → has_labels sh ∅.
Proof. intros Hr. split; [by rewrite Hr|]. destruct (others sh); [apply map_Forall_empty|done]. Qed.

Lemma source_labels `{Os, !FileSystem, !Procfs, !PerfEvents, !Sysinfo, !Aya} (t : Topology) sh :
  required sh = [] → others sh = Closed ["value_source"%string] → has_labels sh (value_source t).
Proof.
  intros Hr Ho. unfold has_labels. rewrite Hr, Ho. split; [done|]. unfold value_source.
  repeat case_decide; first [apply map_Forall_empty|apply map_Forall_singleton; by_names].
Qed.

(** The names are constants: the type is found by computation, and so are the labels. *)
Ltac find_label :=
  first [ eexists; apply lookup_singleton_eq
        | apply lookup_insert_is_Some'; first [left; reflexivity|right; find_label] ].

Ltac find_labels :=
  split; [cbn [required text_gauge integer_gauge text_counter integer_counter];
          repeat (apply Forall_cons; split; [find_label|]); by apply Forall_nil|];
  cbn [others required text_gauge integer_gauge text_counter integer_counter];
  repeat (apply map_Forall_insert_2; [by_names|]);
  first [apply map_Forall_empty|apply map_Forall_singleton; by_names].

Ltac solve_conforms :=
  lazymatch goal with
  | |- Forall _ [] => apply List.Forall_nil
  | |- Forall _ (metric_of _ _) => apply conforms_of; intros ?; solve_conforms
  | |- Forall _ (_ :: _) => apply List.Forall_cons; [solve_conforms|solve_conforms]
  | |- Forall _ (_ ++ _) => apply Forall_app; split; solve_conforms
  | |- conforms _ _ =>
      eapply conforms_metric; [vm_compute; reflexivity|reflexivity|reflexivity|first [by apply labels_none|eassumption|by apply source_labels|find_labels]]
  | |- _ => eassumption
  end.

Section Shapes.
Context `{Profile, Layout, Os, !FileSystem, !Procfs, !PerfEvents, !Sysinfo, !Aya}.
Context `{!HashMaps, !ContainerRuntimes, Regex, Captures}.
Context (current_pid : Z) (crate_version : string).

(** A step of the generator adds metrics that conform. *)
Definition adds (g g' : MetricGenerator) : Prop :=
  host_name g' = host_name g ∧ ∃ l, data g' = data g ++ l ∧ Forall (conforms (host_name g)) l.

#[local] Instance adds_preorder : PreOrder adds.
Proof.
  split.
  - intros g. split; [done|]. exists []. by rewrite app_nil_r.
  - intros g1 g2 g3 [Hh (l & Hd & Hl)] [Hh' (l' & Hd' & Hl')]. split; [congruence|]. exists (l ++ l').
    rewrite Hd', Hd, <- app_assoc, Forall_app. rewrite Hh in Hl'. done.
Qed.

Lemma adds_push g l : Forall (conforms (host_name g)) l → adds g (push_all l g).
Proof. intros Hl. split; [done|]. by exists l. Qed.

(** *** The program and the host *)

Lemma conforms_unsigned h o f l :
  (∀ r n, conforms h (f r (IntUnsigned n))) → metric_of_unsigned o f = Done l → Forall (conforms h) l.
Proof.
  intros Hf. destruct o as [r|]; simpl; [|by intros [= <-]]. intros (v & Hv & [= <-])%bind_Done_inv.
  unfold unsigned in Hv. destruct (unwrap _); [|done]. injection Hv as <-. by constructor.
Qed.

Lemma self_sockets_conform h now l : Forall (conforms h) (l ≫= self_socket_metrics h now).
Proof.
  apply conforms_bind. intros s. unfold self_socket_metrics.
  assert (Forall (conforms h) (domains s ≫= self_domain_metrics h now s)).
  { apply conforms_bind. intros d. unfold self_domain_metrics. solve_conforms. }
  solve_conforms.
Qed.

Lemma gen_self_adds g w g' w' : gen_self_metrics current_pid crate_version g w = Done (g', w') → adds g g'.
Proof.
  unfold gen_self_metrics. intros (me & w1 & _ & Hr)%io_bind_inv.
  apply io_bind_inv in Hr as (now & w2 & _ & Hr). apply io_bind_inv in Hr as (version & w3 & _ & Hr).
  apply io_bind_inv in Hr as (virtual & w4 & [Hv _]%lift_inv & Hr).
  apply io_bind_inv in Hr as (resident & w5 & [Hres _]%lift_inv & Hr). injection Hr as <- _.
  apply adds_push. pose proof (self_sockets_conform (host_name g) now (sockets (topology g))).
  apply (conforms_unsigned (host_name g)) in Hv; [|intros; solve_conforms].
  apply (conforms_unsigned (host_name g)) in Hres; [|intros; solve_conforms]. solve_conforms.
Qed.

Lemma core_metrics_conform n h now d values :
  shape_of n = Some (text_gauge ["core_id"%string] (Closed [])) → Forall (conforms h) (core_metrics n h now d values).
Proof.
  intros Hn. apply Forall_forall. intros m (i & v & -> & _)%elem_of_lookup_imap_1.
  eapply conforms_metric; [exact Hn|done|done|find_labels].
Qed.

Lemma host_power_conform h t r w l w' : host_power_metrics h t r w = Done (l, w') → Forall (conforms h) l.
Proof.
  unfold host_power_metrics. intros (power & w1 & _ & Hr)%io_bind_inv.
  do 3 (apply io_bind_inv in Hr as (? & ? & _ & Hr)).
  apply io_bind_inv in Hr as (cores & w2 & _ & Hr). apply io_bind_inv in Hr as (now & w3 & _ & [= <- _]).
  assert (Forall (conforms h) match cores with
    | Some cores => core_metrics "scaph_host_core_power_microwatts" h (m_timestamp cores)
                      "Per-core power consumption in microwatts" (m_values cores)
    | None => []
    end) by (destruct cores; [by apply core_metrics_conform|constructor]).
  pose proof (core_metrics_conform "scaph_host_core_coefficient" h now
    "Per-core IPC/frequency coefficient used for power attribution" (show_f64 <$> get_core_coefs t) eq_refl).
  pose proof (core_metrics_conform "scaph_host_core_proportion" h now
    "Per-core proportion of total power attributed to this core (0.0–1.0)" (show_f64 <$> get_core_proportions t) eq_refl).
  solve_conforms.
Qed.

Lemma disk_labels d sh :
  required sh = ["disk_is_removable"; "disk_type"]%string →
  others sh = Closed ["disk_name"; "disk_mount_point"; "disk_file_system"]%string → has_labels sh (disk_attributes d).
Proof.
  intros Hr Ho. unfold has_labels. rewrite Hr, Ho. unfold disk_attributes, insert_opt.
  destruct (d_name d), (d_mount_point d), (d_file_system d); cbv iota;
    (split; [repeat (apply Forall_cons; split; [find_label|]); by apply Forall_nil|];
     repeat (apply map_Forall_insert_2; [by_names|]); apply map_Forall_empty).
Qed.

Lemma disks_conform h t w ds w' l :
  get_disks t w = Done (ds, w') → l ≡ₚ map_to_list ds → Forall (conforms h) (disk_metric h <$> l).
Proof.
  intros Hds Hl. eapply conforms_entries; [|exact Hl]. clear l Hl. revert Hds. unfold get_disks.
  intros (now & w1 & _ & [= <- _])%io_bind_inv.
  assert (map_Forall (λ k x, conforms h (disk_metric h (k, x))) (∅ : gmap string (string * gmap string string * Record_)))
    as Hm by apply map_Forall_empty.
  revert Hm. generalize (∅ : gmap string (string * gmap string string * Record_)).
  induction (disks (host t)) as [|d ds IH]; intros m Hm; [done|]. apply IH. unfold add_disk.
  repeat (apply map_Forall_insert_2;
    [eapply conforms_metric; [vm_compute; reflexivity|done|done|by apply disk_labels]|]). exact Hm.
Qed.

Lemma gen_host_adds `{!HashLaws} g w g' w' : gen_host_metrics g w = Done (g', w') → adds g g'.
Proof.
  unfold gen_host_metrics. intros (powers & w1 & Hp & Hr)%io_bind_inv.
  apply io_bind_inv in Hr as (load & w2 & _ & Hr). apply io_bind_inv in Hr as (loads & w3 & Hl & Hr).
  apply io_bind_inv in Hr as (freq & w4 & _ & Hr). apply io_bind_inv in Hr as (ds & w5 & Hd & Hr).
  apply io_bind_inv in Hr as (entries & w6 & He%iterate_inv & Hr). apply io_bind_inv in Hr as (memories & w7 & Hm & Hr).
  injection Hr as <- _. apply adds_push.
  assert (Forall (conforms (host_name g)) powers).
  { destruct (last _); [by eapply host_power_conform|by injection Hp as <- _]. }
  assert (Forall (conforms (host_name g)) loads).
  { destruct load as [load|]; [|by injection Hl as <- _]. apply lift_inv in Hl as [Hl _]. unfold load_metrics in Hl.
    do 3 (apply bind_Done_inv in Hl as (? & _ & Hl)). injection Hl as <-. solve_conforms. }
  pose proof (disks_conform (host_name g) _ _ _ _ _ Hd He).
  assert (Forall (conforms (host_name g)) memories).
  { unfold memory_metrics in Hm. do 5 (apply io_bind_inv in Hm as (? & ? & _ & Hm)). injection Hm as <- _. solve_conforms. }
  solve_conforms.
Qed.

(** *** Sockets, domains, the system *)

Lemma domain_conform h s d w l w' : domain_metrics h s d w = Done (l, w') → Forall (conforms h) l.
Proof.
  unfold domain_metrics. destruct (last _); [|by intros [= <- _]].
  intros (mmio & w1 & _ & [= <- _])%io_bind_inv. unfold domain_attributes. solve_conforms.
Qed.

Lemma io_map_conform {A} h (f : A → io (list Metric)) l w ls w' :
  (∀ x w k w', f x w = Done (k, w') → Forall (conforms h) k) → io_map f l w = Done (ls, w') →
  Forall (conforms h) (mjoin ls).
Proof.
  intros Hf Hm. apply (io_map_Forall2 f (λ _ k, Forall (conforms h) k)) in Hm; [|eauto].
  apply Forall_join. by eapply Forall2_Forall_r; [exact Hm|apply Forall_true].
Qed.

Lemma socket_conform h s w l w' : socket_metrics h s w = Done (l, w') → Forall (conforms h) l.
Proof.
  unfold socket_metrics. intros (powers & w1 & Hp & Hr)%io_bind_inv. apply io_bind_inv in Hr as (mmio & w2 & _ & Hr).
  apply io_bind_inv in Hr as (ds & w3 & Hds & [= <- _]).
  apply (io_map_conform h) in Hds; [|intros *; apply domain_conform].
  assert (Forall (conforms h) powers).
  { destruct (last _); [|by injection Hp as <- _]. unfold socket_power_metrics in Hp.
    do 3 (apply io_bind_inv in Hp as (? & ? & _ & Hp)). injection Hp as <- _. solve_conforms. }
  solve_conforms.
Qed.

Lemma gen_socket_adds g w g' w' : gen_socket_metrics g w = Done (g', w') → adds g g'.
Proof.
  unfold gen_socket_metrics. intros (l & w1 & Hl & [= <- _])%io_bind_inv. apply adds_push.
  eapply io_map_conform; [|exact Hl]. intros *. apply socket_conform.
Qed.

Lemma gen_system_adds g w g' w' : gen_system_metrics g w = Done (g', w') → adds g g'.
Proof.
  unfold gen_system_metrics. intros (now & w1 & _ & Hr)%io_bind_inv. cbv zeta beta in Hr.
  do 4 (apply io_bind_inv in Hr as (? & ? & _ & Hr)). injection Hr as <- _. apply adds_push. solve_conforms.
Qed.

(** *** Processes *)

Lemma process_shape n : n ∈ process_names → shape_of n = Some (text_gauge ["pid"; "exe"]%string Open).
Proof.
  revert n. apply Forall_forall. unfold process_names. repeat (apply Forall_cons; split; [reflexivity|]).
  by apply Forall_nil.
Qed.

Lemma process_conform `{!HashLaws} g p w l w' :
  process_metrics g p w = Done (l, w') → Forall (conforms (host_name g)) l.
Proof.
  unfold process_metrics. intros (a & w1 & [Hp He]%process_attributes_own & Hr)%io_bind_inv.
  apply io_bind_inv in Hr as (metrics & w2 & [Hm _]%lift_inv & Hr). destruct metrics as [m|]; [|by injection Hr as <- _].
  apply per_process_names in Hm. apply io_bind_inv in Hr as (entries & w3 & Hi%iterate_inv & [= <- _]).
  eapply conforms_entries; [|exact Hi]. intros n x Hn. simpl.
  eapply conforms_metric; [eapply process_shape, (Hm n x Hn)|done|done|].
  split; [|done]. constructor; [by rewrite Hp|]. by constructor.
Qed.

Lemma gen_process_adds `{!HashLaws} g w g' w' : gen_process_metrics g w = Done (g', w') → adds g g'.
Proof.
  unfold gen_process_metrics. intros (g1 & w1 & Hg%check_containers_kept & Hr)%io_bind_inv.
  apply io_bind_inv in Hr as (l & w2 & Hl & [= <- _]). injection Hg as Hd Ht Hh _ _ _ _.
  assert (adds g g1) as H1' by (split; [done|exists []; by rewrite app_nil_r]). trans g1; [done|]. apply adds_push.
  eapply io_map_conform; [|exact Hl]. intros *. apply process_conform.
Qed.

(** ** All the metrics *)

(** C18: the metrics are well typed: every metric that a collection adds has the type that its
    name has in the table [shapes], gauge or counter, integer or text, with the labels that the
    type requires and, except those of a process, no other; so two metrics of one name never
    differ in type, whatever the topology, the containers and the order of the maps. *)
Theorem metrics_well_typed `{!HashLaws} g w g' w' :
  gen_all_metrics current_pid crate_version g w = Done (g', w') →
  ∃ l, data g' = data g ++ l ∧ Forall (conforms (host_name g)) l ∧
    ∀ m m', m ∈ l → m' ∈ l → name m = name m' →
      metric_type m = metric_type m' ∧ sort_of (metric_value m) = sort_of (metric_value m').
Proof.
  unfold gen_all_metrics. intros (g1 & w1 & H1'%gen_self_adds & Hr)%io_bind_inv.
  apply io_bind_inv in Hr as (g2 & w2 & H2'%gen_host_adds & Hr).
  apply io_bind_inv in Hr as (g3 & w3 & H3'%gen_socket_adds & Hr).
  apply io_bind_inv in Hr as (g4 & w4 & H4'%gen_system_adds & H5'%gen_process_adds).
  assert (adds g g') as [_ (l & Hd & Hl)] by (trans g1; [done|trans g2; [done|trans g3; [done|by trans g4]]]).
  exists l. split; [done|]. split; [done|]. rewrite Forall_forall in Hl. intros m m' Hm Hm'.
  by apply (conforms_alike (host_name g)); apply Hl.
Qed.
End Shapes.

(** ** Example *)

Import SampleHost.

Lemma metrics_well_typed_witness :
  ∃ g' w' l, collect = Done (g', w') ∧ data g' = l ∧ Forall (conforms "host") l.
Proof.
  destruct (is_done_inv _ collected) as [[g' w'] E].
  destruct (metrics_well_typed 7 "1.0.0" sample_generator start g' w' E) as (l & Hd & Hl & _).
  exists g', w', l. split; [exact E|]. split; [exact Hd|exact Hl].
Defined.
