(* ===== verification/Search.v ===== *)
(** * Searching a vector of metrics

    The exporters that make reports find what they need by the names and the attributes of
    the metrics: [metrics.iter().find(...)].  A test may panic, when it unwraps an attribute
    that is not there, and is only applied up to the metric that is found. *)

From S2P Require Import Prelude Floats Text TextOps FloatText Units Env Simulated Records Energy Common.
From S2P Require Import Domain Core Socket ProcTracker Bpf Topology Attribution Containers ExporterUtils Metrics.

Definition value (m : Metric) : string := value_to_string (metric_value m).
Definition attribute (k : string) (m : Metric) : outcome string := unwrap (attributes m !! k).
Definition named (n : string) (m : Metric) : bool := String.eqb (name m) n.

(** [get("socket_id").unwrap().parse::<u16>().unwrap()]. *)
Definition socket_id_of (m : Metric) : outcome Z := i ← attribute "socket_id" m; unwrap (parse_uint 16 i).

(** [Iterator::find] with a test that may panic: what is found and what follows. *)
Fixpoint find_rest (P : Metric → outcome bool) (l : list Metric) : outcome (option Metric * list Metric) :=
  match l with
  | [] => Done (None, [])
  | m :: l => b ← P m; if b : bool then Done (Some m, l) else find_rest P l
  end.

Definition find (P : Metric → outcome bool) (l : list Metric) : outcome (option Metric) := fst <$> find_rest P l.

Fixpoint filter_ (P : Metric → outcome bool) (l : list Metric) : outcome (list Metric) :=
  match l with
  | [] => Done []
  | m :: l => b ← P m; l ← filter_ P l; Done (if b : bool then m :: l else l)
  end.

(** [x.name == n && x.attributes.get("socket_id")... == i]. *)
Definition of_socket (n : string) (i : Z) (m : Metric) : outcome bool :=
  if named n m then j ← socket_id_of m; Done (j =? i) else Done false.

(** [x.name == n && x.attributes.get("pid").unwrap() == p]. *)
Definition of_process (test : Metric → bool) (p : string) (m : Metric) : outcome bool :=
  if test m then q ← attribute "pid" m; Done (String.eqb q p) else Done false.

Definition f32_of (m : Metric) : outcome float := unwrap (parse_f32 (value m)).
Definition maybe_f32 (m : option Metric) : option float := m ← m; parse_f32 (value m).


(** ** Searching with a test that does not panic *)

Lemma find_total P Q l : (∀ m, m ∈ l → P m = Done (Q m)) → find P l = Done (List.find Q l).
Proof.
  intros HP. unfold find. induction l as [|m l IH]; [done|]. cbn [find_rest List.find].
  rewrite (HP m) by left. rewrite bind_done. destruct (Q m); [done|]. apply IH. intros x Hx. apply HP. by right.
Qed.

Lemma find_member (Q : Metric → bool) l m : List.find Q l = Some m → m ∈ l ∧ Q m = true.
Proof. intros [Hm HQ]%List.find_some. by rewrite list_elem_of_In. Qed.

Lemma find_only (Q : Metric → bool) l m :
  m ∈ l → Q m = true → (∀ x, x ∈ l → Q x = true → x = m) → List.find Q l = Some m.
Proof.
  intros Hm HQ Hu. destruct (List.find Q l) as [x|] eqn:E.
  - apply find_member in E as [Hx Hq]. by rewrite (Hu x).
  - pose proof (List.find_none Q l E m) as Hn. rewrite Hn in HQ; [done|]. by apply list_elem_of_In.
Qed.

Lemma find_nothing (Q : Metric → bool) l : (∀ x, x ∈ l → Q x = false) → List.find Q l = None.
Proof.
  intros Hn. destruct (List.find Q l) as [x|] eqn:E; [|done]. apply find_member in E as [Hx Hq].
  by rewrite Hn in Hq.
Qed.

Lemma named_spec n m : named n m = true ↔ name m = n.
Proof. apply String.eqb_eq. Qed.
