(* ===== verification/Writer.v ===== *)
(** * Buffered writing ([std::io::BufWriter])

    The JSON exporter writes its reports through a [BufWriter] that it never flushes: what is
    written reaches the file, or the standard output, when the buffer has no room left, and
    when the writer is dropped.  The writer refines a plain sink: what the sink received and
    what waits in the buffer, together, are what was written. *)

From S2P Require Import Prelude Env TextOps.

Section Writer.
Context `{Os, !Sinks}.

Record BufWriter := mkBufWriter { buf : string; inner : Sink }.

Definition capacity : Z := 8192.

Definition len (s : string) : Z := Z.of_nat (String.length s).

(** [BufWriter::new]. *)
Definition new_writer (inner : Sink) : BufWriter := mkBufWriter "" inner.

Definition spare_capacity (b : BufWriter) : Z := capacity - len (buf b).

(** [flush_buf]; [None] for [Err]. *)
Definition flush_buf (b : BufWriter) : io (option BufWriter) :=
  r ← effect (sink_write (inner b) (buf b));
  mret ((λ _, mkBufWriter "" (inner b)) <$> r).

(** [write_all]: what fits is copied to the buffer, which is flushed first when it has no
    room; what is larger than any buffer goes straight to the sink. *)
Definition write_all (s : string) (b : BufWriter) : io (option BufWriter) :=
  if len s <? spare_capacity b then mret (Some (mkBufWriter (buf b +:+ s) (inner b)))
  else
    b ← (if spare_capacity b <? len s then flush_buf b else mret (Some b));
    match b with
    | Some b =>
        if capacity <=? len s then
          r ← effect (sink_write (inner b) s); mret ((λ _, b) <$> r)
        else mret (Some (mkBufWriter (buf b +:+ s) (inner b)))
    | None => mret None
    end.

(** [serde_json::to_writer] makes many writes; a failure is fatal here. *)
Definition write_chunks (chunks : list string) (b : BufWriter) : io BufWriter :=
  io_fold (λ b s, r ← write_all s b; lift (unwrap r)) b chunks.

(** [Drop]: an error is ignored. *)
Definition drop_writer (b : BufWriter) : io unit := _ ← flush_buf b; mret tt.

(** ** Refinement *)

Lemma len_app s t : len (s +:+ t) = len s + len t.
Proof. unfold len. rewrite length_app_str. lia. Qed.

Lemma len_pos s : 0 <= len s.
Proof. unfold len. lia. Qed.

Lemma len_empty s : len s <= 0 → s = ""%string.
Proof. destruct s; [done|]. unfold len. simpl. lia. Qed.

Section Laws.
Context (received : Sink → world → string) `{!SinkLaws received}.

(** What was written, wherever it is. *)
Definition written (b : BufWriter) (w : world) : string := received (inner b) w +:+ buf b.

(** The buffer is not too long, and is not flushed before it has to be. *)
Record kept (b : BufWriter) (w : world) : Prop := {
  kept_within : len (buf b) <= capacity;
  kept_until_full : len (written b w) < capacity → received (inner b) w = ""%string;
}.

Lemma flush_written b w b' w' :
  flush_buf b w = Done (Some b', w') →
  received (inner b') w' = written b w ∧ buf b' = ""%string ∧ inner b' = inner b.
Proof.
  unfold flush_buf. intros (r & w1 & Hr & Hb)%io_bind_inv. destruct r as [u|]; [|done]. injection Hb as <- <-.
  unfold effect in Hr. injection Hr as Hr. by rewrite (write_received _ _ _ _ _ Hr).
Qed.

Lemma write_all_written s b w b' w' :
  kept b w → write_all s b w = Done (Some b', w') →
  written b' w' = (written b w +:+ s)%string ∧ kept b' w' ∧ inner b' = inner b.
Proof.
  unfold write_all, spare_capacity. intros [Hb Hk]. pose proof (len_pos s) as Hpos.
  destruct (Z.ltb_spec (len s) (capacity - len (buf b))) as [Hs|Hs].
  { intros [= <- <-]. assert (written (mkBufWriter (buf b +:+ s) (inner b)) w = written b w +:+ s) as E
      by (unfold written; simpl; by rewrite app_assoc_str).
    split_and!; [done| |done]. split; simpl; [rewrite len_app; lia|]. rewrite E, len_app. intros. apply Hk. lia. }
  intros (o & w1 & Ho & Hr)%io_bind_inv. destruct o as [b1|]; [|done].
  assert (written b1 w1 = written b w ∧ inner b1 = inner b ∧
          (buf b1 = ""%string ∨ len (buf b1) + len s <= capacity)) as (Hw & Hi & Hl).
  { destruct (Z.ltb_spec (capacity - len (buf b)) (len s)).
    - apply flush_written in Ho as (E & Eb & Ei). unfold written at 1. rewrite Eb, app_nil_str, E. auto.
    - injection Ho as -> ->. split_and!; [done|done|]. right. lia. }
  assert (Hfull : ∀ x, len (written b w +:+ s) < capacity → x).
  { intros x Hx. exfalso. rewrite len_app in Hx. pose proof (Hk ltac:(lia)) as E. unfold written in Hx.
    rewrite E in Hx. change (len (("" +:+ buf b))) with (len (buf b)) in Hx. lia. }
  rewrite <- Hi. destruct (Z.leb_spec capacity (len s)) as [Hc|Hc].
  - assert (buf b1 = ""%string) as E by (destruct Hl; [done|apply len_empty; lia]).
    apply io_bind_inv in Hr as (r & w2 & Hr & Hm). destruct r; [|done]. injection Hm as <- <-.
    unfold effect in Hr. injection Hr as Hr.
    assert (written b1 w2 = written b w +:+ s) as Ew.
    { rewrite <- Hw. unfold written. by rewrite (write_received _ _ _ _ _ Hr), E, !app_nil_str. }
    split_and!; [done| |done]. split; [rewrite E; unfold capacity, len; simpl; lia|]. rewrite Ew. apply Hfull.
  - injection Hr as <- <-.
    assert (written (mkBufWriter (buf b1 +:+ s) (inner b1)) w1 = written b w +:+ s) as Ew
      by (rewrite <- Hw; unfold written; simpl; by rewrite app_assoc_str).
    split_and!; [done| |done]. split; [|rewrite Ew; apply Hfull]. simpl. rewrite len_app.
    destruct Hl as [->|Hl]; [change (len "") with 0|]; lia.
Qed.

Lemma write_chunks_written chunks b w b' w' :
  kept b w → write_chunks chunks b w = Done (b', w') →
  written b' w' = written b w +:+ String.concat "" chunks ∧ kept b' w' ∧ inner b' = inner b.
Proof.
  unfold write_chunks. revert b w. induction chunks as [|s chunks IH]; intros b w Hb; simpl.
  - intros [= <- <-]. by rewrite app_nil_str.
  - intros (b1 & w1 & (o & w2 & Ho & [Hu ->]%lift_inv)%io_bind_inv & Hr)%io_bind_inv.
    destruct o as [b2|]; [|done]. injection Hu as <-.
    apply write_all_written in Ho as (Hw & Hb1 & Hi); [|done].
    apply IH in Hr as (Hw' & Hb' & Hi'); [|done]. rewrite Hw', Hw, app_assoc_str, Hi'.
    split_and!; [|done|done]. f_equal. destruct chunks; simpl; [by rewrite app_nil_str|done].
Qed.

(** Nothing of the sink is lost between two writes of other parts of the program. *)
Lemma kept_elsewhere b w w' :
  received (inner b) w' = received (inner b) w → kept b w → kept b w' ∧ written b w' = written b w.
Proof. unfold written. intros E [H1 H2]. split; [split; [done|]|]; unfold written in *; by rewrite E. Qed.

Lemma new_kept p w k w' : create_file p w = (Some k, w') → kept (new_writer k) w' ∧ written (new_writer k) w' = ""%string.
Proof.
  intros Hc. unfold written. simpl. rewrite (create_empty _ _ _ _ Hc). split; [|done].
  split; simpl; [unfold capacity, len; simpl; lia|]. intros _. by rewrite (create_empty _ _ _ _ Hc).
Qed.

Lemma drop_written b w u w' :
  drop_writer b w = Done (u, w') → (sink_write (inner b) (buf b) w).1 ≠ None →
  received (inner b) w' = written b w.
Proof.
  unfold drop_writer, flush_buf. intros (o & w1 & Ho & [= _ <-])%io_bind_inv Hok.
  apply io_bind_inv in Ho as (r & w2 & Hr & [= _ <-]). unfold effect in Hr. injection Hr as Hr.
  rewrite Hr in Hok. destruct r; [|done]. apply (write_received _ _ _ _ _ Hr).
Qed.
End Laws.
End Writer.
