(* ===== verification/Prometheus.v ===== *)
(** * The Prometheus exporters ([exporters/prometheus.rs], [exporters/prometheuspush.rs])

    The pull exporter answers requests that arrive concurrently: a request reads the clock
    first and then waits for two locks, so that the requests may be served in another order
    than their times.  A handler that panics poisons both locks.  The push exporter sends
    the same text to a gateway.  Both write each metric as one sample, and what it is before
    the first sample of its name. *)

From S2P Require Import Prelude Floats Text TextOps FloatText Units Env Simulated Records Energy Common.
From S2P Require Import Domain Core Socket ProcTracker Bpf Topology Attribution Containers ExporterUtils Metrics.
From S2P Require Import Samples Clones.
From Stdlib Require Import Ascii.

#[local] Arguments String.append : simpl nomatch.

(** ** The text *)

Definition push_metric (body help metric_type metric_name metric_line : string) (add_help : bool) : string :=
  (if add_help then
     body +:+ "# HELP " +:+ metric_name +:+ " " +:+ help +:+ String newline "# TYPE " +:+ metric_name
     +:+ " " +:+ metric_type +:+ String newline ""
   else body) +:+ metric_line.

Section Text.
Context `{Os, !HashMaps}.

(** One metric; the second component is [metrics_pushed], newest first. *)
Definition push_one (st : string * list string) (msg : Metric) : io (string * list string) :=
  let '(body, metrics_pushed) := st in
  labels ← if decide (attributes msg = ∅) then mret None
           else l ← iterate (attributes msg); mret (Some l);
  let should_i_add_help := negb (bool_decide (name msg ∈ metrics_pushed)) in
  let metrics_pushed := if should_i_add_help then name msg :: metrics_pushed else metrics_pushed in
  mret (push_metric body (description msg) (metric_type msg) (name msg)
          (format_prometheus_metric (name msg) (value_to_string (metric_value msg)) labels)
          should_i_add_help, metrics_pushed).

Definition send_all (metrics : list Metric) : io string :=
  st ← io_fold push_one (""%string, []) metrics; mret st.1.

Definition insert_new (k v : string) (m : gmap string string) : gmap string string :=
  match m !! k with Some _ => m | None => <[k := v]> m end.

(** The push exporter adds two labels. *)
Definition add_host (m : Metric) : Metric :=
  mkMetric (name m) (metric_type m) (ttl m) (hostname m) (state m) (tags m)
    (insert_new "hostname" (hostname m) (insert_new "instance" (hostname m) (attributes m)))
    (description m) (metric_value m) (measured_at m).
End Text.

(** ** Reading the text back *)

Inductive Line :=
  | Help (name text : string)
  | Type_ (name type : string)
  | Sample (name : string) (labels : list (string * string)) (value : string).

(** The name and the rest of a comment. *)
Definition read_comment (s : string) : option (string * string * string) :=
  '(name, s) ← cut " "%char s;
  '(text, s) ← cut newline s;
  Some (name, text, s).

Definition read_line (s : string) : option (Line * string) :=
  match strip_prefix "# HELP " s with
  | Some s => '(name, text, s) ← read_comment s; Some (Help name text, s)
  | None =>
      match strip_prefix "# TYPE " s with
      | Some s => '(name, type, s) ← read_comment s; Some (Type_ name type, s)
      | None => '(name, labels, value, s) ← read_sample s; Some (Sample name labels value, s)
      end
  end.

Fixpoint read_lines (fuel : nat) (s : string) : option (list Line) :=
  match s with
  | EmptyString => Some []
  | _ =>
      match fuel with
      | O => None
      | S fuel => '(l, s) ← read_line s; ls ← read_lines fuel s; Some (l :: ls)
      end
  end.

Definition read_body (s : string) : option (list Line) := read_lines (String.length s) s.

(** What is expected: the metrics in order, each with its labels in some order, and what a
    metric is before the first sample of its name. *)
Definition sample_line (m : Metric) (labels : list (string * string)) : Line :=
  Sample (name m) ((λ x, (x.1, label_value x.2)) <$> labels) (value_to_string (metric_value m)).

Fixpoint expected (pushed : list string) (ms : list (Metric * list (string * string))) : list Line :=
  match ms with
  | [] => []
  | (m, l) :: ms =>
      if decide (name m ∈ pushed) then sample_line m l :: expected pushed ms
      else Help (name m) (description m) :: Type_ (name m) (metric_type m) :: sample_line m l
           :: expected (name m :: pushed) ms
  end.

(** A metric whose texts have no character that the format reserves. *)
Record printable (m : Metric) : Prop := {
  pr_name : all_chars name_char (name m) = true;
  pr_type : without newline (metric_type m);
  pr_description : without newline (description m);
  pr_value : without newline (value_to_string (metric_value m));
  pr_labels : map_Forall (λ k v, without "="%char k ∧ without newline v) (attributes m);
}.

Definition labels_option (l : list (string * string)) : option (list (string * string)) :=
  match l with [] => None | _ => Some l end.

Definition piece (pushed : list string) (m : Metric) (l : list (string * string)) : string :=
  push_metric "" (description m) (metric_type m) (name m)
    (format_prometheus_metric (name m) (value_to_string (metric_value m)) (labels_option l))
    (negb (bool_decide (name m ∈ pushed))).

Fixpoint pieces (pushed : list string) (ms : list (Metric * list (string * string))) : string :=
  match ms with
  | [] => ""
  | (m, l) :: ms =>
      piece pushed m l +:+ pieces (if decide (name m ∈ pushed) then pushed else name m :: pushed) ms
  end.

Lemma push_metric_app body help type n line b :
  push_metric body help type n line b = body +:+ push_metric "" help type n line b.
Proof. unfold push_metric. destruct b; by autorewrite with text. Qed.

(** The text is the concatenation of the pieces, for some orders of the labels. *)
Lemma send_pieces `{HashLaws} ms body pushed w st w' :
  io_fold push_one (body, pushed) ms w = Done (st, w') →
  ∃ ls, Forall2 (λ m l, l ≡ₚ map_to_list (attributes m)) ms ls ∧
        st.1 = body +:+ pieces pushed (zip ms ls).
Proof.
  revert body pushed w. induction ms as [|m ms IH]; intros body pushed w; simpl.
  - intros [= <- _]. exists []. split; [constructor|]. by autorewrite with text.
  - intros (st1 & w1 & Hm & Hr)%io_bind_inv. apply io_bind_inv in Hm as (labels & w2 & Hl & [= <- _]).
    assert (∃ l, l ≡ₚ map_to_list (attributes m) ∧ labels = labels_option l) as (l & Hp & ->).
    { destruct (decide (attributes m = ∅)) as [->|Hne].
      - injection Hl as <- _. exists []. split; [by rewrite map_to_list_empty|done].
      - apply io_bind_inv in Hl as (l & w3 & Hp%iterate_inv & [= <- _]). exists l. split; [done|].
        destruct l; [|done]. symmetry in Hp. apply Permutation_nil_r, map_to_list_empty_iff in Hp. done. }
    apply IH in Hr as (ls & Hls & ->). exists (l :: ls). split; [by constructor|].
    rewrite push_metric_app, app_assoc_str. cbn [zip zip_with pieces]. unfold piece. do 2 f_equal.
    destruct (decide (name m ∈ pushed)); [by rewrite bool_decide_true|by rewrite bool_decide_false].
Qed.

Lemma name_char_plain n : all_chars name_char n = true → without " "%char n.
Proof.
  apply all_chars_impl. intros c. unfold name_char. by destruct (differs "{" c), (differs " " c).
Qed.

Lemma not_comment p n c s :
  all_chars name_char n = true → c ≠ "#"%char → strip_prefix (String "#" p) (n +:+ String c s) = None.
Proof.
  intros Hn Hc.
  assert (∀ d t, d ≠ "#"%char → strip_prefix (String "#" p) (String d t) = None) as Hs.
  { intros d t Hd. cbn [strip_prefix]. destruct (ascii_dec "#" d); congruence. }
  destruct n as [|d n]; [by apply Hs|]. apply andb_true_iff in Hn as [Hd _]. apply Hs. by intros ->.
Qed.

Lemma read_help n d s :
  all_chars name_char n = true → without newline d →
  read_line ("# HELP " +:+ n +:+ " " +:+ d +:+ String newline s) = Some (Help n d, s).
Proof.
  intros Hn%name_char_plain Hd. unfold read_line.
  rewrite (proj2 (strip_prefix_app "# HELP " _ _) eq_refl). unfold read_comment.
  change (" " +:+ ?x) with (String " " x). rewrite cut_app by done. simpl. by rewrite cut_app.
Qed.

Lemma read_type n d s :
  all_chars name_char n = true → without newline d →
  read_line ("# TYPE " +:+ n +:+ " " +:+ d +:+ String newline s) = Some (Type_ n d, s).
Proof.
  intros Hn%name_char_plain Hd. unfold read_line.
  assert (strip_prefix "# HELP " ("# TYPE " +:+ n +:+ " " +:+ d +:+ String newline s) = None) as -> by done.
  rewrite (proj2 (strip_prefix_app "# TYPE " _ _) eq_refl). unfold read_comment.
  change (" " +:+ ?x) with (String " " x). rewrite cut_app by done. simpl. by rewrite cut_app.
Qed.

Lemma read_metric m l s :
  printable m → l ≡ₚ map_to_list (attributes m) →
  read_line (format_prometheus_metric (name m) (value_to_string (metric_value m)) (labels_option l) +:+ s)
  = Some (sample_line m l, s).
Proof.
  intros [Hn _ _ Hv Hl] Hp. unfold read_line.
  assert (∃ c t, format_prometheus_metric (name m) (value_to_string (metric_value m)) (labels_option l) +:+ s
                 = name m +:+ String c t ∧ c ≠ "#"%char) as (c & t & E & Hc).
  { destruct l as [|x l]; [exists " "%char|exists "{"%char]; eexists; (split; [|done]).
    - unfold format_prometheus_metric. simpl. by rewrite !app_assoc_str.
    - cbn [labels_option]. rewrite format_labels, !app_assoc_str. reflexivity. }
  rewrite E. change "# HELP " with (String "#" " HELP "). change "# TYPE " with (String "#" " TYPE ").
  rewrite !not_comment by done. rewrite <- E, sample_round_trip.
  - unfold sample_line. by destruct l.
  - by destruct l.
  - done.
  - done.
  - assert (default [] (labels_option l) = l) as -> by (by destruct l).
    rewrite Hp. apply Forall_forall. intros [k v] Hin%elem_of_map_to_list. by apply (Hl k v).
Qed.

Lemma read_lines_cons fuel s l s' : s ≠ ""%string → read_line s = Some (l, s') →
  read_lines (S fuel) s = (ls ← read_lines fuel s'; Some (l :: ls)).
Proof. intros Hs Hl. destruct s as [|c s]; [done|]. simpl. by rewrite Hl. Qed.

Lemma format_nonempty n v l s : format_prometheus_metric n v l +:+ s ≠ ""%string.
Proof.
  unfold format_prometheus_metric. rewrite !app_assoc_str.
  match goal with |- ?r +:+ _ ≠ _ => by destruct r end.
Qed.

Lemma read_pieces ms pushed fuel :
  Forall (λ x, printable x.1 ∧ x.2 ≡ₚ map_to_list (attributes x.1)) ms →
  (length (expected pushed ms) <= fuel)%nat →
  read_lines fuel (pieces pushed ms) = Some (expected pushed ms).
Proof.
  intros Hm. revert pushed fuel. induction Hm as [|[m l] ms [Hp Hl] Hm IH]; intros pushed fuel Hf;
    [by destruct fuel|]. cbn [fst snd] in *. cbn [pieces expected]. unfold piece, push_metric.
  assert (Hsample : ∀ pushed fuel, (S (length (expected pushed ms)) <= fuel)%nat →
    read_lines fuel (format_prometheus_metric (name m) (value_to_string (metric_value m)) (labels_option l)
                     +:+ pieces pushed ms) = Some (sample_line m l :: expected pushed ms)).
  { clear pushed fuel Hf. intros pushed fuel Hf. destruct fuel as [|fuel]; [lia|].
    rewrite (read_lines_cons _ _ _ _ (format_nonempty _ _ _ _) (read_metric _ _ _ Hp Hl)).
    rewrite IH by lia. done. }
  cbn [expected] in Hf. destruct (decide (name m ∈ pushed)) as [Hin|Hni].
  - rewrite bool_decide_true by done. cbn [negb]. rewrite app_assoc_str. apply Hsample. simpl in Hf. lia.
  - rewrite bool_decide_false by done. cbn [negb]. destruct Hp as [Hn Ht Hd _ _].
    destruct fuel as [|[|fuel]]; [simpl in Hf; lia..|].
    autorewrite with text.
    erewrite read_lines_cons; [|done|].
    2:{ rewrite ?app_assoc_str. apply read_help; done. }
    erewrite read_lines_cons; [|done|].
    2:{ rewrite ?app_assoc_str. apply read_type; done. }
    rewrite Hsample by (simpl in Hf; lia). done.
Qed.

Lemma pieces_length pushed ms : (length (expected pushed ms) <= String.length (pieces pushed ms))%nat.
Proof.
  revert pushed. induction ms as [|[m l] ms IH]; intros pushed; [done|]. cbn [pieces expected].
  unfold piece, push_metric, format_prometheus_metric.
  destruct (decide (name m ∈ pushed)) as [Hin|Hni].
  - rewrite bool_decide_true by done. specialize (IH pushed). rewrite !length_app_str. simpl. lia.
  - rewrite bool_decide_false by done. specialize (IH (name m :: pushed)).
    rewrite !length_app_str. simpl. rewrite !length_app_str. simpl. lia.
Qed.

(** C15: the text of the exporter reads back, line by line, as the metrics in the order in
    which they were taken: each one as a sample of its name, its value and its labels,
    whatever the order of the hash maps, and preceded by its description and its type
    exactly when it is the first of its name. *)
Theorem body_reads_back `{HashLaws} ms w body w' :
  Forall printable ms → send_all ms w = Done (body, w') →
  ∃ ls, Forall2 (λ m l, l ≡ₚ map_to_list (attributes m)) ms ls ∧
        read_body body = Some (expected [] (zip ms ls)).
Proof.
  intros Hm. unfold send_all. intros (st & w1 & Hs & [= <- _])%io_bind_inv.
  apply send_pieces in Hs as (ls & Hls & ->). exists ls. split; [done|]. simpl. unfold read_body.
  apply read_pieces; [|apply pieces_length]. clear w1 w w'.
  induction Hls as [|m l ms ls Hl Hls IH]; [constructor|]. inversion_clear Hm. constructor; auto.
Qed.

(** ** The server *)

(** [Mutex]: what it holds, and whether a thread panicked while it held the lock. *)
Record Mutex (A : Type) := mkMutex { contents : A; poisoned : bool }.
#[global] Arguments mkMutex {_} _ _.
#[global] Arguments contents {_} _.
#[global] Arguments poisoned {_} _.

Definition poison {A} (m : Mutex A) : Mutex A := mkMutex (contents m) true.

Section Server.
Context `{Profile, Layout, Os, !FileSystem, !Procfs, !PerfEvents, !Sysinfo, !Aya}.
Context `{!HashMaps, !ContainerRuntimes, Regex, Captures}.
Context (current_pid : Z) (crate_version : string).

Record PowerMetrics := {
  last_request : Mutex Duration;
  metric_generator : Mutex MetricGenerator;
}.

(** [run_server]: the state before the first request. *)
Definition initial (g : MetricGenerator) : PowerMetrics := {|
  last_request := mkMutex (mkDuration 0 0) false; metric_generator := mkMutex g false |}.

(** [PrometheusExporter::run]: the generator works on a clone of the topology. *)
Definition start_server (topo : Topology) (hostname : string) (qemu containers : bool) : io PowerMetrics :=
  topo ← Topology.clone topo;
  g ← Metrics.new topo hostname qemu containers;
  mret (initial g).

(** One turn of the loop of [PrometheusPushExporter::run]: the text that is posted.  What
    becomes of it is only logged. *)
Definition push_round (g : MetricGenerator) : io (MetricGenerator * string) :=
  t ← Topology.refresh (topology g);
  g ← gen_all_metrics current_pid crate_version (set_topology t g);
  '(g, metrics) ← lift (unwrap (pop_metrics g));
  body ← send_all (add_host <$> metrics);
  mret (g, body).

Definition push_uri (scheme host suffix job hostname : string) (port : Z) : string :=
  scheme +:+ "://" +:+ host +:+ ":" +:+ show_uint port +:+ "/" +:+ suffix +:+ "/job/" +:+ job
  +:+ "/instance/" +:+ hostname.

Definition clean_and_refresh (g : MetricGenerator) : io MetricGenerator :=
  t ← Topology.refresh (clean_terminated (topology g)); mret (set_topology t g).

(** What a request does while it holds both locks, given the time it read before. *)
Definition scrape (now : Duration) (last_request : Duration) (g : MetricGenerator)
    : io (MetricGenerator * string) :=
  elapsed ← lift (duration_sub now last_request);
  g ← if negb (duration_leb elapsed (mkDuration 2 0)) then clean_and_refresh g else mret g;
  g ← gen_all_metrics current_pid crate_version g;
  '(g, metrics) ← lift (unwrap (pop_metrics g));
  body ← send_all metrics;
  mret (g, body).

Definition welcome (suffix : string) : string :=
  "<a href=" +:+ String quote "https://github.com/hubblo-org/scaphandre/" +:+ String quote
  ">Scaphandre's</a> prometheus exporter here. Metrics available on <a href=" +:+ String quote "/" +:+ suffix
  +:+ String quote ">/" +:+ suffix +:+ "</a>".

(** [show_metrics], from the time it read: the state it leaves, and the body of its answer
    or none when it panics and the connection ends. *)
Inductive served (suffix path : string) (now : Duration) (c : PowerMetrics) (w : world)
    : PowerMetrics → world → option string → Prop :=
  | served_welcome :
      path ≠ ("/" +:+ suffix)%string → served suffix path now c w c w (Some (welcome suffix))
  | served_poisoned :
      path = ("/" +:+ suffix)%string → poisoned (last_request c) || poisoned (metric_generator c) = true →
      served suffix path now c w c w (Some ""%string)
  | served_metrics g body w' :
      path = ("/" +:+ suffix)%string → poisoned (last_request c) = false → poisoned (metric_generator c) = false →
      scrape now (contents (last_request c)) (contents (metric_generator c)) w = Done ((g, body), w') →
      served suffix path now c w
        {| last_request := mkMutex now false; metric_generator := mkMutex g false |} w' (Some body)
  | served_panic w' :
      path = ("/" +:+ suffix)%string → poisoned (last_request c) = false → poisoned (metric_generator c) = false →
      scrape now (contents (last_request c)) (contents (metric_generator c)) w = Panic →
      served suffix path now c w
        {| last_request := poison (last_request c); metric_generator := poison (metric_generator c) |} w' None.

(** The requests for the metrics that read the clock and wait for the locks. *)
Record Server := mkServer { context : PowerMetrics; waiting : list Duration; now : world }.

Inductive step (suffix : string) : Server → option string → Server → Prop :=
  | step_arrive s t w' :
      clock (now s) = (Some t, w') → step suffix s None (mkServer (context s) (waiting s ++ [t]) w')
  | step_serve s i t c w' answer :
      waiting s !! i = Some t → served suffix ("/" +:+ suffix) t (context s) (now s) c w' answer →
      step suffix s answer (mkServer c (delete i (waiting s)) w').

(** A run, and the answers it gives. *)
Inductive run (suffix : string) : Server → list string → Server → Prop :=
  | run_nil s : run suffix s [] s
  | run_step s answer s' answers s'' :
      step suffix s answer s' → run suffix s' answers s'' →
      run suffix s (match answer with Some a => a :: answers | None => answers end) s''.

Definition dead (c : PowerMetrics) : Prop := poisoned (last_request c) = true ∧ poisoned (metric_generator c) = true.

Lemma dead_answers suffix s answers s' :
  dead (context s) → run suffix s answers s' → dead (context s') ∧ Forall (λ a, a = ""%string) answers.
Proof.
  intros Hd Hr. induction Hr as [s|s answer s' answers s'' Hs Hr IH]; [done|].
  assert (dead (context s') ∧ answer ∈ [None; Some ""%string]) as [Hd' Ha].
  { destruct Hs as [s t w' _|s i t c w' answer _ Hv]; [by split; [|left]|].
    destruct Hd as [H1' H2']. destruct Hv; simpl; try congruence. split; [done|]. right. left. }
  destruct (IH Hd') as [? ?]. split; [done|].
  apply elem_of_cons in Ha as [-> | ->%list_elem_of_singleton]; [done|by constructor].
Qed.

Definition alive (c : PowerMetrics) : Prop :=
  poisoned (last_request c) = false ∧ poisoned (metric_generator c) = false.

(** C27: two requests can end the exporter.  When the one that read the clock last is
    answered first, the difference of times of the other underflows; its panic poisons both
    locks, and every later request for the metrics is answered with an empty text. *)
Theorem overtaken_request_ends_exporter suffix c0 w0 ti tj c1 w1 body c2 w2 w3 answer s answers s' :
  alive c0 → duration_leb tj ti = false →
  served suffix ("/" +:+ suffix) tj c0 w0 c1 w1 (Some body) →
  served suffix ("/" +:+ suffix) ti c1 w2 c2 w3 answer →
  context s = c2 → run suffix s answers s' →
  answer = None ∧ dead (context s') ∧ Forall (λ a, a = ""%string) answers.
Proof.
  intros [Hl Hg] Ht H1' H2' Hc Hr.
  assert (answer = None ∧ dead c2) as [-> Hd].
  { inversion H1' as [|_ Hp|g1 b1 w4 _ _ _ Hs1|]; subst; [done|by rewrite Hl, Hg in Hp|].
    inversion H2' as [|_ Hp|g2 b2 w5 _ _ _ Hs2|]; subst; [done|done| |by split].
    unfold scrape in Hs2. simpl in Hs2. apply io_bind_inv in Hs2 as (d & w6 & [Hd _]%lift_inv & _).
    unfold duration_sub in Hd. by rewrite Ht in Hd. }
  subst c2. destruct (dead_answers _ _ _ _ Hd Hr). done.
Qed.
End Server.

(** ** Examples *)

Import SampleHost.

Definition collected_metrics : list Metric := match collect with Done (g, _) => rev (data g) | Panic => [] end.

Definition printableb (m : Metric) : bool :=
  all_chars name_char (name m) && all_chars (differs newline) (metric_type m)
  && all_chars (differs newline) (description m) && all_chars (differs newline) (value_to_string (metric_value m))
  && forallb (λ x, all_chars (differs "="%char) x.1 && all_chars (differs newline) x.2) (map_to_list (attributes m)).

Lemma printableb_spec m : printableb m = true → printable m.
Proof.
  unfold printableb. rewrite !andb_true_iff. intros ((((Hn & Ht) & Hd) & Hv) & Hl). split; try done.
  intros k v Hkv. rewrite forallb_forall in Hl. apply elem_of_map_to_list, list_elem_of_In in Hkv.
  by apply Hl, andb_true_iff in Hkv.
Qed.

Lemma collected_printable : forallb printableb collected_metrics = true ∧ is_done (send_all collected_metrics start) = true.
Proof. split; vm_compute; reflexivity. Qed.

Lemma body_reads_back_witness :
  ∃ body w' ls, send_all collected_metrics start = Done (body, w') ∧
    read_body body = Some (expected [] (zip collected_metrics ls)).
Proof.
  destruct collected_printable as [Hp Hd]. destruct (is_done_inv _ Hd) as [[body w'] E].
  assert (Forall printable collected_metrics) as Hm.
  { apply Forall_forall. intros m Hin%list_elem_of_In. rewrite forallb_forall in Hp. by apply printableb_spec, Hp. }
  destruct (body_reads_back collected_metrics start body w' Hm E) as (ls & _ & Hr).
  exists body, w', ls. split; [exact E|exact Hr].
Defined.

Definition first_state : PowerMetrics := initial sample_generator.
Definition instant (t : Z) : Duration := mkDuration t 0.

Lemma sample_scraped :
  is_done (scrape 7 "1.0.0" (instant 9) (instant 0) sample_generator start) = true.
Proof. vm_compute. reflexivity. Qed.

(** The request of time 9 is answered before that of time 8; a third one gets nothing. *)
Lemma overtaken_request_ends_exporter_witness :
  ∃ c1 w1 body c2 s', served 7 "1.0.0" "metrics" "/metrics" (instant 9) first_state start c1 w1 (Some body) ∧
    served 7 "1.0.0" "metrics" "/metrics" (instant 8) c1 w1 c2 w1 None ∧
    run 7 "1.0.0" "metrics" (mkServer c2 [] w1) [""%string] s' ∧ dead (context s').
Proof.
  destruct (is_done_inv _ sample_scraped) as [[[g body] w1] E].
  set (c1 := {| last_request := mkMutex (instant 9) false; metric_generator := mkMutex g false |}).
  set (c2 := {| last_request := poison (last_request c1); metric_generator := poison (metric_generator c1) |}).
  assert (H1 : served 7 "1.0.0" "metrics" "/metrics" (instant 9) first_state start c1 w1 (Some body))
    by exact (served_metrics 7 "1.0.0" "metrics" "/metrics" (instant 9) first_state start g body w1
                eq_refl eq_refl eq_refl E).
  assert (H2 : served 7 "1.0.0" "metrics" "/metrics" (instant 8) c1 w1 c2 w1 None)
    by exact (served_panic 7 "1.0.0" "metrics" "/metrics" (instant 8) c1 w1 w1 eq_refl eq_refl eq_refl eq_refl).
  assert (H3 : run 7 "1.0.0" "metrics" (mkServer c2 [] w1) [""%string] (mkServer c2 [] (w1 + 1))).
  { apply (run_step 7 "1.0.0" "metrics" _ None (mkServer c2 [instant w1] (w1 + 1)) [""%string]).
    - exact (step_arrive 7 "1.0.0" "metrics" (mkServer c2 [] w1) (instant w1) (w1 + 1) eq_refl).
    - apply (run_step 7 "1.0.0" "metrics" _ (Some ""%string) (mkServer c2 [] (w1 + 1)) []); [|apply run_nil].
      apply (step_serve 7 "1.0.0" "metrics" (mkServer c2 [instant w1] (w1 + 1)) 0 (instant w1) c2 (w1 + 1)); [reflexivity|].
      apply served_poisoned; reflexivity. }
  exists c1, w1, body, c2, (mkServer c2 [] (w1 + 1)). split; [exact H1|]. split; [exact H2|]. split; [exact H3|].
  destruct (overtaken_request_ends_exporter 7 "1.0.0" "metrics" first_state start (instant 8) (instant 9) c1 w1 body
              c2 w1 w1 None (mkServer c2 [] w1) [""%string] (mkServer c2 [] (w1 + 1))
              (conj eq_refl eq_refl) eq_refl H1 H2 eq_refl H3) as (_ & Hd & _).
  exact Hd.
Defined.
