(* ===== verification/Riemann.v ===== *)
(** * The Riemann and Warp10 exporters ([exporters/riemann.rs], [exporters/warpten.rs])

    Each round cleans and refreshes the topology, collects the metrics and sends them.  The
    Riemann exporter turns the text of each value into a number first, and panics when it is
    none. *)

From S2P Require Import Prelude Floats Text TextOps FloatText Units Env Simulated Records Energy Common.
From S2P Require Import Domain Core Socket ProcTracker Bpf Topology Attribution Containers ExporterUtils Metrics.
From S2P Require Import Samples Clones.
From Stdlib Require Import Ascii SpecFloat.

(** The number of an event: integers are signed, and a text with a point is a float. *)
Definition event_metric (v : MetricValueType) : outcome EventMetric :=
  match v with
  | IntUnsigned value => if value <=? 2 ^ 63 - 1 then Done (MetricSint64 value) else Panic
  | Text value =>
      let value := replace_char newline "" (replace_char "," "." value) in
      if contains "." value then MetricD <$> unwrap (parse_f64 value)
      else MetricSint64 <$> unwrap (parse_int 64 value)
  end.

Section Riemann.
Context `{Profile, Layout, Os, !FileSystem, !Procfs, !PerfEvents, !Sysinfo, !Aya}.
Context `{!HashMaps, !ContainerRuntimes, Regex, Captures, !Hostname, !Riemann, !Warp10}.
Context (current_pid : Z) (crate_version : string).

Context (client : Client).

(** The attributes come in the order of the hash map; [as_secs() as i64] does not wrap
    before the clock does. *)
Definition send_metric (m : Metric) : io unit :=
  attributes ← iterate (attributes m);
  now ← current_system_time_since_epoch;
  metric ← lift (event_metric (metric_value m));
  r ← effect (send_event client {|
    ev_time := secs now; ev_ttl := ttl m; ev_host := hostname m; ev_service := name m; ev_state := state m;
    ev_tags := tags m; ev_attributes := attributes; ev_description := description m; ev_metric := metric |});
  lift (unwrap r).

Definition send_metrics (l : list Metric) : io unit := io_fold (λ _ m, send_metric m) tt l.

(** The metric of a process, named after its pid and its executable. *)
Definition process_metric (qemu : bool) (t : Topology) (pid : Z) : io (list Metric) :=
  let pt := proc_tracker t in
  exe ← lift (get_process_name pid pt);
  cmdline ← lift (ProcTracker.get_process_cmdline pid pt);
  let attributes := <["exe"%string := exe]> {["pid"%string := show_uint pid]} in
  attributes ←
    match cmdline with
    | Some cmdline_str =>
        vmname ← lift (if qemu then filter_qemu_cmdline cmdline_str else Done None);
        mret (insert_some "vmname" vmname
                (<["cmdline"%string := replace_char quote (String backslash (String quote "")) cmdline_str]> attributes))
    | None => mret attributes
    end;
  power ← lift (get_process_power_consumption_microwatts pid t);
  match power with
  | Some power =>
      host ← get_hostname;
      mret [gauge ("scaph_process_power_consumption_microwatts_" +:+ show_uint pid +:+ "_" +:+ exe)
              host (r_timestamp power) attributes
              "Power consumption due to the process, measured on at the topology level, in microwatts"
              (Text (r_value power))]
  | None => mret []
  end.

(** One turn of the loop of [RiemannExporter::run], and the metrics that it sends. *)
Definition riemann_round (args_qemu : bool) (g : MetricGenerator) : io (MetricGenerator * list Metric) :=
  t ← Topology.refresh (clean_terminated (topology g));
  g ← gen_self_metrics current_pid crate_version (set_topology t g);
  g ← gen_host_metrics g;
  g ← gen_socket_metrics g;
  data ← io_map (process_metric args_qemu (topology g)) (get_alive_pids (proc_tracker (topology g)));
  '(g, metrics) ← lift (unwrap (pop_metrics g));
  _ ← send_metrics metrics;
  _ ← send_metrics (mjoin data);
  mret (g, metrics ++ mjoin data).

(** [Warp10Exporter::iterate] and the points it posts; [None] for an error of the server,
    which is only logged. *)
Definition warp10_point (m : Metric) : io Point :=
  labels ← iterate (attributes m);
  mret (mkPoint (name m) labels (replace_char "`" "" (value_to_string (metric_value m)))).

Definition warp10_iterate (warp10 : Warp10Client) (write_token : string) (g : MetricGenerator)
    : io (MetricGenerator * (list Point * option (list string))) :=
  t ← Topology.refresh (clean_terminated (topology g));
  g ← gen_all_metrics current_pid crate_version (set_topology t g);
  '(g, metrics) ← lift (unwrap (pop_metrics g));
  process_data ← io_map warp10_point metrics;
  res ← effect (post warp10 write_token process_data);
  mret (g, (process_data, (λ r, [r]) <$> res)).

(** ** Properties *)

Lemma digits_keep c rep s :
  all_chars is_digit s = true → is_digit c = false → replace_char c rep s = s.
Proof.
  intros Hs Hc. apply replace_char_id. eapply all_chars_impl; [|exact Hs]. intros d Hd. unfold differs.
  rewrite bool_decide_false; [done|]. intros ->. congruence.
Qed.

Lemma digits_no_point s : all_chars is_digit s = true → contains "." s = false.
Proof.
  induction s as [|c s IH]; [reflexivity|]. simpl. intros [Hc Hs]%andb_true_iff.
  rewrite IH by done. unfold starts_with. cbn [strip_prefix]. destruct (ascii_dec "." c) as [<-|]; [by vm_compute in Hc|done].
Qed.

Lemma event_metric_show n :
  0 <= n → event_metric (Text (show_uint n)) = if n <=? 2 ^ 63 - 1 then Done (MetricSint64 n) else Panic.
Proof.
  intros Hn. unfold event_metric. pose proof (all_digits_show n Hn) as Hd.
  rewrite !(digits_keep _ _ (show_uint n)), digits_no_point by (exact Hd || reflexivity).
  rewrite parse_int_show by lia.
  change (64 - 1) with 63. by destruct (n <=? 2 ^ 63 - 1).
Qed.

Lemma event_metric_nan : event_metric (Text (show_f64 S754_nan)) = Panic.
Proof. reflexivity. Qed.

(** A count is sent as the same signed number whether it is stored as an integer or as
    its text, and stops the exporter from 2^63 on; and one value that is no number, as the
    coefficient and the power of the cores of a socket with a halted core are, stops it too:
    whatever is sent before, the round panics and the exporter ends. *)
Theorem riemann_values n l m k w :
  0 <= n →
  (∀ v, v ∈ [IntUnsigned n; Text (show_uint n)] →
        event_metric v = if n <=? 2 ^ 63 - 1 then Done (MetricSint64 n) else Panic) ∧
  (metric_value m = Text (show_f64 S754_nan) → send_metrics (l ++ m :: k) w = Panic).
Proof.
  intros Hn. split.
  - intros v. rewrite !elem_of_cons, elem_of_nil. intros [-> | [-> | []]]; [done|by apply event_metric_show].
  - intros Hm. unfold send_metrics. revert w. induction l as [|x l IH]; intros w; simpl.
    + apply io_bind_panic. intros [] w1 Hs. exfalso. revert Hs. unfold send_metric.
      intros (a & w2 & _ & Hr)%io_bind_inv. apply io_bind_inv in Hr as (now & w3 & _ & Hr).
      apply io_bind_inv in Hr as (e & w4 & [He _]%lift_inv & _). by rewrite Hm, event_metric_nan in He.
    + apply io_bind_panic. intros [] w1 _. apply IH.
Qed.
End Riemann.

(** ** Example *)

Import SampleHost.

#[local] Instance host_name_ : Hostname := λ t : Z, (Some "host"%string, t).
#[local] Instance host_riemann : Riemann := simulated_riemann counter_files.
Definition server : @Client host host_riemann := tt.

(** The coefficient of a core that was halted. *)
Definition halted_coefficient : Metric :=
  gauge "scaph_host_core_coefficient" "host" (mkDuration 4 0) ∅ "" (Text (show_f64 (F64.div F64.zero F64.zero))).

Definition version_metric : Metric :=
  gauge "scaph_self_version" "host" (mkDuration 4 0) ∅ "" (Text "1.00").

Lemma riemann_values_witness :
  event_metric (Text (show_uint 42)) = Done (MetricSint64 42) ∧
  send_metrics server (version_metric :: halted_coefficient :: []) start = Panic.
Proof.
  destruct (riemann_values server 42 [version_metric] halted_coefficient [] start ltac:(lia)) as [Hv Hp]. split.
  - refine (Hv _ _). right. left.
  - apply Hp. reflexivity.
Defined.
