(* ===== verification/Qemu.v ===== *)
(** * The qemu exporter ([exporters/qemu.rs])

    For each virtual machine the exporter keeps a counter file of the same form as those of
    powercap, and adds to it what the processor time of the machine's process is worth.
    Every 24th round the terminated processes are forgotten. *)

From S2P Require Import Prelude Floats Text TextOps FloatText Units Env Simulated Records Energy Common.
From S2P Require Import Domain Core Socket ProcTracker Bpf Topology Attribution ExporterUtils.
From S2P Require Import Containers Metrics Samples Clones.
From Stdlib Require Import Ascii.

Section Qemu.
Context `{Profile, Layout, Os, !FileSystem, !FileWrites}.

(** Creates the folder when it cannot be listed; panics when that fails. *)
Definition ensure_folder (path : string) : io unit :=
  entries ← effect (read_dir path);
  match entries with
  | Some _ => mret tt
  | None => r ← effect (create_dir_all path); lift (unwrap r)
  end.

(** [add_or_create]: a missing file is created with 0. *)
Definition add_or_create (path : string) (uj_value : Z) : io (option unit) :=
  _ ← ensure_folder path;
  let file_path := path +:+ "/energy_uj" in
  file ← read_file file_path;
  content ← match file with
            | Some file => content ← lift (unwrap (parse_uint 64 file)); lift (uadd 64 content uj_value)
            | None => mret 0
            end;
  effect (write_file file_path (show_uint content)).

(** What follows the first equal sign up to the next equal sign or comma. *)
Definition get_vm_name_from_cmdline (cmdline : list string) : outcome string :=
  match List.find (starts_with "guest=") cmdline with
  | Some elmt =>
      piece ← unwrap (split_on "="%char elmt !! 1%nat);
      unwrap (split_on ","%char piece !! 0%nat)
  | None => Done ""%string
  end.

Context `{!Procfs, !PerfEvents, !Sysinfo, !Aya}.

Definition filter_qemu_vm_processes (processes : list (list ProcessRecord)) : list (list ProcessRecord) :=
  List.filter (λ vecp, match head vecp with
                       | Some pr => existsb (contains "qemu-system") (cmdline (process pr))
                       | None => false
                       end) processes.

(** One machine, given the power of the host.  A failure to write is only logged. *)
Definition update_vm (path : string) (t : Topology) (topo_energy : Record_) (qp : list ProcessRecord) : io unit :=
  match qp with
  | last :: _ :: _ :: _ =>
      cmdline ← lift (unwrap (process_cmdline (proc_tracker t) (process last)));
      vm_name ← lift (get_vm_name_from_cmdline cmdline);
      _ ← ensure_folder (path +:+ "/" +:+ vm_name +:+ "/intel-rapl:0:0");
      match get_process_cpu_usage_percentage (pid (process last)) t with
      | Some ratio =>
          ratio ← lift (unwrap (parse_f64 (r_value ratio)));
          energy ← lift (unwrap (parse_f64 (r_value topo_energy)));
          let uj_to_add := F64.div (F64.mul ratio energy) (F64.of_Z 100) in
          _ ← add_or_create (path +:+ "/" +:+ vm_name +:+ "/intel-rapl:0") (to_uint 64 uj_to_add);
          mret tt
      | None => mret tt
      end
  | _ => mret tt
  end.

Definition iterate (path : string) (t : Topology) : io Topology :=
  t ← Topology.refresh t;
  topo_energy ← lift (get_records_diff_power_microwatts t);
  _ ← match topo_energy with
      | Some topo_energy =>
          io_fold (λ _ qp, update_vm path t topo_energy qp) tt
            (filter_qemu_vm_processes (get_alive_processes (proc_tracker t)))
      | None => mret tt
      end;
  mret t.

(** ** The loop *)

Definition cleaner_step : Duration := mkDuration 120 0.
Definition sleep_step : Duration := mkDuration 5 0.

(** The timer after a round, and whether the terminated processes are forgotten. *)
Definition tick (timer : Duration) : outcome (Duration * bool) :=
  rest ← duration_sub timer sleep_step;
  if negb (duration_leb rest (mkDuration 0 0)) then Done (rest, false) else Done (cleaner_step, true).

Definition clean_if (clean : bool) (t : Topology) : Topology := if clean then clean_terminated t else t.

(** One turn of the loop of [QemuExporter::run]. *)
Definition qemu_round (timer : Duration) (t : Topology) : io (Duration * Topology) :=
  t ← iterate "/var/lib/libvirt/scaphandre" t;
  '(timer, clean) ← lift (tick timer);
  mret (timer, clean_if clean t).

(** [n] turns of the timer: what it shows, and how often it asked for a cleaning. *)
Fixpoint ticks (n : nat) (timer : Duration) (cleanings : Z) : outcome (Duration * Z) :=
  match n with
  | O => Done (timer, cleanings)
  | S n => '(timer, clean) ← tick timer; ticks n timer (cleanings + Z.b2z clean)
  end.

Lemma tick_eq s :
  5 <= s → tick (mkDuration s 0) = Done (if 5 <? s then (mkDuration (s - 5) 0, false) else (cleaner_step, true)).
Proof.
  intros Hs. unfold tick, duration_sub, duration_leb, sleep_step. cbn [secs nanos].
  destruct (Z.ltb_spec 5 s) as [Hlt|Hge].
  - simpl. destruct (Z.ltb_spec (s - 5) 0); [lia|]. destruct (Z.eqb_spec (s - 5) 0); [lia|done].
  - assert (s = 5) as -> by lia. reflexivity.
Qed.

Lemma ticks_from n : ∀ k c, 0 <= k < 24 →
  ticks n (mkDuration (120 - 5 * k) 0) c
  = Done (mkDuration (120 - 5 * ((k + Z.of_nat n) mod 24)) 0, c + (k + Z.of_nat n) / 24).
Proof.
  induction n as [|n IH]; intros k c Hk.
  - simpl. rewrite Z.add_0_r, Z.mod_small, Z.div_small, Z.add_0_r by lia. done.
  - simpl ticks. rewrite tick_eq by lia. cbn [mbind outcome_bind].
    replace (k + Z.of_nat (S n)) with (k + 1 + Z.of_nat n) by lia. destruct (Z.ltb_spec 5 (120 - 5 * k)).
    + replace (120 - 5 * k - 5) with (120 - 5 * (k + 1)) by lia.
      change (Z.b2z false) with 0. by rewrite IH, Z.add_0_r by lia.
    + assert (k = 23) as -> by lia. change cleaner_step with (mkDuration (120 - 5 * 0) 0). rewrite IH by lia.
      change (Z.b2z true) with 1.
      replace (23 + 1 + Z.of_nat n) with (0 + Z.of_nat n + 1 * 24) by lia.
      rewrite Z.mod_add, Z.div_add by lia. do 2 f_equal. lia.
Qed.

(** ** Counters *)

(** A file system that keeps what is written, seen through the contents of its files. *)
Class FilesKept (contents : world → string → option string) := {
  kept_read p w : ∃ w', read_to_string p w = (contents w p, w') ∧ contents w' = contents w;
  kept_list p w r w' : read_dir p w = (r, w') → contents w' = contents w;
  kept_create p w r w' : create_dir_all p w = (r, w') → contents w' = contents w;
  kept_write p s w r w' : write_file p s w = (Some r, w') →
    ∀ q, contents w' q = if decide (q = p) then Some s else contents w q;
}.

Lemma ensure_folder_contents contents `{!FilesKept contents} path w x w' :
  ensure_folder path w = Done (x, w') → contents w' = contents w.
Proof.
  unfold ensure_folder. intros (r & w1 & Hr & Hm)%io_bind_inv. injection Hr as Hr. apply kept_list in Hr as <-.
  destruct r; [by injection Hm as _ <-|]. apply io_bind_inv in Hm as (c & w2 & Hc & [_ ->]%lift_inv).
  injection Hc as Hc. by apply kept_create in Hc.
Qed.

(** What the counter file of a machine holds. *)
Definition counter (contents : world → string → option string) (path : string) (w : world) : option string :=
  contents w (path +:+ "/energy_uj")%string.

Lemma add_or_create_step contents `{!FilesKept contents} path u w w' :
  add_or_create path u w = Done (Some tt, w') →
  ∃ n, counter contents path w' = Some (show_uint n) ∧
    match counter contents path w with
    | Some s => ∃ m, parse_uint 64 s = Some m ∧ uadd 64 m u = Done n
    | None => n = 0
    end.
Proof.
  unfold add_or_create, counter. intros ([] & w1 & He%(ensure_folder_contents contents) & Hr)%io_bind_inv.
  rewrite <- He. apply io_bind_inv in Hr as (file & w2 & Hf & Hr). unfold read_file in Hf.
  destruct (kept_read (path +:+ "/energy_uj")%string w1) as (w3 & Hk & Hc). rewrite Hk in Hf. injection Hf as <- <-.
  apply io_bind_inv in Hr as (n & w4 & Hn & Hw). injection Hw as Hw.
  exists n. split; [by rewrite (kept_write _ _ _ _ _ Hw), decide_True|].
  destruct (contents w1 _) as [s|]; [|by injection Hn as <- _].
  apply io_bind_inv in Hn as (m & w5 & [Hm _]%lift_inv & [Hu _]%lift_inv). exists m. split; [|done].
  unfold unwrap in Hm. destruct (parse_uint 64 s); [by injection Hm as <-|done].
Qed.

(** Successful additions to one counter, with anything that leaves it alone in between. *)
Inductive additions (contents : world → string → option string) (path : string) :
    world → list Z → world → Prop :=
  | additions_nil w : additions contents path w [] w
  | additions_cons w u w1 w2 us w' :
      add_or_create path u w = Done (Some tt, w1) → counter contents path w2 = counter contents path w1 →
      additions contents path w2 us w' → additions contents path w (u :: us) w'.

(** C37: the counter of a virtual machine starts at 0, whatever the first value, and then
    holds the sum of the values added since, as long as it fits 64 bits. *)
Theorem counter_accumulates contents `{!FilesKept contents} path w u us w' :
  counter contents path w = None → Forall (λ x, 0 <= x) us → list_sum us <= umax 64 →
  additions contents path w (u :: us) w' → counter contents path w' = Some (show_uint (list_sum us)).
Proof.
  intros Hw Hus Hmax Ha. inversion Ha as [|? ? w1 w2 ? ? Hu Hc Hr]; subst.
  apply (add_or_create_step contents) in Hu as (n & Hn & Hz). rewrite Hw in Hz. subst n. rewrite <- Hc in Hn.
  clear Ha Hc Hw w u w1. replace (list_sum us) with (0 + list_sum us) in Hmax |- * by lia.
  assert (Hp : 0 <= 0) by lia. revert Hn Hp Hmax. generalize 0 at 1 3 4 5 as n. revert w2 Hr.
  induction Hus as [|x us Hx Hus IH]; intros w2 Hr n Hn Hp Hmax.
  - inversion Hr; subst. by rewrite Z.add_0_r.
  - rewrite list_sum_cons in Hmax |- *. inversion Hr as [|? ? w1 w3 ? ? Hu Hc Hr']; subst.
    assert (0 <= list_sum us) by (clear -Hus; induction Hus; [done|rewrite list_sum_cons; lia]).
    apply (add_or_create_step contents) in Hu as (m & Hm & Hs). rewrite Hn in Hs. destruct Hs as (k & Hk & Hm').
    rewrite parse_show_uint in Hk by lia. injection Hk as <-. rewrite uadd_ok in Hm' by lia. injection Hm' as <-.
    rewrite <- Hc in Hm. replace (n + (x + list_sum us)) with (n + x + list_sum us) by lia.
    apply (IH w3); [done|done|lia|lia].
Qed.

(** The timer of the loop never underflows, and asks for a cleaning at every 24th turn,
    hence every two minutes: after [n] turns it has asked [n / 24] times. *)
Theorem cleaned_every_24_turns n :
  ticks n cleaner_step 0
  = Done (mkDuration (120 - 5 * (Z.of_nat n mod 24)) 0, Z.of_nat n / 24).
Proof. apply (ticks_from n 0 0). lia. Qed.
End Qemu.

(** ** Example: a file system that is the list of what was written *)

#[local] Instance checked_ : Profile := true.
#[local] Instance store : Os := {|
  world := list (string * string);
  clock := λ w, (None, w);
  read_to_string := λ p w, (snd <$> List.find (λ x, String.eqb x.1 p) w, w);
|}.
#[local] Instance store_fs : FileSystem :=
  Build_FileSystem store (λ _ (w : world), (Some [], w)) (λ _ (w : world), (true, w)) (λ _ _ _ (w : world), (None, w)).
#[local] Instance store_writes : FileWrites :=
  Build_FileWrites store (λ _ (w : world), (Some tt, w)) (λ p s (w : list (string * string)), (Some tt, (p, s) :: w)).

Definition stored (w : world) (p : string) : option string :=
  snd <$> List.find (λ x, String.eqb x.1 p) (w : list (string * string)).

#[local] Instance store_kept : FilesKept stored.
Proof.
  split.
  - intros p w. exists w. split; reflexivity.
  - intros p w r w' E. injection E as _ <-. reflexivity.
  - intros p w r w' E. injection E as _ <-. reflexivity.
  - intros p s w r w' E q. injection E as _ <-. unfold stored. simpl.
    destruct (String.eqb_spec p q) as [->|Hne]; [by rewrite decide_True|by rewrite decide_False by congruence].
Qed.

Definition no_file : world := ([] : list (string * string)).
Definition after (u : Z) (w : world) : world :=
  match add_or_create "/vm" u w with Done (_, w') => w' | Panic => w end.

Lemma counter_accumulates_witness :
  ∃ w', additions stored "/vm" no_file [7; 5; 6] w' ∧ counter stored "/vm" w' = Some "11"%string.
Proof.
  assert (Ha : additions stored "/vm" no_file [7; 5; 6] (after 6 (after 5 (after 7 no_file)))).
  { apply (additions_cons stored "/vm" no_file 7 (after 7 no_file) (after 7 no_file)); [vm_compute; reflexivity..|].
    apply (additions_cons stored "/vm" _ 5 (after 5 (after 7 no_file)) (after 5 (after 7 no_file))); [vm_compute; reflexivity..|].
    apply (additions_cons stored "/vm" _ 6 (after 6 (after 5 (after 7 no_file))) (after 6 (after 5 (after 7 no_file))));
      [vm_compute; reflexivity..|].
    apply additions_nil. }
  eexists. split; [exact Ha|].
  refine (counter_accumulates stored "/vm" no_file 7 [5; 6] _ eq_refl _ _ Ha).
  - repeat constructor; lia.
  - unfold umax. simpl. lia.
Defined.
