(* ===== verification/Json.v ===== *)
(** * The JSON exporter ([exporters/json.rs])

    Each round refreshes the topology, collects the metrics and builds a report from them by
    searching the vector of metrics, most often from its start, but twice with one iterator
    that is used again after a search.  The report is the value given to the serializer.  The
    loop ends at a time limit, when there is one. *)

From S2P Require Import Prelude Floats Text TextOps FloatText Units Env Simulated Loops Records Energy Common.
From S2P Require Import Domain Core Socket ProcTracker Bpf Topology Attribution Containers ExporterUtils Metrics.
From S2P Require Import Samples Series Search.
From Stdlib Require Import Ascii SpecFloat.

(** ** The report *)

Record DomainReport := {
  dr_name : string; dr_consumption : float; dr_timestamp : float; dr_background : option float;
}.

Record SocketReport := {
  sr_id : Z; sr_consumption : float; sr_domains : list DomainReport; sr_timestamp : float;
  sr_activation : option float; sr_background : option float;
}.

Record CoreTimes := { process_ns : list Z; total_ns : list Z; proportion : list float }.

Record ResourcesUsage := {
  cpu_usage : string; cpu_usage_unit : string; memory_usage : string; memory_usage_unit : string;
  memory_virtual_usage : string; memory_virtual_usage_unit : string; disk_usage_write : string;
  disk_usage_write_unit : string; disk_usage_read : string; disk_usage_read_unit : string;
}.

Record ContainerReport := {
  cr_name : string; cr_id : string; cr_runtime : string; cr_scheduler : string;
}.

Record Consumer := {
  exe : string; cs_cmdline : string; cs_pid : Z; resources_usage : option ResourcesUsage;
  cs_consumption : float; cs_timestamp : float; container : option ContainerReport;
  core_times : option CoreTimes;
}.

Record Disk := {
  disk_type : string; disk_mount_point : string; disk_is_removable : bool; disk_file_system : string;
  disk_total_bytes : string; disk_available_bytes : string; disk_name : string;
}.

Record HostReport := {
  h_consumption : float; h_timestamp : float; h_disks : option (list Disk);
  h_activation : option float; h_background : option float;
}.

Record CoreReport := {
  c_id : nat; c_consumption : float; c_timestamp : float; c_coefficient : float; c_proportion : float;
}.

Record Report := {
  rp_host : HostReport; rp_idle : option float; rp_activation : option float; rp_background : option float;
  rp_consumers : list Consumer; rp_sockets : list SocketReport; rp_cores : list CoreReport;
}.

(** [Duration::as_secs_f64]. *)
Definition as_secs_f64 (d : Duration) : float :=
  F64.add (F64.of_Z (secs d)) (F64.div (F64.of_Z (nanos d)) (F64.of_Z 1000000000)).

(** ** Disks *)

Definition text_or_empty (k : string) (m : Metric) : string := default ""%string (attributes m !! k).

Definition parse_bool (s : string) : option bool :=
  if String.eqb s "true" then Some true else if String.eqb s "false" then Some false else None.

Definition set_disk (m : Metric) (d : Disk) : Disk := {|
  disk_type := disk_type d; disk_mount_point := disk_mount_point d; disk_is_removable := disk_is_removable d;
  disk_file_system := disk_file_system d;
  disk_total_bytes :=
    if negb (named "scaph_host_disk_available_bytes" m) && named "scaph_host_disk_total_bytes" m then value m
    else disk_total_bytes d;
  disk_available_bytes := if named "scaph_host_disk_available_bytes" m then value m else disk_available_bytes d;
  disk_name := disk_name d |}.

Definition new_disk (n : string) (m : Metric) : outcome Disk :=
  removable ← match attributes m !! "disk_is_removable"%string with
              | Some s => unwrap (parse_bool s)
              | None => Done false
              end;
  Done {| disk_name := n;
          disk_available_bytes := if named "scaph_host_disk_available_bytes" m then value m else "";
          disk_file_system := text_or_empty "disk_file_system" m; disk_is_removable := removable;
          disk_mount_point := text_or_empty "disk_mount_point" m;
          disk_total_bytes := if named "scaph_host_disk_total_bytes" m then value m else "";
          disk_type := text_or_empty "disk_type" m |}.

(** [iter_mut().find(...)]: the first disk of the name is edited, or one is added. *)
Definition add_disk_report (res : list Disk) (m : Metric) : outcome (list Disk) :=
  n ← attribute "disk_name" m;
  match list_find (λ d, disk_name d = n) res with
  | Some (i, _) => Done (alter (set_disk m) i res)
  | None => d ← new_disk n m; Done (res ++ [d])
  end.

Definition gen_disks_report (metrics : list Metric) : outcome (list Disk) := foldM add_disk_report [] metrics.

(** ** Consumers *)

(** [split(',').filter_map(|s| s.parse().ok())]. *)
Definition parse_csv {A} (parse : string → option A) (m : Metric) : list A :=
  omap parse (split_on ","%char (value m)).

Definition gen_core_times (metrics : list Metric) (pid_str : string) : option CoreTimes :=
  let own n := List.find (λ x, named n x && bool_decide (attributes x !! "pid"%string = Some pid_str)) metrics in
  pn ← own "scaph_process_core_time_ns"%string;
  tn ← own "scaph_process_core_total_time_ns"%string;
  pr ← own "scaph_process_core_proportion"%string;
  Some {| process_ns := parse_csv (parse_uint 64) pn; total_ns := parse_csv (parse_uint 64) tn;
          proportion := parse_csv parse_f64 pr |}.

Definition container_report (m : Metric) : option ContainerReport :=
  id ← attributes m !! "container_id"%string;
  let known k := default "unknown"%string (attributes m !! k) in
  Some {| cr_id := id; cr_name := known "container_names"%string; cr_runtime := known "container_runtime"%string;
          cr_scheduler := known "container_scheduler"%string |}.

(** One consumer, when there is a power for it; [Process]'s pid is printed. *)
Definition consumer (watch_containers : bool) (metrics : list Metric) (pid : Z) : outcome (option Consumer) :=
  let pid_str := show_uint pid in
  m ← find (of_process (named "scaph_process_power_consumption_microwatts") pid_str) metrics;
  match m with
  | None => Done None
  | Some m =>
      exe ← attribute "exe" m;
      cmdline ← attribute "cmdline" m;
      pid ← unwrap (parse_int 32 pid_str);
      consumption ← f32_of m;
      Done (Some {| exe := exe; cs_cmdline := cmdline; cs_pid := pid; cs_consumption := consumption;
                    resources_usage := None; cs_timestamp := as_secs_f64 (measured_at m);
                    core_times := gen_core_times metrics pid_str;
                    container := if watch_containers then container_report m else None |})
  end.

(** The five searches of the resources share one iterator: each one starts where the one
    before ended. *)
Definition gen_resources (metrics : list Metric) (pid : Z) : outcome ResourcesUsage :=
  let own n m := b ← of_process (λ m, starts_with "scaph_process_" (name m)) (show_int pid) m;
                 Done (b && named n m) in
  let text (m : option Metric) := match m with Some m => value m | None => "0"%string end in
  '(cpu, rest) ← find_rest (own "scaph_process_cpu_usage_percentage"%string) metrics;
  '(mem, rest) ← find_rest (own "scaph_process_memory_bytes"%string) rest;
  '(virt, rest) ← find_rest (own "scaph_process_memory_virtual_bytes"%string) rest;
  '(write, rest) ← find_rest (own "scaph_process_disk_write_bytes"%string) rest;
  '(read, _) ← find_rest (own "scaph_process_disk_read_bytes"%string) rest;
  Done {| cpu_usage := text cpu; cpu_usage_unit := "%"; memory_usage := text mem; memory_usage_unit := "Bytes";
          memory_virtual_usage := text virt; memory_virtual_usage_unit := "Bytes";
          disk_usage_write := text write; disk_usage_write_unit := "Bytes";
          disk_usage_read := text read; disk_usage_read_unit := "Bytes" |}.

Definition set_resources (metrics : list Metric) (c : Consumer) : outcome Consumer :=
  res ← gen_resources metrics (cs_pid c);
  Done {| exe := exe c; cs_cmdline := cs_cmdline c; cs_pid := cs_pid c; resources_usage := Some res;
          cs_consumption := cs_consumption c; cs_timestamp := cs_timestamp c; container := container c;
          core_times := core_times c |}.

(** ** Sockets, host and cores *)

Section Json.
Context `{Profile, Layout, Os, !FileSystem, !Procfs, !PerfEvents, !Sysinfo, !Aya}.
Context `{!HashMaps, !ContainerRuntimes, Regex, Captures, !Instants}.
Context (current_pid : Z) (crate_version : string).

Definition domain_report (s : CPUSocket) (d : Metric) : outcome DomainReport :=
  domain_name ← attribute "domain_name" d;
  consumption ← f32_of d;
  Done {| dr_name := domain_name; dr_consumption := consumption; dr_timestamp := as_secs_f64 (measured_at d);
          dr_background := (λ rd, f32_of_f64 (background_power_uw rd))
            <$> List.find (λ rd, String.eqb (Domain.name rd) domain_name) (domains s) |}.

(** The report of a socket, from the metric of its power. *)
Definition socket_report (metrics : list Metric) (s : CPUSocket) (m : Metric) : outcome SocketReport :=
  socket_power ← f32_of m;
  own ← filter_ (of_socket "scaph_domain_power_microwatts" (Socket.id s)) metrics;
  ds ← traverse (domain_report s) own;
  idle_metric ← find (of_socket "scaph_socket_idle_power_microwatts" (Socket.id s)) metrics;
  idle ← match idle_metric with
         | Some i => consumption ← f32_of i;
             Done [{| dr_name := "idle"; dr_consumption := consumption;
                      dr_timestamp := as_secs_f64 (measured_at i); dr_background := None |}]
         | None => Done []
         end;
  activation ← find (of_socket "scaph_socket_activation_power_microwatts" (Socket.id s)) metrics;
  background ← find (of_socket "scaph_socket_background_power_microwatts" (Socket.id s)) metrics;
  Done {| sr_id := Socket.id s; sr_consumption := socket_power; sr_domains := ds ++ idle;
          sr_timestamp := as_secs_f64 (measured_at m); sr_activation := maybe_f32 activation;
          sr_background := maybe_f32 background |}.

(** [socket_metrics_res.iter().find(...)]: only the metric found first is looked at. *)
Definition maybe_socket (metrics : list Metric) (socket_metrics_res : option Metric) (s : CPUSocket)
    : outcome (option SocketReport) :=
  match socket_metrics_res with
  | None => Done None
  | Some m =>
      i ← socket_id_of m;
      if (Socket.id s =? i) : bool then Some <$> socket_report metrics s m else Done None
  end.

Definition host_power_of (metrics : list Metric) (n : string) : option float :=
  maybe_f32 (List.find (named n) metrics).

(** There is none when the power is not positive. *)
Definition host_report (metrics : list Metric) (disks : list Disk) : outcome (option HostReport) :=
  match List.find (named "scaph_host_power_microwatts") metrics with
  | None => Done None
  | Some m =>
      power ← f32_of m;
      Done (if fgtb power (F32.of_Z 0) : bool then
              Some {| h_consumption := power; h_timestamp := as_secs_f64 (measured_at m); h_disks := Some disks;
                      h_activation := host_power_of metrics "scaph_host_activation_power_microwatts";
                      h_background := host_power_of metrics "scaph_host_background_power_microwatts" |}
            else None)
  end.

(** The options; the regular expressions as what they match. *)
Record JsonArgs := {
  max_top_consumers : Z;
  process_regex : option (string → bool);
  container_regex : option (string → bool);
  monitor_resources : bool;
  args_containers : bool;
}.

Definition core_report (t : Topology) (timestamp : Duration) (id : nat) (v : string) : option CoreReport :=
  consumption ← parse_f64 v;
  Some {| c_id := id; c_consumption := consumption; c_timestamp := as_secs_f64 timestamp;
          c_coefficient := default F64.zero (get_core_coefs t !! id);
          c_proportion := default F64.zero (get_core_proportions t !! id) |}.

Definition core_reports (t : Topology) : io (list CoreReport) :=
  r ← Attribution.get_proportional_core_diff_power_microwatts t;
  mret (match r with
        | Some r => omap (λ x : nat * string, core_report t (m_timestamp r) x.1 x.2) (imap pair (m_values r))
        | None => []
        end).

Definition select_consumers (args : JsonArgs) (g : MetricGenerator) : io (list (IProcess * float)) :=
  match process_regex args, container_regex args with
  | Some regex_filter, _ => lift (get_filtered_processes regex_filter (proc_tracker (topology g)))
  | None, Some regex_filter => get_processes_filtered_by_container_name regex_filter g
  | None, None => get_top_consumers (max_top_consumers args) (proc_tracker (topology g))
  end.

(** The report of the metrics, if any. *)
Definition report_of (args : JsonArgs) (metrics : list Metric) (g : MetricGenerator) : io (option Report) :=
  '(socket_metrics_res, rest) ←
    lift (find_rest (λ m, Done (named "scaph_socket_power_microwatts" m)) metrics);
  disks ← lift (gen_disks_report (List.filter (λ m, starts_with "scaph_host_disk_" (name m)) rest));
  host ← lift (host_report metrics disks);
  consumers ← select_consumers args g;
  cs ← lift (traverse (λ x : IProcess * float, consumer (args_containers args) metrics (pid x.1)) consumers);
  let top_consumers := omap Datatypes.id cs in
  top_consumers ← lift (if monitor_resources args then traverse (set_resources metrics) top_consumers
                        else Done top_consumers);
  ss ← lift (traverse (maybe_socket metrics socket_metrics_res) (sockets (topology g)));
  match host with
  | Some host =>
      cores ← core_reports (topology g);
      mret (Some {| rp_host := host;
        rp_idle := host_power_of metrics "scaph_host_idle_power_microwatts";
        rp_activation := host_power_of metrics "scaph_host_activation_power_microwatts";
        rp_background := host_power_of metrics "scaph_host_background_power_microwatts";
        rp_consumers := top_consumers; rp_sockets := omap Datatypes.id ss; rp_cores := cores |})
  | None => mret None
  end.

(** [retrieve_metrics], but for the writing of the report. *)
Definition retrieve_metrics (args : JsonArgs) (g : MetricGenerator) : io (MetricGenerator * option Report) :=
  g ← gen_all_metrics current_pid crate_version g;
  '(g, metrics) ← lift (unwrap (pop_metrics g));
  report ← report_of args metrics g;
  mret (g, report).

Definition json_iterate (args : JsonArgs) (g : MetricGenerator) : io (MetricGenerator * option Report) :=
  t ← Topology.refresh (topology g);
  retrieve_metrics args (set_topology t g).

(** The options of time: the step with its nanoseconds, and [unsigned_abs] of the timeout. *)
Definition json_time_step (step step_nano : Z) : outcome Duration := duration_new step step_nano.
Definition json_time_limit (timeout : option Z) : option Duration := (λ t, mkDuration (Z.abs t) 0) <$> timeout.

(** With a limit, [None] when the fuel runs out; without one, the first rounds. *)
Definition json_run (args : JsonArgs) (time_step : Duration) (limit : option Duration) (fuel : nat)
    (g : MetricGenerator) : io (option (MetricGenerator * list (option Report))) :=
  match limit with
  | Some limit => timed_loop (json_iterate args) time_step fuel limit g
  | None => r ← first_rounds (json_iterate args) time_step fuel g; mret (Some r)
  end.
End Json.

(** ** The iterator of the resources *)

(** The metrics the searches look at. *)
Definition own_metrics (pid : Z) (metrics : list Metric) : list Metric :=
  List.filter (λ m, starts_with "scaph_process_" (name m)
                    && bool_decide (attributes m !! "pid"%string = Some (show_int pid))) metrics.

(** Every metric of a process has its pid. *)
Definition have_pid (metrics : list Metric) : Prop :=
  Forall (λ m, starts_with "scaph_process_" (name m) = true → is_Some (attributes m !! "pid"%string)) metrics.

(** A search in a list, and what follows what is found. *)
Fixpoint search (n : string) (l : list Metric) : option Metric * list Metric :=
  match l with
  | [] => (None, [])
  | m :: l => if named n m then (Some m, l) else search n l
  end.

Lemma of_process_own pid m :
  (starts_with "scaph_process_" (name m) = true → is_Some (attributes m !! "pid"%string)) →
  of_process (λ m, starts_with "scaph_process_" (name m)) (show_int pid) m
  = Done (starts_with "scaph_process_" (name m) && bool_decide (attributes m !! "pid"%string = Some (show_int pid))).
Proof.
  intros Hm. unfold of_process, attribute. destruct (starts_with _ _); [|done]. destruct Hm as [q ->]; [done|]. simpl.
  f_equal. destruct (String.eqb_spec q (show_int pid)) as [->|Hne]; [by rewrite bool_decide_true|].
  rewrite bool_decide_false; [done|]. by intros [= ->].
Qed.

Lemma find_rest_own pid n l :
  have_pid l →
  ∃ rest, find_rest (λ m, b ← of_process (λ m, starts_with "scaph_process_" (name m)) (show_int pid) m;
                          Done (b && named n m)) l = Done ((search n (own_metrics pid l)).1, rest) ∧
          own_metrics pid rest = (search n (own_metrics pid l)).2 ∧ have_pid rest.
Proof.
  unfold own_metrics. intros Hl. induction Hl as [|m l Hm Hl IH];
    [exists []; split_and!; [done|done|constructor]|]. cbn [find_rest List.filter].
  rewrite of_process_own by done. rewrite !bind_done.
  destruct (starts_with _ _ && bool_decide _); [|exact IH]. cbn [andb search].
  destruct (named n m); [by exists l|exact IH].
Qed.

(** The same searches on the metrics of the process alone. *)
Definition usage (own : list Metric) : ResourcesUsage :=
  let text (m : option Metric) := match m with Some m => value m | None => "0"%string end in
  let cpu := search "scaph_process_cpu_usage_percentage" own in
  let mem := search "scaph_process_memory_bytes" cpu.2 in
  let virt := search "scaph_process_memory_virtual_bytes" mem.2 in
  let write := search "scaph_process_disk_write_bytes" virt.2 in
  let read := search "scaph_process_disk_read_bytes" write.2 in
  {| cpu_usage := text cpu.1; cpu_usage_unit := "%"; memory_usage := text mem.1; memory_usage_unit := "Bytes";
     memory_virtual_usage := text virt.1; memory_virtual_usage_unit := "Bytes";
     disk_usage_write := text write.1; disk_usage_write_unit := "Bytes";
     disk_usage_read := text read.1; disk_usage_read_unit := "Bytes" |}.

Lemma gen_resources_own metrics pid : have_pid metrics → gen_resources metrics pid = Done (usage (own_metrics pid metrics)).
Proof.
  intros Hm. unfold gen_resources, usage. cbv zeta.
  destruct (find_rest_own pid "scaph_process_cpu_usage_percentage" _ Hm) as (r1 & -> & <- & H1'). rewrite bind_done.
  destruct (find_rest_own pid "scaph_process_memory_bytes" _ H1') as (r2 & -> & <- & H2'). rewrite bind_done.
  destruct (find_rest_own pid "scaph_process_memory_virtual_bytes" _ H2') as (r3 & -> & <- & H3'). rewrite bind_done.
  destruct (find_rest_own pid "scaph_process_disk_write_bytes" _ H3') as (r4 & -> & <- & H4'). rewrite bind_done.
  destruct (find_rest_own pid "scaph_process_disk_read_bytes" _ H4') as (r5 & -> & _ & _). by rewrite bind_done.
Qed.

Lemma search_found n k m r : name m = n → n ∉ (name <$> k) → search n (k ++ m :: r) = (Some m, r).
Proof.
  intros Hm. induction k as [|x k IH]; simpl.
  - intros _. by rewrite (proj2 (named_spec n m) Hm).
  - rewrite not_elem_of_cons. intros [Hx Hk]. destruct (named n x) eqn:E; [by apply named_spec in E as <-|auto].
Qed.

Lemma search_none n l : n ∉ (name <$> l) → search n l = (None, []).
Proof.
  induction l as [|x l IH]; simpl; [done|]. rewrite not_elem_of_cons. intros [Hx Hl].
  destruct (named n x) eqn:E; [by apply named_spec in E as <-|auto].
Qed.

(** The names the resources are searched by, in the order of the searches, and what the
    report says of each. *)
Definition searched : list string :=
  ["scaph_process_cpu_usage_percentage"; "scaph_process_memory_bytes"; "scaph_process_memory_virtual_bytes";
   "scaph_process_disk_write_bytes"; "scaph_process_disk_read_bytes"]%string.

Definition reported (u : ResourcesUsage) : list string :=
  [cpu_usage u; memory_usage u; memory_virtual_usage u; disk_usage_write u; disk_usage_read u].

(** What a process really uses: the value of its metric of that name. *)
Definition used (n : string) (own : list Metric) : option string := value <$> List.find (named n) own.

Fixpoint searches (ns : list string) (l : list Metric) : list (option Metric) :=
  match ns with
  | [] => []
  | n :: ns => (search n l).1 :: searches ns (search n l).2
  end.

Lemma reported_usage own : reported (usage own) = (λ m, default "0"%string (value <$> m)) <$> searches searched own.
Proof. unfold reported, usage. cbv zeta. cbn. by repeat destruct (search _ _).1. Qed.

(** A name is not there, or once. *)
Lemma search_distinct n l :
  NoDup (name <$> l) →
  ((n ∉ (name <$> l)) ∧ search n l = (None, [])) ∨
  (∃ k m r, l = k ++ m :: r ∧ name m = n ∧ (n ∉ (name <$> k)) ∧ NoDup (name <$> r) ∧ search n l = (Some m, r)).
Proof.
  intros Hl. destruct (decide (n ∈ (name <$> l))) as [Hin|Hin]; [right|left; split; [done|by apply search_none]].
  apply list_elem_of_fmap in Hin as (m & -> & Hin). apply list_elem_of_split in Hin as (k & r & ->).
  rewrite fmap_app, NoDup_app, fmap_cons, NoDup_cons in Hl. destruct Hl as (_ & Hk & _ & Hr).
  assert (Hn : name m ∉ (name <$> k)) by (intros Hin; apply (Hk _ Hin); left).
  exists k, m, r. split_and!; try done. by apply search_found.
Qed.

Lemma find_skip n k r : n ∉ (name <$> k) → List.find (named n) (k ++ r) = List.find (named n) r.
Proof.
  induction k as [|x k IH]; simpl; [done|]. rewrite not_elem_of_cons. intros [Hx Hk].
  destruct (named n x) eqn:E; [by apply named_spec in E as <-|auto].
Qed.

Lemma sublist_skip (ns k : list string) n r :
  n ∉ k → (n :: ns) `sublist_of` (k ++ n :: r) ↔ ns `sublist_of` r.
Proof.
  intros Hk. split.
  - induction k as [|x k IH]; simpl; intros Hs.
    + inversion Hs; subst; [done|]. etrans; [|done]. by apply sublist_cons.
    + rewrite not_elem_of_cons in Hk. destruct Hk as [Hx Hk]. inversion Hs; subst; [done|auto].
  - intros Hs. apply sublist_inserts_l. by constructor.
Qed.

Lemma searches_nil ns j n : ns !! j = Some n → searches ns [] !! j = Some None.
Proof. revert j. induction ns as [|x ns IH]; intros [|j]; simpl; try done. apply IH. Qed.

(** A search finds its name exactly when the names up to it come in their order. *)
Lemma searches_find ns l j n :
  NoDup (name <$> l) → ns !! j = Some n →
  ((take (S j) ns) `sublist_of` (name <$> l) →
   ∃ m, List.find (named n) l = Some m ∧ searches ns l !! j = Some (Some m)) ∧
  (¬ ((take (S j) ns) `sublist_of` (name <$> l)) → searches ns l !! j = Some None).
Proof.
  revert l j. induction ns as [|x ns IH]; intros l j Hl Hj; [done|].
  change (take (S j) (x :: ns)) with (x :: take j ns). cbn [searches].
  destruct (search_distinct x l Hl) as [[Hx ->]|(k & m & r & -> & Hm & Hk & Hr & ->)]; cbn [fst snd].
  - split.
    + intros Hs. destruct Hx. eapply elem_of_submseteq; [|by apply sublist_submseteq]. left.
    + intros _. destruct j as [|j]; [done|]. by eapply searches_nil.
  - rewrite fmap_app, fmap_cons, Hm, sublist_skip by done. destruct j as [|j].
    + injection Hj as <-. split; [|intros Hs; destruct Hs; apply sublist_nil_l].
      intros _. exists m. rewrite find_skip by done. simpl. by rewrite (proj2 (named_spec x m) Hm).
    + destruct (IH r j Hr Hj) as [H1' H2']. split; [|exact H2']. intros Hs.
      destruct (H1' Hs) as (m' & Hf & Hm'). exists m'. split; [|exact Hm'].
      assert (Hin : n ∈ (name <$> r)).
      { apply find_some in Hf as [Hi Hn%named_spec]. apply list_elem_of_fmap. exists m'.
        split; [done|by apply list_elem_of_In]. }
      rewrite cons_middle, app_assoc in Hl |- *. rewrite find_skip; [done|].
      rewrite fmap_app, NoDup_app in Hl. destruct Hl as (_ & Hd & _). intros Hi. by apply (Hd n Hi).
Qed.

(** C36: one iterator serves the five searches of the resources of a process, so each one
    goes on where the former stopped.  When a process has at most one metric of each name,
    the report of a resource is its metric exactly when the metrics of the names up to it,
    in the order of the searches, come in that order; otherwise the report says 0, whatever
    the process used.  The order is that of a hash map. *)
Theorem resources_depend_on_order metrics pid :
  have_pid metrics → NoDup (name <$> own_metrics pid metrics) →
  ∃ u, gen_resources metrics pid = Done u ∧
    ∀ j n, searched !! j = Some n →
      ((take (S j) searched) `sublist_of` (name <$> own_metrics pid metrics) →
       reported u !! j = used n (own_metrics pid metrics)) ∧
      (¬ ((take (S j) searched) `sublist_of` (name <$> own_metrics pid metrics)) →
       reported u !! j = Some "0"%string).
Proof.
  intros Hm Hn. exists (usage (own_metrics pid metrics)). split; [by apply gen_resources_own|].
  intros j n Hj. rewrite reported_usage, list_lookup_fmap. unfold used.
  destruct (searches_find searched (own_metrics pid metrics) j n Hn Hj) as [H1' H2']. split.
  - intros Hs. by destruct (H1' Hs) as (m & -> & ->).
  - intros Hs. by rewrite H2'.
Qed.

(** ** Sockets of a report *)

Section Sockets.
Context `{Profile, Layout, Os, !FileSystem, !Procfs, !PerfEvents, !Sysinfo, !Aya}.
Context `{!HashMaps, !ContainerRuntimes, Regex, Captures}.

Lemma maybe_socket_id metrics o s r :
  maybe_socket metrics o s = Done (Some r) → sr_id r = Socket.id s ∧ (m ← o; Some (socket_id_of m)) = Some (Done (sr_id r)).
Proof.
  unfold maybe_socket. destruct o as [m|]; [|done]. intros (i & Hi & Hr)%bind_Done_inv.
  destruct (Z.eqb_spec (Socket.id s) i) as [<-|]; [|done].
  destruct (socket_report metrics s m) as [r'|] eqn:E; [|done]. injection Hr as <-.
  assert (sr_id r' = Socket.id s) as Hid.
  { unfold socket_report in E. do 7 (apply bind_Done_inv in E as (? & _ & E)). by injection E as <-. }
  split; [done|]. simpl. by rewrite Hid, Hi.
Qed.

Lemma maybe_sockets_at_most_one metrics o l ss :
  NoDup (Socket.id <$> l) → traverse (maybe_socket metrics o) l = Done ss → (length (omap Datatypes.id ss) <= 1)%nat.
Proof.
  intros Hn Ht. apply traverse_Forall2 in Ht.
  assert (Hin : ∀ r, r ∈ omap Datatypes.id ss → sr_id r ∈ (Socket.id <$> l) ∧
                (m ← o; Some (socket_id_of m)) = Some (Done (sr_id r))).
  { intros r Hr. apply list_elem_of_omap in Hr as ([r'|] & Hr & [= ->]).
    apply list_elem_of_lookup in Hr as [i Hi]. destruct (Forall2_lookup_r _ _ _ _ _ Ht Hi) as (s & Hs & Hm).
    apply maybe_socket_id in Hm as [Hid Ho]. split; [|done]. rewrite Hid. apply list_elem_of_fmap.
    exists s. split; [done|by eapply list_elem_of_lookup_2]. }
  assert (NoDup (sr_id <$> omap Datatypes.id ss)) as Hnd.
  { clear Hin. induction Ht as [|s [r|] l ss Hs Ht IH]; [constructor| |].
    - rewrite fmap_cons in Hn. apply NoDup_cons in Hn as [Hs' Hn]. simpl. constructor; [|by apply IH].
      intros Hr. apply Hs'. apply maybe_socket_id in Hs as [Hid _]. rewrite <- Hid.
      clear -Ht Hr. induction Ht as [|s' [r'|] l ss Hs Ht IH]; simpl in *; [by apply elem_of_nil in Hr| |].
      + apply elem_of_cons in Hr as [-> | Hr]; [|right; auto]. apply maybe_socket_id in Hs as [-> _]. left.
      + right. auto.
    - rewrite fmap_cons in Hn. apply NoDup_cons in Hn as [_ Hn]. by apply IH. }
  destruct (omap Datatypes.id ss) as [|a [|b rest]]; [simpl; lia..|]. exfalso.
  destruct (Hin a) as [_ Ha]; [left|]. destruct (Hin b) as [_ Hb]; [right; left|].
  rewrite Ha in Hb. injection Hb as Hb. rewrite !fmap_cons, Hb in Hnd. apply NoDup_cons in Hnd as [Hnd _]. apply Hnd. left.
Qed.

(** A report has at most one socket, whatever the number of sockets of the host and of
    their metrics: the metric found first decides, and it is of one socket. *)
Theorem one_socket_reported current_pid crate_version args g w g' r w' :
  wf_structure (topology g) →
  retrieve_metrics current_pid crate_version args g w = Done ((g', Some r), w') →
  (length (rp_sockets r) <= 1)%nat.
Proof.
  intros [Hn _]. unfold retrieve_metrics. intros (g1 & w1 & Hg%gen_all_topology & Hr)%io_bind_inv.
  apply io_bind_inv in Hr as ([g2 metrics] & w2 & [Hp _]%lift_inv & Hr).
  rewrite pop_metrics_eq in Hp. injection Hp as <- <-. apply io_bind_inv in Hr as (rep & w9 & Hr & [= _ -> _]).
  unfold report_of in Hr. apply io_bind_inv in Hr as ([o rest] & w3 & _ & Hr). do 4 (apply io_bind_inv in Hr as (? & ? & _ & Hr)).
  cbv zeta in Hr. apply io_bind_inv in Hr as (tops & w5 & _ & Hr).
  apply io_bind_inv in Hr as (ss & w6 & [Hs _]%lift_inv & Hr).
  cbn [topology set_data] in Hs. rewrite Hg in Hs.
  apply maybe_sockets_at_most_one in Hs; [|done].
  destruct (_ : option HostReport); [|done]. apply io_bind_inv in Hr as (cores & w7 & _ & [= <- _]). exact Hs.
Qed.
End Sockets.

(** ** Examples *)

Import SampleHost.

(** A process of 10% and 5 bytes, its metrics in two orders. *)
Definition process_sample (n v : string) : Metric :=
  gauge n "host" (mkDuration 4 0) {["pid"%string := "42"%string]} "" (Text v).

Definition five : list Metric :=
  [process_sample "scaph_process_cpu_usage_percentage" "10"; process_sample "scaph_process_memory_bytes" "5";
   process_sample "scaph_process_memory_virtual_bytes" "6"; process_sample "scaph_process_disk_write_bytes" "7";
   process_sample "scaph_process_disk_read_bytes" "8"].

(** The virtual memory before the memory, and the reads before the writes. *)
Definition swapped : list Metric :=
  [process_sample "scaph_process_cpu_usage_percentage" "10"; process_sample "scaph_process_memory_virtual_bytes" "6";
   process_sample "scaph_process_memory_bytes" "5"; process_sample "scaph_process_disk_read_bytes" "8";
   process_sample "scaph_process_disk_write_bytes" "7"].

Lemma samples_own : own_metrics 42 five = five ∧ own_metrics 42 swapped = swapped.
Proof. split; reflexivity. Qed.

Lemma swapped_lost : ¬ ((take 3 searched) `sublist_of` (name <$> swapped)).
Proof.
  intros Hs. cbn in Hs.
  repeat match goal with Hs : sublist _ _ |- _ => inversion Hs; subst; clear Hs; try discriminate end.
Qed.

(** All that is used is reported, or the process seems to use no virtual memory. *)
Lemma resources_depend_on_order_witness :
  (∃ u, gen_resources five 42 = Done u ∧ memory_virtual_usage u = "6"%string ∧ disk_usage_read u = "8"%string) ∧
  (∃ u, gen_resources swapped 42 = Done u ∧ memory_usage u = "5"%string ∧ memory_virtual_usage u = "0"%string).
Proof.
  destruct samples_own as [E1 E2]. split.
  - destruct (resources_depend_on_order five 42) as (u & Hu & Hr).
    + repeat constructor; intros; eexists; reflexivity.
    + rewrite E1. apply (bool_decide_unpack _). vm_compute. exact I.
    + rewrite E1 in Hr. exists u. split; [exact Hu|].
      assert (Hs : searched `sublist_of` (name <$> five)) by (vm_compute; repeat constructor).
      destruct (Hr 2%nat _ eq_refl) as [Hv _], (Hr 4%nat _ eq_refl) as [Hd _].
      assert (Hs3 : (take 3 searched) `sublist_of` (name <$> five)) by (vm_compute; repeat constructor).
      specialize (Hv Hs3). specialize (Hd Hs). injection Hv as Hv. injection Hd as Hd. split; [exact Hv|exact Hd].
  - destruct (resources_depend_on_order swapped 42) as (u & Hu & Hr).
    + repeat constructor; intros; eexists; reflexivity.
    + rewrite E2. apply (bool_decide_unpack _). vm_compute. exact I.
    + rewrite E2 in Hr. exists u. split; [exact Hu|].
      destruct (Hr 1%nat _ eq_refl) as [Hv _], (Hr 2%nat _ eq_refl) as [_ Hd].
      assert (Hs2 : (take 2 searched) `sublist_of` (name <$> swapped)) by (vm_compute; repeat constructor).
      specialize (Hv Hs2). specialize (Hd swapped_lost). injection Hv as Hv. injection Hd as Hd. split; [exact Hv|exact Hd].
Defined.

Definition sample_args : JsonArgs := {|
  max_top_consumers := 10; process_regex := None; container_regex := None; monitor_resources := true;
  args_containers := true |}.

Lemma sample_report :
  match retrieve_metrics 7 "1.0.0" sample_args sample_generator start with
  | Done ((_, Some r), _) => (length (rp_sockets r) =? 1)%nat && (0 <? length (rp_consumers r))%nat
  | _ => false
  end = true.
Proof. vm_compute. reflexivity. Qed.

Lemma one_socket_reported_witness :
  ∃ g' r w', retrieve_metrics 7 "1.0.0" sample_args sample_generator start = Done ((g', Some r), w') ∧
    (length (rp_sockets r) <= 1)%nat.
Proof.
  pose proof sample_report as Hs.
  destruct (retrieve_metrics 7 "1.0.0" sample_args sample_generator start) as [[[g' [r|]] w']|] eqn:E; [|done|done].
  exists g', r, w'. split; [reflexivity|].
  exact (one_socket_reported 7 "1.0.0" sample_args sample_generator start g' r w' (lab_structure _ sample_labelled) E).
Defined.
