(* ===== verification/Stdout.v ===== *)
(** * The standard output exporter ([exporters/stdout.rs])

    Each round forgets the terminated processes, refreshes the topology, collects the
    metrics and prints them, either all of them or a summary: the host, a row for each
    socket with a cell for each domain, and the processes that consume the most.  What is
    printed is the list of the texts given to [println!]. *)

From S2P Require Import Prelude Floats Text TextOps FloatText Units Env Simulated Loops Records Energy Common.
From S2P Require Import Domain Core Socket ProcTracker Bpf Topology Attribution Containers ExporterUtils Metrics.
From S2P Require Import Samples Clones Series Search.
From Stdlib Require Import Ascii SpecFloat.

#[local] Arguments String.append : simpl nomatch.

Definition tab : string := String "009" "".
Definition end_of_line : string := String newline "".

(** The options. *)
Record ExporterArgs := {
  timeout : Z;
  step : Z;
  processes : Z;
  regex_filter : option string;
  args_containers : bool;
  args_qemu : bool;
  raw_metrics : bool;
}.

(** [format!("{host_power}").parse::<f64>().unwrap() / 1000000.0] and its power source. *)
Definition host_line (metrics : list Metric) : outcome string :=
  let m := List.find (named "scaph_host_power_microwatts") metrics in
  let host_power_source := default ""%string (m ≫= λ m, attributes m !! "value_source"%string) in
  let host_power := match m with Some m => value m | None => "0"%string end in
  power ← unwrap (parse_f64 host_power);
  Done ("Host:" +:+ tab +:+ show_f64 (F64.div power (F64.of_Z 1000000)) +:+ " W from " +:+ host_power_source).

(** Microwatts to watts, in single precision. *)
Definition watts (m : Metric) : outcome float := p ← f32_of m; Done (F32.div p (F32.of_Z 1000000)).

(** The metrics of the power of a domain of a socket, by its name. *)
Definition domain_of (socket_id d : string) (m : Metric) : outcome bool :=
  if named "scaph_domain_power_microwatts" m then
    i ← attribute "socket_id" m;
    Done (String.eqb i socket_id && bool_decide (attributes m !! "domain_name"%string = Some d))
  else Done false.

Definition domain_cell (metrics : list Metric) (socket_id d : string) : outcome string :=
  m ← find (domain_of socket_id d) metrics;
  match m with
  | Some m => p ← watts m; Done (show_f32 p +:+ " W" +:+ tab)
  | None => Done "---"%string
  end.

Definition socket_row (domain_names : option (list string)) (metrics : list Metric) (s : Metric)
    : outcome string :=
  power ← watts s;
  let power_str := if fgtb power (F32.of_Z 0) : bool then show_f32 power else "----"%string in
  socket_id ← attribute "socket_id" s;
  let to_print := "Socket" +:+ socket_id +:+ tab +:+ power_str +:+ " W |" +:+ tab in
  match domain_names with
  | Some names =>
      cells ← traverse (domain_cell metrics socket_id) names;
      Done (to_print +:+ String.concat "" cells +:+ end_of_line)
  | None => Done (to_print +:+ " Could'nt get per-domain metrics." +:+ end_of_line)
  end.

Section Stdout.
Context `{Profile, Layout, Os, !FileSystem, !Procfs, !PerfEvents, !Sysinfo, !Aya}.
Context `{!HashMaps, !ContainerRuntimes, Regex, Captures, !Instants}.
Context (current_pid : Z) (crate_version : string).

(** [Debug] of a string, which depends on the Unicode tables, and [serde_json::to_string] of
    a map. *)
Context (debug_str : string → string) (to_json : list (string * string) → string).

Definition process_line (metrics : list Metric) (c : IProcess * float) : outcome (option string) :=
  process ← find (of_process (named "scaph_process_power_consumption_microwatts") (show_uint (pid c.1))) metrics;
  match process with
  | Some process =>
      p ← watts process;
      pid ← attribute "pid" process;
      exe ← attribute "exe" process;
      Done (Some (show_f32 p +:+ " W" +:+ tab +:+ pid +:+ tab +:+ debug_str exe))
  | None => Done None
  end.

(** The summary of a vector of metrics, given the title of the consumers and the consumers. *)
Definition summary (domain_names : option (list string)) (metrics : list Metric) (title : string)
    (consumers : list (IProcess * float)) : outcome (list string) :=
  host ← host_line metrics;
  rows ← traverse (socket_row domain_names metrics)
           (List.filter (named "scaph_socket_power_microwatts") metrics);
  lines ← traverse (process_line metrics) consumers;
  Done ([host]
    ++ match domain_names with Some names => [tab +:+ "package " +:+ tab +:+ join (tab +:+ tab) names] | None => [] end
    ++ rows ++ [title; "Power" +:+ tab +:+ tab +:+ "PID" +:+ tab +:+ "Exe"]
    ++ (if decide (consumers = []) then ["No processes found yet or filter returns no value."%string]
        else omap Datatypes.id lines)
    ++ ["------------------------------------------------------------" +:+ end_of_line]).

Definition select_consumers (args : ExporterArgs) (pt : ProcessTracker)
    : io (string * list (IProcess * float)) :=
  match regex_filter args with
  | Some regex =>
      consumers ← lift (get_filtered_processes (is_match regex) pt);
      mret ("Processes filtered by '" +:+ regex +:+ "':", consumers)%string
  | None =>
      let n := processes args in
      consumers ← get_top_consumers n pt;
      mret ("Top " +:+ show_uint n +:+ " consumers:", consumers)%string
  end.

Definition summarized_view (args : ExporterArgs) (metrics : list Metric) (g : MetricGenerator) : io (list string) :=
  '(title, consumers) ← select_consumers args (proc_tracker (topology g));
  lift (summary (domains_names (topology g)) metrics title consumers).

Definition raw_line (m : Metric) : io string :=
  entries ← iterate (attributes m);
  mret (name m +:+ " = " +:+ value m +:+ " " +:+ to_json entries +:+ " # " +:+ description m).

Definition raw_metrics_view (metrics : list Metric) : io (list string) :=
  now ← current_system_time_since_epoch;
  lines ← io_map raw_line metrics;
  mret (("## At " +:+ show_uint (secs now)) :: lines).

Definition show_metrics (args : ExporterArgs) (g : MetricGenerator) : io (MetricGenerator * list string) :=
  g ← gen_all_metrics current_pid crate_version g;
  '(g, metrics) ← lift (unwrap (pop_metrics g));
  lines ← if raw_metrics args then raw_metrics_view metrics else summarized_view args metrics g;
  mret (g, lines).

Definition iterate_ (args : ExporterArgs) (g : MetricGenerator) : io (MetricGenerator * list string) :=
  t ← Topology.refresh (clean_terminated (topology g));
  show_metrics args (set_topology t g).

(** A negative timeout runs for ever. *)
Definition time_limit (args : ExporterArgs) : option Duration :=
  if timeout args <? 0 then None else Some (mkDuration (timeout args) 0).

(** With a limit, [None] when the fuel runs out; without one, the first rounds. *)
Definition run (args : ExporterArgs) (fuel : nat) (g : MetricGenerator)
    : io (option (MetricGenerator * list (list string))) :=
  let time_step := mkDuration (step args) 0 in
  match time_limit args with
  | Some limit => timed_loop (iterate_ args) time_step fuel limit g
  | None => r ← first_rounds (iterate_ args) time_step fuel g; mret (Some r)
  end.
End Stdout.

(** ** Properties *)

(** A name that is in one group only. *)
Lemma not_in_group names l m n : distinct names l → n ∉ names → m ∈ l → name m ≠ n.
Proof. intros [_ Hn] Hx Hm <-. rewrite Forall_forall in Hn. by apply Hx, Hn. Qed.

Ltac elsewhere Hd Hm Hn := exfalso; revert Hn; apply (not_in_group _ _ _ _ Hd); [by_names|exact Hm].

Section Properties.
Context `{Profile, Layout, Os, !FileSystem, !Procfs, !PerfEvents, !Sysinfo, !Aya}.
Context `{!HashMaps, !ContainerRuntimes, Regex, Captures, !Instants, !HashLaws}.
Context (current_pid : Z) (crate_version : string).
Context (debug_str : string → string) (to_json : list (string * string) → string).

(** The power of a domain as a metric. *)
Definition domain_power_metric (h : string) (s : CPUSocket) (d : Domain) (r : Record_) : Metric :=
  gauge "scaph_domain_power_microwatts" h (r_timestamp r) (domain_attributes s d)
    "Power measurement relative to a RAPL Domain, in microwatts" (Text (r_value r)).

Lemma power_recorded d r :
  Domain.get_records_diff_power_microwatts d = Some r →
  is_Some (last (Domain.get_records_passive d)) ∧ ∃ p, 0 <= p <= umax 64 ∧ r_value r = show_uint p.
Proof.
  unfold Domain.get_records_diff_power_microwatts, Domain.get_records_passive.
  destruct (last_two (Domain.record_buffer d)) as [[r0 r1]|] eqn:E; [|done].
  apply last_two_Some in E as [k ->]. cbn [mbind option_bind].
  destruct (parse_uint 64 (trim (r_value r1))); [|done]. destruct (parse_uint 64 (trim (r_value r0))); [|done].
  intros [= <-]. split; [rewrite fmap_app, last_app; by eexists|].
  eexists. split; [|reflexivity]. apply net_power_range, to_uint_range. lia.
Qed.

Lemma domain_metrics_power h s d w l w' m :
  domain_metrics h s d w = Done (l, w') → name m = "scaph_domain_power_microwatts"%string →
  (m ∈ l ↔ ∃ r, Domain.get_records_diff_power_microwatts d = Some r ∧ m = domain_power_metric h s d r).
Proof.
  unfold domain_metrics. destruct (last (Domain.get_records_passive d)) as [record|] eqn:El.
  - intros (mmio & w1 & _ & [= <- _])%io_bind_inv Hn. rewrite elem_of_cons, elem_of_app. split.
    + intros [-> | [Hm | Hm]]; [done| |].
      * destruct (Domain.get_records_diff_power_microwatts d) as [r|]; [|by apply elem_of_nil in Hm].
        apply list_elem_of_singleton in Hm as ->. by exists r.
      * destruct mmio; [|by apply elem_of_nil in Hm]. by apply list_elem_of_singleton in Hm as ->.
    + intros (r & Hr & ->). right. left. rewrite Hr. by apply list_elem_of_singleton.
  - intros [= <- _] Hn. rewrite elem_of_nil. split; [done|]. intros (r & Hr & _).
    apply power_recorded in Hr as [[x Hx] _]. congruence.
Qed.

Lemma socket_metrics_power h s w l w' m :
  socket_metrics h s w = Done (l, w') → name m = "scaph_domain_power_microwatts"%string →
  (m ∈ l ↔ ∃ d r, d ∈ domains s ∧ Domain.get_records_diff_power_microwatts d = Some r ∧
                  m = domain_power_metric h s d r).
Proof.
  intros Hl Hn. unfold socket_metrics in Hl. apply io_bind_inv in Hl as (powers & w1 & Hp & Hl).
  apply io_bind_inv in Hl as (mmio & w2 & _ & Hl). apply io_bind_inv in Hl as (ds & w3 & Hds & [= <- _]).
  assert (m ∉ powers) as Hnp.
  { destruct (last _); [|injection Hp as <- _; apply not_elem_of_nil].
    unfold socket_power_metrics in Hp. do 3 (apply io_bind_inv in Hp as (? & ? & _ & Hp)). injection Hp as <- _.
    rewrite elem_of_cons, !elem_of_app.
    intros [-> | [Hm | [Hm | [Hm | Hm]]]]; [done|..]; (destruct (_ : option Record_) in Hm;
      [by apply list_elem_of_singleton in Hm as ->|by apply elem_of_nil in Hm]). }
  assert (m ∉ metric_of mmio (λ r, counter "scaph_socket_rapl_mmio_energy_microjoules" h (r_timestamp r)
    {["socket_id"%string := show_uint (Socket.id s)]}
    ("Energy counter from RAPL mmio interface for Package-0 of CPU socket " +:+ show_uint (Socket.id s))
    (Text (r_value r)))) as Hnm.
  { destruct mmio; [by intros ->%list_elem_of_singleton|apply not_elem_of_nil]. }
  eapply (io_map_Forall2 _ (λ d l, m ∈ l ↔ ∃ r, Domain.get_records_diff_power_microwatts d = Some r ∧
            m = domain_power_metric h s d r)) in Hds;
    [|intros d w4 k w5 _ Hk; by eapply domain_metrics_power].
  rewrite !elem_of_app, list_elem_of_join. split.
  - intros [? | [? | (k & Hm & Hk)]]; [done..|]. apply list_elem_of_lookup in Hk as [i Hi].
    destruct (Forall2_lookup_r _ _ _ _ _ Hds Hi) as (d & Hd & Hi'). apply Hi' in Hm as (r & Hr & ->).
    exists d, r. split; [by eapply list_elem_of_lookup_2|done].
  - intros (d & r & Hd & Hr & ->). right. right. apply list_elem_of_lookup in Hd as [i Hi].
    destruct (Forall2_lookup_l _ _ _ _ _ Hds Hi) as (k & Hk & Hi'). exists k.
    split; [apply Hi'; eauto|by eapply list_elem_of_lookup_2].
Qed.

(** A metric with a name of one group is in it. *)
Lemma in_sockets g l l1 l2 ls l4 lp m :
  parts g l l1 l2 ls l4 lp → m ∈ l →
  name m = "scaph_domain_power_microwatts"%string ∨ name m = "scaph_socket_power_microwatts"%string →
  ∃ s k w w', s ∈ sockets (topology g) ∧ socket_metrics (host_name g) s w = Done (k, w') ∧ m ∈ k.
Proof.
  intros [-> H1' H2' _ H4' H5' _ Hs _] Hm Hn. rewrite !elem_of_app in Hm.
  destruct Hm as [Hm | [Hm | [Hm | [Hm | Hm]]]]; destruct Hn as [Hn | Hn];
    try (first [elsewhere H1' Hm Hn|elsewhere H2' Hm Hn|elsewhere H4' Hm Hn|elsewhere H5' Hm Hn]).
  all: apply list_elem_of_join in Hm as (k & Hm & Hk); apply list_elem_of_lookup in Hk as [i Hi];
    destruct (Forall2_lookup_r _ _ _ _ _ Hs Hi) as (s & Hi' & w & w' & Hk);
    exists s, k, w, w'; split_and!; [by eapply list_elem_of_lookup_2|done..].
Qed.

Lemma collected_domain_power g l l1 l2 ls l4 lp m :
  parts g l l1 l2 ls l4 lp → name m = "scaph_domain_power_microwatts"%string →
  (m ∈ l ↔ ∃ s d r, s ∈ sockets (topology g) ∧ d ∈ domains s ∧
                    Domain.get_records_diff_power_microwatts d = Some r ∧
                    m = domain_power_metric (host_name g) s d r).
Proof.
  intros Hp Hn. split.
  - intros Hm. destruct (in_sockets _ _ _ _ _ _ _ m Hp Hm) as (s & k & w & w' & Hs & Hk & Hmk); [by left|].
    apply (socket_metrics_power _ _ _ _ _ m Hk Hn) in Hmk as (d & r & Hd & Hr & ->). by exists s, d, r.
  - intros (s & d & r & Hs & Hd & Hr & ->). destruct Hp as [-> _ _ _ _ _ _ Hp _].
    apply list_elem_of_lookup in Hs as [i Hi]. destruct (Forall2_lookup_l _ _ _ _ _ Hp Hi) as (k & Hk & w & w' & Hm).
    rewrite !elem_of_app. right. right. left. apply list_elem_of_join. exists k.
    split; [|by eapply list_elem_of_lookup_2]. by apply (socket_metrics_power _ _ _ _ _ _ Hm Hn); eauto.
Qed.

(** The attributes of the metric of a domain's power tell it from the others. *)
Definition is_domain (i d : string) (m : Metric) : bool :=
  named "scaph_domain_power_microwatts" m && String.eqb (default ""%string (attributes m !! "socket_id"%string)) i
  && bool_decide (attributes m !! "domain_name"%string = Some d).

Lemma is_domain_power h s d r i n :
  is_domain i n (domain_power_metric h s d r) = true ↔ show_uint (Socket.id s) = i ∧ Domain.name d = n.
Proof.
  unfold is_domain, domain_power_metric. change (named _ _) with true.
  change (attributes _ !! "socket_id"%string) with (Some (show_uint (Socket.id s))).
  change (attributes _ !! "domain_name"%string) with (Some (Domain.name d)).
  simpl. rewrite andb_true_iff, String.eqb_eq, bool_decide_eq_true.
  split; [by intros [-> [= ->]]|by intros [-> ->]].
Qed.

Lemma find_domain g l l1 l2 ls l4 lp metrics i n :
  parts g l l1 l2 ls l4 lp → (∀ m, m ∈ metrics ↔ m ∈ l) →
  find (domain_of i n) metrics = Done (List.find (is_domain i n) metrics).
Proof.
  intros Hp Hl. apply find_total. intros m Hm%Hl. unfold domain_of, is_domain.
  destruct (named _ m) eqn:E; [|done]. apply named_spec in E.
  apply (collected_domain_power _ _ _ _ _ _ _ m Hp E) in Hm as (s & d & r & _ & _ & _ & ->). reflexivity.
Qed.

Lemma watts_shown m p : 0 <= p → metric_value m = Text (show_uint p) →
  watts m = Done (F32.div (F32.of_Z p) (F32.of_Z 1000000)).
Proof.
  intros Hp Hm. unfold watts, f32_of, value, parse_f32. rewrite Hm. cbn [value_to_string].
  by rewrite parse_float_show_uint.
Qed.

(** What a cell shows of a power. *)
Definition shown_power (r : option Record_) : string :=
  match r with
  | Some r => show_f32 (F32.div (F32.of_Z (value_or_0 (r_value r))) (F32.of_Z 1000000)) +:+ " W" +:+ tab
  | None => "---"
  end.

(** C22: in the summary, the cell of a socket and of the name of one of its domains shows the
    power of this very domain. *)
Theorem cell_shows_domain g w g' w' s d :
  labelled (topology g) → data g = [] → gen_all_metrics current_pid crate_version g w = Done (g', w') →
  s ∈ sockets (topology g) → d ∈ domains s →
  domain_cell (rev (data g')) (show_uint (Socket.id s)) (Domain.name d)
  = Done (shown_power (Domain.get_records_diff_power_microwatts d)).
Proof.
  intros Ht Hg Ha Hs Hd. pose proof (gen_all_parts _ _ _ _ _ _ Ht Ha) as (l & l1 & l2 & ls & l4 & lp & Hl & Hp).
  rewrite Hg in Hl. simpl in Hl. rewrite Hl. clear Ha Hl.
  pose proof (elem_of_rev l) as Hin.
  unfold domain_cell. rewrite (find_domain _ _ _ _ _ _ _ _ _ _ Hp Hin), bind_done.
  destruct Ht as [[Hi _] Hpos _ Hnames _ _]. rewrite Forall_forall in Hpos, Hnames.
  assert (Hu : ∀ m, m ∈ rev l → is_domain (show_uint (Socket.id s)) (Domain.name d) m = true →
    ∃ r, Domain.get_records_diff_power_microwatts d = Some r ∧ m = domain_power_metric (host_name g) s d r).
  { intros m Hm%Hin Hq. assert (name m = "scaph_domain_power_microwatts"%string) as Hn.
    { unfold is_domain in Hq. apply andb_true_iff in Hq as [[Hq _]%andb_true_iff _]. by apply named_spec. }
    apply (collected_domain_power _ _ _ _ _ _ _ m Hp Hn) in Hm as (s' & d' & r & Hs' & Hd' & Hr & ->).
    apply is_domain_power in Hq as [Hs'' Hd'']. apply show_uint_inj in Hs''; [|by apply Hpos..].
    assert (s' = s) as -> by (by apply (NoDup_key Socket.id (sockets (topology g)))).
    assert (d' = d) as -> by (by apply (NoDup_key Domain.name (domains s)); [apply Hnames|..]).
    by exists r. }
  destruct (Domain.get_records_diff_power_microwatts d) as [r|] eqn:Er.
  - rewrite (find_only _ _ (domain_power_metric (host_name g) s d r)).
    + apply power_recorded in Er as (_ & p & Hp0 & Ep). rewrite (watts_shown _ p) by (lia || by rewrite <- Ep).
      rewrite bind_done. unfold shown_power, value_or_0. by rewrite Ep, parse_show_uint.
    + apply Hin. eapply (collected_domain_power _ _ _ _ _ _ _ _ Hp); [done|]. by exists s, d, r.
    + by apply is_domain_power.
    + intros m Hm Hq. destruct (Hu m Hm Hq) as (r' & [= <-] & ->). done.
  - rewrite find_nothing; [done|]. intros m Hm. destruct (is_domain _ _ m) eqn:Hq; [|done].
    by destruct (Hu m Hm Hq) as (r' & ? & _).
Qed.

(** *** The summary of a collection never panics *)

(** What each search relies on. *)
Definition readable (m : Metric) : Prop :=
  is_Some (parse_f64 (value m)) ∧ is_Some (parse_f32 (value m)).

Lemma readable_uint m p : 0 <= p → metric_value m = Text (show_uint p) → readable m.
Proof.
  intros Hp Hm. unfold readable, value, parse_f64, parse_f32. rewrite Hm. cbn [value_to_string].
  rewrite !parse_float_show_uint by done. split; by eexists.
Qed.

Lemma readable_float m x : metric_value m = Text (show_f64 x) → readable m.
Proof. intros Hm. unfold readable, value. rewrite Hm. split; apply parse_show_float. Qed.

Lemma net_power_nonneg uj t1 t0 b : 0 <= net_power uj t1 t0 b.
Proof. unfold net_power, sat_sub. lia. Qed.

Lemma host_power_text t r :
  Attribution.get_records_diff_power_microwatts t = Done (Some r) → ∃ n, 0 <= n ∧ r_value r = show_uint n.
Proof.
  unfold Attribution.get_records_diff_power_microwatts. destruct (last_two _) as [[r0 r1]|]; [|done].
  intros (b & _ & Hp)%bind_Done_inv. destruct (parse_uint 128 _); [|done].
  destruct (parse_uint 128 _); [|done]. destruct (_ <? _); [done|]. injection Hp as <-.
  eexists. split; [apply net_power_nonneg|reflexivity].
Qed.

Lemma host_power_readable h t record w l w' m :
  host_power_metrics h t record w = Done (l, w') → m ∈ l → name m = "scaph_host_power_microwatts"%string → readable m.
Proof.
  unfold host_power_metrics. intros (power & w1 & [Hpow _]%lift_inv & Hr)%io_bind_inv Hm Hn.
  do 3 (apply io_bind_inv in Hr as (? & ? & _ & Hr)). apply io_bind_inv in Hr as (cores & w2 & _ & Hr).
  apply io_bind_inv in Hr as (now & w3 & _ & [= <- _]). rewrite elem_of_cons, !elem_of_app in Hm.
  destruct Hm as [-> | [Hm | Hm]]; [done| |].
  - destruct power as [r|]; [|by apply elem_of_nil in Hm]. apply list_elem_of_singleton in Hm as ->.
    apply host_power_text in Hpow as (n & Hn0 & Er). eapply readable_uint; [exact Hn0|].
    simpl. by rewrite Er.
  - exfalso. destruct Hm as [Hm | [Hm | [Hm | [Hm | [Hm | Hm]]]]];
      try (destruct (_ : option Record_) in Hm; [by apply list_elem_of_singleton in Hm as ->|by apply elem_of_nil in Hm]).
    + destruct cores; [|by apply elem_of_nil in Hm]. by apply elem_of_lookup_imap_1 in Hm as (i & v & -> & _).
    + by apply elem_of_lookup_imap_1 in Hm as (i & v & -> & _).
    + by apply elem_of_lookup_imap_1 in Hm as (i & v & -> & _).
Qed.

Lemma collected_host_power g l l1 l2 ls l4 lp m :
  parts g l l1 l2 ls l4 lp → m ∈ l → name m = "scaph_host_power_microwatts"%string → readable m.
Proof.
  intros [-> H1' _ H3' H4' H5' (powers & rest & -> & Hrest & Hpow) _ _] Hm Hn. rewrite !elem_of_app in Hm.
  destruct Hm as [Hm | [[Hm | Hm] | [Hm | [Hm | Hm]]]];
    [elsewhere H1' Hm Hn| |elsewhere Hrest Hm Hn|elsewhere H3' Hm Hn|elsewhere H4' Hm Hn|elsewhere H5' Hm Hn].
  destruct Hpow as [-> | (record & w & w' & Hpow)]; [by apply elem_of_nil in Hm|]. by eapply host_power_readable.
Qed.

Lemma socket_power_readable h s w l w' m :
  socket_metrics h s w = Done (l, w') → m ∈ l → name m = "scaph_socket_power_microwatts"%string →
  readable m ∧ is_Some (attributes m !! "socket_id"%string).
Proof.
  unfold socket_metrics. intros (powers & w1 & Hp & Hl)%io_bind_inv Hm Hn.
  apply io_bind_inv in Hl as (mmio & w2 & _ & Hl). apply io_bind_inv in Hl as (ds & w3 & Hds & [= <- _]).
  rewrite !elem_of_app in Hm. destruct Hm as [Hm | [Hm | Hm]].
  - destruct (last _); [|injection Hp as <- _; by apply elem_of_nil in Hm].
    unfold socket_power_metrics in Hp. do 3 (apply io_bind_inv in Hp as (? & ? & _ & Hp)). injection Hp as <- _.
    rewrite elem_of_cons, !elem_of_app in Hm. destruct Hm as [-> | [Hm | [Hm | [Hm | Hm]]]]; [done| |..];
      try (destruct (_ : option Record_) in Hm; [by apply list_elem_of_singleton in Hm as ->|by apply elem_of_nil in Hm]).
    destruct (Socket.get_records_diff_power_microwatts s) as [rec|] eqn:Er; [|by apply elem_of_nil in Hm].
    apply list_elem_of_singleton in Hm as ->. split; [|by eexists].
    unfold Socket.get_records_diff_power_microwatts in Er. destruct (last_two _) as [[r0 r1]|]; [|done].
    cbn [mbind option_bind] in Er. destruct (parse_uint 64 _); [|done]. destruct (parse_uint 64 _); [|done].
    injection Er as <-. by eapply readable_uint; [apply net_power_nonneg|].
  - destruct mmio; [by apply list_elem_of_singleton in Hm as ->|by apply elem_of_nil in Hm].
  - exfalso. apply list_elem_of_join in Hm as (k & Hm & Hk).
    eapply (io_map_Forall2 _ (λ d l, distinct domain_metric_names l)) in Hds;
      [|intros d w4 j w5 _ Hj; by apply domain_metrics_distinct in Hj as [? _]].
    apply list_elem_of_lookup in Hk as [i Hi]. destruct (Forall2_lookup_r _ _ _ _ _ Hds Hi) as (d & _ & Hd).
    revert Hn. apply (not_in_group _ _ _ _ Hd); [by_names|done].
Qed.

Lemma process_power_readable g p w l w' m :
  process_metrics g p w = Done (l, w') → m ∈ l → name m = "scaph_process_power_consumption_microwatts"%string →
  readable m ∧ is_Some (attributes m !! "pid"%string) ∧ is_Some (attributes m !! "exe"%string).
Proof.
  unfold process_metrics. intros (a & w1 & [Ha He]%process_attributes_own & Hr)%io_bind_inv Hm Hn.
  apply io_bind_inv in Hr as (metrics & w2 & [Hx _]%lift_inv & Hr).
  destruct metrics as [metrics|]; [|injection Hr as <- _; by apply elem_of_nil in Hm].
  apply io_bind_inv in Hr as (entries & w3 & Hi%iterate_inv & [= <- _]).
  apply list_elem_of_fmap in Hm as ([k [desc rec]] & -> & Hk). simpl in Hn. subst k.
  split; [|split; [by exists (show_uint p)|exact He]]. rewrite Hi in Hk. apply elem_of_map_to_list in Hk.
  enough (∃ x, r_value rec = show_f64 x) as [x Ex] by (by eapply (readable_float _ x); simpl; rewrite Ex).
  clear -Hx Hk. unfold get_all_per_process in Hx. destruct (get_process_last_record p _) as [record|];
    [|injection Hx as <-; by rewrite lookup_empty in Hk].
  apply bind_Done_inv in Hx as (ebpf & _ & Hx). apply bind_Done_inv in Hx as (shares & _ & Hx). cbv zeta in Hx.
  destruct shares.
  - apply bind_Done_inv in Hx as (result & _ & Hx).
    destruct ebpf as [[[ns total] proportions]|]; injection Hx as <-;
      rewrite ?lookup_insert_ne, lookup_insert_eq in Hk by done; injection Hk as _ <-; by eexists.
  - injection Hx as <-. destruct (get_process_cpu_time_delta_as_percentage _ _);
      [rewrite !lookup_insert_ne in Hk by done|]; by rewrite lookup_empty in Hk.
Qed.

Lemma collected_process_power g l l1 l2 ls l4 lp m :
  parts g l l1 l2 ls l4 lp → m ∈ l → name m = "scaph_process_power_consumption_microwatts"%string →
  readable m ∧ is_Some (attributes m !! "pid"%string) ∧ is_Some (attributes m !! "exe"%string).
Proof.
  intros [-> H1' H2' H3' H4' _ _ _ Hp] Hm Hn. rewrite !elem_of_app in Hm.
  destruct Hm as [Hm | [Hm | [Hm | [Hm | Hm]]]];
    [elsewhere H1' Hm Hn|elsewhere H2' Hm Hn|elsewhere H3' Hm Hn|elsewhere H4' Hm Hn|].
  apply list_elem_of_join in Hm as (k & Hm & Hk). apply list_elem_of_lookup in Hk as [i Hi].
  destruct (Forall2_lookup_r _ _ _ _ _ Hp Hi) as (p & _ & g1 & w & w' & _ & Hk). by eapply process_power_readable.
Qed.

Lemma watts_readable m : readable m → ∃ x, watts m = Done x.
Proof. intros [_ [x Hx]]. unfold watts, f32_of. rewrite Hx. by eexists. Qed.

Section Collection.
Context g l l1 l2 ls l4 lp (Hp : parts g l l1 l2 ls l4 lp) (metrics : list Metric)
  (Hl : ∀ m, m ∈ metrics → m ∈ l) (Hl' : ∀ m, m ∈ l → m ∈ metrics).

Lemma host_line_total : ∃ s, host_line metrics = Done s.
Proof.
  unfold host_line. destruct (List.find _ metrics) as [m|] eqn:E; [|by eexists].
  apply find_member in E as [Hm Hn%named_spec]. destruct (collected_host_power _ _ _ _ _ _ _ m Hp) as [[x ->] _]; [auto..|].
  by eexists.
Qed.

Lemma domain_cell_total i n : ∃ s, domain_cell metrics i n = Done s.
Proof.
  unfold domain_cell. rewrite (find_domain _ _ _ _ _ _ _ _ _ _ Hp) by (split; auto). rewrite bind_done.
  destruct (List.find _ metrics) as [m|] eqn:E; [|by eexists]. apply find_member in E as [Hm Hn].
  unfold is_domain in Hn. apply andb_true_iff in Hn as [[Hn%named_spec _]%andb_true_iff _].
  apply (collected_domain_power _ _ _ _ _ _ _ m Hp Hn) in Hl as (s & d & r & _ & _ & Hr & ->); [|done].
  apply power_recorded in Hr as (_ & p & Hp0 & Ep).
  rewrite (watts_shown _ p) by (lia || by rewrite <- Ep). by eexists.
Qed.

Lemma socket_row_total names m :
  m ∈ metrics → name m = "scaph_socket_power_microwatts"%string → ∃ s, socket_row names metrics m = Done s.
Proof.
  intros Hm Hn. destruct (in_sockets _ _ _ _ _ _ _ m Hp) as (s & k & w & w' & _ & Hk & Hmk); [auto..|].
  destruct (socket_power_readable _ _ _ _ _ m Hk Hmk Hn) as [[x Hx]%watts_readable [i Hi]].
  unfold socket_row. rewrite Hx, bind_done. unfold attribute. rewrite Hi. simpl. destruct names as [names|]; [|by eexists].
  destruct (traverse_done (domain_cell metrics i) names) as [cells ->]; [|by eexists].
  intros n _. apply domain_cell_total.
Qed.

Lemma process_line_total c : ∃ s, process_line debug_str metrics c = Done s.
Proof.
  unfold process_line.
  rewrite (find_total _ (λ m, named "scaph_process_power_consumption_microwatts" m
                              && String.eqb (default ""%string (attributes m !! "pid"%string)) (show_uint (pid c.1)))).
  - rewrite bind_done. destruct (List.find _ metrics) as [m|] eqn:E; [|by eexists].
    apply find_member in E as [Hm [Hn%named_spec _]%andb_true_iff].
    destruct (collected_process_power _ _ _ _ _ _ _ m Hp) as ([x ->]%watts_readable & [q Hq] & [e He]); [auto..|].
    unfold attribute. rewrite Hq, He. by eexists.
  - intros m Hm. unfold of_process, attribute. destruct (named _ m) eqn:E; [|done]. apply named_spec in E.
    by destruct (collected_process_power _ _ _ _ _ _ _ m Hp) as (_ & [q ->] & _); [auto..|].
Qed.

Lemma summary_total names title consumers : ∃ lines, summary debug_str names metrics title consumers = Done lines.
Proof.
  unfold summary. destruct host_line_total as [h ->]. rewrite bind_done.
  destruct (traverse_done (socket_row names metrics) (List.filter (named "scaph_socket_power_microwatts") metrics))
    as [rows ->].
  { intros m [Hm Hn%named_spec]%list_elem_of_In%filter_In. apply socket_row_total; [by apply list_elem_of_In|done]. }
  destruct (traverse_done (process_line debug_str metrics) consumers) as [lines ->]; [|by eexists].
  intros c _. apply process_line_total.
Qed.
End Collection.

(** C19: showing the summary never panics: when the metrics could be collected and the
    consumers selected, every search finds metrics with the attributes it unwraps, and every
    value it parses is a number. *)
Theorem summary_never_panics args g w g1 w1 title cs w2 :
  labelled (topology g) → data g = [] → raw_metrics args = false →
  gen_all_metrics current_pid crate_version g w = Done (g1, w1) →
  select_consumers args (proc_tracker (topology g)) w1 = Done ((title, cs), w2) →
  ∃ lines, show_metrics current_pid crate_version debug_str to_json args g w = Done ((set_data [] g1, lines), w2).
Proof.
  intros Ht Hg Hraw Ha Hc. pose proof (gen_all_parts _ _ _ _ _ _ Ht Ha) as (l & l1 & l2 & ls & l4 & lp & Hl & Hp).
  rewrite Hg in Hl. simpl in Hl. pose proof (gen_all_topology _ _ _ _ _ _ Ha) as Htopo.
  destruct (summary_total _ _ _ _ _ _ _ Hp (rev l)
              (λ m, proj1 (elem_of_rev l m)) (λ m, proj2 (elem_of_rev l m))
              (domains_names (topology g)) title cs) as [lines Hs].
  exists lines. unfold show_metrics. unfold mbind at 1, io_bind at 1. rewrite Ha, pop_metrics_eq, Hraw.
  unfold summarized_view, mbind, io_bind, lift, mret, io_ret. cbn [unwrap topology set_data].
  rewrite Htopo, Hc, Hl. by rewrite Hs.
Qed.
End Properties.

(** ** Examples *)

Import SampleHost.

Lemma cell_shows_domain_witness :
  ∃ g' w', collect = Done (g', w') ∧ domain_cell (rev (data g')) "0" "dram" = Done ("0.0002 W" +:+ tab).
Proof.
  destruct (is_done_inv _ collected) as [[g' w'] E]. exists g', w'. split; [exact E|].
  pose proof (cell_shows_domain 7 "1.0.0" sample_generator start g' w' sample_socket (sample_domain 1 "dram" "/dram")
                sample_labelled eq_refl E) as Hc.
  refine (eq_trans (Hc _ _) _); [left|right; left|]. vm_compute. reflexivity.
Defined.

Definition stdout_args : ExporterArgs := {|
  timeout := 10; step := 2; processes := 5; regex_filter := None; args_containers := true; args_qemu := true;
  raw_metrics := false |}.

Lemma consumers_selected :
  is_done ('(_, w) ← collect; select_consumers stdout_args (proc_tracker (topology sample_generator)) w) = true.
Proof. vm_compute. reflexivity. Qed.

Lemma summary_never_panics_witness :
  ∃ g lines w, show_metrics 7 "1.0.0" Datatypes.id (λ _, ""%string) stdout_args sample_generator start = Done ((g, lines), w).
Proof.
  destruct (is_done_inv _ collected) as [[g' w'] E]. destruct (is_done_inv _ consumers_selected) as [[[title cs] w2] Es].
  rewrite E in Es.
  destruct (summary_never_panics 7 "1.0.0" Datatypes.id (λ _, ""%string) stdout_args sample_generator start g' w' title cs w2
              sample_labelled eq_refl eq_refl E Es) as [lines Hl].
  exists (set_data [] g'), lines, w2. exact Hl.
Defined.
