(* ===== verification/Frame.v ===== *)
(** * What a round of an exporter does to the world

    A preorder on the states of the world that each elementary operation of the environment
    respects is respected by the rounds of the exporters.  The instance used here is time:
    the monotonic clock never goes back during a round, so the loops with a time limit end
    after as many rounds as the limit has room for. *)

From S2P Require Import Prelude Floats Text TextOps FloatText Units Env Simulated Loops Records Energy Common.
From S2P Require Import Domain Core Socket ProcTracker Bpf Topology Attribution Containers ExporterUtils Metrics.
From S2P Require Import Samples Clones Series Search Json Stdout.

(** ** Computations that respect a preorder *)

Definition stays `{Os} (R : relation world) {A} (m : io A) : Prop := ∀ w a w', m w = Done (a, w') → R w w'.

Section Stays.
Context `{Os} (R : relation world) `{!PreOrder R}.

Lemma stays_ret {A} (a : A) : stays R (mret a).
Proof. by intros w a' w' [= _ <-]. Qed.

Lemma stays_lift {A} (m : outcome A) : stays R (lift m).
Proof. by intros w a w' [_ ->]%lift_inv. Qed.

Lemma stays_bind {A B} (m : io A) (f : A → io B) : stays R m → (∀ a, stays R (f a)) → stays R (m ≫= f).
Proof. intros Hm Hf w b w' (a & w1 & Ha & Hb)%io_bind_inv. trans w1; [by eapply Hm|by eapply Hf]. Qed.

Lemma stays_fold {A S} (f : S → A → io S) l : (∀ s x, stays R (f s x)) → ∀ s, stays R (io_fold f s l).
Proof. intros Hf. induction l as [|x l IH]; intros s; simpl; [apply stays_ret|by apply stays_bind]. Qed.

Lemma stays_map {A B} (f : A → io B) l : (∀ x, stays R (f x)) → stays R (io_map f l).
Proof.
  intros Hf. induction l as [|x l IH]; simpl; [apply stays_ret|].
  apply stays_bind; [done|]. intros y. apply stays_bind; [done|]. intros ys. apply stays_ret.
Qed.
End Stays.

(** ** The environment

    The operations that the rounds use. *)
Class Respects `{Os, !FileSystem, !Procfs, !PerfEvents, !Sysinfo, !Aya, !HashMaps, !ContainerRuntimes}
    (R : relation world) : Prop := {
  respects_order :: PreOrder R;
  respects_clock : stays R (effect clock);
  respects_read p : stays R (effect (read_to_string p));
  respects_read_dir p : stays R (effect (read_dir p));
  respects_is_dir p : stays R (effect (is_dir p));
  respects_read_at p o n : stays R (effect (read_at p o n));
  respects_kernel_stats : stays R (effect kernel_stats);
  respects_process_stat p : stays R (effect (process_stat p));
  respects_counter c : stays R (effect (read_count_and_time c));
  respects_processes s : stays R (effect (sys_refresh_processes s));
  respects_components s : stays R (effect (sys_refresh_components s));
  respects_memory s : stays R (effect (sys_refresh_memory s));
  respects_disks s : stays R (effect (sys_refresh_disks s));
  respects_disks_list s : stays R (effect (sys_refresh_disks_list s));
  respects_cpu s : stays R (effect (sys_refresh_cpu s));
  respects_ring b : stays R (effect (ring_next b));
  respects_array a i : stays R (effect (array_get a i));
  respects_pid m p : stays R (effect (pid_get m p));
  respects_hash A m : stays R (effect (hash_iter A m));
  respects_docker_version d : stays R (effect (docker_get_version d));
  respects_docker_events d s u : stays R (effect (docker_get_events d s u));
  respects_docker_containers d : stays R (effect (docker_get_containers d));
  respects_pods k : stays R (effect (kubernetes_list_pods k));
  respects_cgroups p : stays R (effect (process_cgroups p));
}.

Create HintDb stays.
#[export] Hint Resolve respects_read_dir respects_is_dir respects_read_at respects_counter respects_processes
  respects_components respects_memory respects_disks respects_disks_list respects_cpu respects_ring respects_array
  respects_pid respects_hash respects_docker_version respects_docker_events respects_docker_containers
  respects_pods respects_cgroups : stays.

(** Follows the structure of a computation; the definitions it calls are in the database. *)
Ltac stays_step :=
  match goal with
  | |- stays _ (mret _) => apply stays_ret; apply _
  | |- stays _ (lift _) => apply stays_lift; apply _
  | |- stays _ (mbind _ _) => apply stays_bind; [apply _| |intros ?]
  | |- stays _ (io_fold _ _ _) => apply stays_fold; [apply _|intros ? ?]
  | |- stays _ (io_map _ _) => apply stays_map; [apply _|intros ?]
  | |- stays _ (let _ := _ in _) => cbv zeta
  | |- stays _ (match ?x with _ => _ end) => destruct x
  | |- stays _ _ => solve [eauto with stays]
  end.
Ltac solve_stays := repeat (stays_step; cbv beta).

Section Rounds.
Context `{Profile, Layout, Os, !FileSystem, !Procfs, !PerfEvents, !Sysinfo, !Aya}.
Context `{!HashMaps, !ContainerRuntimes, Regex, Captures, !Instants}.
Context (current_pid : Z) (crate_version : string).
Context (debug_str : string → string) (to_json : list (string * string) → string).
Context (R : relation world) `{!Respects R}.

Lemma time_stays : stays R current_system_time_since_epoch.
Proof.
  intros w d w' Hc. unfold current_system_time_since_epoch in Hc. pose proof (respects_clock w) as Hr.
  unfold effect in Hr. destruct (clock w) as [[x|] w1]; [|done]. injection Hc as _ <-. by eapply Hr.
Qed.

Lemma read_file_stays p : stays R (read_file p).
Proof. exact (respects_read p). Qed.

Lemma kernel_stats_stays : stays R read_kernel_stats.
Proof. exact (respects_kernel_stats). Qed.

Lemma process_stat_stays p : stays R (read_process_stat p).
Proof. exact (respects_process_stat p). Qed.

#[local] Hint Resolve time_stays read_file_stays kernel_stats_stays process_stat_stays : stays.

Lemma iterate_stays {A} (m : gmap string A) : stays R (iterate m).
Proof. unfold iterate. solve_stays. Qed.
#[local] Hint Resolve iterate_stays : stays.

(** ** Reading *)

Lemma domain_read_stays d : stays R (Domain.read_record d).
Proof. unfold Domain.read_record. solve_stays. Qed.
#[local] Hint Resolve domain_read_stays : stays.

Lemma domain_refresh_stays d : stays R (Domain.refresh_record d).
Proof. unfold Domain.refresh_record. solve_stays. Qed.

Lemma domain_mmio_stays d : stays R (Domain.get_rapl_mmio_energy_microjoules d).
Proof. unfold Domain.get_rapl_mmio_energy_microjoules. solve_stays. Qed.
#[local] Hint Resolve domain_refresh_stays domain_mmio_stays : stays.

Lemma idle_state_stays n p : stays R (Core.idle_state n p).
Proof. unfold Core.idle_state. solve_stays. Qed.
#[local] Hint Resolve idle_state_stays : stays.

Lemma read_idle_stays c : stays R (Core.read_idle c).
Proof. unfold Core.read_idle. solve_stays. Qed.
#[local] Hint Resolve read_idle_stays : stays.

Lemma read_msr_stays c m : stays R (Core.read_msr c m).
Proof. unfold Core.read_msr. solve_stays. Qed.
#[local] Hint Resolve read_msr_stays : stays.

Lemma cpu_times_stays c : stays R (Core.cpu_times c).
Proof. unfold Core.cpu_times. solve_stays. Qed.
#[local] Hint Resolve cpu_times_stays : stays.

Lemma read_counter_stays c : stays R (Core.read_counter c).
Proof. unfold Core.read_counter. solve_stays. Qed.
#[local] Hint Resolve read_counter_stays : stays.

Lemma core_read_stays c : stays R (Core.read_record c).
Proof. unfold Core.read_record. solve_stays. Qed.
#[local] Hint Resolve core_read_stays : stays.

Lemma core_refresh_stays c : stays R (Core.refresh_record c).
Proof. unfold Core.refresh_record. solve_stays. Qed.
#[local] Hint Resolve core_refresh_stays : stays.

Lemma core_stats_stays c : stays R (Core.read_stats c).
Proof. unfold Core.read_stats. solve_stays. Qed.
#[local] Hint Resolve core_stats_stays : stays.

Lemma socket_read_stays s : stays R (Socket.read_record s).
Proof. unfold Socket.read_record. solve_stays. Qed.
#[local] Hint Resolve socket_read_stays : stays.

Lemma socket_refresh_record_stays s : stays R (Socket.refresh_record s).
Proof. unfold Socket.refresh_record. solve_stays. Qed.
#[local] Hint Resolve socket_refresh_record_stays : stays.

Lemma socket_mmio_stays s : stays R (Socket.get_rapl_mmio_energy_microjoules s).
Proof. unfold Socket.get_rapl_mmio_energy_microjoules. solve_stays. Qed.
#[local] Hint Resolve socket_mmio_stays : stays.

Lemma stamped_stays v u : stays R (Socket.stamped v u).
Proof. unfold Socket.stamped. solve_stays. Qed.
#[local] Hint Resolve stamped_stays : stays.

Lemma socket_idle_stays s : stays R (Socket.get_idle_power_microwatts s).
Proof. unfold Socket.get_idle_power_microwatts. solve_stays. Qed.
#[local] Hint Resolve socket_idle_stays : stays.

Lemma socket_activation_stays s : stays R (Socket.get_activation_power_microwatts s).
Proof. unfold Socket.get_activation_power_microwatts. solve_stays. Qed.
#[local] Hint Resolve socket_activation_stays : stays.

Lemma socket_background_stays s : stays R (Socket.get_background_power_microwatts s).
Proof. unfold Socket.get_background_power_microwatts. solve_stays. Qed.
#[local] Hint Resolve socket_background_stays : stays.

Lemma read_activation_stays l s : stays R (Socket.read_activation_idle_record l s).
Proof. unfold Socket.read_activation_idle_record. solve_stays. Qed.
#[local] Hint Resolve read_activation_stays : stays.

Lemma refresh_activation_stays l s : stays R (Socket.refresh_activation_idle_records l s).
Proof. unfold Socket.refresh_activation_idle_records. solve_stays. Qed.
#[local] Hint Resolve refresh_activation_stays : stays.

Lemma socket_stats_stays s : stays R (Socket.read_stats s).
Proof. unfold Socket.read_stats. solve_stays. Qed.
#[local] Hint Resolve socket_stats_stays : stays.

Lemma socket_refresh_stats_stays s : stays R (Socket.refresh_stats s).
Proof. unfold Socket.refresh_stats. solve_stays. Qed.
#[local] Hint Resolve socket_refresh_stats_stays : stays.

Lemma socket_core_powers_stays s : stays R (Socket.get_proportional_core_diff_power_microwatts s).
Proof. unfold Socket.get_proportional_core_diff_power_microwatts. solve_stays. Qed.
#[local] Hint Resolve socket_core_powers_stays : stays.

(** ** Processes *)

Lemma new_process_stays p l : stays R (ProcTracker.new_process p l).
Proof. unfold ProcTracker.new_process. solve_stays. Qed.
#[local] Hint Resolve new_process_stays : stays.

Lemma new_record_stays p : stays R (ProcTracker.new_record p).
Proof. unfold ProcTracker.new_record. solve_stays. Qed.
#[local] Hint Resolve new_record_stays : stays.

Lemma tracker_refresh_stays pt : stays R (ProcTracker.refresh pt).
Proof. unfold ProcTracker.refresh. solve_stays. Qed.
#[local] Hint Resolve tracker_refresh_stays : stays.

Lemma add_process_stays p pt : stays R (add_process_record p pt).
Proof. unfold add_process_record. solve_stays. Qed.
#[local] Hint Resolve add_process_stays : stays.

Lemma core_times_stays p pt : stays R (get_process_core_times p pt).
Proof. unfold get_process_core_times. solve_stays. Qed.
#[local] Hint Resolve core_times_stays : stays.

Lemma myself_stays n pt : stays R (myself n pt).
Proof. unfold myself. solve_stays. Qed.
#[local] Hint Resolve myself_stays : stays.

Lemma consider_stays pt n l v : stays R (consider pt n l v).
Proof. unfold consider. solve_stays. Qed.
#[local] Hint Resolve consider_stays : stays.

Lemma top_consumers_stays n pt : stays R (get_top_consumers n pt).
Proof. unfold get_top_consumers. solve_stays. Qed.
#[local] Hint Resolve top_consumers_stays : stays.

(** ** The topology *)

Lemma drain_stays fuel b l : stays R (drain fuel b l).
Proof. revert l. induction fuel as [|fuel IH]; intros l; simpl; solve_stays; apply IH. Qed.

Lemma drain_events_stays b : stays R (drain_cpu_state_events b).
Proof. intros w a w' Hd. by eapply (drain_stays _ b [] w). Qed.
#[local] Hint Resolve drain_events_stays : stays.

Lemma idle_records_stays t : stays R (Topology.refresh_core_idle_records t).
Proof. unfold Topology.refresh_core_idle_records. solve_stays. Qed.
#[local] Hint Resolve idle_records_stays : stays.

Lemma activation_records_stays t : stays R (Topology.refresh_activation_idle_records t).
Proof. unfold Topology.refresh_activation_idle_records. solve_stays. Qed.
#[local] Hint Resolve activation_records_stays : stays.

Lemma refresh_socket_stays s l : stays R (Topology.refresh_socket s l).
Proof. unfold Topology.refresh_socket. solve_stays. Qed.
#[local] Hint Resolve refresh_socket_stays : stays.

Lemma refresh_procs_stays t : stays R (Topology.refresh_procs t).
Proof. unfold Topology.refresh_procs. solve_stays. Qed.
#[local] Hint Resolve refresh_procs_stays : stays.

Lemma cpu_time_record_stays t : stays R (Topology.refresh_cpu_time_record t).
Proof. unfold Topology.refresh_cpu_time_record. solve_stays. Qed.
#[local] Hint Resolve cpu_time_record_stays : stays.

Lemma psys_stays t : stays R (Topology.get_rapl_psys_energy_microjoules t).
Proof. unfold Topology.get_rapl_psys_energy_microjoules. solve_stays. Qed.
#[local] Hint Resolve psys_stays : stays.

Lemma add_socket_energy_stays n s : stays R (Topology.add_socket_energy n s).
Proof. unfold Topology.add_socket_energy. solve_stays. Qed.
#[local] Hint Resolve add_socket_energy_stays : stays.

Lemma topology_read_stays t : stays R (Topology.read_record t).
Proof. unfold Topology.read_record. solve_stays. Qed.
#[local] Hint Resolve topology_read_stays : stays.

Lemma topology_refresh_record_stays t : stays R (Topology.refresh_record t).
Proof. unfold Topology.refresh_record. solve_stays. Qed.
#[local] Hint Resolve topology_refresh_record_stays : stays.

Lemma topology_read_stats_stays : stays R (Topology.read_stats).
Proof. unfold Topology.read_stats. solve_stays. Qed.
#[local] Hint Resolve topology_read_stats_stays : stays.

Lemma topology_stats_stays t : stays R (Topology.refresh_stats t).
Proof. unfold Topology.refresh_stats. solve_stays. Qed.
#[local] Hint Resolve topology_stats_stays : stays.

Lemma topology_refresh_stays t : stays R (Topology.refresh t).
Proof. unfold Topology.refresh. solve_stays. Qed.
#[local] Hint Resolve topology_refresh_stays : stays.

(** ** The metrics *)

Lemma host_idle_stays t : stays R (Attribution.get_idle_power_microwatts t).
Proof. unfold Attribution.get_idle_power_microwatts. solve_stays. Qed.
#[local] Hint Resolve host_idle_stays : stays.

Lemma host_activation_stays t : stays R (Attribution.get_activation_power_microwatts t).
Proof. unfold Attribution.get_activation_power_microwatts. solve_stays. Qed.
#[local] Hint Resolve host_activation_stays : stays.

Lemma host_background_stays t : stays R (Attribution.get_background_power_microwatts t).
Proof. unfold Attribution.get_background_power_microwatts. solve_stays. Qed.
#[local] Hint Resolve host_background_stays : stays.

Lemma host_core_powers_stays t : stays R (Attribution.get_proportional_core_diff_power_microwatts t).
Proof. unfold Attribution.get_proportional_core_diff_power_microwatts. solve_stays. Qed.
#[local] Hint Resolve host_core_powers_stays : stays.

Lemma total_count_stays : stays R (read_nb_process_total_count).
Proof. unfold read_nb_process_total_count. solve_stays. Qed.
#[local] Hint Resolve total_count_stays : stays.

Lemma running_stays : stays R (read_nb_process_running_current).
Proof. unfold read_nb_process_running_current. solve_stays. Qed.
#[local] Hint Resolve running_stays : stays.

Lemma blocked_stays : stays R (read_nb_process_blocked_current).
Proof. unfold read_nb_process_blocked_current. solve_stays. Qed.
#[local] Hint Resolve blocked_stays : stays.

Lemma switches_stays : stays R (read_nb_context_switches_total_count).
Proof. unfold read_nb_context_switches_total_count. solve_stays. Qed.
#[local] Hint Resolve switches_stays : stays.

Lemma stamp_stays v u : stays R (stamp v u).
Proof. unfold stamp. solve_stays. Qed.
#[local] Hint Resolve stamp_stays : stays.

Lemma frequency_stays t : stays R (Attribution.get_cpu_frequency t).
Proof. unfold Attribution.get_cpu_frequency. solve_stays. Qed.
#[local] Hint Resolve frequency_stays : stays.

Lemma memory_stays t : stays R (get_total_memory_bytes t).
Proof. unfold get_total_memory_bytes. solve_stays. Qed.
#[local] Hint Resolve memory_stays : stays.

Lemma available_stays t : stays R (get_available_memory_bytes t).
Proof. unfold get_available_memory_bytes. solve_stays. Qed.
#[local] Hint Resolve available_stays : stays.

Lemma free_stays t : stays R (get_free_memory_bytes t).
Proof. unfold get_free_memory_bytes. solve_stays. Qed.
#[local] Hint Resolve free_stays : stays.

Lemma swap_stays t : stays R (get_total_swap_bytes t).
Proof. unfold get_total_swap_bytes. solve_stays. Qed.
#[local] Hint Resolve swap_stays : stays.

Lemma free_swap_stays t : stays R (get_free_swap_bytes t).
Proof. unfold get_free_swap_bytes. solve_stays. Qed.
#[local] Hint Resolve free_swap_stays : stays.

Lemma load_stays t : stays R (get_load_avg t).
Proof. unfold get_load_avg. solve_stays. Qed.
#[local] Hint Resolve load_stays : stays.

Lemma disks_stays t : stays R (get_disks t).
Proof. unfold get_disks. solve_stays. Qed.
#[local] Hint Resolve disks_stays : stays.

Lemma describe_container_stays v c d : stays R (describe_container v c d).
Proof. unfold describe_container. solve_stays. Qed.
#[local] Hint Resolve describe_container_stays : stays.

Lemma describe_cgroups_stays l v p c d : stays R (describe_cgroups l v p c d).
Proof. revert d. induction c as [|cg c IH]; intros d; simpl; solve_stays; apply IH. Qed.
#[local] Hint Resolve describe_cgroups_stays : stays.

Lemma description_stays p l v k t : stays R (get_process_container_description p l v k t).
Proof. unfold get_process_container_description. solve_stays. Qed.
#[local] Hint Resolve description_stays : stays.

Lemma self_stays g : stays R (gen_self_metrics current_pid crate_version g).
Proof. unfold gen_self_metrics. solve_stays. Qed.
#[local] Hint Resolve self_stays : stays.

Lemma host_power_stays h t r : stays R (host_power_metrics h t r).
Proof. unfold host_power_metrics. solve_stays. Qed.
#[local] Hint Resolve host_power_stays : stays.

Lemma memory_metrics_stays h t : stays R (memory_metrics h t).
Proof. unfold memory_metrics. solve_stays. Qed.
#[local] Hint Resolve memory_metrics_stays : stays.

Lemma host_stays g : stays R (gen_host_metrics g).
Proof. unfold gen_host_metrics. solve_stays. Qed.
#[local] Hint Resolve host_stays : stays.

Lemma socket_power_stays h a s r : stays R (socket_power_metrics h a s r).
Proof. unfold socket_power_metrics. solve_stays. Qed.
#[local] Hint Resolve socket_power_stays : stays.

Lemma domain_metrics_stays h s d : stays R (domain_metrics h s d).
Proof. unfold domain_metrics. solve_stays. Qed.
#[local] Hint Resolve domain_metrics_stays : stays.

Lemma socket_metrics_stays h s : stays R (socket_metrics h s).
Proof. unfold socket_metrics. solve_stays. Qed.
#[local] Hint Resolve socket_metrics_stays : stays.

Lemma sockets_stays g : stays R (gen_socket_metrics g).
Proof. unfold gen_socket_metrics. solve_stays. Qed.
#[local] Hint Resolve sockets_stays : stays.

Lemma system_stays g : stays R (gen_system_metrics g).
Proof. unfold gen_system_metrics. solve_stays. Qed.
#[local] Hint Resolve system_stays : stays.

Lemma now_stays : stays R (now_in_seconds).
Proof. unfold now_in_seconds. solve_stays. Qed.
#[local] Hint Resolve now_stays : stays.

Lemma docker_stays g : stays R (gen_docker_containers_basic_metadata g).
Proof. unfold gen_docker_containers_basic_metadata. solve_stays. Qed.
#[local] Hint Resolve docker_stays : stays.

Lemma pods_stays g : stays R (gen_kubernetes_pods_basic_metadata g).
Proof. unfold gen_kubernetes_pods_basic_metadata. solve_stays. Qed.
#[local] Hint Resolve pods_stays : stays.

Lemma check_docker_stays n d g : stays R (check_docker n d g).
Proof. unfold check_docker. solve_stays. Qed.
#[local] Hint Resolve check_docker_stays : stays.

Lemma check_kubernetes_stays n g : stays R (check_kubernetes n g).
Proof. unfold check_kubernetes. solve_stays. Qed.
#[local] Hint Resolve check_kubernetes_stays : stays.

Lemma check_stays g : stays R (check_containers g).
Proof. unfold check_containers. solve_stays. Qed.
#[local] Hint Resolve check_stays : stays.

Lemma attributes_stays g p : stays R (process_attributes g p).
Proof. unfold process_attributes. solve_stays. Qed.
#[local] Hint Resolve attributes_stays : stays.

Lemma process_stays g p : stays R (Metrics.process_metrics g p).
Proof. unfold Metrics.process_metrics. solve_stays. Qed.
#[local] Hint Resolve process_stays : stays.

Lemma processes_stays g : stays R (gen_process_metrics g).
Proof. unfold gen_process_metrics. solve_stays. Qed.
#[local] Hint Resolve processes_stays : stays.

Lemma by_container_stays f g : stays R (get_processes_filtered_by_container_name f g).
Proof. unfold get_processes_filtered_by_container_name. solve_stays. Qed.
#[local] Hint Resolve by_container_stays : stays.

Lemma all_stays g : stays R (gen_all_metrics current_pid crate_version g).
Proof. unfold gen_all_metrics. solve_stays. Qed.
#[local] Hint Resolve all_stays : stays.

(** ** The rounds *)

Lemma stdout_consumers_stays x pt : stays R (Stdout.select_consumers x pt).
Proof. unfold Stdout.select_consumers. solve_stays. Qed.
#[local] Hint Resolve stdout_consumers_stays : stays.

Lemma summarized_stays x l g : stays R (summarized_view debug_str x l g).
Proof. unfold summarized_view. solve_stays. Qed.
#[local] Hint Resolve summarized_stays : stays.

Lemma raw_line_stays m : stays R (raw_line to_json m).
Proof. unfold raw_line. solve_stays. Qed.
#[local] Hint Resolve raw_line_stays : stays.

Lemma raw_view_stays l : stays R (raw_metrics_view to_json l).
Proof. unfold raw_metrics_view. solve_stays. Qed.
#[local] Hint Resolve raw_view_stays : stays.

Lemma show_stays x g : stays R (show_metrics current_pid crate_version debug_str to_json x g).
Proof. unfold show_metrics. solve_stays. Qed.
#[local] Hint Resolve show_stays : stays.

Lemma stdout_round_stays x g : stays R (iterate_ current_pid crate_version debug_str to_json x g).
Proof. unfold iterate_. solve_stays. Qed.
#[local] Hint Resolve stdout_round_stays : stays.

Lemma core_reports_stays t : stays R (core_reports t).
Proof. unfold core_reports. solve_stays. Qed.
#[local] Hint Resolve core_reports_stays : stays.

Lemma json_consumers_stays x g : stays R (Json.select_consumers x g).
Proof. unfold Json.select_consumers. solve_stays. Qed.
#[local] Hint Resolve json_consumers_stays : stays.

Lemma report_stays x l g : stays R (report_of x l g).
Proof. unfold report_of. solve_stays. Qed.
#[local] Hint Resolve report_stays : stays.

Lemma retrieve_stays x g : stays R (retrieve_metrics current_pid crate_version x g).
Proof. unfold retrieve_metrics. solve_stays. Qed.
#[local] Hint Resolve retrieve_stays : stays.

Lemma json_round_stays x g : stays R (json_iterate current_pid crate_version x g).
Proof. unfold json_iterate. solve_stays. Qed.
#[local] Hint Resolve json_round_stays : stays.

End Rounds.

(** ** Deadlines *)

Section Deadlines.
Context `{Profile, Layout, Os, !FileSystem, !Procfs, !PerfEvents, !Sysinfo, !Aya}.
Context `{!HashMaps, !ContainerRuntimes, Regex, Captures, !Instants}.
Context (current_pid : Z) (crate_version : string).
Context (debug_str : string → string) (to_json : list (string * string) → string).
Context (age : world → Z) `{!InstantLaws age, !Respects (λ w w', age w <= age w')}.

(** A run that never goes out of its fuel and makes at most [n] rounds. *)
Definition ends_within {A O} (n : Z) (r : outcome (option (A * list O) * world)) : Prop :=
  match r with
  | Done (Some (_, l), _) => Z.of_nat (length l) <= n
  | Done (None, _) => False
  | Panic => True
  end.

Lemma loop_within {S O} (round : S → io (S * O)) step limit fuel st w :
  (∀ st, stays (λ w w', age w <= age w') (round st)) → 0 < as_nanos step → 0 <= as_nanos limit →
  as_nanos limit / as_nanos step + 1 < Z.of_nat fuel →
  ends_within (as_nanos limit / as_nanos step + 1) (timed_loop round step fuel limit st w).
Proof.
  intros Hr Hs Hl Hf. pose proof (Z.div_pos _ _ Hl Hs).
  assert (Hn : Z.of_nat (rounds_within (as_nanos limit) step) = as_nanos limit / as_nanos step + 1)
    by (unfold rounds_within; lia).
  pose proof (timed_loop_ends (age := age) round step Hs (λ st w st' o w' E, Hr st w (st', o) w' E) fuel limit st w Hl
                ltac:(lia)) as He.
  unfold ends_within. destruct (timed_loop _ _ _ _ _ _) as [[[[? ?]|] ?]|]; lia || done.
Qed.

(** What a run with a time limit does: it never goes out of its fuel; it makes at most
    [limit / step + 1] rounds, each of which begins when the limit is not over, by the
    monotonic clock ([loop_seen]); and it does not end before the limit is over.  A round
    that begins in time is not cut short, and is followed by its pause. *)
Definition timed_run {S O} (round : S → io (S * O)) (step limit : Duration) (st : S) (w : world)
    (r : outcome (option (S * list O) * world)) : Prop :=
  match r with
  | Done (Some (_, l), w') =>
      Z.of_nat (length l) <= as_nanos limit / as_nanos step + 1 ∧
      loop_seen round step st w (Some limit) l ∧
      as_nanos limit < age w' - age w
  | Done (None, _) => False
  | Panic => True
  end.

Lemma loop_timed {S O} (round : S → io (S * O)) step limit fuel st w :
  (∀ st, stays (λ w w', age w <= age w') (round st)) → 0 < as_nanos step → 0 <= as_nanos limit →
  as_nanos limit / as_nanos step + 1 < Z.of_nat fuel →
  timed_run round step limit st w (timed_loop round step fuel limit st w).
Proof.
  intros Hr Hs Hl Hf. pose proof (loop_within round step limit fuel st w Hr Hs Hl Hf) as Hw.
  unfold ends_within, timed_run in *. destruct (timed_loop _ _ _ _ _ _) as [[[[st' l]|] w']|] eqn:E; [|done..].
  split; [done|]. split; [by eapply timed_loop_seen|]. by eapply (timed_loop_over (age := age)).
Qed.

(** C21: with a time limit, the rounds of the standard output and of the JSON exporters
    begin in time, and the runs end: every round begins while the limit is not over, there
    are at most [timeout / step + 1] of them, because each one is followed by a pause of a
    step and no operation of a round takes the monotonic clock back, and a run that does not
    panic ends, after its limit is over: by what remains of its last round and its pause. *)
Theorem rounds_begin_in_time args fuel g w jargs d k :
  0 < step args → 0 <= timeout args → timeout args / step args + 1 < Z.of_nat fuel →
  0 < as_nanos d → as_nanos (mkDuration (Z.abs k) 0) / as_nanos d + 1 < Z.of_nat fuel →
  timed_run (iterate_ current_pid crate_version debug_str to_json args)
    (mkDuration (step args) 0) (mkDuration (timeout args) 0) g w
    (run current_pid crate_version debug_str to_json args fuel g w) ∧
  timed_run (json_iterate current_pid crate_version jargs) d (mkDuration (Z.abs k) 0) g w
    (json_run current_pid crate_version jargs d (json_time_limit (Some k)) fuel g w).
Proof.
  intros Hs Ht Hf Hd Hk. split.
  - unfold run, time_limit. destruct (Z.ltb_spec (timeout args) 0); [lia|].
    apply loop_timed; [|unfold as_nanos; simpl; lia..|].
    { intros st. by apply stdout_round_stays. }
    unfold as_nanos. cbn [secs nanos]. rewrite !Z.add_0_r, Z.div_mul_cancel_r; lia.
  - simpl. apply loop_timed; [|done|unfold as_nanos; simpl; lia|done].
    intros st. by apply json_round_stays.
Qed.
End Deadlines.

(** ** Example *)

Import SampleHost.

Definition host_age : world → Z := λ t : Z, t * 1000000000.

#[local] Instance host_instant_laws : @InstantLaws host host_instants host_age.
Proof.
  split; intros.
  - reflexivity.
  - change (host_age w <= host_age w). lia.
  - change (host_age w + as_nanos d <= host_age (w + as_nanos d / 1000000000 + 1)). unfold host_age.
    pose proof (Z.div_mod (as_nanos d) 1000000000 ltac:(lia)).
    pose proof (Z.mod_pos_bound (as_nanos d) 1000000000 ltac:(lia)). lia.
Qed.

(** Reading the clock takes a second, an item of the ring buffer some, and the rest no time. *)
#[local] Instance host_respects : Respects (λ w w' : @world host, host_age w <= host_age w').
Proof.
  unfold host_age. split; [split; [intros x; lia|intros x y z; lia]|..]; intros; intros v x v' Hw;
    apply (f_equal (λ r, match r with Done y => y.2 | Panic => v' end)) in Hw; cbn in Hw; try (subst v'; lia).
  subst v'. rewrite drop_nil. simpl. lia.
Qed.

(** Three seconds at most, every two seconds. *)
Definition short_args : ExporterArgs := {|
  timeout := 3; step := 2; processes := 5; regex_filter := None; args_containers := true; args_qemu := true;
  raw_metrics := false |}.

Definition short_run := run 7 "1.0.0" Datatypes.id (λ _, ""%string) short_args 3 sample_generator start.
Definition short_json_run :=
  json_run 7 "1.0.0" sample_args (mkDuration 2 0) (json_time_limit (Some 3)) 3 sample_generator start.

Lemma short_runs_done : is_done short_run && is_done short_json_run = true.
Proof. vm_compute. reflexivity. Qed.

Lemma rounds_begin_in_time_witness :
  (∃ g l w, short_run = Done (Some (g, l), w) ∧ Z.of_nat (length l) <= 2 ∧ 3000000000 < host_age w - host_age start) ∧
  (∃ g l w, short_json_run = Done (Some (g, l), w) ∧ Z.of_nat (length l) <= 2 ∧
            3000000000 < host_age w - host_age start).
Proof.
  destruct (andb_prop _ _ short_runs_done) as [[[r w] E]%is_done_inv [[r' w'] E']%is_done_inv].
  destruct (rounds_begin_in_time 7 "1.0.0" Datatypes.id (λ _, ""%string) host_age short_args 3 sample_generator start
              sample_args (mkDuration 2 0) 3) as [Hr Hj]; [vm_compute; (reflexivity || discriminate)..|].
  change (timed_run host_age (iterate_ 7 "1.0.0" Datatypes.id (λ _, ""%string) short_args) (mkDuration 2 0) (mkDuration 3 0)
            sample_generator start short_run) in Hr.
  change (timed_run host_age (json_iterate 7 "1.0.0" sample_args) (mkDuration 2 0) (mkDuration 3 0)
            sample_generator start short_json_run) in Hj.
  rewrite E in Hr. rewrite E' in Hj. unfold timed_run in Hr, Hj.
  destruct r as [[g l]|]; [|contradiction]. destruct r' as [[g' l']|]; [|contradiction].
  destruct Hr as (Hl & _ & Ha), Hj as (Hl' & _ & Ha').
  split; [exists g, l, w|exists g', l', w']; (split; [assumption|split; assumption]).
Defined.
