(* ===== verification/Session.v ===== *)
(** * A session of the program

    The topology of an exporter is generated from the powercap tree, cloned for the
    Prometheus exporters, refreshed and rid of terminated processes any number of times.
    What the labels of the metrics rest on is shown to hold in every such topology, from what
    the kernel says of the names of the domains and of the processes only, and so every
    collection of every exporter has one sample per series. *)

From S2P Require Import Prelude Floats Text TextOps FloatText Units Env Simulated Loops Records Energy Common.
From S2P Require Import Domain Core Socket ProcTracker Bpf Topology Attribution Generators Powercap Containers ExporterUtils Metrics.
From S2P Require Import Samples Clones Series Search Prometheus Stdout.

(** What the name files say: a file that can be read always says the same, and two domains of
    a package have different names. *)
Class NameFiles `{Os, Regex} (content : string → option string) : Prop := {
  name_read f w n w' : read_to_string (f +:+ "/name") w = (Some n, w') → content f = Some n;
  names_differ f g i j k n m :
    is_match re_domain f = true → is_match re_domain g = true →
    number 1 f = Done i → number 1 g = Done i → number 2 f = Done j → number 2 g = Done k → j ≠ k →
    content f = Some n → content g = Some m → trim n ≠ trim m;
}.

Section Session.
Context `{Profile, Layout, Os, !FileSystem, !Procfs, !PerfEvents, !Sysinfo, !Aya, !KernelModules}.
Context `{!HashMaps, !ContainerRuntimes, Regex, Captures, !HashLaws, !SysinfoLaws}.
Context (current_pid : Z) (crate_version : string).
Context (content : string → option string) `{!NameFiles content}.

(** ** Ids and names *)

(** The domain [j] of the socket [i] has the name that its folder says. *)
Definition announced (i j : Z) (name : string) : Prop :=
  0 <= j ∧ ∃ f n, is_match re_domain f = true ∧ number 1 f = Done i ∧ number 2 f = Done j ∧
                  content f = Some n ∧ name = trim n.

Definition genuine (s : CPUSocket) : Prop :=
  0 <= Socket.id s <= umax 16 ∧ Forall (λ d, announced (Socket.id s) (Domain.id d) (Domain.name d)) (domains s).

Lemma genuine_names s : genuine s → NoDup (Domain.id <$> domains s) → NoDup (Domain.name <$> domains s).
Proof.
  intros [_ Hd] Hn. rewrite Forall_forall in Hd.
  apply NoDup_fmap_2_strong; [|by eapply NoDup_fmap_1].
  intros d e Hin Hin' He. destruct (Hd d Hin) as (_ & f & n & Hf & Hi & Hj & Hc & Hnm).
  destruct (Hd e Hin') as (_ & g & m & Hg & Hi' & Hk & Hc' & Hnm').
  destruct (decide (Domain.id d = Domain.id e)); [by eapply (NoDup_key Domain.id)|].
  destruct (names_differ f g (Socket.id s) (Domain.id d) (Domain.id e) n m); try done. congruence.
Qed.

(** What a socket says of itself and of its domains. *)
Definition directory (s : CPUSocket) : Z * list (Z * string) :=
  (Socket.id s, (λ d, (Domain.id d, Domain.name d)) <$> domains s).

Lemma genuine_directory l l' : directory <$> l' = directory <$> l → Forall genuine l → Forall genuine l'.
Proof.
  intros He Hl. rewrite Forall_forall in Hl |- *. intros s' Hs'.
  assert (Hin : directory s' ∈ (directory <$> l)) by (rewrite <- He; by apply list_elem_of_fmap_2).
  apply list_elem_of_fmap in Hin as (s & Hd & Hs). destruct (Hl s Hs) as [Hp Ha].
  injection Hd as Hi Hds. split; [lia|]. rewrite Hi.
  rewrite Forall_forall in Ha |- *. intros d' Hd'.
  assert (Hin : (Domain.id d', Domain.name d') ∈ ((λ d, (Domain.id d, Domain.name d)) <$> domains s))
    by (rewrite <- Hds; by apply (list_elem_of_fmap_2 (λ d, (Domain.id d, Domain.name d)))).
  apply list_elem_of_fmap in Hin as (d & [= -> ->] & Hd). by apply Ha.
Qed.

Lemma genuine_skeleton t t' :
  skeleton t' = skeleton t → Forall genuine (sockets t) → Forall genuine (sockets t').
Proof.
  intros Hk. apply genuine_directory.
  set (entry := λ k : Z * gmap string string * list (Z * string * gmap string string),
                  (k.1.1, fst <$> k.2) : Z * list (Z * string)).
  assert (E : ∀ l : list CPUSocket, directory <$> l = entry <$> (socket_key <$> l)).
  { intros l. rewrite <- list_fmap_compose. apply list_fmap_ext. intros i s _. unfold compose, entry, directory.
    unfold socket_key. simpl. by rewrite <- list_fmap_compose. }
  rewrite !E. unfold skeleton in Hk. by rewrite Hk.
Qed.

(** ** Generation *)

Lemma number_range i f n : number i f = Done n → 0 <= n <= umax 16.
Proof.
  unfold number. intros (p & _ & Hn)%bind_Done_inv. destruct (parse_uint 16 p) eqn:E; [|done].
  injection Hn as <-. by apply parse_uint_range in E.
Qed.

(** A core that has the number of a CPU that the system lists. *)
Definition enumerated (c : CPUCore) : Prop :=
  ∃ sys i cpu, cpus sys !! i = Some cpu ∧ Core.id c = cpu_id (Z.of_nat i) (c_name cpu).

(** A socket that has no estimate of its background power yet. *)
Definition unread (s : CPUSocket) : Prop :=
  Socket.activation_idle_buffer s = [] ∧ Forall enumerated (cpu_cores s).

(** A step of the generation: the sockets stay genuine, nothing is estimated, and the tracker
    is not used. *)
Definition grows (t t' : Topology) : Prop :=
  proc_tracker t' = proc_tracker t ∧ (Forall genuine (sockets t) → Forall genuine (sockets t')) ∧
  (Forall unread (sockets t) → Forall unread (sockets t')).

#[local] Instance grows_preorder : PreOrder grows.
Proof. split; [by intros t|]. intros t1 t2 t3 (E1 & G1 & U1) (E2 & G2 & U2). split_and!; [congruence|auto..]. Qed.

Definition readings (s : CPUSocket) : list MultiValuedRecord * list CPUCore :=
  (Socket.activation_idle_buffer s, cpu_cores s).

Lemma unread_map l k : readings <$> k = readings <$> l → Forall unread l → Forall unread k.
Proof.
  intros E. change (Forall unread) with (Forall ((λ x, x.1 = [] ∧ Forall enumerated x.2) ∘ readings)).
  by rewrite <- !Forall_fmap, E.
Qed.

Lemma unread_fmap f l : (∀ s, readings (f s) = readings s) → Forall unread l → Forall unread (f <$> l).
Proof. intros Hf. apply unread_map. rewrite <- list_fmap_compose. apply list_fmap_ext. intros i s _. apply Hf. Qed.

Lemma register_socket_grows sensor i t w t' w' :
  0 <= i <= umax 16 → register_socket sensor i t w = Done (t', w') → grows t t'.
Proof.
  intros Hi. unfold register_socket. intros (data & w1 & _ & [= <- _])%io_bind_inv.
  unfold safe_add_socket. destruct (has_socket i t); [done|]. split; [done|]. split; intros Hs;
    apply Forall_app; (split; [done|]); constructor; [by split|done..].
Qed.

Lemma register_domain_grows sensor f i j t w t' w' :
  is_match re_domain f = true → number 1 f = Done i → number 2 f = Done j →
  register_domain sensor f i j t w = Done (t', w') → grows t t'.
Proof.
  intros Hf Hi Hj. unfold register_domain. intros (data & w1 & _ & Hr)%io_bind_inv.
  apply io_bind_inv in Hr as (name & w2 & Hn & Hr). destruct name as [n|]; [|by injection Hr as <- _].
  apply io_bind_inv in Hr as (r & w3 & _ & [= <- _]). split; [done|]. split; intros Hs.
  2:{ apply unread_fmap; [|exact Hs]. intros s. destruct (_ =? _); [|done]. unfold safe_add_domain.
      by destruct (existsb _ _). }
  unfold read_file in Hn. injection Hn as Hn. apply name_read in Hn. cbn [sockets set_sockets].
  apply Forall_fmap. eapply Forall_impl; [exact Hs|]. intros s Hg. unfold compose.
  destruct (Z.eqb_spec (Socket.id s) i) as [He|]; [|done]. unfold safe_add_domain.
  destruct (existsb _ _); [done|]. destruct Hg as [Hp Ha]. split; [exact Hp|]. simpl.
  apply Forall_app. split; [exact Ha|]. constructor; [|done]. rewrite He.
  split; [by eapply (number_range _ _ _ Hj)|]. by exists f, n.
Qed.

Lemma register_socket_mmio_grows sensor i t : grows t (register_socket_mmio sensor i t).
Proof.
  split; [done|]. split; [|apply unread_fmap; intros s; by destruct (_ =? _)].
  apply genuine_directory. simpl. rewrite <- list_fmap_compose. apply list_fmap_ext.
  intros k s _. unfold compose. by destruct (_ =? _).
Qed.

Lemma register_domain_mmio_grows f i t w t' w' :
  register_domain_mmio f i t w = Done (t', w') → grows t t'.
Proof.
  unfold register_domain_mmio. intros (l & w1 & Hl & [= <- _])%io_bind_inv. split; [done|]. split.
  2:{ assert (readings <$> l = readings <$> sockets t) as E.
      { eapply io_map_skeleton; [|exact Hl]. intros s w2 s' w3 Hs. cbv beta in Hs.
        destruct (_ =? _); [|by injection Hs as <- _]. by apply io_bind_inv in Hs as (ds & w4 & _ & [= <- _]). }
      by apply unread_map. }
  apply genuine_directory. eapply io_map_skeleton; [|exact Hl]. intros s w2 s' w3 Hs. cbv beta in Hs.
  destruct (_ =? _); [|by injection Hs as <- _]. apply io_bind_inv in Hs as (ds & w4 & Hds & [= <- _]).
  unfold directory. cbn [Socket.id domains set_domains]. f_equal. eapply io_map_skeleton; [|exact Hds].
  intros d w5 d' w6 (n & w7 & _ & Hr)%io_bind_inv. apply io_bind_inv in Hr as (n' & w8 & _ & [= <- _]).
  by destruct (decide _).
Qed.

Lemma visit_folder_grows sensor st e w st' w' :
  visit_folder sensor st e w = Done (st', w') → grows st.1 st'.1.
Proof.
  destruct st as [t b]. unfold visit_folder. intros (f & w1 & _ & Hr)%io_bind_inv.
  destruct (is_match re_domain f) eqn:Hf.
  { apply io_bind_inv in Hr as (i & w2 & [Hi _]%lift_inv & Hr).
    apply io_bind_inv in Hr as (j & w3 & [Hj _]%lift_inv & Hr).
    apply io_bind_inv in Hr as (t1 & w4 & Ht1 & Hr). apply io_bind_inv in Hr as (t2 & w5 & Ht2 & [= <- _]).
    trans t1; [eapply register_socket_grows; [exact (number_range _ _ _ Hi)|exact Ht1]|].
    by eapply register_domain_grows. }
  destruct (is_match re_socket_mmio f).
  { apply io_bind_inv in Hr as (i & w2 & _ & [= <- _]). apply register_socket_mmio_grows. }
  destruct (is_match re_domain_mmio f); [|by injection Hr as <- _].
  apply io_bind_inv in Hr as (i & w2 & _ & Hr). apply io_bind_inv in Hr as (t1 & w3 & Ht1 & [= <- _]).
  by eapply register_domain_mmio_grows.
Qed.

Lemma visit_socket_folder_grows sensor t e w t' w' :
  visit_socket_folder sensor t e w = Done (t', w') → grows t t'.
Proof.
  unfold visit_socket_folder. intros (f & w1 & _ & Hr)%io_bind_inv.
  apply io_bind_inv in Hr as (name & w2 & _ & Hr). destruct name; [|by injection Hr as <- _].
  destruct (_ && _); [|by injection Hr as <- _]. apply io_bind_inv in Hr as (i & w3 & [Hi _]%lift_inv & Hr).
  eapply register_socket_grows; [by eapply number_range|exact Hr].
Qed.

Lemma visit_psys_grows t e w t' w' : visit_psys t e w = Done (t', w') → grows t t'.
Proof.
  unfold visit_psys. intros (f & w1 & _ & Hr)%io_bind_inv. apply io_bind_inv in Hr as (n & w2 & _ & [= <- _]).
  destruct n; [|done]. by destruct (decide _).
Qed.

Lemma add_core_unread cores l l' :
  Forall enumerated cores → foldM add_core l cores = Done l' → Forall unread l → Forall unread l'.
Proof.
  intros Hc Hf Hl. apply (foldM_inv add_core (Forall unread)) in Hf; [done| |done]. clear -Hc.
  intros l c l' Hin Hl Ha. unfold add_core in Ha. do 2 (apply bind_Done_inv in Ha as (? & _ & Ha)).
  unfold add_to_socket in Ha. destruct l; [done|]. injection Ha as <-. apply Forall_alter; [done|].
  intros s _ [Hb Hs]. split; [done|]. apply Forall_app. split; [done|]. rewrite Forall_forall in Hc.
  constructor; [by apply Hc|done].
Qed.

Lemma generated_cores w cores w' : generate_cpu_cores w = Done (Some cores, w') → Forall enumerated cores.
Proof.
  unfold generate_cpu_cores. intros (sys & w1 & _ & Hr)%io_bind_inv. apply io_bind_inv in Hr as (info & w2 & _ & Hr).
  apply io_bind_inv in Hr as (get_info & w3 & _ & Hr). apply io_bind_inv in Hr as (l & w4 & Hl & [= <- _]).
  apply (io_map_Forall2 _ (λ x c, Core.id c = cpu_id x.1 (c_name x.2))) in Hl.
  - apply Forall_forall. intros c Hc. apply list_elem_of_lookup in Hc as [i Hi].
    destruct (Forall2_lookup_r _ _ _ _ _ Hl Hi) as ([j cpu] & Hj & E). rewrite list_lookup_imap in Hj.
    destruct (cpus sys !! i) as [cpu'|] eqn:Ec; [|done]. injection Hj as <- <-. by exists sys, i, cpu'.
  - intros [j cpu] w5 c w6 _. unfold generate_core. intros (m & w7 & _ & Hn)%io_bind_inv. unfold Core.new in Hn.
    do 4 (apply io_bind_inv in Hn as (? & ? & _ & Hn)). by injection Hn as <- _.
Qed.

Lemma add_cores_grows t w t' w' : add_cpu_cores t w = Done (t', w') → grows t t'.
Proof.
  intros Ha. pose proof (add_cores_skeleton _ _ _ _ Ha) as Hk. unfold add_cpu_cores in Ha.
  apply io_bind_inv in Ha as (o & w1 & Hg & Ha). apply io_bind_inv in Ha as (cores & w2 & [Ho ->]%lift_inv & Ha).
  destruct o as [cores'|]; [|done]. injection Ho as ->. apply generated_cores in Hg.
  apply io_bind_inv in Ha as (l & w3 & [Hl _]%lift_inv & [= <- _]).
  split; [done|]. split; [by apply (genuine_skeleton t _ Hk)|].
  exact (add_core_unread _ _ _ (List.Forall_rev Hg) Hl).
Qed.

Lemma new_settled sd w t w' : Topology.new sd w = Done (t, w') → sockets t = [] ∧ tidy (proc_tracker t).
Proof.
  unfold Topology.new, ProcTracker.new. intros Hn.
  do 4 (apply io_bind_inv in Hn as (? & ? & _ & Hn)). apply io_bind_inv in Hn as (pt & ? & Hp & [= <- _]).
  do 3 (apply io_bind_inv in Hp as (? & ? & _ & Hp)). injection Hp as <- _.
  split; [done|]. split; [done|constructor..].
Qed.

(** What the labels rest on, as an invariant of the session. *)
Definition settled (t : Topology) : Prop :=
  wf_structure t ∧ Forall genuine (sockets t) ∧ tidy (proc_tracker t).

Lemma settled_labelled t : settled t → labelled t.
Proof.
  intros ([Hi Hd] & Hg & [_ _ Hn Hp]). pose proof Hd as Hd'. rewrite Forall_forall in Hd', Hg.
  split; [done| | | |done|done]; apply Forall_forall; intros s Hs.
  - by apply Hg.
  - destruct (Hg s Hs) as [_ Ha]. eapply Forall_impl; [exact Ha|]. by intros d [? _].
  - apply genuine_names; auto.
Qed.

(** The generation starts from a new topology, and only grows it. *)
Lemma generate_grows sensor w t w' :
  generate_topology sensor w = Done (t, w') → ∃ sd w1 t0 w2, Topology.new sd w1 = Done (t0, w2) ∧ grows t0 t.
Proof.
  unfold generate_topology. intros (m & w1 & _ & Hg)%io_bind_inv. apply io_bind_inv in Hg as (t0 & w2 & Hn & Hg).
  apply io_bind_inv in Hg as ([t1 b] & w3 & H1' & Hg). apply io_bind_inv in Hg as (t2 & w4 & H2' & Hg).
  apply io_bind_inv in Hg as (t3 & w5 & H3' & Hg%add_cores_grows). eexists _, _, t0, _. split; [exact Hn|].
  trans t1; [|trans t2; [|trans t3; [|done]]].
  - apply (for_each_folder_inv sensor _ (λ st, grows t0 st.1)) in H1'; [exact H1'| |done].
    intros st e w6 st' w7 Hv%visit_folder_grows ?. by trans st.1.
  - destruct b; [by injection H2' as <- _|].
    apply (for_each_folder_inv sensor _ (grows t1)) in H2'; [exact H2'| |done].
    intros st e w6 st' w7 Hv%visit_socket_folder_grows ?. by trans st.
  - apply (for_each_folder_inv sensor _ (grows t2)) in H3'; [exact H3'| |done].
    intros st e w6 st' w7 Hv%visit_psys_grows ?. by trans st.
Qed.

Lemma generate_settled sensor w t w' : generate_topology sensor w = Done (t, w') → settled t.
Proof.
  intros Hg. pose proof (generate_topology_wf _ _ _ _ Hg) as [Hw _]. split; [exact Hw|].
  apply generate_grows in Hg as (sd & w1 & t0 & w2 & [Hs Ht]%new_settled & -> & Hgen & _). split; [|done].
  apply Hgen. rewrite Hs. constructor.
Qed.

Lemma generate_unread sensor w t w' : generate_topology sensor w = Done (t, w') → Forall unread (sockets t).
Proof.
  intros (sd & w1 & t0 & w2 & [Hs _]%new_settled & _ & _ & Hu)%generate_grows. apply Hu. rewrite Hs. constructor.
Qed.

(** ** The operations on a topology *)

Lemma refresh_settled t w t' w' : Topology.refresh t w = Done (t', w') → settled t → settled t'.
Proof.
  intros Hr (Hw & Hg & Ht). pose proof (refresh_skeleton _ _ _ _ Hr) as Hk.
  split; [by eapply wf_structure_skeleton|]. split; [by eapply genuine_skeleton|by eapply refresh_tidy].
Qed.

Lemma clean_settled t : settled t → settled (clean_terminated t).
Proof. intros (Hw & Hg & Ht). split; [exact Hw|]. split; [exact Hg|]. by apply clean_terminated_tidy. Qed.

Lemma clone_settled t w t' w' : Topology.clone t w = Done (t', w') → settled t → settled t'.
Proof.
  unfold Topology.clone, ProcTracker.clone. intros (pt & w1 & Hp & [= <- _])%io_bind_inv (Hw & Hg & [? ? ? ?]).
  apply io_bind_inv in Hp as (sys & w2 & _ & [= <- _]).
  match goal with |- settled ?u => assert (Hk : skeleton u = skeleton t) end.
  { unfold skeleton. simpl. rewrite <- list_fmap_compose. by apply list_fmap_ext. }
  split; [by eapply wf_structure_skeleton|]. split; [by eapply genuine_skeleton|by split].
Qed.

(** ** Generators between two rounds *)

(** What was collected has been taken. *)
Record ready (g : MetricGenerator) : Prop := { ready_topology : settled (topology g); ready_data : data g = [] }.

Lemma new_ready t h q c w g w' : settled t → Metrics.new t h q c w = Done (g, w') → ready g.
Proof. unfold Metrics.new. by intros Ht ([d k] & w1 & _ & [= <- _])%io_bind_inv. Qed.

Lemma clean_ready g : ready g → ready (set_topology (clean_terminated (topology g)) g).
Proof. intros [Ht Hd]. split; [by apply clean_settled|done]. Qed.

Lemma refresh_ready g w t w' : ready g → Topology.refresh (topology g) w = Done (t, w') → ready (set_topology t g).
Proof. intros [Ht Hd] Hr. split; [by eapply refresh_settled|done]. Qed.

(** Metrics of one collection, with one sample per series. *)
Definition collected_once (metrics : list Metric) : Prop := NoDup (series <$> metrics).

Lemma collect_once g w g1 w1 g2 metrics :
  ready g → gen_all_metrics current_pid crate_version g w = Done (g1, w1) →
  pop_metrics g1 = Some (g2, metrics) → collected_once metrics ∧ ready g2.
Proof.
  intros [Hs Hd] Ha Hp. pose proof (gen_all_topology _ _ _ _ _ _ Ha) as Ht.
  destruct (gen_all_parts _ _ _ _ _ _ (settled_labelled _ Hs) Ha) as (l & l1 & l2 & ls & l4 & lp & Hl & [-> P1 P2 P3 P4 P5 _ _ _]).
  rewrite pop_metrics_eq in Hp. injection Hp as <- <-. split; [|split; [cbn; by rewrite Ht|done]].
  unfold collected_once. rewrite Hl, Hd, app_nil_l.
  eassert (distinct _ (l1 ++ l2 ++ mjoin ls ++ l4 ++ mjoin lp)) as [Hn _]; [solve_distinct|].
  by rewrite <- Permutation_rev.
Qed.

(** ** The exporters *)

Section Exporters.
Context `{!Instants} (debug_str : string → string) (to_json : list (string * string) → string).

(** The lines that the standard output shows for some metrics. *)
Definition lines_of (args : ExporterArgs) (metrics : list Metric) (lines : list string) : Prop :=
  ∃ g w w', (if raw_metrics args then raw_metrics_view to_json metrics
             else summarized_view debug_str args metrics g) w = Done (lines, w').

Lemma stdout_round_once args g w g' lines w' :
  ready g → iterate_ current_pid crate_version debug_str to_json args g w = Done ((g', lines), w') →
  ready g' ∧ ∃ metrics, collected_once metrics ∧ lines_of args metrics lines.
Proof.
  intros Hg%clean_ready. unfold iterate_, show_metrics. intros (t & w1 & Ht & Hr)%io_bind_inv.
  pose proof (refresh_ready _ _ _ _ Hg Ht) as Ht'. apply io_bind_inv in Hr as (g1 & w2 & Ha & Hr).
  apply io_bind_inv in Hr as ([g2 metrics] & w3 & [Hp _]%lift_inv & Hr).
  apply io_bind_inv in Hr as (ls & w4 & Hl & [= <- <- _]).
  destruct (pop_metrics g1) as [[g3 ms]|] eqn:E; [|done]. injection Hp as -> ->.
  eapply collect_once in E as [Ho Hg']; [|exact Ht'|exact Ha]. split; [done|].
  exists metrics. split; [done|]. by exists g2, w3, w4.
Qed.

Lemma stdout_run_once args fuel g w g' l w' :
  ready g →
  Stdout.run current_pid crate_version debug_str to_json args fuel g w = Done (Some (g', l), w') →
  Forall (λ lines, ∃ metrics, collected_once metrics ∧ lines_of args metrics lines) l.
Proof.
  intros Hg. unfold Stdout.run. pose proof (stdout_round_once args) as Hround.
  destruct (time_limit args) as [limit|].
  - intros Hr. by eapply (timed_loop_all _ _ ready) in Hr as [_ Hl].
  - intros ([g1 l1] & w1 & Hr & [= _ <- _])%io_bind_inv.
    by eapply (first_rounds_all _ _ ready) in Hr as [_ Hl].
Qed.

Lemma scrape_once t last_request g w g' body w' :
  ready g → scrape current_pid crate_version t last_request g w = Done ((g', body), w') →
  ready g' ∧ ∃ metrics w1 w2, collected_once metrics ∧ send_all metrics w1 = Done (body, w2).
Proof.
  intros Hg. unfold scrape. intros (e & w1 & _ & Hr)%io_bind_inv. apply io_bind_inv in Hr as (g1 & w2 & Hc & Hr).
  assert (Hg1 : ready g1).
  { destruct (negb _); [|by injection Hc as <- _]. unfold clean_and_refresh in Hc.
    apply io_bind_inv in Hc as (t1 & w3 & Ht & [= <- _]). exact (refresh_ready _ _ _ _ (clean_ready _ Hg) Ht). }
  apply io_bind_inv in Hr as (g2 & w3 & Ha & Hr). apply io_bind_inv in Hr as ([g3 metrics] & w4 & [Hp _]%lift_inv & Hr).
  apply io_bind_inv in Hr as (b & w5 & Hb & [= <- <- _]).
  destruct (pop_metrics g2) as [[g4 ms]|] eqn:E; [|done]. injection Hp as -> ->.
  eapply collect_once in E as [Ho Hg']; [|exact Hg1|exact Ha]. split; [done|]. by exists metrics, w4, w5.
Qed.

Lemma push_once g w g' body w' :
  ready g → push_round current_pid crate_version g w = Done ((g', body), w') →
  ready g' ∧ ∃ metrics w1 w2, collected_once metrics ∧ send_all (add_host <$> metrics) w1 = Done (body, w2).
Proof.
  intros Hg. unfold push_round. intros (t & w1 & Ht & Hr)%io_bind_inv.
  pose proof (refresh_ready _ _ _ _ Hg Ht) as Ht'. apply io_bind_inv in Hr as (g2 & w3 & Ha & Hr).
  apply io_bind_inv in Hr as ([g3 metrics] & w4 & [Hp _]%lift_inv & Hr).
  apply io_bind_inv in Hr as (b & w5 & Hb & [= <- <- _]).
  destruct (pop_metrics g2) as [[g4 ms]|] eqn:E; [|done]. injection Hp as -> ->.
  eapply collect_once in E as [Ho Hg']; [|exact Ht'|exact Ha]. split; [done|]. by exists metrics, w4, w5.
Qed.

(** The answers of the server: the text of one collection, or nothing once it has panicked. *)
Definition answer_of (body : string) : Prop :=
  body = ""%string ∨ ∃ metrics w w', collected_once metrics ∧ send_all metrics w = Done (body, w').

Lemma server_once suffix s answers s' :
  ready (contents (metric_generator (context s))) →
  Prometheus.run current_pid crate_version suffix s answers s' → Forall answer_of answers.
Proof.
  intros Hg Hr. induction Hr as [s|s answer s' answers s'' Hs Hr IH]; [constructor|].
  assert (ready (contents (metric_generator (context s'))) ∧ from_option answer_of True answer) as [Hg' Ha].
  { destruct Hs as [s t w' _|s i t c w' answer _ Hv]; [done|].
    destruct Hv as [Hn| |g body w' _ _ _ [Hg' Hm]%scrape_once|]; simpl; [done|by split; [|left]| |done|done].
    split; [done|by right]. }
  specialize (IH Hg'). destruct answer; [by constructor|done].
Qed.

End Exporters.
End Session.

(** ** Example *)

(** A host with two packages, one with two domains and one with one; the program has pid 7. *)
Module SessionHost.

#[export] Existing Instances x86_64.
#[export] Instance checked : Profile := true.

Definition newline : string := Powercap.newline.
Definition folder_0 : string := "/sys/class/powercap/intel-rapl:0:0".
Definition folder_1 : string := "/sys/class/powercap/intel-rapl:0:1".
Definition folder_2 : string := "/sys/class/powercap/intel-rapl:1:0".

Definition session_files : files := λ p t,
  if decide (p = folder_0 +:+ "/name") then Some ("core" +:+ newline)
  else if decide (p = folder_1 +:+ "/name") then Some ("dram" +:+ newline)
  else if decide (p = folder_2 +:+ "/name") then Some ("core" +:+ newline)
  else if decide (p = folder_0 +:+ "/energy_uj") then Some (show_uint (1000 * t) +:+ newline)
  else if decide (p = folder_1 +:+ "/energy_uj") then Some (show_uint (500 * t) +:+ newline)
  else if decide (p = folder_2 +:+ "/energy_uj") then Some (show_uint (700 * t) +:+ newline)
  else if decide (p = "/sys/class/powercap/intel-rapl:0/energy_uj"%string) then Some (show_uint (3000 * t) +:+ newline)
  else if decide (p = "/sys/class/powercap/intel-rapl:1/energy_uj"%string) then Some (show_uint (2000 * t) +:+ newline)
  else None.

#[export] Instance host : Os := simulated session_files.
#[export] Instance host_fs : FileSystem := @Build_FileSystem host
  (λ _ w, (Some [Some "/sys/class/powercap/intel-rapl:0"%string; Some folder_0; Some folder_1;
                 Some "/sys/class/powercap/intel-rapl:1"%string; Some folder_2], w))
  (λ _ w, (false, w)) (λ _ _ _ w, (Some [0], w)).
#[export] Instance host_procfs : Procfs := simulated_procfs session_files.
#[export] Instance host_perf : PerfEvents := simulated_perf session_files.
#[export] Instance host_sysinfo : Sysinfo := simulated_sysinfo session_files 2
  [SampleHost.sys_process 42 "/bin/a"; SampleHost.sys_process 7 "/bin/scaphandre"].
#[export] Instance host_aya : Aya := simulated_aya session_files [].
#[export] Instance host_modules : KernelModules := λ w, (Some ["intel_rapl_msr"%string], w).
#[export] Instance host_maps : HashMaps := simulated_maps session_files.
#[export] Instance host_maps_laws : HashLaws := simulated_maps_laws session_files.
#[export] Instance host_instants : Instants := simulated_instants session_files.
#[export] Instance host_runtimes : ContainerRuntimes :=
  simulated_runtimes session_files [SampleHost.sample_container] SampleHost.docker_cgroup.
#[export] Instance host_regex : Regex := λ p s,
  if decide (p ∈ [re_socket; re_domain; re_socket_mmio; re_domain_mmio]) then Powercap.host_regex p s
  else SampleHost.host_regex p s.
#[export] Instance host_captures : Captures := SampleHost.host_captures.

#[export] Instance host_sysinfo_laws : SysinfoLaws.
Proof. intros s. apply (bool_decide_unpack _). vm_compute. exact I. Qed.

Definition content (folder : string) : option string :=
  if decide (folder = folder_0) then Some ("core" +:+ newline)
  else if decide (folder = folder_1) then Some ("dram" +:+ newline)
  else if decide (folder = folder_2) then Some ("core" +:+ newline) else None.

(** Only the domains have a name. *)
Lemma name_files f t : session_files (f +:+ "/name") t = content f.
Proof.
  unfold content. destruct (decide (f = folder_0)) as [->|H0]; [reflexivity|].
  destruct (decide (f = folder_1)) as [->|H1]; [reflexivity|].
  destruct (decide (f = folder_2)) as [->|H2]; [reflexivity|].
  pose proof (strip_suffix_append "/name" f) as Hs. unfold session_files.
  repeat (destruct (decide _) as [E|_]; [rewrite E in Hs; vm_compute in Hs; exfalso; first [done|injection Hs as <-; auto]|]).
  done.
Qed.

#[export] Instance host_names : NameFiles content.
Proof.
  split.
  - intros f w n w'. simpl. intros [= Hr _]. by rewrite name_files in Hr.
  - intros f g i j k n m _ _ Hi Hi' Hj Hk Hne. unfold content.
    repeat (destruct (decide _) as [->|_]); try done; intros [= <-] [= <-]; try (by vm_compute);
      vm_compute in Hj, Hk; congruence.
Qed.

Definition start : world := 5.
Definition session_sensor : PowercapRAPLSensor := Powercap.new None 1 1 false.

(** The server, and the first answer to a request made at the beginning. *)
Definition opened : outcome (PowerMetrics * world) :=
  match generate_topology session_sensor start with
  | Done (t, w) => start_server t "host" false true w
  | Panic => Panic
  end.

Definition first_scrape (ctx : PowerMetrics) (w : world) : outcome (MetricGenerator * string * world) :=
  scrape 7 "1.0.0" (mkDuration 9 0) (contents (last_request ctx)) (contents (metric_generator ctx)) w.

Lemma scraped : is_done (match opened with Done (ctx, w) => first_scrape ctx w | Panic => Panic end) = true.
Proof. vm_compute. reflexivity. Qed.
End SessionHost.

Import SessionHost.


(** *** The logs of the first two refreshes *)

Definition generated : outcome (Topology * world) := generate_topology session_sensor start.

Definition refreshed_twice : outcome (Topology * world) :=
  match generated with
  | Done (t, w) => (t ← Topology.refresh t; Topology.refresh t) (sleep (mkDuration 2 0) w)
  | Panic => Panic
  end.

Definition generated_fresh : bool := match generated with Done (t, _) => bool_decide (fresh t) | Panic => false end.

(** Each buffer has two records. *)
Definition two_each (r : outcome (Topology * world)) : bool :=
  match r with
  | Done (t, _) =>
      (length (records_of t) =? 2)%nat
      && forallb (λ s, (length (records_of s) =? 2)%nat
                       && forallb (λ d, (length (records_of d) =? 2)%nat) (domains s)) (sockets t)
  | Panic => false
  end.

Lemma generated_is_fresh : generated_fresh = true.
Proof. vm_compute. reflexivity. Qed.

Lemma twice_two_each : two_each refreshed_twice = true.
Proof. vm_compute. reflexivity. Qed.

Lemma refreshed_twice_inv :
  ∃ t w t1 w1 t2 w2, fresh t ∧ Topology.refresh t w = Done (t1, w1) ∧ Topology.refresh t1 w1 = Done (t2, w2) ∧
    two_each (Done (t2, w2)) = true.
Proof.
  pose proof generated_is_fresh as Hf. pose proof twice_two_each as H2. unfold generated_fresh in Hf.
  unfold refreshed_twice in H2. destruct generated as [[t w]|]; [|discriminate]. apply bool_decide_eq_true in Hf.
  destruct ((t ← Topology.refresh t; Topology.refresh t) (sleep (mkDuration 2 0) w)) as [[t2 w2]|] eqn:E; [|discriminate].
  apply io_bind_inv in E as (t1 & w1 & Hr1 & Hr2). by exists t, (sleep (mkDuration 2 0) w), t1, w1, t2, w2.
Qed.

Lemma buffers_refine_logs_witness :
  ∃ t w t1 w1 t2 w2 L1 L2, Topology.refresh t w = Done (t1, w1) ∧ Topology.refresh t1 w1 = Done (t2, w2) ∧
    two_each (Done (t2, w2)) = true ∧ logs_grow t (empty_logs t) L1 ∧ logs_grow t1 L1 L2 ∧ all_logged L2 t2 ∧
    pairs_of_logs L2 t2.
Proof.
  destruct refreshed_twice_inv as (t & w & t1 & w1 & t2 & w2 & Hf & Hr1 & Hr2 & H2).
  destruct (buffers_refine_logs (empty_logs t) t w t1 w1 (fresh_logged t Hf) Hr1) as (L1 & Hg1 & Hl1 & _).
  destruct (buffers_refine_logs L1 t1 w1 t2 w2 Hl1 Hr2) as (L2 & Hg2 & Hl2 & Hp2).
  exists t, w, t1, w1, t2, w2, L1, L2. split; [exact Hr1|]. split; [exact Hr2|]. split; [exact H2|].
  split; [exact Hg1|]. split; [exact Hg2|]. split; [exact Hl2|exact Hp2].
Defined.
