(* ===== verification/Alive.v ===== *)
(** * A sane host never stops the program

    The sources unwrap freely: a file of a counter, an executable that is text, the line of a
    CPU in the statistics of the kernel.  This file says what the host must grant, and shows
    that then, in a build without overflow checks, no refresh and no collection panics, in
    whatever state the former rounds have left the topology. *)

From S2P Require Import Prelude Floats Text TextOps FloatText Units Env Simulated Loops Records Energy Common.
From S2P Require Import Domain Core Socket ProcTracker Bpf Topology Attribution Powercap Containers ExporterUtils Metrics.
From S2P Require Import Samples Clones Series Search Prometheus Stdout Frame Session Returns.
From Stdlib Require Import Ascii.

(** ** The host *)

Definition sane_process (p : SysProcess) : Prop :=
  is_Some (p_exe p) ∧ 0 <= p_pid p <= 2 ^ 31 - 1 ∧ 0 <= p_memory p <= umax 64 ∧ 0 <= p_virtual_memory p <= umax 64.

(** What the host grants: the clock is after the epoch; the CPUs have numbers below [cpus], for
    which the statistics of the kernel and the eBPF maps have a line each; the processes, of which this one, have
    executables that are text; the ring buffer holds what the eBPF programs write in it. *)
Class SaneHost `{Os, !Procfs, !Sysinfo, !Aya} (current_pid : Z) (cpus : nat) : Prop := {
  sane_clock w : ∃ d, (clock w).1 = Some d;
  sane_cpus s i c : Env.cpus s !! i = Some c → (Z.to_nat (cpu_id (Z.of_nat i) (c_name c)) < cpus)%nat;
  sane_stats w ks : (kernel_stats w).1 = Some ks → (cpus <= length (ks_cpu_time ks))%nat;
  sane_processes s : Forall sane_process (Env.processes s);
  sane_known s p q : Env.sys_process s p = Some q → sane_process q;
  sane_self s : is_Some (Env.sys_process s current_pid);
  sane_times m p w l : (pid_get m p w).1 = Some l → (cpus <= length l)%nat;
  sane_events b w i : (ring_next b w).1 = Some i → ∃ e, i = encode_event e;
}.

Section Refresh.
Context `{Profile, Layout, Os, !FileSystem, !Procfs, !PerfEvents, !Sysinfo, !Aya}.
Context (current_pid : Z) (cpus : nat) `{!SaneHost current_pid cpus}.
Context (release : overflow_checks = false).

(** *** Arithmetic, files and the clock *)

Lemma arith_yields w z : yields (arith w z) any.
Proof. unfold arith. rewrite release. destruct (in_range w z); by eexists. Qed.

Lemma usum_yields w a l : yields (usum w a l) any.
Proof.
  unfold usum. revert a. induction l as [|x l IH]; intros a; simpl; [by apply yields_ret|].
  eapply (yields_bind any); [apply arith_yields|]. auto.
Qed.

Lemma now_returns : returns current_system_time_since_epoch any.
Proof.
  intros w. destruct (sane_clock w) as [d Hd]. unfold current_system_time_since_epoch.
  destruct (clock w) as [o w']. simpl in Hd. subst o. by exists d, w'.
Qed.

Lemma file_returns p : returns (read_file p) any.
Proof. intros w. unfold read_file. destruct (read_to_string p w) as [o w']. by exists o, w'. Qed.

Lemma stats_returns : returns read_kernel_stats (λ o, ∀ ks, o = Some ks → (cpus <= length (ks_cpu_time ks))%nat).
Proof.
  intros w. unfold read_kernel_stats. pose proof (sane_stats w) as Hs. destruct (kernel_stats w) as [o w'].
  exists o, w'. split; [done|exact Hs].
Qed.

Lemma clean_front_yields {A} kb size (l : list A) : yields (clean_front kb size l) any.
Proof. unfold clean_front, limit_bytes. any_steps. apply arith_yields. Qed.

Lemma clean_front_keeps {A} kb size (l : list A) P :
  Forall P l → yields (clean_front kb size l) (Forall P).
Proof.
  intros Hl. unfold clean_front, limit_bytes. eapply (yields_bind any); [apply arith_yields|]. intros limit _.
  apply yields_ret. rewrite remove_first_drop. by apply Forall_drop.
Qed.

Lemma clean_back_yields {A} kb size (l : list A) : yields (clean_back kb size l) any.
Proof. unfold clean_back, limit_bytes. any_steps. apply arith_yields. Qed.

Ltac done_steps :=
  any_steps; repeat first
    [ apply arith_yields | apply usum_yields | apply now_returns | apply file_returns
    | apply clean_front_yields | apply clean_back_yields ].

Lemma counter_returns data :
  has_file data →
  returns (source_file ← lift (unwrap (data !! "source_file"%string));
           content ← read_file source_file;
           match content with
           | Some value => now ← current_system_time_since_epoch; mret (Some (mkRecord now value MicroJoule))
           | None => mret None
           end) any.
Proof. intros [f ->]. done_steps. by eexists. Qed.

(** *** Domains, cores, sockets *)

Definition sound_domain (d : Domain) : Prop := has_file (Domain.sensor_data d).
Definition sound_core (c : CPUCore) : Prop := (Z.to_nat (Core.id c) < cpus)%nat.

(** The text of a number, as the exporters parse it. *)
Definition numeric (v : string) : Prop := is_Some (parse_f32 v).

Lemma numeric_uint n : 0 <= n → numeric (show_uint n).
Proof. intros Hn. unfold numeric, parse_f32. rewrite parse_float_show_uint by done. by eexists. Qed.

Record sound_socket (s : CPUSocket) : Prop := {
  sound_file : has_file (Socket.sensor_data s);
  sound_domains : Forall sound_domain (domains s);
  sound_cores : Forall sound_core (cpu_cores s);
  sound_estimates : Forall (λ r, Forall numeric (m_values r)) (Socket.activation_idle_buffer s);
}.

Lemma domain_returns d : sound_domain d → returns (Domain.refresh_record d) sound_domain.
Proof.
  intros Hd. unfold Domain.refresh_record. eapply (returns_bind any); [by apply counter_returns|]. intros o _.
  set (e := match o with Some r => _ | None => d end). assert (sound_domain e) as He by (unfold e; by destruct o).
  clearbody e. destruct (Domain.record_buffer e) eqn:E; [by apply returns_ret|]. apply returns_lift.
  unfold Domain.clean_old_records. rewrite E. eapply (yields_bind any); [apply clean_front_yields|].
  intros b _. by apply yields_ret.
Qed.

Lemma busy_yields t : yields (busy_and_total t) any.
Proof. unfold busy_and_total. done_steps. Qed.

Lemma core_reads c : returns (Core.read_record c) any.
Proof.
  unfold Core.read_record, read_idle, read_msr, cpu_times, read_counter. any_steps; try apply now_returns.
  - apply (returns_fold _ any); [done|]. intros total p _ _. unfold idle_state. done_steps.
  - eapply returns_weaken; [apply stats_returns|done].
  - apply busy_yields.
  - apply busy_yields.
Qed.

Lemma core_returns c : sound_core c → returns (Core.refresh_record c) sound_core.
Proof.
  intros Hc. unfold Core.refresh_record. eapply (returns_bind any); [apply core_reads|]. intros o _.
  set (e := match o with inl r => _ | inr _ => c end). assert (sound_core e) as He by (unfold e; by destruct o).
  clearbody e. destruct (Core.record_buffer e) eqn:E; [by apply returns_ret|]. apply returns_lift.
  unfold Core.clean_old_records. rewrite E. eapply (yields_bind any); [apply clean_front_yields|].
  intros b _. by apply yields_ret.
Qed.

Lemma core_stats_returns c : sound_core c → returns (Core.read_stats c) any.
Proof.
  intros Hc. unfold Core.read_stats. eapply returns_bind; [apply stats_returns|]. intros [ks|] Hks; any_steps.
  apply yields_unwrap; [|done]. apply lookup_lt_is_Some. specialize (Hks ks eq_refl). unfold sound_core in Hc. lia.
Qed.

Lemma add_stats_yields a b : yields (add_stats a b) any.
Proof. unfold add_stats. done_steps. Qed.

Lemma estimates_return records s :
  sound_socket s → returns (Socket.refresh_activation_idle_records records s) sound_socket.
Proof.
  intros [Hf Hd Hc He]. unfold Socket.refresh_activation_idle_records, read_activation_idle_record.
  eapply (returns_bind (λ o, ∀ r, o = Some r → Forall numeric (m_values r))).
  - destruct (new_estimates records s) as [[i a]|] eqn:E; [|by apply returns_ret].
    apply new_estimates_range in E as [Hi Ha]. eapply (returns_bind any); [apply now_returns|]. intros now _.
    apply returns_ret. intros r [= <-]. unfold u64 in *. repeat constructor; apply numeric_uint; lia.
  - intros [r|] Hr; apply returns_ret; split; try done. simpl. apply Forall_app. split; [done|].
    constructor; [by apply Hr|constructor].
Qed.

Lemma distribute_sound s : sound_socket s → sound_socket (distribute_background_to_domains s).
Proof.
  unfold distribute_background_to_domains. destruct (feqb _ _); [done|]. intros [Hf Hd Hc He]. split; [done| |done|done].
  simpl. generalize (power_f64 (Socket.get_records_diff_power_microwatts s)). intros total.
  generalize (F64.of_Z (Z.of_nat (length (domains s)))). intros n.
  generalize (default F64.zero (parse_f64 (background_value s))). intros bg.
  induction Hd as [|d l Hd Hl IH]; [constructor|]. by constructor.
Qed.

Lemma socket_record_returns s : sound_socket s → returns (Socket.refresh_record s) sound_socket.
Proof.
  intros [Hf Hd Hc Hb]. unfold Socket.refresh_record. eapply (returns_bind any); [by apply counter_returns|]. intros o _.
  set (e := match o with Some r => _ | None => s end). assert (sound_socket e) as He by (unfold e; by destruct o).
  clearbody e. destruct (Socket.record_buffer e) eqn:E; [by apply returns_ret|]. apply returns_lift.
  unfold Socket.clean_old_records. rewrite E. destruct He as [Hfe Hde Hce Hbe].
  eapply (yields_bind any); [apply clean_front_yields|].
  intros b _. cbn [Socket.activation_idle_buffer Socket.set_record_buffer].
  destruct (Socket.activation_idle_buffer e) eqn:Eb; [apply yields_ret; split; [done..|]; cbn; rewrite Eb; constructor|].
  eapply yields_bind; [by eapply clean_front_keeps|]. intros b' Hb'. by apply yields_ret.
Qed.

Lemma socket_stats_return s : sound_socket s → returns (Socket.refresh_stats s) sound_socket.
Proof.
  intros Hs. unfold Socket.refresh_stats. eapply (returns_bind sound_socket).
  { destruct (Socket.stat_buffer s) eqn:E; [by apply returns_ret|]. apply returns_lift.
    unfold Socket.clean_old_stats. rewrite E. eapply (yields_bind any); [apply clean_back_yields|].
    intros b _. apply yields_ret. by destruct Hs. }
  clear s Hs. intros s Hs. eapply (returns_bind is_Some).
  - unfold Socket.read_stats. eapply (returns_bind any); [|intros x _; by apply returns_ret; eexists].
    apply (returns_fold _ any); [done|]. intros total c Hc _. eapply (returns_bind any).
    + apply core_stats_returns. destruct Hs as [_ _ Hcs]. rewrite Forall_forall in Hcs. by apply Hcs.
    + intros [x|] _; [apply returns_lift, add_stats_yields|by apply returns_ret].
  - intros o Ho. eapply (returns_bind any); [by apply returns_lift, yields_unwrap|].
    intros x _. apply returns_ret. by destruct Hs.
Qed.

Lemma socket_returns s records : sound_socket s → returns (refresh_socket s records) sound_socket.
Proof.
  intros Hs. unfold refresh_socket. eapply returns_bind; [by apply estimates_return|].
  intros s1 H1'%distribute_sound. cbv zeta. eapply returns_bind; [by apply socket_record_returns|].
  intros s2 H2'. eapply returns_bind; [by apply socket_stats_return|]. intros s3 [Hf Hd Hc].
  eapply (returns_bind (Forall sound_domain)).
  - apply returns_map. intros d Hin. rewrite Forall_forall in Hd. by apply domain_returns, Hd.
  - intros ds Hds. by apply returns_ret.
Qed.

(** *** Processes *)

Definition sound_process (q : IProcess) : Prop :=
  0 <= pid q <= 2 ^ 31 - 1 ∧ 0 <= memory q <= umax 64 ∧ 0 <= virtual_memory q <= umax 64 ∧
  ∀ l, core_busy_times q = Some l → (cpus <= length l)%nat.

Definition sound_records (procs : list (list ProcessRecord)) : Prop :=
  Forall (Forall (λ r, sound_process (process r))) procs.

Lemma core_times_return p pt :
  returns (get_process_core_times p pt) (λ o, ∀ l, o = Some l → (cpus <= length l)%nat).
Proof.
  unfold get_process_core_times. destruct (core_times_map pt) as [m|]; [|by apply returns_ret].
  apply returns_effect. intros w. apply sane_times.
Qed.

Lemma process_returns p times :
  sane_process p → (∀ l, times = Some l → (cpus <= length l)%nat) → returns (new_process p times) sound_process.
Proof.
  intros (He & Hp & Hm & Hv) Ht. unfold new_process. rewrite parse_show_int by lia.
  eapply (returns_bind any); [by apply returns_lift, yields_unwrap|]. intros n _.
  eapply (returns_bind any); [intros w; unfold read_process_stat; destruct (process_stat n w) as [o w']; by exists o, w'|].
  intros stat _. eapply (returns_bind any); [destruct stat as [[ut st]|]; done_steps|]. intros [[u v] b] _.
  eapply (returns_bind any); [eapply returns_weaken; [apply stats_returns|done]|]. intros ks _.
  eapply (returns_bind any); [destruct ks; [apply returns_lift, usum_yields|by apply returns_ret]|]. intros nb _.
  eapply (returns_bind any); [by apply returns_lift, yields_unwrap|]. intros c _. by apply returns_ret.
Qed.

Lemma Forall_pop_oldest (P : ProcessRecord → Prop) n v : Forall P v → Forall P (pop_oldest n v).
Proof.
  revert v. induction n as [|n IH]; intros v Hv; simpl; [done|]. apply IH. rewrite removelast_take. apply Forall_take.
  unfold sort_newest_first. by rewrite sort_by_perm.
Qed.

Lemma add_record_sound m r l : sound_process (process r) → sound_records l → sound_records (add_record m r l).
Proof.
  intros Hr Hl. induction Hl as [|v l Hv Hl IH]; simpl; [constructor; [by apply Forall_singleton|constructor]|].
  destruct (is_vector_of _ v); [|by constructor]. constructor; [|done]. unfold add_to_vector, clean_old_process_records.
  apply Forall_pop_oldest. constructor; [done|]. destruct (head v); [case_decide; [constructor|done]|done].
Qed.

Lemma procs_return t :
  sound_records (procs (proc_tracker t)) →
  returns (refresh_procs t) (λ t', sockets t' = sockets t ∧ sound_records (procs (proc_tracker t'))).
Proof.
  intros Hs. unfold refresh_procs. eapply (returns_bind any); [by apply returns_effect|]. intros sys _. cbv zeta.
  eapply (returns_bind (Forall sound_process)).
  - apply returns_map. intros p Hp. eapply returns_bind; [apply core_times_return|]. intros times Ht.
    apply process_returns; [|done]. pose proof (sane_processes sys) as Hsys. rewrite Forall_forall in Hsys. by apply Hsys.
  - intros ps Hps. eapply (returns_bind (λ pt, sound_records (procs pt))); [|intros pt Hpt; by apply returns_ret].
    apply returns_fold; [exact Hs|]. intros pt p Hp Hpt. unfold add_process_record, new_record.
    rewrite Forall_forall in Hps. specialize (Hps p Hp).
    eapply (returns_bind (λ r : ProcessTracker * (string + string), sound_records (procs r.1) ∧ ∃ m, r.2 = inl m)).
    + eapply (returns_bind (λ r, sound_process (process r))).
      * eapply (returns_bind any); [apply now_returns|]. intros now _. by apply returns_ret.
      * intros r Hr. apply returns_ret. split; [by apply add_record_sound|by eexists].
    + intros [pt' r] [Hpt' [m Hm]]. simpl in Hm |- *. subst r. by apply returns_ret.
Qed.

(** *** The topology *)

Record sound (t : Topology) : Prop := {
  sound_sockets : Forall sound_socket (sockets t);
  sound_tracker : sound_records (procs (proc_tracker t));
  sound_tidy : tidy (proc_tracker t);
}.

#[local] Instance sane_laws : SysinfoLaws.
Proof. intros s. eapply Forall_impl; [apply sane_processes|]. by intros p (_ & [? _] & _). Qed.

Lemma decode_yields e : yields (decode_event (encode_event e)) any.
Proof. destruct e as [i []]; by eexists. Qed.

Lemma drain_returns fuel b events : returns (drain fuel b events) any.
Proof.
  revert events. induction fuel as [|fuel IH]; intros events; [by apply returns_ret|]. cbn [drain].
  eapply (returns_bind (λ o, ∀ i, o = Some i → ∃ e, i = encode_event e));
    [apply returns_effect; intros w i; apply sane_events|].
  intros [i|] Hi; [|by apply returns_ret]. destruct (Hi i eq_refl) as [e ->].
  eapply (returns_bind any); [|intros evs _; apply IH]. case_decide; [|by apply returns_ret].
  eapply (returns_bind any); [apply returns_lift, decode_yields|]. intros ev _. by apply returns_ret.
Qed.

Lemma events_return t :
  returns (refresh_activation_idle_records t)
    (λ t', sockets t' = sockets t ∧ proc_tracker t' = proc_tracker t).
Proof.
  unfold refresh_activation_idle_records. destruct (cpu_state_buffer t) as [b|]; [|by apply returns_ret].
  eapply (returns_bind any); [|intros evs _; by apply returns_ret]. intros w. apply drain_returns.
Qed.

Lemma tracker_returns pt :
  returns (ProcTracker.refresh pt) (λ pt', procs pt' = procs pt).
Proof. unfold ProcTracker.refresh. do 5 (eapply (returns_bind any); [by apply returns_effect|intros ? _]). by apply returns_ret. Qed.

Lemma cores_return t :
  Forall sound_socket (sockets t) →
  returns (refresh_core_idle_records t)
    (λ t', Forall sound_socket (sockets t') ∧ proc_tracker t' = proc_tracker t).
Proof.
  intros Hs. unfold refresh_core_idle_records. eapply (returns_bind (Forall sound_socket)); [|intros l Hl; by apply returns_ret].
  apply returns_map. intros s Hin. rewrite Forall_forall in Hs. destruct (Hs s Hin) as [Hf Hd Hc].
  eapply (returns_bind (Forall sound_core)); [|intros cs Hcs; by apply returns_ret].
  apply returns_map. intros c Hc'. rewrite Forall_forall in Hc. by apply core_returns, Hc.
Qed.

Lemma cpu_time_returns t : returns (refresh_cpu_time_record t) any.
Proof.
  unfold refresh_cpu_time_record. destruct (cpu_time_map t) as [m|]; [|by apply returns_ret].
  eapply (returns_bind any).
  - eapply returns_weaken; [apply (returns_map _ any)|done]. intros i _. done_steps.
  - intros values _. cbv zeta. eapply (returns_bind any); [apply now_returns|]. intros now _. apply returns_lift.
    unfold clean_old_cpu_time_records, limit_bytes. done_steps.
Qed.

Lemma add_value_yields total r : yields (add_record_value total r) any.
Proof. unfold add_record_value. rewrite release. done_steps. Qed.

Lemma host_reads t : Forall sound_socket (sockets t) → returns (Topology.read_record t) any.
Proof.
  intros Hs. unfold Topology.read_record, get_rapl_psys_energy_microjoules. eapply (returns_bind any); [done_steps|].
  intros [r|] _; [by apply returns_ret|].
  eapply (returns_bind any); [|intros total _; done_steps]. apply (returns_fold _ any); [done|].
  intros total s Hin _. rewrite Forall_forall in Hs. destruct (Hs s Hin) as [Hf Hd _]. unfold add_socket_energy.
  eapply (returns_bind any); [by apply counter_returns|]. intros r _.
  eapply (returns_bind any); [apply returns_lift, add_value_yields|]. intros total' _.
  apply (returns_fold _ any); [done|]. intros n d Hin' _. rewrite Forall_forall in Hd.
  case_decide; [|by apply returns_ret]. eapply (returns_bind any); [by apply counter_returns, Hd|].
  intros dr _. apply returns_lift, add_value_yields.
Qed.

Lemma host_record_returns t : Forall sound_socket (sockets t) → returns (Topology.refresh_record t) any.
Proof.
  intros Hs. unfold Topology.refresh_record. eapply (returns_bind any); [by apply host_reads|]. intros r _.
  set (e := match r with inl _ => _ | inr _ => t end). clearbody e.
  destruct (Topology.record_buffer e) eqn:E; [by apply returns_ret|]. apply returns_lift.
  unfold Topology.clean_old_records, limit_bytes. rewrite E. eapply (yields_bind any); [apply arith_yields|].
  intros limit _. by apply yields_ret.
Qed.

Lemma host_stats_return t : returns (Topology.refresh_stats t) any.
Proof.
  unfold Topology.refresh_stats, Topology.read_stats.
  eapply (returns_bind any); [eapply (returns_bind any); [eapply returns_weaken; [apply stats_returns|done]|]|];
    [intros ks _; by apply returns_ret|].
  intros [st|] _; [|by apply returns_ret]. apply returns_lift. unfold Topology.clean_old_stats.
  cbn [Topology.stat_buffer Topology.set_stat_buffer]. eapply (yields_bind any); [apply clean_back_yields|].
  intros b _. by apply yields_ret.
Qed.

(** A refresh returns, and leaves a topology that can be refreshed again. *)
Lemma refresh_returns t : sound t → returns (Topology.refresh t) sound.
Proof.
  intros [Hs Hr Ht].
  assert (returns (Topology.refresh t)
    (λ t', Forall sound_socket (sockets t') ∧ sound_records (procs (proc_tracker t')))) as Hall.
  { unfold Topology.refresh. eapply returns_bind; [apply events_return|]. intros t1 [E1 E1'].
    destruct (take_idle_records _ t1) as [t2 rs] eqn:E. pose proof (take_idle_records_tracker _ _ _ _ E) as E2'.
    apply take_idle_records_sockets in E as [E2 _]. rewrite E2, E1.
    eapply (returns_bind (Forall sound_socket)).
    { apply returns_map. intros [s r] Hin%elem_of_zip_l. rewrite Forall_forall in Hs. by apply socket_returns, Hs. }
    intros l Hl. cbn [proc_tracker set_sockets]. rewrite E2', E1'. eapply returns_bind; [apply tracker_returns|].
    intros pt Hpt. eapply returns_bind; [by apply cores_return|]. intros t3 [Hs3 Hp3].
    cbn [proc_tracker set_proc_tracker] in Hp3. rewrite <- Hpt, <- Hp3 in Hr.
    eapply returns_bind; [by apply procs_return|]. intros t4 [E4 Hr4]. rewrite <- E4 in Hs3.
    eapply returns_bind; [apply (returns_and _ any); [apply cpu_time_returns|exact (λ w a w', cpu_time_tracked t4 w a w')]|].
    intros t5 [_ [= E5 _ E5']]. rewrite <- E5 in Hs3. rewrite <- E5' in Hr4.
    eapply returns_bind; [apply (returns_and _ any); [by apply host_record_returns|exact (λ w a w', record_tracked t5 w a w')]|].
    intros t6 [_ [= E6 _ E6']]. rewrite <- E6 in Hs3. rewrite <- E6' in Hr4.
    eapply returns_weaken; [apply (returns_and _ any); [apply host_stats_return|exact (λ w a w', stats_tracked t6 w a w')]|].
    intros t7 [_ [= -> _ ->]]. done. }
  eapply returns_weaken; [eapply returns_and; [exact Hall|]|].
  - intros w t' w'. by apply refresh_tidy.
  - intros t' [[? ?] ?]. by split.
Qed.

Lemma drop_from_sound i n l : sound_records l → sound_records (drop_from i n l).
Proof.
  revert i l. induction n as [|n IH]; intros i l Hl; simpl; [done|]. apply IH.
  destruct (l !! i) as [[|r v]|]; try done. by apply Forall_delete.
Qed.

Lemma clean_sound t : sound t → sound (clean_terminated t).
Proof.
  intros [Hs Hr Ht]. split; [done| |by apply clean_terminated_tidy]. simpl. apply drop_from_sound, Forall_fmap.
  eapply Forall_impl; [exact Hr|]. intros v Hv. unfold compose, empty_if_terminated.
  destruct (vector_pid v); [|done]. destruct (Env.sys_process _ _); [|constructor]. by destruct (p_status _).
Qed.
End Refresh.

Section Collect.
Context `{Profile, Layout, Os, !FileSystem, !Procfs, !PerfEvents, !Sysinfo, !Aya}.
Context `{!HashMaps, !ContainerRuntimes, Regex, Captures}.
Context (current_pid : Z) (cpus : nat) `{!SaneHost current_pid cpus} (crate_version : string).
Context (release : overflow_checks = false).
#[local] Abbreviation sound := (sound cpus).
#[local] Abbreviation now_returns := (now_returns current_pid cpus).

(** *** What the records say *)

Lemma find_records_in p pt v : find_records p pt = Some v → v ∈ procs pt.
Proof.
  rewrite find_records_last. intros Hv. apply last_Some in Hv as [l Hl].
  assert (v ∈ List.filter (is_vector_of p) (procs pt)) as Hin by (rewrite Hl; set_solver).
  apply list_elem_of_In, filter_In in Hin as [Hin _]. by apply list_elem_of_In.
Qed.

Lemma record_sound p pt v i r :
  sound_records cpus (procs pt) → find_records p pt = Some v → v !! i = Some r → sound_process cpus (process r).
Proof.
  intros Hs Hv%find_records_in Hr%list_elem_of_lookup_2. unfold sound_records in Hs. rewrite Forall_forall in Hs.
  specialize (Hs v Hv). rewrite Forall_forall in Hs. by apply Hs.
Qed.

Lemma last_record_sound p pt r :
  sound_records cpus (procs pt) → get_process_last_record p pt = Some r → sound_process cpus (process r).
Proof.
  unfold get_process_last_record. intros Hs (v & Hv & Hr)%bind_Some. apply (record_sound p pt v 0); [done|done|].
  by destruct v.
Qed.

(** A pid that is listed has one vector of records, which is not empty. *)
Lemma alive_vector p pt :
  tidy pt → p ∈ get_alive_pids pt → ∃ r v, List.filter (is_vector_of p) (procs pt) = [r :: v].
Proof.
  intros [_ _ Hn _] Hp. assert (p ∈ omap vector_pid (procs pt)) as Hin
    by (eapply elem_of_sublist; [exact Hp|apply alive_pids_sublist]).
  apply list_elem_of_omap in Hin as (v & Hv & Hpid).
  assert (v ∈ List.filter (is_vector_of p) (procs pt)) as Hf.
  { apply list_elem_of_In, filter_In. split; [by apply list_elem_of_In|by apply is_vector_of_spec]. }
  destruct (filter_unique p _ Hn) as [E|[u E]]; rewrite E in Hf; [by apply elem_of_nil in Hf|].
  apply list_elem_of_singleton in Hf as <-. destruct v as [|r v]; [done|]. by exists r, v.
Qed.

Lemma alive_pid_range p t : sound t → p ∈ get_alive_pids (proc_tracker t) → 0 <= p <= 2 ^ 31 - 1.
Proof.
  intros [_ Hr Ht] Hp. destruct (alive_vector p _ Ht Hp) as (r & v & E).
  assert (r :: v ∈ List.filter (is_vector_of p) (procs (proc_tracker t))) as Hin by (rewrite E; by left).
  apply list_elem_of_In, filter_In in Hin as [Hin Hv%is_vector_of_spec]. apply list_elem_of_In in Hin.
  injection Hv as <-. unfold sound_records in Hr. rewrite Forall_forall in Hr. specialize (Hr _ Hin).
  inversion_clear Hr as [|? ? Hp1 _]. apply Hp1.
Qed.

(** *** The power of a process *)

Lemma cores_sound t : sound t → Forall (sound_core cpus) (get_cores t).
Proof.
  intros [Hs _ _]. unfold get_cores. rewrite sort_by_key_perm. apply Forall_join, Forall_fmap.
  eapply Forall_impl; [exact Hs|]. intros s [_ _ Hc]. unfold compose, Socket.get_cores.
  rewrite sort_by_key_perm. by apply Forall_fmap.
Qed.

Lemma sub_all_yields l k : yields (sub_all l k) (λ d, length d = Nat.min (length l) (length k)).
Proof.
  revert k. induction l as [|x l IH]; intros [|y k]; simpl; try by apply yields_ret.
  eapply (yields_bind any); [by apply arith_yields|]. intros d _. eapply yields_bind; [apply IH|].
  intros ds Hds. apply yields_ret. simpl. by rewrite Hds.
Qed.

Lemma deltas_yield p pt :
  sound_records cpus (procs pt) →
  yields (get_per_core_cpu_time_delta p pt) (λ o, ∀ l, o = Some l → (cpus <= length l)%nat).
Proof.
  intros Hs. unfold get_per_core_cpu_time_delta. destruct (two_records p pt) as [[last prev]|] eqn:E; [|by apply yields_ret].
  unfold two_records in E. apply bind_Some in E as (v & Hv & E). apply bind_Some in E as (r & Hr & E).
  apply bind_Some in E as (q & Hq & [= -> ->]).
  pose proof (record_sound _ _ _ _ _ Hs Hv Hr) as (_ & _ & _ & Hl). pose proof (record_sound _ _ _ _ _ Hs Hv Hq) as (_ & _ & _ & Hk).
  destruct (core_busy_times (process last)) as [l|]; [|by apply yields_ret].
  destruct (core_busy_times (process prev)) as [k|]; [|by apply yields_ret]. case_decide; [|by apply yields_ret].
  specialize (Hl l eq_refl). specialize (Hk k eq_refl). destruct (sub_all_yields l k) as (d & -> & Hd).
  apply yields_ret. intros ? [= <-]. lia.
Qed.

Lemma cpu_diff_yields t : yields (get_cpu_time_diff t) any.
Proof.
  unfold get_cpu_time_diff. destruct (last_two _) as [[prev last]|]; [|by apply yields_ret].
  eapply (yields_bind (Forall any)); [|intros diffs _; by destruct (forallb _ _); apply yields_ret].
  apply yields_traverse. intros x _. destruct (arith_yields release 64 0) as (z & _ & _).
  assert (yields (time_delta (value_or_0 x.1) (value_or_0 x.2)) any) as (d & -> & _); [|by eexists].
  unfold time_delta. destruct (_ <=? _); [by apply arith_yields|].
  eapply (yields_bind any); [by apply arith_yields|]. intros d _. by apply arith_yields.
Qed.

Lemma nth_yields l t : sound t → (cpus <= length l)%nat → ∀ c, c ∈ get_cores t → yields (nth_ns l c) any.
Proof.
  intros Ht Hl c Hc. pose proof (cores_sound t Ht) as Hcs. rewrite Forall_forall in Hcs. specialize (Hcs c Hc).
  apply yields_unwrap; [|done]. apply lookup_lt_is_Some. unfold sound_core in Hcs. lia.
Qed.

Lemma core_data_yields p t : sound t → yields (get_process_core_time_data p t) any.
Proof.
  intros Ht. unfold get_process_core_time_data. eapply yields_bind; [apply deltas_yield; by destruct Ht|].
  intros [l|] Hl; [|by apply yields_ret]. specialize (Hl l eq_refl).
  eapply (yields_bind any); [apply cpu_diff_yields|]. intros [diff|] _; [|by apply yields_ret]. cbv zeta.
  eapply (yields_bind (Forall any)); [apply yields_traverse; intros c Hc|].
  { destruct (0 <? _); [|by apply yields_ret]. eapply (yields_bind any); [by eapply nth_yields|].
    intros d _. by apply yields_ret. }
  intros props _. eapply (yields_bind (Forall any)); [apply yields_traverse; intros c Hc; by eapply nth_yields|].
  intros ns _. by apply yields_ret.
Qed.

Lemma per_process_yields p t : sound t → yields (get_all_per_process p t) is_Some.
Proof.
  intros Ht. unfold get_all_per_process. destruct (get_process_last_record p _) as [record|]; [|by apply yields_ret; eexists].
  cbv zeta. eapply (yields_bind any); [by apply core_data_yields|]. intros ebpf _.
  assert (yields (get_process_core_proportions p t) (λ o, ∀ l, o = Some l → length l = length (get_cores t)))
    as (shares & -> & Hl).
  { destruct (core_data_yields p t Ht) as (o & Ho & _). assert (∃ o', get_process_core_proportions p t = Done o') as [o' Ho'].
    { unfold get_process_core_proportions. rewrite Ho. destruct o as [[[? ?] ?]|]; by eexists. }
    exists o'. split; [done|]. intros l ->. by eapply process_core_proportions_length. }
  rewrite bind_done. destruct shares as [shares|]; [|by apply yields_ret; eexists]. specialize (Hl shares eq_refl).
  eapply (yields_bind any).
  - destruct (core_powers t) as [powers|] eqn:E; [|by apply yields_ret]. apply core_powers_count in E.
    rewrite <- Hl in E. eexists. split; [|done].
    exact (f_equal (λ m, m ≫= λ l, Done (F64.sum l)) (traverse_imap powers shares [] E)).
  - intros power _. destruct ebpf as [[[? ?] ?]|]; apply yields_ret; by eexists.
Qed.

(** *** The generator *)

(** The checks of the pods parse the seconds of the clock on 32 bits with a sign. *)
Definition before_2038 : Prop := ∀ w d w', clock w = (Some d, w') → 0 <= secs d < 2 ^ 31.

Definition seconds (s : string) : Prop := ∃ n, s = show_uint n ∧ 0 <= n < 2 ^ 31.

(** When there is a client of Kubernetes, the clock is before 2038. *)
Class Calendar : Prop := calendar w k w' : get_kubernetes_client w = Done (Some k, w') → before_2038.

Definition watches_pods (g : MetricGenerator) : Prop :=
  is_Some (kubernetes_client g) → before_2038 ∧ (pods_last_check g = ""%string ∨ seconds (pods_last_check g)).

Record sound_generator (g : MetricGenerator) : Prop := {
  sound_topology : sound (topology g);
  sound_pods : watches_pods g;
}.

Context (versioned : is_done (get_scaphandre_version crate_version) = true).

Ltac gen_steps :=
  any_steps; repeat first
    [ by apply arith_yields | by apply usum_yields | apply now_returns | apply file_returns | done
    | eapply returns_weaken; [apply (stats_returns current_pid cpus)|done] ].

Lemma stamped_returns o u : returns (stamped o u) any.
Proof. unfold stamped. gen_steps. Qed.

Lemma stamp_returns v u : returns (stamp v u) any.
Proof. unfold stamp. gen_steps. Qed.

Lemma unsigned_yields p f t g :
  (∀ q, sound_process cpus q → ∃ n, f q = show_uint n ∧ 0 <= n <= umax 64) → sound t →
  yields (metric_of_unsigned (process_metric f Bytes p t) g) any.
Proof.
  intros Hf [_ Hr _]. unfold process_metric. destruct (get_process_last_record p _) as [r|] eqn:E; [|by apply yields_ret].
  apply last_record_sound in E; [|done]. destruct (Hf _ E) as (n & Hn & Hrange). simpl. unfold unsigned. simpl.
  rewrite Hn, parse_show_uint by done. by apply yields_ret.
Qed.

Lemma self_returns g :
  sound (topology g) → returns (gen_self_metrics current_pid crate_version g) any.
Proof.
  intros Ht. unfold gen_self_metrics. cbv zeta. eapply (returns_bind any).
  { unfold myself. eapply returns_bind; [by apply (core_times_return current_pid cpus)|]. intros times Htimes.
    destruct (sane_self (sysinfo (proc_tracker (topology g)))) as [q Hq].
    eapply (returns_bind (λ x, x = q)); [rewrite Hq; apply returns_lift; by exists q|]. intros ? ->.
    eapply returns_weaken; [by apply (process_returns current_pid cpus release _ _ (sane_known _ _ _ Hq))|done]. }
  intros me _. eapply (returns_bind any); [apply now_returns|]. intros now _.
  eapply (returns_bind any). { destruct (is_done_inv _ versioned) as [v ->]. apply returns_lift. by exists v. }
  intros version _. eapply (returns_bind any).
  { apply returns_lift, unsigned_yields; [|done]. intros q (_ & _ & ? & _). by eexists. }
  intros virtual _. eapply (returns_bind any).
  { apply returns_lift, unsigned_yields; [|done]. intros q (_ & ? & _). by eexists. }
  intros resident _. by apply returns_ret.
Qed.

Lemma host_power_returns h t r : returns (host_power_metrics h t r) any.
Proof.
  unfold host_power_metrics, get_records_diff_power_microwatts, get_idle_power_microwatts,
    get_activation_power_microwatts, get_background_power_microwatts, background_power,
    get_proportional_core_diff_power_microwatts. gen_steps; try apply stamped_returns.
Qed.

Lemma host_returns g : returns (gen_host_metrics g) any.
Proof.
  unfold gen_host_metrics. cbv zeta. eapply (returns_bind any).
  { destruct (last _); [apply host_power_returns|by apply returns_ret]. }
  intros powers _. eapply (returns_bind (λ o, ∃ a b c, o = Some [a; b; c])).
  { unfold get_load_avg. destruct (load_average _) as [[one five] fifteen].
    eapply (returns_bind any); [apply now_returns|]. intros now _. apply returns_ret. by eexists _, _, _. }
  intros load (a & b & c & ->). eapply (returns_bind any); [apply returns_lift; by eexists|]. intros loads _.
  unfold get_cpu_frequency, get_disks, iterate, memory_metrics, get_total_memory_bytes, get_available_memory_bytes,
    get_free_memory_bytes, get_free_swap_bytes, get_total_swap_bytes. gen_steps; apply stamp_returns.
Qed.

Lemma domain_metrics_return h s d : returns (domain_metrics h s d) any.
Proof. unfold domain_metrics, Domain.get_rapl_mmio_energy_microjoules. gen_steps. Qed.

Lemma socket_metrics_return h s : returns (socket_metrics h s) any.
Proof.
  unfold socket_metrics, socket_power_metrics, Socket.get_idle_power_microwatts, Socket.get_activation_power_microwatts,
    Socket.get_background_power_microwatts, Socket.get_rapl_mmio_energy_microjoules. gen_steps; try apply stamped_returns.
  eapply returns_weaken; [apply (returns_map _ any)|done]. intros d _. apply domain_metrics_return.
Qed.

Lemma sockets_return g : returns (gen_socket_metrics g) any.
Proof.
  unfold gen_socket_metrics. eapply (returns_bind any); [|intros l _; by apply returns_ret].
  eapply returns_weaken; [apply (returns_map _ any)|done]. intros s _. apply socket_metrics_return.
Qed.

Lemma system_returns g : returns (gen_system_metrics g) any.
Proof.
  unfold gen_system_metrics, read_nb_process_total_count, read_nb_process_running_current,
    read_nb_process_blocked_current, read_nb_context_switches_total_count. gen_steps.
Qed.

(** *** The labels of a process *)

Lemma name_yields p pt : tidy pt → p ∈ get_alive_pids pt → yields (get_process_name p pt) any.
Proof. intros Ht Hp. destruct (alive_vector p pt Ht Hp) as (r & v & E). unfold get_process_name. rewrite E. by eexists. Qed.

Lemma cmdline_yields p pt : tidy pt → p ∈ get_alive_pids pt → yields (ProcTracker.get_process_cmdline p pt) any.
Proof.
  intros Ht Hp. destruct (alive_vector p pt Ht Hp) as (r & v & E). unfold ProcTracker.get_process_cmdline.
  rewrite E. by eexists.
Qed.

Lemma describe_returns cs v pods cgroups d : returns (describe_cgroups cs v pods cgroups d) any.
Proof.
  revert d. induction cgroups as [|cg cgroups IH]; intros d; cbn [describe_cgroups]; [by apply returns_ret|].
  destruct (is_match regex_cgroup_docker cg).
  - destruct (captures _ _); [|apply IH]. destruct (List.find _ _); [|by apply returns_ret].
    unfold describe_container, iterate. destruct (container_Labels _); gen_steps.
  - destruct (is_match _ _); [by apply returns_ret|]. destruct (is_match _ _); [by apply returns_ret|apply IH].
Qed.

Lemma description_returns p cs v pods t :
  sound t → p ∈ get_alive_pids (proc_tracker t) →
  returns (get_process_container_description p cs v pods (proc_tracker t)) any.
Proof.
  intros Ht Hp. pose proof (alive_pid_range p t Ht Hp) as Hr. destruct Ht as [_ _ Htidy].
  destruct (alive_vector p _ Htidy Hp) as (r & u & E). unfold get_process_container_description.
  rewrite E, parse_show_int by lia.
  eapply (returns_bind any); [apply returns_lift; by eexists|]. intros r' _.
  eapply (returns_bind any); [apply returns_lift; by eexists|]. intros q _.
  eapply (returns_bind any); [by apply returns_effect|]. intros [cgroups|] _; [|by apply returns_ret].
  eapply describe_returns.
Qed.

Lemma qemu_yields s : yields (filter_qemu_cmdline s) any.
Proof.
  unfold filter_qemu_cmdline. destruct (contains "qemu-system" s && contains "guest=" s) eqn:E; [|by apply yields_ret].
  apply andb_true_iff in E as [_ E]. apply contains_split in E as (a & b & l & ->); [|done]. cbv zeta.
  cbn [fmap list_fmap]. pose proof (split_on_nonempty ","%char b) as Hb. destruct (split_on ","%char b) as [|x k]; [done|].
  by eexists.
Qed.

Lemma attributes_return g p :
  sound (topology g) → p ∈ get_alive_pids (proc_tracker (topology g)) → returns (process_attributes g p) any.
Proof.
  intros Ht Hp. pose proof (sound_tidy _ _ Ht) as Htidy. unfold process_attributes. cbv zeta.
  eapply (returns_bind any); [by apply returns_lift, name_yields|]. intros exe _.
  eapply (returns_bind any); [by apply returns_lift, cmdline_yields|]. intros cmdline _.
  eapply (returns_bind any).
  { destruct (_ && _); [|by apply returns_ret]. eapply (returns_bind any); [by apply description_returns|].
    intros d _. unfold iterate. gen_steps. }
  intros a _. destruct cmdline as [c|]; [|by apply returns_ret].
  eapply (returns_bind any); [|intros v _; by apply returns_ret].
  apply returns_lift. destruct (qemu g); [apply qemu_yields|by apply yields_ret].
Qed.

Lemma process_metrics_return g p :
  sound (topology g) → p ∈ get_alive_pids (proc_tracker (topology g)) → returns (process_metrics g p) any.
Proof.
  intros Ht Hp. unfold process_metrics. eapply (returns_bind any); [by apply attributes_return|]. intros a _.
  eapply returns_bind; [by apply returns_lift, per_process_yields|]. intros ? [m ->]. unfold iterate. gen_steps.
Qed.

Lemma seconds_return : returns now_in_seconds (λ s, before_2038 → seconds s).
Proof.
  intros w. destruct (now_returns w) as (d & w' & E & _). exists (show_uint (secs d)), w'. split.
  - unfold now_in_seconds, mbind, io_bind. by rewrite E.
  - unfold current_system_time_since_epoch in E. destruct (clock w) as [[d'|] w1] eqn:Ec; [|done].
    injection E as -> ->. intros Hb. exists (secs d). split; [done|]. by apply (Hb w d w').
Qed.

Lemma seconds_parsed s : seconds s → yields (seconds_i32 s) any.
Proof.
  intros (n & -> & Hn). unfold seconds_i32. rewrite parse_int_show by lia.
  destruct (Z.leb_spec n (2 ^ (32 - 1) - 1)); [by eexists|lia].
Qed.

Lemma docker_metadata_pods g w g' w' :
  gen_docker_containers_basic_metadata g w = Done (g', w') → pods_last_check g' = pods_last_check g.
Proof.
  unfold gen_docker_containers_basic_metadata. destruct (docker_client g); [|by intros [= <- _]].
  destruct (watch_docker g); [|by intros [= <- _]].
  intros (r & w1 & _ & Hr)%io_bind_inv. destruct r; [|by injection Hr as <- _].
  by apply io_bind_inv in Hr as (n & w2 & _ & [= <- _]).
Qed.

Lemma check_docker_pods now d g w g' w' :
  check_docker now d g w = Done (g', w') → kept g' = kept g ∧ pods_last_check g' = pods_last_check g.
Proof.
  intros Hc. split; [by eapply check_docker_kept|]. revert Hc. unfold check_docker.
  intros (g1 & w1 & H1' & Hr)%io_bind_inv. apply io_bind_inv in Hr as (n & w2 & _ & [= <- _]).
  trans (pods_last_check g1); [done|].
  destruct (decide _); apply io_bind_inv in H1' as (r & w3 & _ & Hr).
  - destruct r; [by apply docker_metadata_pods in Hr|by injection Hr as <- _].
  - destruct r as [[|]|]; [by injection Hr as <- _|by apply docker_metadata_pods in Hr|by injection Hr as <- _].
Qed.

Lemma docker_returns now g :
  returns (match docker_client g with
           | Some docker => if watch_docker g then check_docker now docker g else mret g
           | None => mret g
           end) (λ g', kept g' = kept g ∧ pods_last_check g' = pods_last_check g).
Proof.
  destruct (docker_client g) as [docker|]; [|by apply returns_ret]. destruct (watch_docker g); [|by apply returns_ret].
  eapply returns_weaken; [eapply (returns_and _ any)|by intros g' [_ Hg']; exact Hg'].
  - unfold check_docker, gen_docker_containers_basic_metadata, now_in_seconds. gen_steps.
  - intros w g' w'. apply check_docker_pods.
Qed.

Lemma pods_metadata_returns g :
  before_2038 → watch_kubernetes g = true →
  returns (gen_kubernetes_pods_basic_metadata g) (λ g', seconds (pods_last_check g')).
Proof.
  intros Hb Hw. unfold gen_kubernetes_pods_basic_metadata. rewrite Hw. eapply (returns_bind any).
  { destruct (kubernetes_client g); gen_steps. }
  intros g1 _. eapply returns_bind; [apply seconds_return|]. intros now Hn. apply returns_ret. by apply Hn.
Qed.

Lemma kubernetes_returns now g :
  before_2038 → seconds now → (pods_last_check g = ""%string ∨ seconds (pods_last_check g)) →
  watch_kubernetes g = true → returns (check_kubernetes now g) (λ g', seconds (pods_last_check g')).
Proof.
  intros Hb Hn Hp Hw. unfold check_kubernetes.
  eapply (returns_bind (λ g', seconds (pods_last_check g') ∧ watch_kubernetes g' = true)).
  { case_decide as E; [|apply returns_ret; by destruct Hp]. eapply returns_and; [by apply pods_metadata_returns|].
    intros w g' w' Hk%kubernetes_metadata_kept. unfold kept in Hk. congruence. }
  intros g1 [Hp1 Hw1]. eapply (returns_bind any); [by apply returns_lift, seconds_parsed|]. intros n _.
  eapply (returns_bind any); [by apply returns_lift, seconds_parsed|]. intros last _.
  destruct (20 <? n - last); [by apply pods_metadata_returns|by apply returns_ret].
Qed.

Lemma containers_return g :
  watches_pods g → returns (check_containers g) (λ g', kept g' = kept g ∧ watches_pods g').
Proof.
  intros Hk. eapply returns_weaken; [apply (returns_and _ watches_pods (λ g', kept g' = kept g))|by intros g' [? ?]].
  - unfold check_containers. destruct (watch_containers g); [|by apply returns_ret].
    eapply returns_bind; [apply seconds_return|]. intros now Hn.
    eapply returns_bind; [apply docker_returns|]. intros g1 [[= _ _ _ _ _ E1 _] E2].
    assert (watches_pods g1) as Hk1 by (unfold watches_pods; by rewrite E1, E2). destruct (kubernetes_client g1) eqn:E;
      [|by apply returns_ret]. destruct (watch_kubernetes g1) eqn:Ew; [|by apply returns_ret].
    destruct Hk1 as [Hb Hp]; [by rewrite E|]. eapply returns_weaken; [by apply kubernetes_returns; [|apply Hn|..]|].
    intros g2 Hg2 _. split; [done|by right].
  - intros w g' w'. apply check_containers_kept.
Qed.

(** *** A collection *)

Lemma self_pushes g w g' w' :
  gen_self_metrics current_pid crate_version g w = Done (g', w') → ∃ m l, g' = push_all (m :: l) g.
Proof.
  unfold gen_self_metrics. intros (me & w1 & _ & Hr)%io_bind_inv. do 4 (apply io_bind_inv in Hr as (? & ? & _ & Hr)).
  injection Hr as <- _. by eexists _, _.
Qed.

(** A collection returns, adds a metric at least, and leaves a generator that can collect again. *)
Lemma collection_returns g :
  sound_generator g →
  returns (gen_all_metrics current_pid crate_version g) (λ g', sound_generator g' ∧ data g' ≠ []).
Proof.
  intros Hg. pose proof Hg as [Ht Hk]. unfold gen_all_metrics.
  eapply returns_bind; [apply (returns_and _ any); [by apply self_returns|apply self_pushes]|].
  intros g1 [_ (m & l1 & ->)].
  eapply returns_bind; [apply (returns_and _ any); [apply host_returns|intros w g2 w'; apply gen_host_pushes]|].
  intros g2 [_ (l2 & ->)].
  eapply returns_bind; [apply (returns_and _ any); [apply sockets_return|intros w g3 w'; apply gen_socket_pushes]|].
  intros g3 [_ (l3 & ->)].
  eapply returns_bind; [apply (returns_and _ any); [apply system_returns|intros w g4 w'; apply gen_system_pushes]|].
  intros g4 [_ (l4 & ->)].
  unfold gen_process_metrics. eapply returns_bind; [by apply containers_return|].
  intros g5 [[= Hd Htopo _ _ _ _ _] Hk5]. cbn in Htopo, Hd. eapply (returns_bind any).
  { eapply returns_weaken; [apply (returns_map _ any)|done]. rewrite <- Htopo in Ht. intros p Hp.
    by apply process_metrics_return. }
  intros l5 _. apply returns_ret. split; [split; [cbn; congruence|exact Hk5]|]. cbn. rewrite Hd.
  destruct (data g); [done|by destruct l1].
Qed.

(** *** The consumers *)

Lemma exe_yields pt q : yields (process_exe pt q) any.
Proof.
  unfold process_exe. destruct (Env.sys_process _ _) as [x|] eqn:E; [|by apply yields_ret].
  destruct (sane_known _ _ _ E) as [[exe ->] _]. by eexists.
Qed.

(** Consumers whose pids can be printed and parsed back. *)
Definition known_pids (cs : list (IProcess * float)) : Prop := Forall (λ c, 0 <= pid c.1 <= 2 ^ 31 - 1) cs.

Lemma known_sorted cs c : known_pids cs → 0 <= pid c.1 <= 2 ^ 31 - 1 → known_pids (sort_consumers (cs ++ [c])).
Proof.
  intros Hcs Hc. unfold known_pids, sort_consumers. rewrite sort_by_perm. apply Forall_app.
  split; [done|]. by constructor.
Qed.

Lemma last_elem {A} (l : list A) x : last l = Some x → x ∈ l.
Proof. intros [k ->]%last_Some. apply elem_of_app. right. left. Qed.

Lemma last_known pt v first second r :
  sound_records cpus (procs pt) → first :: second :: v ∈ procs pt → last (first :: second :: v) = Some r →
  0 <= pid (process r) <= 2 ^ 31 - 1.
Proof.
  intros Hs Hv Hr. unfold sound_records in Hs. rewrite Forall_forall in Hs. specialize (Hs _ Hv).
  rewrite Forall_forall in Hs. apply (Hs r). by apply last_elem.
Qed.

Lemma filtered_yields f pt : sound_records cpus (procs pt) → yields (get_filtered_processes f pt) known_pids.
Proof.
  intros Hs. unfold get_filtered_processes. apply yields_foldM; [constructor|]. intros cs v Hv Hcs.
  destruct v as [|first [|second v]]; [by apply yields_ret..|]. cbv zeta.
  eapply (yields_bind (λ r, 0 <= pid (process r) <= 2 ^ 31 - 1)).
  { apply yields_unwrap; [by apply last_is_Some|]. intros r. by eapply last_known. }
  intros r Hr. eapply (yields_bind any); [apply exe_yields|]. intros exe _.
  destruct (_ || _); apply yields_ret; [by apply known_sorted|done].
Qed.

Lemma consumers_return n pt : returns (get_top_consumers n pt) known_pids.
Proof.
  unfold get_top_consumers. apply returns_fold; [constructor|]. intros cs v _ Hcs. unfold consider.
  destruct v as [|first [|second v]]; [by apply returns_ret..|]. cbv zeta. destruct (_ <? _); [|by apply returns_ret].
  eapply returns_bind; [by apply (core_times_return current_pid cpus)|]. intros times Ht.
  destruct (Env.sys_process _ _) as [x|] eqn:E; [|by apply returns_ret].
  eapply (returns_bind (sound_process cpus)).
  - by apply (process_returns current_pid cpus release _ _ (sane_known _ _ _ E)).
  - intros q [Hq _]. apply returns_ret. pose proof (known_sorted cs (q, f64_of_f32 (get_cpu_usage_percentage (pid (process first)) (nb_cores pt) pt)) Hcs Hq) as Hk.
    destruct (_ <? _); [|exact Hk]. unfold known_pids. rewrite removelast_take. by apply Forall_take.
Qed.

(** The processes of a container, whether they are alive or not. *)
Lemma filtered_by_container f g :
  sound (topology g) → returns (get_processes_filtered_by_container_name f g) known_pids.
Proof.
  intros [_ Hs Ht]. unfold get_processes_filtered_by_container_name. cbv zeta.
  apply returns_fold; [constructor|]. intros cs v Hv Hcs.
  destruct v as [|first [|second v]]; [by apply returns_ret..|]. cbv zeta.
  eapply (returns_bind (λ r, r ∈ first :: second :: v ∧ 0 <= pid (process r) <= 2 ^ 31 - 1)).
  { apply returns_lift, yields_unwrap; [by apply last_is_Some|]. intros r Hr. split; [by apply last_elem|by eapply last_known]. }
  intros r [Hin Hr]. eapply (returns_bind any).
  - destruct Ht as [_ Hone Hn _]. rewrite Forall_forall in Hone. specialize (Hone _ Hv).
    unfold get_process_container_description. rewrite parse_show_int by lia.
    eapply (returns_bind any); [apply returns_lift, yields_unwrap; [|done]|].
    { destruct (List.filter _ _) as [|u k] eqn:E; [|by eexists]. exfalso.
      assert (first :: second :: v ∈ List.filter (is_vector_of (pid (process r))) (procs (proc_tracker (topology g)))) as Hf;
        [|by rewrite E in Hf; apply elem_of_nil in Hf].
      apply list_elem_of_In, filter_In. split; [by apply list_elem_of_In|]. apply is_vector_of_spec. by apply Hone. }
    intros u _. eapply (returns_bind any); [apply returns_lift; by eexists|]. intros q _.
    eapply (returns_bind any); [by apply returns_effect|]. intros [cgroups|] _; [|by apply returns_ret].
    apply describe_returns.
  - intros d _. apply returns_ret. destruct (d !! _); [|done]. destruct (f _); [by apply known_sorted|done].
Qed.
End Collect.
