(* ===== verification/Running.v ===== *)
(** * The exporters on a sane host

    With the refreshes and collections of [Alive] the server that answers its requests in the
    order of their times is never poisoned, what a generator needs lasts from round to round,
    and every round of the standard output returns. *)

From S2P Require Import Prelude Floats Text TextOps FloatText Units Env Simulated Loops Records Energy Common.
From S2P Require Import Domain Core Socket ProcTracker Bpf Topology Attribution Powercap Containers ExporterUtils Metrics.
From S2P Require Import Samples Clones Series Search Prometheus Stdout Frame Session Returns Alive.
From Stdlib Require Import Ascii.

(** ** The exporters *)

Section Run.
Context `{Profile, Layout, Os, !FileSystem, !Procfs, !PerfEvents, !Sysinfo, !Aya, !KernelModules}.
Context `{!HashMaps, !ContainerRuntimes, Regex, Captures, !HashLaws, !Instants}.
Context (current_pid : Z) (cpus : nat) `{!SaneHost current_pid cpus} (crate_version : string).
Context (content : string → option string) `{!NameFiles content}.
Context (release : overflow_checks = false) `{!Calendar}.
Context (versioned : is_done (get_scaphandre_version crate_version) = true).
#[local] Abbreviation sound := (sound cpus).
#[local] Abbreviation sound_generator := (sound_generator cpus).
#[local] Existing Instance sane_laws.

Lemma generated_sound sensor w t w' : generate_topology sensor w = Done (t, w') → sound t.
Proof.
  intros Hg. pose proof (generate_topology_wf _ _ _ _ Hg) as [_ Hf].
  pose proof (generate_settled content _ _ _ _ Hg) as (_ & _ & Ht).
  pose proof (generate_unread content _ _ _ _ Hg) as Hu. apply (generate_grows content) in Hg as (sd & w1 & t0 & w2 & Hnew & Hp & _).
  split; [|rewrite Hp|done].
  - rewrite Forall_forall in Hf, Hu |- *. intros s Hs. destruct (Hf s Hs), (Hu s Hs) as [Hb Hc].
    split; [done|done| |by rewrite Hb]. eapply Forall_impl; [exact Hc|]. intros c (sys & i & cpu & Hi & E).
    unfold sound_core. rewrite E. by eapply sane_cpus.
  - unfold Topology.new, ProcTracker.new in Hnew. do 4 (apply io_bind_inv in Hnew as (? & ? & _ & Hnew)).
    apply io_bind_inv in Hnew as (pt & ? & Hpt & [= <- _]). do 3 (apply io_bind_inv in Hpt as (? & ? & _ & Hpt)).
    injection Hpt as <- _. constructor.
Qed.

Lemma clone_sound t w t' w' : Topology.clone t w = Done (t', w') → sound t → sound t'.
Proof.
  unfold Topology.clone, ProcTracker.clone. intros (pt & w1 & Hp & [= <- _])%io_bind_inv [Hs Hr [? ? ? ?]].
  apply io_bind_inv in Hp as (sys & w2 & _ & [= <- _]). split; [|done|by split]. simpl. apply Forall_fmap.
  eapply Forall_impl; [exact Hs|]. intros s [Hf Hd Hc He]. split; [done|done| |done]. simpl. by apply Forall_fmap.
Qed.

(** A new generator works when its topology does; with Kubernetes, before 2038. *)
Lemma new_sound t h q c w g w' :
  sound t → Metrics.new t h q c w = Done (g, w') → sound_generator g.
Proof.
  intros Ht. unfold Metrics.new. intros ([d k] & w1 & Hk & [= <- _])%io_bind_inv. split; [exact Ht|].
  intros [k' E]. cbn in E. subst k. split; [|by left]. destruct c; [|done].
  apply io_bind_inv in Hk as (d' & w2 & _ & Hk). apply io_bind_inv in Hk as (k & w3 & Hk & [= _ -> _]).
  by eapply calendar.
Qed.

(** *** The Prometheus server *)

Definition healthy (c : PowerMetrics) : Prop := alive c ∧ sound_generator (contents (metric_generator c)).

(** The text of some metrics, one at least. *)
Definition answered (body : string) : Prop :=
  ∃ metrics w w', metrics ≠ [] ∧ send_all metrics w = Done (body, w').

Lemma send_returns metrics :
  metrics ≠ [] → returns (send_all metrics) answered.
Proof.
  intros Hm w. assert (returns (send_all metrics) any) as Hs.
  { unfold send_all. eapply (returns_bind any); [|intros st _; by apply returns_ret]. apply (returns_fold _ any); [done|].
    intros [body pushed] m _ _. unfold push_one, iterate. any_steps. }
  destruct (Hs w) as (body & w' & E & _). exists body, w'. split; [done|]. by exists metrics, w, w'.
Qed.

Lemma scrape_returns t last_request g :
  sound_generator g → duration_leb last_request t = true →
  returns (scrape current_pid crate_version t last_request g) (λ r, sound_generator r.1 ∧ answered r.2).
Proof.
  intros Hg Ht. unfold scrape. eapply (returns_bind any).
  { apply returns_lift. unfold duration_sub. rewrite Ht. by eexists. }
  intros e _. eapply (returns_bind sound_generator).
  { destruct (negb _); [|by apply returns_ret]. unfold clean_and_refresh. destruct Hg as [Hs Hk].
    eapply returns_bind; [by apply (refresh_returns current_pid cpus release), clean_sound|]. intros t' Ht'.
    by apply returns_ret. }
  clear g Hg. intros g Hg. eapply returns_bind; [by apply (collection_returns current_pid cpus crate_version release versioned)|].
  intros g1 [Hg1 Hd]. rewrite pop_metrics_eq. eapply (returns_bind (λ r, r = (set_data [] g1, rev (data g1)))).
  { apply returns_lift. by eexists. }
  intros ? ->. eapply returns_bind; [apply send_returns; by destruct (data g1) as [|m l]; [|destruct (rev (m :: l)) eqn:E;
    [apply (f_equal length) in E; rewrite length_rev in E|]]|].
  intros body Hb. apply returns_ret. split; [|exact Hb]. by destruct Hg1.
Qed.

(** Requests are answered in any order in which none is overtaken by a later one. *)
Inductive orderly (suffix : string) : Server → list (option string) → Server → Prop :=
  | orderly_nil s : orderly suffix s [] s
  | orderly_arrive s t w' l s' :
      clock (now s) = (Some t, w') → orderly suffix (mkServer (context s) (waiting s ++ [t]) w') l s' →
      orderly suffix s l s'
  | orderly_serve s i t c w' answer l s' :
      waiting s !! i = Some t → duration_leb (contents (last_request (context s))) t = true →
      served current_pid crate_version suffix ("/" +:+ suffix) t (context s) (now s) c w' answer →
      orderly suffix (mkServer c (delete i (waiting s)) w') l s' → orderly suffix s (answer :: l) s'.

Lemma serve_healthy suffix t c w c' w' answer :
  healthy c → duration_leb (contents (last_request c)) t = true →
  served current_pid crate_version suffix ("/" +:+ suffix) t c w c' w' answer →
  healthy c' ∧ ∃ body, answer = Some body ∧ answered body.
Proof.
  intros [[Hl Hm] Hg] Ht Hs. destruct (scrape_returns t _ _ Hg Ht w) as ([g body] & w1 & E & Hg' & Hb).
  inversion Hs as [|_ Hp|g1 b1 w2 _ _ _ Hs1|w2 _ _ _ Hs1]; subst; [done|by rewrite Hl, Hm in Hp| |congruence].
  rewrite E in Hs1. injection Hs1 as <- <- <-. split; [by split|]. by exists body.
Qed.

(** C14: on a sane host and in a build without overflow checks the Prometheus exporter, until
    2038 when it watches Kubernetes, answers for ever: however many requests come, every one
    that is not overtaken by a later one is answered with the text of a collection, the locks
    are never poisoned, and the next request will be answered too. *)
Theorem orderly_server_answers sensor suffix w t w1 w2 h q c ctx w3 waiting_ l s' :
  generate_topology sensor w = Done (t, w1) →
  start_server t h q c w2 = Done (ctx, w3) →
  orderly suffix (mkServer ctx waiting_ w3) l s' →
  Forall (λ answer, ∃ body, answer = Some body ∧ answered body) l ∧ alive (context s') ∧
  ∀ i t, waiting s' !! i = Some t → duration_leb (contents (last_request (context s'))) t = true →
    ∃ c w' body, served current_pid crate_version suffix ("/" +:+ suffix) t (context s') (now s') c w' (Some body) ∧
                 answered body.
Proof.
  intros Hg Hs Hr. apply generated_sound in Hg. assert (healthy ctx) as Hh.
  { unfold start_server in Hs. apply io_bind_inv in Hs as (t' & w4 & Hc%clone_sound & Hs); [|done].
    apply io_bind_inv in Hs as (g & w5 & Hnew & [= <- _]). split; [done|]. by eapply new_sound. }
  assert (Forall (λ answer, ∃ body, answer = Some body ∧ answered body) l ∧ healthy (context s')) as [Hl [Ha Hg']].
  { change ctx with (context (mkServer ctx waiting_ w3)) in Hh. clear -Hh Hr SaneHost0 release versioned.
    induction Hr as [s|s t w' l s' _ _ IH|s i t c w' answer l s' _ Ht Hv _ IH]; [done|by apply IH|].
    destruct (serve_healthy _ _ _ _ _ _ _ Hh Ht Hv) as [Hc Hans]. destruct (IH Hc). split; [by constructor|done]. }
  split; [done|]. split; [done|]. intros i t' _ Ht.
  destruct (scrape_returns t' _ _ Hg' Ht (now s')) as ([g body] & w4 & E & _ & Hb). destruct Ha as [Hl' Hm'].
  eexists _, w4, body. split; [by eapply served_metrics|exact Hb].
Qed.

(** *** A generator between two rounds *)

Definition lasting (g : MetricGenerator) : Prop := sound_generator g ∧ ready content g.

Lemma new_lasting t h q c w g w' :
  sound t → settled content t → Metrics.new t h q c w = Done (g, w') → lasting g.
Proof.
  intros Ht Hs Hn. split; [by eapply new_sound|by eapply new_ready].
Qed.

Lemma refresh_lasting g : lasting g → returns (Topology.refresh (topology g)) (λ t, lasting (set_topology t g)).
Proof.
  intros [[Ht Hk] [Hs Hd]]. eapply returns_weaken.
  - apply (returns_and _ sound (settled content)); [by apply (refresh_returns current_pid cpus release)|].
    intros w t w' Hr. by eapply refresh_settled.
  - intros t [Ht' Hs']. by split; split.
Qed.

Lemma clean_lasting g : lasting g → lasting (set_topology (clean_terminated (topology g)) g).
Proof. intros [[Ht Hk] Hr]. split; [split; [by apply clean_sound|done]|by apply clean_ready]. Qed.

Lemma clean_refresh_lasting g :
  lasting g → returns (Topology.refresh (clean_terminated (topology g))) (λ t, lasting (set_topology t g)).
Proof. intros Hg%clean_lasting. exact (refresh_lasting _ Hg). Qed.

(** What a collection leaves, whose metrics are then taken. *)
Lemma gather_returns g :
  lasting g → returns (gen_all_metrics current_pid crate_version g)
    (λ g1, lasting (set_data [] g1) ∧ topology g1 = topology g ∧
           ∃ l1 l2 ls l4 lp, parts g (data g1) l1 l2 ls l4 lp).
Proof.
  intros [Hg [Hs Hd]]. eapply returns_weaken.
  - apply (returns_and _ (λ g', sound_generator g' ∧ data g' ≠ [])
      (λ g1, topology g1 = topology g ∧ ∃ l1 l2 ls l4 lp, parts g (data g1) l1 l2 ls l4 lp));
      [by apply (collection_returns current_pid cpus crate_version release versioned)|].
    intros w g1 w' Ha. split; [by eapply gen_all_topology|].
    destruct (gen_all_parts _ _ _ _ _ _ (settled_labelled content _ Hs) Ha) as (l & l1 & l2 & ls & l4 & lp & Hl & Hp).
    rewrite Hd in Hl. simpl in Hl. subst l. by exists l1, l2, ls, l4, lp.
  - intros g1 [[[Ht Hk] _] [Htopo Hp]]. split; [|done]. split; [done|]. split; [|done]. cbn. by rewrite Htopo.
Qed.

Lemma pop_returns g : returns (lift (unwrap (pop_metrics g))) (λ r, r = (set_data [] g, rev (data g))).
Proof. rewrite pop_metrics_eq. apply returns_lift. by eexists. Qed.

(** *** The standard output *)

Section Output.
Context (debug_str : string → string) (to_json : list (string * string) → string).
#[local] Abbreviation iterate_ := (iterate_ current_pid crate_version debug_str to_json).

Lemma show_returns args g :
  lasting g → returns (show_metrics current_pid crate_version debug_str to_json args g) (λ r, lasting r.1).
Proof.
  intros Hg. unfold show_metrics. eapply returns_bind; [by apply gather_returns|].
  intros g1 (Hg1 & _ & l1 & l2 & ls & l4 & lp & Hp). eapply returns_bind; [apply pop_returns|]. intros ? ->.
  eapply (returns_bind any).
  - destruct (raw_metrics args).
    + unfold raw_metrics_view. eapply (returns_bind any); [apply (now_returns current_pid cpus)|]. intros now _.
      eapply (returns_bind any); [|intros lines _; by apply returns_ret].
      eapply returns_weaken; [apply (returns_map _ any)|done]. intros m _. unfold raw_line, iterate. any_steps.
    + unfold summarized_view. eapply (returns_bind any).
      { unfold select_consumers. destruct (regex_filter args).
        - eapply (returns_bind any); [eapply returns_lift, yields_weaken; [exact (filtered_yields current_pid cpus _ _ (sound_tracker _ _ (sound_topology _ _ (proj1 Hg1))))|done]|]. intros cs _. by apply returns_ret.
        - eapply (returns_bind any); [eapply returns_weaken; [by apply (consumers_return current_pid cpus)|done]|]. intros cs _. by apply returns_ret. }
      intros [title cs] _. apply returns_lift.
      destruct (summary_total debug_str _ _ _ _ _ _ _ Hp (rev (data g1)) (λ m, proj1 (elem_of_rev _ m)) (λ m, proj2 (elem_of_rev _ m))
                  (domains_names (topology (set_data [] g1))) title cs) as [lines Hlines]. by exists lines.
  - intros lines _. by apply returns_ret.
Qed.

Lemma round_returns args g : lasting g → returns (iterate_ args g) (λ r, lasting r.1).
Proof.
  intros Hg. unfold Stdout.iterate_. eapply returns_bind; [by apply clean_refresh_lasting|]. intros t Ht. by apply show_returns.
Qed.
End Output.
End Run.

(** ** Examples *)

Import SessionHost.

(** The host of the session, for a build without checks. *)
#[local] Instance released : Profile := false.

Lemma sane_listed : Forall sane_process [SampleHost.sys_process 42 "/bin/a"; SampleHost.sys_process 7 "/bin/scaphandre"].
Proof. repeat constructor; vm_compute; first [by eexists|discriminate]. Qed.

#[local] Instance session_sane : SaneHost 7 2.
Proof.
  split.
  - intros w. by eexists.
  - intros s [|[|i]] c [= <-]; vm_compute; lia.
  - intros w ks [= <-]. reflexivity.
  - intros s. exact sane_listed.
  - intros s p q [Hq _]%List.find_some. pose proof sane_listed as Hl. rewrite Forall_forall in Hl.
    by apply Hl, list_elem_of_In.
  - intros s. by eexists.
  - intros m p w l [=].
  - intros b w i. simpl. rewrite drop_nil. by intros [=].
Qed.

(** It has no client of Kubernetes. *)
#[local] Instance session_calendar : Calendar.
Proof. intros w k w' [=]. Qed.

(** A request at 9 seconds to the server of the session. *)
Definition request (ctx : PowerMetrics) (w : world) : outcome (MetricGenerator * string * world) :=
  scrape 7 "1.0.0" (mkDuration 9 0) (contents (last_request ctx)) (contents (metric_generator ctx)) w.

Definition served_once (sensor : PowercapRAPLSensor) (w : world) : bool :=
  match generate_topology sensor w with
  | Done (t, w1) =>
      match start_server t "host" false true w1 with
      | Done (ctx, w2) => is_done (request ctx w2)
      | Panic => false
      end
  | Panic => false
  end.

Lemma served_once_ok : served_once session_sensor start = true.
Proof. vm_compute. reflexivity. Qed.

Lemma served_once_inv sensor w :
  served_once sensor w = true → ∃ t w1 ctx w2 g body w3, generate_topology sensor w = Done (t, w1) ∧
    start_server t "host" false true w1 = Done (ctx, w2) ∧
    request ctx w2 = Done (g, body, w3) ∧
    alive ctx ∧ contents (last_request ctx) = mkDuration 0 0.
Proof.
  unfold served_once. intros Hs. destruct (generate_topology sensor w) as [[t w1]|] eqn:E1; [|discriminate].
  destruct (start_server t "host" false true w1) as [[ctx w2]|] eqn:E2; [|discriminate].
  apply is_done_inv in Hs as [[[g body] w3] E3].
  exists t, w1, ctx, w2, g, body, w3. do 3 (split; [first [assumption|reflexivity]|]). unfold start_server in E2.
  apply io_bind_inv in E2 as (t' & w4 & _ & E2). by apply io_bind_inv in E2 as (g' & w5 & _ & [= <- _]).
Qed.

Lemma orderly_server_answers_witness :
  ∃ t w1 ctx w2 body s', generate_topology session_sensor start = Done (t, w1) ∧
    start_server t "host" false true w1 = Done (ctx, w2) ∧
    orderly 7 "1.0.0" "metrics" (mkServer ctx [mkDuration 9 0; mkDuration 10 0] w2) [Some body] s' ∧
    waiting s' = [mkDuration 10 0] ∧ answered body ∧
    ∃ c w' next, served 7 "1.0.0" "metrics" "/metrics" (mkDuration 10 0) (context s') (now s') c w' (Some next) ∧ answered next.
Proof.
  destruct (served_once_inv _ _ served_once_ok) as (t & w1 & ctx & w2 & g & body & w3 & E1 & E2 & E3 & [Hl Hg] & Ht).
  set (c := {| last_request := mkMutex (mkDuration 9 0) false; metric_generator := mkMutex g false |}).
  assert (orderly 7 "1.0.0" "metrics" (mkServer ctx [mkDuration 9 0; mkDuration 10 0] w2) [Some body]
            (mkServer c [mkDuration 10 0] w3)) as Hr.
  { apply (orderly_serve 7 "1.0.0" "metrics" (mkServer ctx [mkDuration 9 0; mkDuration 10 0] w2) 0 (mkDuration 9 0) c w3
             (Some body) []); [reflexivity|cbn [context]; rewrite Ht; reflexivity| |apply orderly_nil].
    exact (served_metrics 7 "1.0.0" "metrics" "/metrics" (mkDuration 9 0) ctx w2 g body w3 eq_refl Hl Hg E3). }
  destruct (orderly_server_answers 7 2 "1.0.0" content eq_refl eq_refl session_sensor "metrics" start t w1 w1 "host" false true
              ctx w2 [mkDuration 9 0; mkDuration 10 0] [Some body] _ E1 E2 Hr) as (Hall & _ & Hnext).
  exists t, w1, ctx, w2, body, (mkServer c [mkDuration 10 0] w3). split; [exact E1|]. split; [exact E2|].
  split; [exact Hr|]. split; [reflexivity|]. split.
  - rewrite Forall_singleton in Hall. destruct Hall as (b & [= <-] & Hb). exact Hb.
  - destruct (Hnext 0%nat (mkDuration 10 0) eq_refl eq_refl) as (c' & w' & next & Hn' & Ha).
    exists c', w', next. split; [exact Hn'|exact Ha].
Defined.
