(* ===== verification/Reports.v ===== *)
(** * A report of a collection never panics

    The JSON exporter unwraps what it searches for: the labels of disks, sockets, domains and
    processes, and the numbers of their metrics.  This file shows that in the metrics of a
    collection on a sane host each of them is there, whose disks have names that are text, so
    that a report can always be made. *)

From S2P Require Import Prelude Floats Text TextOps FloatText Units Env Loops Returns Records Energy Common.
From S2P Require Import Domain Core Socket ProcTracker Bpf Topology Attribution Powercap Containers ExporterUtils Metrics.
From S2P Require Import Samples Clones Series Search Json Stdout Session Alive.

(** ** Searches that return *)

Lemma find_rest_yields P l :
  (∀ m, m ∈ l → yields (P m) any) →
  yields (find_rest P l) (λ r, (∀ m, r.1 = Some m → m ∈ l ∧ P m = Done true) ∧ ∀ m, m ∈ r.2 → m ∈ l).
Proof.
  induction l as [|x l IH]; intros HP; cbn [find_rest]; [by apply yields_ret|].
  destruct (HP x) as (b & E & _); [by left|]. rewrite E, bind_done. destruct b.
  - apply yields_ret. simpl. split; [intros m [= <-]; split; [by left|done]|]. intros m Hm. by right.
  - eapply yields_weaken; [apply IH; intros m Hm; apply HP; by right|]. intros r [Hf Hr]. split.
    + intros m Hm. destruct (Hf m Hm). split; [by right|done].
    + intros m Hm. right. by apply Hr.
Qed.

Lemma find_yields P l :
  (∀ m, m ∈ l → yields (P m) any) → yields (find P l) (λ o, ∀ m, o = Some m → m ∈ l ∧ P m = Done true).
Proof.
  intros HP. destruct (find_rest_yields P l HP) as (r & E & Hr & _). unfold find. rewrite E. by exists r.1.
Qed.

Lemma filter_yields P l :
  (∀ m, m ∈ l → yields (P m) any) → yields (filter_ P l) (Forall (λ m, m ∈ l ∧ P m = Done true)).
Proof.
  induction l as [|x l IH]; intros HP; cbn [filter_]; [by apply yields_ret|].
  destruct (HP x) as (b & E & _); [by left|]. rewrite E, bind_done.
  destruct IH as (k & -> & Hk); [intros m Hm; apply HP; by right|]. rewrite bind_done. apply yields_ret.
  assert (Forall (λ m, m ∈ x :: l ∧ P m = Done true) k) as Hk'.
  { eapply Forall_impl; [exact Hk|]. intros m [? ?]. split; [by right|done]. }
  destruct b; [constructor; [split; [by left|done]|done]|done].
Qed.

Lemma attribute_yields k m v : attributes m !! k = Some v → yields (attribute k m) (λ x, x = v).
Proof. unfold attribute. intros ->. by exists v. Qed.

Lemma number_yields m : numeric (value m) → yields (f32_of m) any.
Proof. intros Hm. by apply yields_unwrap. Qed.

(** ** What the metrics say *)

(** The metrics of disks have the labels of one. *)
Definition of_disks (ds : list SysDisk) (m : Metric) : Prop :=
  starts_with "scaph_host_disk_" (name m) = true → ∃ d, d ∈ ds ∧ attributes m = disk_attributes d.

Lemma other_group names ds l :
  distinct names l → Forall (λ n, starts_with "scaph_host_disk_" n = false) names → Forall (of_disks ds) l.
Proof.
  intros [_ Hn] Hf. eapply Forall_impl; [exact Hn|]. intros m Hm Hs. rewrite Forall_forall in Hf. rewrite Hf in Hs; done.
Qed.

(** Metrics whose names are constants. *)
Ltac constants := repeat (apply List.Forall_cons; [by intros [=]|]); apply List.Forall_nil.

Section Reports.
Context `{Profile, Layout, Os, !FileSystem, !Procfs, !PerfEvents, !Sysinfo, !Aya, !KernelModules}.
Context `{!HashMaps, !ContainerRuntimes, Regex, Captures, !HashLaws}.
Context (current_pid : Z) (crate_version : string).

Lemma get_disks_labels t w ds w' :
  get_disks t w = Done (ds, w') → map_Forall (λ _ x, ∃ d, d ∈ disks (Attribution.host t) ∧ x.1.2 = disk_attributes d) ds.
Proof.
  unfold get_disks. intros (now & w1 & _ & [= <- _])%io_bind_inv.
  assert (Hb : map_Forall (λ _ x, ∃ d, d ∈ disks (Attribution.host t) ∧ x.1.2 = disk_attributes d)
                 (∅ : gmap string (string * gmap string string * Record_))) by apply map_Forall_empty.
  assert (Hl : ∀ d, d ∈ disks (Attribution.host t) → d ∈ disks (Attribution.host t)) by done. revert Hb Hl.
  generalize (∅ : gmap string (string * gmap string string * Record_)). generalize (disks (Attribution.host t)) at 2 5 as l.
  intros l. induction l as [|d l IH]; intros m Hm Hl; [done|]. apply IH; [|intros; apply Hl; by right].
  unfold add_disk. assert (d ∈ disks (Attribution.host t)) by (apply Hl; by left).
  repeat (apply map_Forall_insert_2; [by exists d|]). exact Hm.
Qed.

Lemma gen_host_disks g w g' w' :
  gen_host_metrics g w = Done (g', w') → ∃ l, g' = push_all l g ∧ Forall (of_disks (disks (Attribution.host (topology g)))) l.
Proof.
  unfold gen_host_metrics. intros (powers & w1 & Hp & Hr)%io_bind_inv.
  apply io_bind_inv in Hr as (load & w2 & _ & Hr). apply io_bind_inv in Hr as (loads & w3 & Hl & Hr).
  apply io_bind_inv in Hr as (freq & w4 & _ & Hr). apply io_bind_inv in Hr as (ds & w5 & Hd%get_disks_labels & Hr).
  apply io_bind_inv in Hr as (entries & w6 & He%iterate_inv & Hr). apply io_bind_inv in Hr as (memories & w7 & Hm & Hr).
  injection Hr as <- _. eexists. split; [reflexivity|].
  apply Forall_app; split; [|apply Forall_app; split; [|apply List.Forall_cons; [by intros [=]|apply Forall_app; split]]].
  - apply (other_group power_names); [|by_names]. destruct (last _); [by eapply host_power_distinct|].
    injection Hp as <- _. split; constructor.
  - destruct load as [load|]; [|by injection Hl as <- _]. apply lift_inv in Hl as [Hl _]. unfold load_metrics in Hl.
    do 3 (apply bind_Done_inv in Hl as (? & _ & Hl)). injection Hl as <-. constants.
  - apply Forall_fmap. rewrite He. apply Forall_forall. intros [k x] Hin%elem_of_map_to_list _. exact (Hd k x Hin).
  - unfold memory_metrics in Hm. do 5 (apply io_bind_inv in Hm as (? & ? & _ & Hm)). injection Hm as <- _.
    constants.
Qed.

Lemma collected_disks g w g' w' :
  labelled (topology g) → gen_all_metrics current_pid crate_version g w = Done (g', w') →
  ∃ l, data g' = data g ++ l ∧ Forall (of_disks (disks (Attribution.host (topology g)))) l.
Proof.
  intros Ht. unfold gen_all_metrics. intros (g1 & w1 & (l1 & -> & H1')%gen_self_distinct & Hr)%io_bind_inv; [|done].
  apply io_bind_inv in Hr as (g2 & w2 & (l2 & -> & H2')%gen_host_disks & Hr).
  apply io_bind_inv in Hr as (g3 & w3 & (ls & -> & H3' & _)%gen_socket_distinct & Hr); [|done].
  apply io_bind_inv in Hr as (g4 & w4 & (l4 & -> & H4')%gen_system_distinct & Hr).
  apply gen_process_distinct in Hr as (lp & -> & H5' & _); [|done].
  exists (l1 ++ l2 ++ mjoin ls ++ l4 ++ mjoin lp). split; [simpl; by rewrite <- !app_assoc|].
  repeat (apply Forall_app; split); [|exact H2'|..];
    [eapply other_group; [exact H1'|]|eapply other_group; [exact H3'|]|eapply other_group; [exact H4'|]
    |eapply other_group; [exact H5'|]]; by_names.
Qed.
(** ** The labels and the numbers of a socket, and of a process *)

Lemma idle_power_number h s w k w' m :
  Forall (λ r, Forall numeric (m_values r)) (Socket.activation_idle_buffer s) →
  socket_metrics h s w = Done (k, w') → m ∈ k → name m = "scaph_socket_idle_power_microwatts"%string →
  numeric (value m).
Proof.
  intros He. unfold socket_metrics. intros (powers & w1 & Hp & Hl)%io_bind_inv Hm Hn.
  apply io_bind_inv in Hl as (mmio & w2 & _ & Hl). apply io_bind_inv in Hl as (ds & w3 & Hds & [= <- _]).
  rewrite !elem_of_app in Hm. destruct Hm as [Hm | [Hm | Hm]].
  - destruct (last _); [|injection Hp as <- _; by apply elem_of_nil in Hm].
    unfold socket_power_metrics in Hp. apply io_bind_inv in Hp as (idle & w4 & Hidle & Hp).
    do 2 (apply io_bind_inv in Hp as (? & ? & _ & Hp)). injection Hp as <- _.
    rewrite elem_of_cons, !elem_of_app in Hm. destruct Hm as [-> | [Hm | [Hm | [Hm | Hm]]]]; [done|..].
    2:{ destruct idle as [rec|]; [|by apply elem_of_nil in Hm]. apply list_elem_of_singleton in Hm as ->.
        unfold Socket.get_idle_power_microwatts, Socket.stamped, background_entry in Hidle.
        destruct (last _) as [u|] eqn:Eu; [|done]. cbn [mbind option_bind] in Hidle. destruct (2 <=? _); [|done].
        destruct (m_values u !! 0%nat) as [v|] eqn:Ev; [|done]. apply io_bind_inv in Hidle as (now & w5 & _ & [= <- _]).
        apply last_elem in Eu. apply list_elem_of_lookup_2 in Ev. rewrite Forall_forall in He. specialize (He u Eu).
        rewrite Forall_forall in He. exact (He v Ev). }
    all: exfalso; (destruct (_ : option Record_) in Hm; [by apply list_elem_of_singleton in Hm as ->|by apply elem_of_nil in Hm]).
  - destruct mmio; [by apply list_elem_of_singleton in Hm as ->|by apply elem_of_nil in Hm].
  - exfalso. apply list_elem_of_join in Hm as (j & Hm & Hk).
    eapply (io_map_Forall2 _ (λ d l, distinct domain_metric_names l)) in Hds;
      [|intros d w4 j' w5 _ Hj; by apply domain_metrics_distinct in Hj as [? _]].
    apply list_elem_of_lookup in Hk as [i Hi]. destruct (Forall2_lookup_r _ _ _ _ _ Hds Hi) as (d & _ & Hd).
    revert Hn. apply (not_in_group _ _ _ _ Hd); [by_names|done].
Qed.

Lemma alive_known p pt : p ∈ get_alive_pids pt → is_Some (Env.sys_process (sysinfo pt) p).
Proof.
  intros (v & Hv & E)%list_elem_of_omap. unfold get_alive_processes in Hv.
  apply list_elem_of_In, filter_In in Hv as [_ Hv]. rewrite E in Hv. simpl in Hv.
  destruct (Env.sys_process _ p); [by eexists|done].
Qed.

(** A process that is alive has the text of its command. *)
Lemma alive_cmdline p pt : tidy pt → p ∈ get_alive_pids pt → yields (ProcTracker.get_process_cmdline p pt) is_Some.
Proof.
  intros Ht Hp. destruct (alive_known p pt Hp) as [q Hq]. destruct (alive_vector p pt Ht Hp) as (r & v & E).
  unfold ProcTracker.get_process_cmdline. rewrite E. eexists. split; [reflexivity|].
  assert (is_vector_of p (r :: v) = true) as Hv.
  { assert (r :: v ∈ List.filter (is_vector_of p) (procs pt)) as Hin by (rewrite E; by left).
    by apply list_elem_of_In, filter_In in Hin as [_ ?]. }
  apply is_vector_of_spec in Hv as [= Hr]. unfold process_cmdline. cbn [head mbind option_bind]. rewrite Hr, Hq.
  by eexists.
Qed.

Lemma process_labels g p w k w' m :
  tidy (proc_tracker (topology g)) → p ∈ get_alive_pids (proc_tracker (topology g)) →
  process_metrics g p w = Done (k, w') → m ∈ k →
  attributes m !! "pid"%string = Some (show_uint p) ∧ is_Some (attributes m !! "exe"%string) ∧
  is_Some (attributes m !! "cmdline"%string).
Proof.
  intros Ht Hp. unfold process_metrics. intros (a & w1 & Ha & Hr)%io_bind_inv Hm.
  pose proof (process_attributes_own _ _ _ _ _ Ha) as [Hpid Hexe]. assert (is_Some (a !! "cmdline"%string)) as Hc.
  { unfold process_attributes in Ha. apply io_bind_inv in Ha as (exe & w2 & _ & Ha).
    apply io_bind_inv in Ha as (c & w3 & [Hc _]%lift_inv & Ha). destruct (alive_cmdline p _ Ht Hp) as (c' & E & [x ->]).
    rewrite Hc in E. injection E as ->. apply io_bind_inv in Ha as (b & w4 & _ & Ha). cbv zeta in Ha.
    apply io_bind_inv in Ha as (v & w5 & _ & [= <- _]). unfold insert_some. destruct v; cbv beta iota.
    - rewrite lookup_insert_ne, lookup_insert_eq by done. by eexists.
    - rewrite lookup_insert_eq. by eexists. }
  apply io_bind_inv in Hr as (metrics & w2 & _ & Hr). destruct metrics; [|injection Hr as <- _; by apply elem_of_nil in Hm].
  apply io_bind_inv in Hr as (entries & w3 & _ & [= <- _]). by apply list_elem_of_fmap in Hm as (x & -> & _).
Qed.

(** ** The labels and the numbers of a collection *)

Lemma apart names others l m :
  distinct names l → Forall (λ n, n ∉ names) others → m ∈ l → name m ∉ others.
Proof.
  intros [_ Hn] Ho Hm Hin. rewrite Forall_forall in Hn. rewrite Forall_forall in Ho. by apply (Ho (name m)), Hn.
Qed.

Section Collection.
Context (g : MetricGenerator) (l l1 l2 : list Metric) (ls : list (list Metric)) (l4 : list Metric) (lp : list (list Metric)).
Context (Hp : parts g l l1 l2 ls l4 lp) (Ht : labelled (topology g)).

Lemma socket_group m :
  m ∈ l → name m ∈ socket_names →
  ∃ s k w w', s ∈ sockets (topology g) ∧ socket_metrics (host_name g) s w = Done (k, w') ∧ m ∈ k.
Proof.
  destruct Hp as [-> H1' H2' _ H4' H5' _ Hs _]. intros Hm Hn. rewrite !elem_of_app in Hm.
  destruct Hm as [Hm | [Hm | [Hm | [Hm | Hm]]]].
  3:{ apply list_elem_of_join in Hm as (k & Hm & Hk). apply list_elem_of_lookup in Hk as [i Hi].
      destruct (Forall2_lookup_r _ _ _ _ _ Hs Hi) as (s & Hi' & w & w' & Hk).
      exists s, k, w, w'. split_and!; [by eapply list_elem_of_lookup_2|done..]. }
  all: exfalso; revert Hn; first [refine (apart _ _ _ _ H1' _ Hm)|refine (apart _ _ _ _ H2' _ Hm)
    |refine (apart _ _ _ _ H4' _ Hm)|refine (apart _ _ _ _ H5' _ Hm)]; by_names.
Qed.

Lemma process_group m :
  m ∈ l → starts_with "scaph_process_" (name m) = true →
  ∃ p k g1 w w', p ∈ get_alive_pids (proc_tracker (topology g)) ∧ topology g1 = topology g ∧
    process_metrics g1 p w = Done (k, w') ∧ m ∈ k.
Proof.
  destruct Hp as [-> H1' H2' H3' H4' _ _ _ Hs]. intros Hm Hn. rewrite !elem_of_app in Hm.
  assert (∀ names k, distinct names k → Forall (λ n, starts_with "scaph_process_" n = false) names → m ∉ k) as Hno.
  { intros names k [_ Hk] Hf Hin. rewrite Forall_forall in Hk. rewrite Forall_forall in Hf. rewrite (Hf (name m)) in Hn; [done|by apply Hk]. }
  destruct Hm as [Hm | [Hm | [Hm | [Hm | Hm]]]];
    [exfalso; revert Hm; first [apply (Hno _ _ H1')|apply (Hno _ _ H2')|apply (Hno _ _ H3')|apply (Hno _ _ H4')]; by_names..|].
  apply list_elem_of_join in Hm as (k & Hm & Hk). apply list_elem_of_lookup in Hk as [i Hi].
  destruct (Forall2_lookup_r _ _ _ _ _ Hs Hi) as (p & Hi' & g1 & w & w' & Hg & Hk).
  exists p, k, g1, w, w'. split_and!; [by eapply list_elem_of_lookup_2|done..].
Qed.

(** *** What the report unwraps *)

Context (cpus : nat) (Hsound : sound cpus (topology g)).
Context (Hid : Forall (λ s, Socket.id s <= umax 16) (sockets (topology g))).

Lemma socket_number m : m ∈ l → name m ∈ socket_names → yields (socket_id_of m) any.
Proof.
  intros Hm Hn. destruct (socket_group m Hm Hn) as (s & k & w & w' & Hs & Hk & Hmk).
  destruct Ht as [[_ Hd] Hpos Hdpos _ _ _]. rewrite Forall_forall in Hd. rewrite Forall_forall in Hpos.
  rewrite Forall_forall in Hdpos. rewrite Forall_forall in Hid.
  apply socket_metrics_distinct in Hk as [_ Hc]; [|by apply Hd|by apply Hdpos].
  unfold carry in Hc. rewrite Forall_forall in Hc. unfold socket_id_of.
  eapply yields_bind; [by apply attribute_yields, Hc|]. intros i ->.
  rewrite parse_show_uint by (split; [by apply Hpos|by apply Hid]). by eexists.
Qed.

Lemma of_socket_yields n i m : n ∈ socket_names → m ∈ l → yields (of_socket n i m) any.
Proof.
  intros Hn Hm. unfold of_socket. destruct (named n m) eqn:E; [|by apply yields_ret]. apply named_spec in E as <-.
  eapply yields_bind; [by apply socket_number|]. intros j _. by apply yields_ret.
Qed.

Lemma of_socket_named n i m : of_socket n i m = Done true → name m = n.
Proof. unfold of_socket. destruct (named n m) eqn:E; [by apply named_spec in E|done]. Qed.

Lemma power_number m : m ∈ l → name m = "scaph_socket_power_microwatts"%string → numeric (value m).
Proof.
  intros Hm Hn. destruct (socket_group m Hm) as (s & k & w & w' & _ & Hk & Hmk); [by rewrite Hn; by_names|].
  by apply (socket_power_readable _ _ _ _ _ m Hk Hmk Hn).
Qed.

Lemma idle_number m : m ∈ l → name m = "scaph_socket_idle_power_microwatts"%string → numeric (value m).
Proof.
  intros Hm Hn. destruct (socket_group m Hm) as (s & k & w & w' & Hs & Hk & Hmk); [by rewrite Hn; by_names|].
  destruct Hsound as [Hss _ _]. rewrite Forall_forall in Hss. destruct (Hss s Hs) as [_ _ _ He].
  by eapply idle_power_number.
Qed.

Lemma process_labelled m :
  m ∈ l → starts_with "scaph_process_" (name m) = true →
  is_Some (attributes m !! "pid"%string) ∧ is_Some (attributes m !! "exe"%string) ∧
  is_Some (attributes m !! "cmdline"%string).
Proof.
  intros Hm Hn. destruct (process_group m Hm Hn) as (p & k & g1 & w & w' & Hpids & Hg & Hk & Hmk).
  rewrite <- Hg in Hpids. destruct (process_labels g1 p w k w' m) as (Hpid & ? & ?); [|done..|].
  - rewrite Hg. apply Hsound.
  - rewrite Hpid. split; [by eexists|done].
Qed.

Lemma process_power_number m :
  m ∈ l → name m = "scaph_process_power_consumption_microwatts"%string → numeric (value m).
Proof. intros Hm Hn. by destruct (collected_process_power _ _ _ _ _ _ _ m Hp Hm Hn) as ([_ ?] & _). Qed.

(** *** Its parts *)

Context (metrics : list Metric) (Hl : ∀ m, m ∈ metrics → m ∈ l).

Lemma domain_report_yields s m :
  m ∈ metrics → name m = "scaph_domain_power_microwatts"%string → yields (domain_report s m) any.
Proof.
  intros Hm Hn. apply (collected_domain_power _ _ _ _ _ _ _ m Hp Hn) in Hl as (s' & d & r & _ & _ & Hr & ->); [|done].
  apply power_recorded in Hr as (_ & p & Hpos & Ep). unfold domain_report.
  eapply yields_bind; [by apply attribute_yields|]. intros n _.
  eapply (yields_bind any); [apply number_yields|intros x _; by apply yields_ret].
  unfold value. cbn [metric_value value_to_string domain_power_metric gauge metric]. rewrite Ep. apply numeric_uint. lia.
Qed.

Lemma socket_report_yields s m :
  m ∈ metrics → name m = "scaph_socket_power_microwatts"%string → yields (socket_report metrics s m) any.
Proof.
  intros Hm Hn. unfold socket_report. assert (∀ n i, n ∈ socket_names → ∀ x, x ∈ metrics → yields (of_socket n i x) any) as Hof
    by (intros n i Hn' x Hx; apply of_socket_yields; [done|by apply Hl]).
  eapply (yields_bind any); [by apply number_yields, power_number; [apply Hl|]|]. intros p _.
  eapply yields_bind; [apply filter_yields, Hof; by_names|]. intros own Hown.
  eapply (yields_bind any).
  { eapply yields_weaken; [apply (yields_traverse _ any)|done]. intros d Hd. rewrite Forall_forall in Hown.
    destruct (Hown d Hd) as [Hd' Hof']. apply domain_report_yields; [done|]. by eapply of_socket_named. }
  intros ds _. eapply yields_bind; [apply find_yields, Hof; by_names|]. intros o Ho.
  eapply (yields_bind any).
  { destruct o as [i|]; [|by apply yields_ret]. destruct (Ho i eq_refl) as [Hi Hof'].
    eapply (yields_bind any); [|intros c _; by apply yields_ret].
    apply number_yields, idle_number; [by apply Hl|by eapply of_socket_named]. }
  intros idle _. do 2 (eapply yields_bind; [apply find_yields, Hof; by_names|]; intros ? _). by apply yields_ret.
Qed.

Lemma maybe_socket_yields o s :
  (∀ m, o = Some m → m ∈ metrics ∧ name m = "scaph_socket_power_microwatts"%string) →
  yields (maybe_socket metrics o s) any.
Proof.
  intros Ho. unfold maybe_socket. destruct o as [m|]; [|by apply yields_ret]. destruct (Ho m eq_refl) as [Hm Hn].
  eapply (yields_bind any); [apply socket_number; [by apply Hl|rewrite Hn; by_names]|]. intros i _.
  destruct (_ =? i); [|by apply yields_ret]. destruct (socket_report_yields s m Hm Hn) as (r & -> & _). by exists (Some r).
Qed.

Lemma consumer_yields watch pid :
  0 <= pid <= 2 ^ 31 - 1 → yields (consumer watch metrics pid) any.
Proof.
  intros Hpid. unfold consumer. eapply yields_bind; [apply find_yields|].
  - intros m Hm. unfold of_process. destruct (named _ m) eqn:E; [|by apply yields_ret]. apply named_spec in E.
    destruct (process_labelled m) as ([q Hq] & _); [by apply Hl|by rewrite E|].
    eapply yields_bind; [by apply attribute_yields|]. intros ? _. by apply yields_ret.
  - intros [m|] Hm; [|by apply yields_ret]. destruct (Hm m eq_refl) as [Hin Hof].
    unfold of_process in Hof. destruct (named _ m) eqn:E; [|done]. apply named_spec in E.
    destruct (process_labelled m) as (_ & [e He] & [c Hc]); [by apply Hl|by rewrite E|].
    eapply yields_bind; [by apply attribute_yields|]. intros ? _.
    eapply yields_bind; [by apply attribute_yields|]. intros ? _.
    eapply (yields_bind any); [apply yields_unwrap; [|done]|intros ? _].
    { rewrite parse_int_show by lia. destruct (Z.leb_spec pid (2 ^ (32 - 1) - 1)); [by eexists|lia]. }
    eapply (yields_bind any); [apply number_yields, process_power_number; [by apply Hl|done]|intros ? _].
    by apply yields_ret.
Qed.

Lemma resources_yield c : yields (set_resources metrics c) any.
Proof.
  unfold set_resources. rewrite gen_resources_own; [by eexists|]. apply Forall_forall. intros m Hm Hn.
  by apply process_labelled; [apply Hl|].
Qed.

Lemma host_report_yields ds : yields (host_report metrics ds) any.
Proof.
  unfold host_report. destruct (List.find _ metrics) as [m|] eqn:E; [|by apply yields_ret].
  apply find_member in E as [Hm Hn%named_spec].
  eapply (yields_bind any); [|intros x _; by apply yields_ret].
  apply number_yields. by apply (collected_host_power _ _ _ _ _ _ _ m Hp); [apply Hl|].
Qed.
End Collection.

(** The disks, whose names must be text. *)
Lemma disks_yield ds l :
  Forall (λ d, is_Some (d_name d)) ds → Forall (λ m, ∃ d, d ∈ ds ∧ attributes m = disk_attributes d) l →
  yields (gen_disks_report l) any.
Proof.
  intros Hd Hl. unfold gen_disks_report. apply (yields_foldM _ any); [done|]. intros res m Hm _.
  rewrite Forall_forall in Hl. destruct (Hl m Hm) as (d & Hin & E). rewrite Forall_forall in Hd.
  destruct (Hd d Hin) as [n Hn]. unfold add_disk_report.
  eapply yields_bind; [apply (attribute_yields _ _ n); rewrite E; unfold disk_attributes; rewrite Hn; apply lookup_insert_eq|].
  intros ? ->. destruct (list_find _ res) as [[i ?]|]; [by apply yields_ret|].
  eapply (yields_bind any); [|intros x _; by apply yields_ret]. unfold new_disk.
  assert (attributes m !! "disk_is_removable"%string = Some (if d_is_removable d then "true"%string else "false"%string)) as ->.
  { rewrite E. unfold disk_attributes. rewrite Hn. cbn [insert_opt]. rewrite lookup_insert_ne, lookup_insert_eq by done. done. }
  eapply (yields_bind any); [|intros x _; by apply yields_ret]. destruct (d_is_removable d); by eexists.
Qed.
(** *** The whole report *)

(** Every disk has a name that is text. *)
Class NamedDisks : Prop := named_disks s : Forall (λ d, is_Some (d_name d)) (disks s).

Context (cpus : nat) `{!SaneHost current_pid cpus, !NamedDisks} (release : overflow_checks = false).

Lemma core_reports_return t : returns (core_reports t) any.
Proof.
  unfold core_reports, Attribution.get_proportional_core_diff_power_microwatts. any_steps;
    by apply (now_returns current_pid cpus).
Qed.

Lemma select_returns args g : sound cpus (topology g) → returns (Json.select_consumers args g) known_pids.
Proof.
  intros Ht. unfold Json.select_consumers. destruct (process_regex args).
  - apply returns_lift, (filtered_yields current_pid cpus). by destruct Ht.
  - destruct (container_regex args); [by apply (filtered_by_container cpus)|].
    by apply (consumers_return current_pid cpus).
Qed.

Lemma report_returns args g g1 l l1 l2 ls l4 lp metrics :
  parts g l l1 l2 ls l4 lp → labelled (topology g) → sound cpus (topology g) →
  Forall (λ s, Socket.id s <= umax 16) (sockets (topology g)) →
  Forall (of_disks (disks (Attribution.host (topology g)))) l →
  topology g1 = topology g → (∀ m, m ∈ metrics → m ∈ l) → returns (report_of args metrics g1) any.
Proof.
  intros Hp Ht Hs Hid Hd Htopo Hl. unfold report_of.
  eapply returns_bind; [apply returns_lift, find_rest_yields; intros m _; by eexists|]. intros [o rest] [Ho Hrest].
  eapply (returns_bind any).
  { apply returns_lift. eapply disks_yield; [apply named_disks|]. apply Forall_forall.
    intros m [Hm Hn]%list_elem_of_In%filter_In. rewrite Forall_forall in Hd. apply Hd; [|exact Hn].
    by apply Hl, Hrest, list_elem_of_In. }
  intros ds _. eapply (returns_bind any); [by eapply returns_lift, host_report_yields|]. intros host _.
  eapply returns_bind; [apply select_returns; by rewrite Htopo|]. intros consumers Hc.
  eapply (returns_bind any).
  { apply returns_lift. eapply yields_weaken; [apply (yields_traverse _ any)|done]. intros c Hin.
    unfold known_pids in Hc. rewrite Forall_forall in Hc. by eapply consumer_yields; [..|apply Hc]. }
  intros cs _. cbv zeta. eapply (returns_bind any).
  { apply returns_lift. destruct (monitor_resources args); [|by apply yields_ret].
    eapply yields_weaken; [apply (yields_traverse _ any)|done]. intros c _. by eapply resources_yield. }
  intros tops _. eapply (returns_bind any).
  { apply returns_lift. eapply yields_weaken; [apply (yields_traverse _ any)|done]. intros s _.
    eapply maybe_socket_yields; [done..|]. intros m E. destruct (Ho m E) as [Hm [= Hn]]. split; [done|].
    by apply named_spec. }
  intros ss _. destruct host as [h|]; [|by apply returns_ret].
  eapply (returns_bind any); [apply core_reports_return|]. intros cores _. by apply returns_ret.
Qed.
End Reports.
