(* ===== verification/Events.v ===== *)
(** * The services of the Riemann exporter ([exporters/riemann.rs])

    Riemann tells events apart by their host and their service, which is the name of the
    metric: the labels do not count.  The exporter names the metric of a process after its
    pid and its executable for that reason; the metrics of the sockets and of the domains
    keep one name for all. *)

From S2P Require Import Prelude Floats Text TextOps FloatText Units Env Simulated Loops Records Energy Common.
From S2P Require Import Domain Core Socket ProcTracker Bpf Topology Attribution Containers ExporterUtils Metrics.
From S2P Require Import Samples Clones Series Search Json Stdout Prometheus Riemann Powercap Session.
From Stdlib Require Import Ascii.

#[local] Arguments String.append : simpl nomatch.

Definition process_service_prefix : string := "scaph_process_power_consumption_microwatts_".

Definition process_service (pid : Z) (exe : string) : string :=
  process_service_prefix +:+ show_uint pid +:+ "_" +:+ exe.

(** The names that a round sends before those of the processes. *)
Definition shared_services : list string := self_names ++ host_names ++ socket_names.

Lemma shared_no_process : Forall (λ n, strip_prefix process_service_prefix n = None) shared_services.
Proof. by_names. Qed.

Lemma process_service_inj p q e f : 0 <= p → 0 <= q → process_service p e = process_service q f → p = q.
Proof.
  intros Hp Hq E. unfold process_service in E.
  apply (f_equal (strip_prefix process_service_prefix)) in E.
  rewrite !(proj2 (strip_prefix_app _ _ _) eq_refl) in E. injection E as E.
  apply (f_equal (cut "_"%char)) in E.
  assert (Hd : ∀ n, 0 <= n → all_chars (differs "_") (show_uint n) = true).
  { intros n Hn. eapply all_chars_impl; [|by apply all_digits_show]. intros c Hc. unfold differs.
    apply negb_true_iff, bool_decide_false. by intros ->. }
  change ("_" +:+ ?x) with (String "_" x) in E. rewrite !cut_app in E by auto. injection E as E _.
  by apply show_uint_inj.
Qed.

Section Events.
Context `{Profile, Layout, Os, !FileSystem, !Procfs, !PerfEvents, !Sysinfo, !Aya}.
Context `{!HashMaps, !ContainerRuntimes, Regex, Captures, !HashLaws, !SysinfoLaws, !Hostname, !Riemann}.
Context (current_pid : Z) (crate_version : string) (client : Client).
Context (content : string → option string) `{!NameFiles content}.

(** The metrics of a process: none, or one under its own name. *)
Definition own_service (pid : Z) (l : list Metric) : Prop :=
  ∃ exe, Forall (λ m, name m = process_service pid exe) l ∧ (length l <= 1)%nat.

Lemma process_metric_own qemu t p w l w' : process_metric qemu t p w = Done (l, w') → own_service p l.
Proof.
  unfold process_metric. intros (exe & w1 & _ & Hr)%io_bind_inv. exists exe.
  apply io_bind_inv in Hr as (cmdline & w2 & _ & Hr). cbv zeta in Hr.
  apply io_bind_inv in Hr as (a & w3 & _ & Hr). apply io_bind_inv in Hr as (power & w4 & _ & Hr).
  destruct power as [power|]; [|injection Hr as <- _; by split; [constructor|simpl; lia]].
  apply io_bind_inv in Hr as (h & w5 & _ & [= <- _]). split; [by repeat constructor|simpl; lia].
Qed.

Lemma own_services_distinct pids ls :
  NoDup pids → Forall (λ p, 0 <= p) pids → Forall2 own_service pids ls → NoDup (name <$> mjoin ls).
Proof.
  intros Hn Hp Hl. induction Hl as [|p l pids ls (exe & Hl & Hlen) Hls IH]; [constructor|].
  apply NoDup_cons in Hn as [Hin Hn]. apply Forall_cons in Hp as [Hp0 Hp]. simpl. rewrite fmap_app. apply NoDup_app.
  split; [destruct l as [|m [|]]; simpl in *; [constructor|by apply NoDup_singleton|lia]|]. split; [|by apply IH].
  intros n Hm Hm'. apply list_elem_of_fmap in Hm as (m & -> & Hm). apply list_elem_of_fmap in Hm' as (m' & E & Hm').
  apply list_elem_of_join in Hm' as (l' & Hm' & Hl').
  apply list_elem_of_lookup in Hl' as [i Hi]. destruct (Forall2_lookup_r _ _ _ _ _ Hls Hi) as (q & Hq & exe' & Hl' & _).
  rewrite Forall_forall in Hl, Hl'. rewrite Forall_forall in Hp. rewrite (Hl m Hm), (Hl' m' Hm') in E.
  apply list_elem_of_lookup_2 in Hq. apply process_service_inj in E as ->; [done|done|]. by apply Hp.
Qed.

Lemma shared_elsewhere (l k : list Metric) :
  Forall (λ m, name m ∈ shared_services) l → (∀ m, m ∈ k → ∃ p e, name m = process_service p e) →
  Forall (λ m, name m ∉ (name <$> k)) l.
Proof.
  intros Hl Hk. eapply Forall_impl; [exact Hl|]. intros m Hm (m' & E & Hm')%list_elem_of_fmap.
  destruct (Hk m' Hm') as (p & e & E'). pose proof shared_no_process as Hs. rewrite Forall_forall in Hs.
  apply Hs in Hm. rewrite E, E' in Hm. unfold process_service in Hm.
  by rewrite (proj2 (strip_prefix_app _ _ _) eq_refl) in Hm.
Qed.

(** A socket with a record announces its energy. *)
Definition has_record (s : CPUSocket) : Prop := last (Socket.get_records_passive s) ≠ None.

Lemma socket_energy_sent h s w l w' :
  has_record s → socket_metrics h s w = Done (l, w') →
  "scaph_socket_energy_microjoules"%string ∈ name <$> l.
Proof.
  unfold has_record, socket_metrics. destruct (last _) as [record|]; [|done]. intros _.
  intros (powers & w1 & Hp & Hr)%io_bind_inv. unfold socket_power_metrics in Hp.
  do 3 (apply io_bind_inv in Hp as (? & ? & _ & Hp)). injection Hp as <- _.
  do 2 (apply io_bind_inv in Hr as (? & ? & _ & Hr)). injection Hr as <- _. left.
Qed.

Lemma repeated_name {A} (f : A → string) (x : string) (ls : list (list A)) i j li lj :
  i ≠ j → ls !! i = Some li → ls !! j = Some lj → x ∈ f <$> li → x ∈ f <$> lj → ¬ NoDup (f <$> mjoin ls).
Proof.
  revert i j. induction ls as [|l ls IH]; intros i j Hne Hi Hj Hxi Hxj Hn; [done|]. simpl in Hn.
  rewrite fmap_app in Hn. apply NoDup_app in Hn as (_ & Hd & Hn).
  assert (Hin : ∀ k lk, ls !! k = Some lk → x ∈ f <$> lk → x ∈ f <$> mjoin ls).
  { intros k lk Hk (y & -> & Hy)%list_elem_of_fmap. apply list_elem_of_fmap_2, list_elem_of_join.
    exists lk. split; [done|by eapply list_elem_of_lookup_2]. }
  destruct i as [|i], j as [|j]; simpl in Hi, Hj; [done| | |by eapply (IH i j); auto].
  - injection Hi as ->. by eapply Hd, Hin.
  - injection Hj as ->. by eapply Hd, Hin.
Qed.

(** What a round sends: what the generator collected, then the processes. *)
Record sent (t : Topology) (l shared own : list Metric) : Prop := {
  sent_all : l = shared ++ own;
  sent_shared : distinct shared_services shared;
  sent_own : NoDup (name <$> own);
  sent_processes : ∀ m, m ∈ own → ∃ p e, name m = process_service p e;
  sent_sockets : ∃ others ls, shared ≡ₚ others ++ mjoin ls ∧
    Forall2 (λ s l, ∃ h w w', socket_metrics h s w = Done (l, w')) (sockets t) ls;
}.

Lemma riemann_sent args_qemu g w g' l w' :
  ready content g → riemann_round current_pid crate_version client args_qemu g w = Done ((g', l), w') →
  ready content g' ∧ ∃ shared own, sent (topology g') l shared own.
Proof.
  intros Hg. unfold riemann_round. intros (t & w1 & Ht & Hr)%io_bind_inv.
  pose proof (refresh_ready content _ _ _ _ (clean_ready content _ Hg) Ht) as [Hset Hdata].
  cbn [topology set_topology data] in Hset, Hdata. pose proof (settled_labelled content _ Hset) as Hlab.
  apply io_bind_inv in Hr as (g1 & w2 & Hself & Hr). apply gen_self_distinct in Hself as (l1 & -> & D1); [|exact Hlab].
  apply io_bind_inv in Hr as (g2 & w3 & Hhost & Hr). apply gen_host_distinct in Hhost as (powers & rest & -> & Dp & Dr & _).
  assert (D2 : distinct host_names (powers ++ rest)) by distinct_in.
  apply io_bind_inv in Hr as (g3 & w4 & Hsocks & Hr).
  apply gen_socket_distinct in Hsocks as (ls & -> & D3 & Hs); [|exact Hlab].
  apply io_bind_inv in Hr as (ps & w5 & Hps & Hr). apply io_bind_inv in Hr as ([g4 metrics] & w6 & [Hp _]%lift_inv & Hr).
  rewrite pop_metrics_eq in Hp. injection Hp as <- <-. apply io_bind_inv in Hr as (u1 & w7 & _ & Hr).
  apply io_bind_inv in Hr as (u2 & w8 & _ & [= <- <- _]).
  cbn [topology push_all set_data set_topology data] in *. rewrite Hdata, app_nil_l. split; [done|].
  eapply (io_map_Forall2 _ own_service) in Hps; [|intros; by eapply process_metric_own].
  assert (Dall : distinct shared_services ((l1 ++ (powers ++ rest)) ++ mjoin ls)) by distinct_in.
  eexists _, _. split; [reflexivity|..].
  - destruct Dall as [Hn Hf]. split; [by rewrite <- Permutation_rev|by apply Forall_rev].
  - eapply own_services_distinct; [|by apply alive_pids_pos|exact Hps].
    pose proof (alive_pids_distinct _ Hlab) as Hn. by apply NoDup_fmap_1 in Hn.
  - intros m (k & Hm & Hk)%list_elem_of_join. apply list_elem_of_lookup in Hk as [i Hi].
    destruct (Forall2_lookup_r _ _ _ _ _ Hps Hi) as (q & _ & e & He & _). rewrite Forall_forall in He. eauto.
  - exists (l1 ++ (powers ++ rest)), ls. split; [by rewrite <- Permutation_rev|].
    eapply Forall2_impl; [exact Hs|]. intros s b (w9 & w10 & Hb). by eexists _, _, _.
Qed.

Lemma sent_once t l shared own : sent t l shared own → collected_once l.
Proof.
  intros [-> [Hn Hf] Hown Hp _]. unfold collected_once. rewrite fmap_app. apply NoDup_app. split; [done|].
  assert (Hfst : ∀ k, fst <$> (series <$> k) = name <$> k) by (intros k; by rewrite <- list_fmap_compose).
  split; [|apply (NoDup_fmap_1 fst); by rewrite Hfst].
  pose proof (shared_elsewhere _ _ Hf Hp) as Helse. rewrite Forall_forall in Helse.
  intros x (m & -> & Hm)%list_elem_of_fmap Hx. apply (Helse m Hm). rewrite <- Hfst. by apply (list_elem_of_fmap_2 fst) in Hx.
Qed.

Lemma sent_hides t l shared own i j s s' :
  sent t l shared own → i ≠ j → sockets t !! i = Some s → sockets t !! j = Some s' →
  has_record s → has_record s' → ¬ NoDup (name <$> shared).
Proof.
  intros [_ _ _ _ (others & ls & Hperm & Hs)] Hne Hi Hj Hri Hrj Hn.
  destruct (Forall2_lookup_l _ _ _ _ _ Hs Hi) as (li & Hli & hi & wi & wi' & Hmi).
  destruct (Forall2_lookup_l _ _ _ _ _ Hs Hj) as (lj & Hlj & hj & wj & wj' & Hmj).
  rewrite Hperm, fmap_app in Hn. apply NoDup_app in Hn as (_ & _ & Hn). revert Hn.
  apply (repeated_name _ "scaph_socket_energy_microjoules" _ _ _ _ _ Hne Hli Hlj).
  - eapply socket_energy_sent; [exact Hri|exact Hmi].
  - eapply socket_energy_sent; [exact Hrj|exact Hmj].
Qed.

(** C24: the events of the processes have a service each, which no other event has, and no two
    events have the same service and the same labels; but as soon as two sockets have a record
    their events share a service, so that for Riemann, which keeps the last event of a service
    of a host, one socket hides the other. *)
Theorem process_services_differ args_qemu g w g' l w' :
  ready content g → riemann_round current_pid crate_version client args_qemu g w = Done ((g', l), w') →
  collected_once l ∧
  ∃ shared own, l = shared ++ own ∧ NoDup (name <$> own) ∧ Forall (λ m, name m ∉ (name <$> own)) shared ∧
    (∀ i j s s', i ≠ j → sockets (topology g') !! i = Some s → sockets (topology g') !! j = Some s' →
                 has_record s → has_record s' → ¬ NoDup (name <$> shared)).
Proof.
  intros Hg (_ & shared & own & Hsent)%riemann_sent; [|done]. split; [by eapply sent_once|].
  exists shared, own. pose proof Hsent as [Hall [_ Hf] Hn Hp _].
  split_and!; [done..|by apply shared_elsewhere|]. intros. by eapply sent_hides.
Qed.
End Events.

(** ** Example *)

Import SessionHost.

#[local] Instance host_hostname : @Hostname host := λ t, (Some "host"%string, t).
#[local] Instance host_riemann : @Riemann host := simulated_riemann session_files.
Definition server : @Client host host_riemann := tt.

Definition made : outcome (MetricGenerator * world) :=
  match generate_topology session_sensor start with
  | Done (t, w) => Metrics.new t "host" false true w
  | Panic => Panic
  end.

Lemma made_ready g w : made = Done (g, w) → ready content g.
Proof.
  unfold made. destruct (generate_topology session_sensor start) as [[t w1]|] eqn:E; [|done].
  intros Hn. eapply new_ready; [|exact Hn]. exact (generate_settled content _ _ _ _ E).
Qed.

Definition sample_round : MetricGenerator → io (MetricGenerator * list Metric) :=
  riemann_round 7 "1.0.0" server false.

Lemma sample_round_ready g w g' l w' : sample_round g w = Done ((g', l), w') → ready content g → ready content g'.
Proof. unfold sample_round. intros Hr Hg. apply (riemann_sent 7 "1.0.0" server content _ _ _ _ _ _ Hg Hr). Qed.

(** The third round, and whether both sockets have a record and both processes an event. *)
Definition third : outcome (MetricGenerator * list (list Metric) * world) :=
  match made with
  | Done (g, w) => first_rounds sample_round (mkDuration 5 0) 2 g w
  | Panic => Panic
  end.

Definition two_records (r : outcome (MetricGenerator * list Metric * world)) : bool :=
  match r with
  | Done (g, l, _) =>
      bool_decide (length (sockets (topology g)) = 2%nat)
      && forallb (λ s, bool_decide (is_Some (last (Socket.get_records_passive s)))) (sockets (topology g))
      && bool_decide (process_service 42 "/bin/a" ∈ (name <$> l))
  | Panic => false
  end.

Lemma third_sends : two_records (match third with Done (g, _, w) => sample_round g w | Panic => Panic end) = true.
Proof. vm_compute. reflexivity. Qed.

Lemma third_ready g ls w : third = Done (g, ls, w) → ready content g.
Proof.
  unfold third. destruct made as [[g0 w0]|] eqn:E; [|done]. apply made_ready in E. intros Hr.
  eapply (first_rounds_all _ _ (ready content) (λ _, True)) in Hr; [by destruct Hr| |exact E].
  intros st w1 st' o w2 Hst Ho. split; [by eapply sample_round_ready|done].
Qed.

Lemma process_services_differ_witness :
  ∃ g l shared own, l = shared ++ own ∧ NoDup (series <$> l) ∧ NoDup (name <$> own) ∧
    process_service 42 "/bin/a" ∈ (name <$> l) ∧ ¬ NoDup (name <$> shared) ∧
    length (sockets (topology g)) = 2%nat.
Proof.
  pose proof third_sends as Hs. destruct third as [[[g ls] w]|] eqn:Et; [|discriminate].
  apply third_ready in Et. destruct (sample_round g w) as [[[g' l] w']|] eqn:Er; [|discriminate].
  destruct (process_services_differ 7 "1.0.0" server content false g w g' l w' Et Er)
    as (Hl & shared & own & Hall & Hown & _ & Hhide).
  apply andb_true_iff in Hs as [Hs Hp]. apply andb_true_iff in Hs as [Hlen Hrec].
  apply bool_decide_eq_true in Hlen, Hp.
  exists g', l, shared, own. split; [exact Hall|]. split; [exact Hl|]. split; [exact Hown|]. split; [exact Hp|].
  split; [|exact Hlen].
  destruct (sockets (topology g')) as [|s [|s' [|]]]; try discriminate.
  apply andb_true_iff in Hrec as [H0 H1]. apply andb_true_iff in H1 as [H1 _].
  apply bool_decide_eq_true in H0 as [? H0], H1 as [? H1].
  apply (Hhide 0%nat 1%nat s s'); [discriminate|reflexivity|reflexivity| |]; unfold has_record; congruence.
Defined.
