(* ===== verification/JsonFile.v ===== *)
(** * The output of the JSON exporter ([exporters/json.rs])

    Each report is serialized through a buffered writer on the file of the option [--file] or
    on the standard output.  The serializer is third-party code: the parts of text that it
    writes for a report are a parameter. *)

From S2P Require Import Prelude Floats Text TextOps FloatText Units Env Simulated Loops Records Energy Common.
From S2P Require Import Domain Core Socket ProcTracker Bpf Topology Attribution Containers ExporterUtils Metrics.
From S2P Require Import Samples Clones Series Search Writer Json Frame Powercap Session Recorded.

Section JsonFile.
Context `{Profile, Layout, Os, !FileSystem, !Procfs, !PerfEvents, !Sysinfo, !Aya}.
Context `{!HashMaps, !ContainerRuntimes, Regex, Captures, !Instants, !Sinks}.
Context (current_pid : Z) (crate_version : string) (serialize : Report → list string).

(** The file is created, or emptied, when the exporter is made. *)
Definition open_output (file : option string) : io BufWriter :=
  match file with
  | Some f => sink ← effect (create_file f); sink ← lift (unwrap sink); mret (new_writer sink)
  | None => mret (new_writer stdout_sink)
  end.

(** [iterate]: the report is written when there is one. *)
Definition write_round (args : JsonArgs) (st : MetricGenerator * BufWriter)
    : io (MetricGenerator * BufWriter * option Report) :=
  let '(g, out_writer) := st in
  '(g, report) ← json_iterate current_pid crate_version args g;
  out_writer ← match report with
               | Some report => write_chunks (serialize report) out_writer
               | None => mret out_writer
               end;
  mret (g, out_writer, report).

(** [run]: with a limit, [None] when the fuel runs out; without one, the first rounds. *)
Definition write_run (args : JsonArgs) (time_step : Duration) (time_limit : option Duration) (fuel : nat)
    (st : MetricGenerator * BufWriter) : io (option (MetricGenerator * BufWriter * list (option Report))) :=
  match time_limit with
  | Some limit => timed_loop (write_round args) time_step fuel limit st
  | None => r ← first_rounds (write_round args) time_step fuel st; mret (Some r)
  end.

(** The text of some reports: they follow each other without a separator. *)
Definition text_of (reports : list (option Report)) : string :=
  String.concat "" (omap Datatypes.id reports ≫= serialize).

Lemma concat_app l k : String.concat "" (l ++ k) = String.concat "" l +:+ String.concat "" k.
Proof.
  induction l as [|s l IH]; [done|]. destruct l as [|t l].
  - destruct k; simpl; [by rewrite app_nil_str|done].
  - change (String.concat "" ((s :: t :: l) ++ k)) with (s +:+ ("" +:+ String.concat "" ((t :: l) ++ k))).
    rewrite IH. change (String.concat "" (s :: t :: l)) with (s +:+ ("" +:+ String.concat "" (t :: l))).
    by rewrite !app_assoc_str.
Qed.

Lemma text_of_snoc l o : text_of (l ++ [o]) = text_of l +:+ text_of [o].
Proof. unfold text_of. by rewrite omap_app, bind_app, concat_app. Qed.

(** Nothing else of the program writes to the sinks. *)
Class Untouched (received : Sink → world → string) : Prop := {
  untouched_rounds k :: Respects (λ w w', received k w' = received k w);
  untouched_instant k w : received k (instant w).2 = received k w;
  untouched_sleep k d w : received k (sleep d w) = received k w;
}.

Section File.
Context (received : Sink → world → string) `{!SinkLaws received, !Untouched received}.

(** The reports so far are what was written to the sink [k]. *)
Definition reported (k : Sink) (l : list (option Report)) (st : MetricGenerator * BufWriter) (w : world) : Prop :=
  kept received st.2 w ∧ written received st.2 w = text_of l ∧ inner st.2 = k.

Lemma reported_elsewhere k l st w w' :
  received k w' = received k w → reported k l st w → reported k l st w'.
Proof.
  intros E (Hk & Hw & <-). destruct (kept_elsewhere _ _ _ _ E Hk) as [Hk' Hw']. split_and!; [done|congruence|done].
Qed.

Lemma write_round_reported args k l st w st' o w' :
  reported k l st w → write_round args st w = Done ((st', o), w') → reported k (l ++ [o]) st' w'.
Proof.
  destruct st as [g out]. intros Hr. unfold write_round.
  intros ([g1 report] & w1 & Hj & Hwr)%io_bind_inv. apply io_bind_inv in Hwr as (out1 & w2 & Ho & [= <- <- <-]).
  apply (json_round_stays current_pid crate_version (λ w w', received k w' = received k w)) in Hj.
  apply (reported_elsewhere k l (g, out) w w1 Hj) in Hr as (Hk & Hw & Hi). unfold reported. simpl in *.
  rewrite text_of_snoc. destruct report as [r|].
  - apply (write_chunks_written received) in Ho as (Hw' & Hk' & Hi'); [|done]. rewrite Hw', Hw, Hi'.
    split_and!; [done| |done]. unfold text_of. simpl. by rewrite app_nil_r.
  - injection Ho as <- <-. unfold text_of at 2. simpl. by rewrite app_nil_str.
Qed.

(** C16: the file of the exporter, when the run with a time limit ends, has received the texts
    of its reports one after the other, but for what waits in the buffer, at most 8 KiB; what
    waits is written when the exporter is dropped.  As long as the reports together have less
    than 8 KiB the file is empty: the reports of a run that is interrupted are lost. *)
Theorem file_holds_reports args d limit fuel g path w w1 out g' out' l w2 :
  open_output (Some path) w = Done (out, w1) →
  write_run args d limit fuel (g, out) w1 = Done (Some (g', out', l), w2) →
  received (inner out) w2 +:+ buf out' = text_of l ∧ len (buf out') <= capacity ∧
  (len (text_of l) < capacity → received (inner out) w2 = ""%string) ∧
  (∀ u w3, drop_writer out' w2 = Done (u, w3) → (sink_write (inner out') (buf out') w2).1 ≠ None →
           received (inner out) w3 = text_of l).
Proof.
  intros Hopen Hrun. unfold open_output in Hopen. apply io_bind_inv in Hopen as (o & w0 & Hc & Hopen).
  unfold effect in Hc. injection Hc as Hc. apply io_bind_inv in Hopen as (k & w0' & [Hk ->]%lift_inv & [= <- <-]).
  destruct o as [k'|]; [|done]. injection Hk as ->. cbn [inner new_writer].
  assert (Hstart : reported k [] (g, new_writer k) w0).
  { destruct (new_kept received path w k w0 Hc) as [Hn Hw]. by split_and!. }
  assert (Hend : reported k l (g', out') w2).
  { pose proof (write_round_reported args k) as Hround.
    assert (Hi : ∀ l st w, reported k l st w → reported k l st (instant w).2)
      by (intros l0 st0 w4; apply reported_elsewhere, untouched_instant).
    assert (Hs : ∀ l st w, reported k l st w → reported k l st (sleep d w))
      by (intros l0 st0 w4; apply reported_elsewhere, untouched_sleep).
    unfold write_run in Hrun. destruct limit as [limit|].
    - by apply (timed_loop_inv _ _ _ Hround Hi Hs) in Hrun.
    - apply io_bind_inv in Hrun as ([st l1] & w3 & Hr & [= -> <- <-]).
      by apply (first_rounds_inv _ _ _ Hround Hs _ [] _ _ _ _ _ Hstart) in Hr. }
  destruct Hend as ([Hlen Huntil] & Hw & Hi). simpl in *. unfold written in *. rewrite Hi in *.
  split_and!; [done|done| |].
  - intros Hl. apply Huntil. by rewrite Hw.
  - intros u w3 Hd Hok. rewrite <- Hi in *. rewrite <- Hw. by apply (drop_written received) in Hd.
Qed.
End File.
End JsonFile.

(** ** Example *)

Module RecordedHost.
#[export] Existing Instances x86_64 SessionHost.checked SessionHost.host_regex SessionHost.host_captures.
#[export] Instance host : Os := @recorded SessionHost.host.
#[export] Instance host_fs : @FileSystem host := @recorded_fs _ SessionHost.host_fs.
#[export] Instance host_procfs : @Procfs host := @recorded_procfs _ SessionHost.host_procfs.
#[export] Instance host_perf : @PerfEvents host := @recorded_perf _ SessionHost.host_perf.
#[export] Instance host_sysinfo : @Sysinfo host := @recorded_sysinfo _ SessionHost.host_sysinfo.
#[export] Instance host_aya : @Aya host := @recorded_aya _ SessionHost.host_aya.
#[export] Instance host_maps : @HashMaps host := @recorded_maps _ SessionHost.host_maps.
#[export] Instance host_runtimes : @ContainerRuntimes host := @recorded_runtimes _ SessionHost.host_runtimes.
#[export] Instance host_instants : @Instants host := @recorded_instants _ SessionHost.host_instants.
#[export] Instance host_modules : @KernelModules host := λ w, (Some ["intel_rapl_msr"%string], w).
#[export] Instance host_sinks : @Sinks host := recorded_sinks.
#[export] Instance host_sink_laws : @SinkLaws host host_sinks file_text := recorded_sink_laws.

Lemma host_untouched : Untouched file_text.
Proof.
  split; [|by intros k [w s]|done]. intros k. split; [split; [done|intros x y z -> ->; done]|..].
  all: intros; intros ? ? ? Hw; by apply beside_text in Hw.
Qed.

Definition start : @world host := (5, "what the file was"%string).

(** A generator of this host, and its exporter for half a minute. *)
Definition args : JsonArgs := {|
  max_top_consumers := 10; process_regex := None; container_regex := None; monitor_resources := true;
  Json.args_containers := true |}.

Definition serialize (r : Report) : list string :=
  ["{cores:"; match rp_cores r with [] => "none" | _ => "some" end; "}"]%string.

Definition limit : option Duration := json_time_limit (Some 40).

Definition made : outcome (MetricGenerator * BufWriter * world) :=
  (t ← Powercap.generate_topology SessionHost.session_sensor;
   g ← Metrics.new t "host" false true;
   out ← open_output (Some "report.json"%string);
   mret (g, out)) start.
End RecordedHost.

Import RecordedHost.

Definition written_run : outcome (option (MetricGenerator * BufWriter * list (option Report)) * world) :=
  match made with
  | Done (g, out, w) => write_run 7 "1.0.0" serialize args (mkDuration 1 0) limit 6 (g, out) w
  | Panic => Panic
  end.

(** A report is written: the second round has one. *)
Definition one_report {A B C} (r : outcome (option (A * list (option B)) * C)) : bool :=
  match r with Done (Some (_, l), _) => (length (omap Datatypes.id l) =? 1)%nat | _ => false end.

Lemma one_written : one_report written_run = true.
Proof. vm_compute. reflexivity. Qed.

Lemma made_done : is_done made = true.
Proof. vm_compute. reflexivity. Qed.

Lemma written_run_eq :
  written_run = match made with
                | Done (g, out, w) => write_run 7 "1.0.0" serialize args (mkDuration 1 0) limit 6 (g, out) w
                | Panic => Panic
                end.
Proof. reflexivity. Qed.

Lemma made_opens g out w : made = Done (g, out, w) → ∃ w', open_output (Some "report.json"%string) w' = Done (out, w).
Proof.
  unfold made. intros (t & w1 & _ & Hm)%io_bind_inv. apply io_bind_inv in Hm as (g' & w2 & _ & Hm).
  apply io_bind_inv in Hm as (out' & w3 & Ho & [= _ <- <-]). by exists w2.
Qed.

Lemma run_made :
  ∃ g out w w1 g' out' l w2, open_output (Some "report.json"%string) w = Done (out, w1) ∧
    write_run 7 "1.0.0" serialize args (mkDuration 1 0) limit 6 (g, out) w1 = Done (Some (g', out', l), w2) ∧
    length (omap Datatypes.id l) = 1%nat.
Proof.
  pose proof one_written as Ho. rewrite written_run_eq in Ho.
  destruct (is_done_inv _ made_done) as [[[g out] w1] Em]. rewrite Em in Ho.
  apply made_opens in Em as [w Hopen].
  destruct (write_run 7 "1.0.0" serialize args (mkDuration 1 0) limit 6 (g, out) w1)
    as [[[[[g2 out2] l]|] w5]|] eqn:Er; try discriminate.
  apply Nat.eqb_eq in Ho. exists g, out, w, w1, g2, out2, l, w5. exact (conj Hopen (conj Er Ho)).
Qed.

Lemma one_short l : length (omap Datatypes.id l) = 1%nat → len (text_of serialize l) < capacity.
Proof.
  unfold text_of. destruct (omap Datatypes.id l) as [|r [|]]; try discriminate.
  intros _. simpl. by destruct (rp_cores r).
Qed.

Lemma dropped (out : @BufWriter host host_sinks) (w : @world host) : drop_writer out w = Done (tt, (w.1, (w.2 +:+ buf out)%string)).
Proof. reflexivity. Qed.

Lemma appended (out : @BufWriter host host_sinks) (w : @world host) : (@sink_write host host_sinks (inner out) (buf out) w).1 ≠ None.
Proof. discriminate. Qed.

(** Its text waits in the buffer, and is written at the end. *)
Lemma file_holds_reports_witness :
  ∃ (out' : @BufWriter host host_sinks) l w u w3, drop_writer out' w = Done (u, w3) ∧
    length (omap Datatypes.id l) = 1%nat ∧ @file_text SessionHost.host (inner out') w = ""%string ∧
    @file_text SessionHost.host (inner out') w3 = text_of serialize l.
Proof.
  destruct run_made as (g & out & w & w1 & g' & out' & l & w2 & Hopen & Hrun & Hl). pose proof host_untouched as Hu.
  destruct (file_holds_reports 7 "1.0.0" serialize file_text args (mkDuration 1 0) limit 6 g "report.json" w w1 out
              g' out' l w2 Hopen Hrun) as (_ & _ & Hs & Hd).
  exists out', l, w2, tt, (w2.1, (w2.2 +:+ buf out')%string). split; [exact (dropped out' w2)|]. split; [exact Hl|].
  split; [|exact (Hd tt _ (dropped out' w2) (appended out' w2))].
  destruct (inner out'), (inner out). exact (Hs (one_short l Hl)).
Defined.
