(* ===== verification/Exporters.v ===== *)
(** * The exporters behind one interface ([exporters/mod.rs] and the [new] and [run] of each)

    The trait [Exporter] has a name and a run.  A run is seen through its outputs: those of
    the rounds so far, of a loop that ends or that does not, and the answers of the server.
    Each exporter is made from its options and a sensor, which must have a topology. *)

From S2P Require Import Prelude Floats Text TextOps FloatText Units Env Simulated Loops Records Energy Common.
From S2P Require Import Domain Core Socket ProcTracker Bpf Topology Attribution Containers ExporterUtils Metrics.
From S2P Require Import Samples Clones Series Search Writer Prometheus Riemann Qemu Json Stdout Frame Powercap.
From S2P Require Import Session Events JsonFile.

(** ** The options

    As the command line gives them; a regular expression is its text. *)

Record JsonOptions := {
  json_timeout : option Z;
  json_step : Z;
  json_step_nano : Z;
  json_max_top_consumers : Z;
  json_file : option string;
  json_containers : bool;
  json_process_regex : option string;
  json_container_regex : option string;
  json_resources : bool;
}.

Record PrometheusOptions := {
  prometheus_address : string;
  prometheus_port : Z;
  prometheus_suffix : string;
  prometheus_qemu : bool;
  prometheus_containers : bool;
}.

Record PushOptions := {
  push_host : string;
  push_port : Z;
  push_suffix : string;
  push_scheme : string;
  push_step : Z;
  push_qemu : bool;
  push_containers : bool;
  push_job : string;
  push_no_tls_check : bool;
}.

Record RiemannOptions := {
  riemann_address : string;
  riemann_port : Z;
  dispatch_interval : Z;
  riemann_qemu : bool;
  riemann_containers : bool;
  mtls : bool;
  ca_file : option string;
  cert_file : option string;
  key_file : option string;
}.

Record WarptenOptions := {
  warp10_host : string;
  warp10_port : Z;
  warp10_scheme : string;
  warp10_write_token : option string;
  warp10_step : Z;
  warp10_qemu : bool;
}.

Inductive ExporterChoice :=
  | StdoutChoice (args : Stdout.ExporterArgs)
  | JsonChoice (args : JsonOptions)
  | PrometheusChoice (args : PrometheusOptions)
  | QemuChoice
  | RiemannChoice (args : RiemannOptions)
  | WarptenChoice (args : WarptenOptions)
  | PrometheusPushChoice (args : PushOptions).

(** What the options of each exporter are when the command line does not give them. *)
Definition default_stdout : Stdout.ExporterArgs := {|
  Stdout.timeout := 10; Stdout.step := 2; processes := 5; regex_filter := None; Stdout.args_containers := false;
  args_qemu := false; raw_metrics := false |}.

Definition default_json : JsonOptions := {|
  json_timeout := None; json_step := 2; json_step_nano := 0; json_max_top_consumers := 10; json_file := None;
  json_containers := false; json_process_regex := None; json_container_regex := None; json_resources := false |}.

Definition default_prometheus : PrometheusOptions := {|
  prometheus_address := "0.0.0.0"; prometheus_port := 8080; prometheus_suffix := "metrics";
  prometheus_qemu := false; prometheus_containers := false |}.

Definition default_push : PushOptions := {|
  push_host := "localhost"; push_port := 9091; push_suffix := "metrics"; push_scheme := "http"; push_step := 30;
  push_qemu := false; push_containers := false; push_job := "scaphandre"; push_no_tls_check := false |}.

Definition default_riemann : RiemannOptions := {|
  riemann_address := "localhost"; riemann_port := 5555; dispatch_interval := 5; riemann_qemu := false;
  riemann_containers := false; mtls := false; ca_file := None; cert_file := None; key_file := None |}.

Definition default_warpten : WarptenOptions := {|
  warp10_host := "localhost"; warp10_port := 8080; warp10_scheme := "http"; warp10_write_token := None;
  warp10_step := 2; warp10_qemu := false |}.

(** The command line refuses the option [--mtls] without the three files. *)
Definition riemann_accepted (args : RiemannOptions) : bool :=
  match ca_file args, cert_file args, key_file args with
  | Some _, Some _, Some _ => true
  | _, _, _ => negb (mtls args)
  end.

(** ** The trait *)

(** The output of a round: the lines shown, the report written, the body of an answer, the
    files of the virtual machines brought up to date, the events sent, the points posted, or
    the text pushed. *)
Inductive Output :=
  | Shown (lines : list string)
  | Reported (report : option Report)
  | Answered (body : string)
  | Updated
  | Sent (metrics : list Metric)
  | Posted (points : list Point)
  | Pushed (body : string).

Class Exporter `{Os} (E : Type) := {
  kind : E → string;
  (** The outputs that can be seen so far when it runs. *)
  runs : E → world → list Output → Prop;
}.

(** [Box<dyn Exporter>]. *)
Record BoxedExporter `{Os} := boxed { boxed_type : Type; boxed_exporter : Exporter boxed_type; boxed_value : boxed_type }.
#[global] Arguments boxed {_ _ _} _.

#[export] Instance box_exporter `{Os} : Exporter BoxedExporter := {|
  kind b := @kind _ _ (boxed_exporter b) (boxed_value b);
  runs b := @runs _ _ (boxed_exporter b) (boxed_value b) |}.

(** The trait [Sensor]. *)
Class Sensor `{Os, !Sysinfo, !Aya, !PerfEvents} (S : Type) := {
  sensor_get_topology : S → io (option Topology);
  sensor_generate_topology : S → io (option Topology);
}.

(** ** Each exporter *)

Section Exporters.
Context `{Profile, Layout, Os, !FileSystem, !Procfs, !PerfEvents, !Sysinfo, !Aya}.
Context `{!HashMaps, !ContainerRuntimes, Regex, Captures, !Instants, !Hostname, !FileWrites}.
Context `{!Riemann, !Warp10, !Http, !Sinks, EnvVars, !KernelModules}.
Context (current_pid : Z) (crate_version : string).
Context (debug_str : string → string) (to_json : list (string * string) → string).
Context (serialize : Report → list string).

#[export] Instance powercap_sensor : Sensor PowercapRAPLSensor := {|
  sensor_get_topology := Powercap.get_topology;
  sensor_generate_topology sensor := t ← Powercap.generate_topology sensor; mret (Some t) |}.

Context {SensorType : Type} `{!Sensor SensorType}.

(** The first steps of each [new]: the topology of the sensor, the name of the host, and for
    most exporters a generator. *)
Definition topology_of (sensor : SensorType) : io Topology :=
  topo ← sensor_get_topology sensor; lift (unwrap topo).

Definition prepare (sensor : SensorType) (qemu containers : bool) : io MetricGenerator :=
  topo ← topology_of sensor;
  hostname ← get_hostname;
  Metrics.new topo hostname qemu containers.

(** The standard output. *)
Record StdoutExporter := { stdout_generator : MetricGenerator; stdout_args : Stdout.ExporterArgs }.

Definition new_stdout (sensor : SensorType) (args : Stdout.ExporterArgs) : io StdoutExporter :=
  g ← prepare sensor (args_qemu args) (Stdout.args_containers args);
  mret {| stdout_generator := g; stdout_args := args |}.

#[export] Instance stdout_exporter : Exporter StdoutExporter := {|
  kind _ := "stdout"%string;
  runs e w l := ∃ outs, l = Shown <$> outs ∧
    loop_seen (Stdout.iterate_ current_pid crate_version debug_str to_json (stdout_args e))
      (mkDuration (Stdout.step (stdout_args e)) 0) (stdout_generator e) w (Stdout.time_limit (stdout_args e)) outs |}.

(** JSON. *)
Record JsonExporter := {
  json_generator : MetricGenerator;
  json_time_step_ : Duration;
  json_time_limit_ : option Duration;
  json_args : JsonArgs;
  json_out_writer : BufWriter;
}.

Definition json_args_of (args : JsonOptions) : JsonArgs := {|
  max_top_consumers := json_max_top_consumers args;
  process_regex := is_match <$> json_process_regex args;
  container_regex := is_match <$> json_container_regex args;
  monitor_resources := json_resources args;
  Json.args_containers := json_containers args |}.

Definition new_json (sensor : SensorType) (args : JsonOptions) : io JsonExporter :=
  g ← prepare sensor false (json_containers args);
  time_step ← lift (json_time_step (json_step args) (json_step_nano args));
  out_writer ← open_output (json_file args);
  mret {| json_generator := g; json_time_step_ := time_step; json_time_limit_ := json_time_limit (json_timeout args);
          json_args := json_args_of args; json_out_writer := out_writer |}.

#[export] Instance json_exporter : Exporter JsonExporter := {|
  kind _ := "json"%string;
  runs e w l := ∃ outs, l = Reported <$> outs ∧
    loop_seen (write_round current_pid crate_version serialize (json_args e)) (json_time_step_ e)
      (json_generator e, json_out_writer e) w (json_time_limit_ e) outs |}.

(** Prometheus: the generator works on a clone of the topology, and the server panics when it
    cannot have its address. *)
Record PrometheusExporter := { prom_topo : Topology; prom_hostname : string; prom_args : PrometheusOptions }.

Definition new_prometheus (sensor : SensorType) (args : PrometheusOptions) : io PrometheusExporter :=
  topo ← topology_of sensor;
  hostname ← get_hostname;
  mret {| prom_topo := topo; prom_hostname := hostname; prom_args := args |}.

Definition serve (e : PrometheusExporter) : io PowerMetrics :=
  let args := prom_args e in
  context ← start_server (prom_topo e) (prom_hostname e) (prometheus_qemu args) (prometheus_containers args);
  bound ← effect (http_bind (prometheus_address args) (prometheus_port args));
  _ ← lift (unwrap bound);
  mret context.

#[export] Instance prometheus_exporter : Exporter PrometheusExporter := {|
  kind _ := "prometheus"%string;
  runs e w l := ∃ context w' answers s, l = Answered <$> answers ∧ serve e w = Done (context, w') ∧
    Prometheus.run current_pid crate_version (prometheus_suffix (prom_args e)) (mkServer context [] w') answers s |}.

(** The virtual machines. *)
Record QemuExporter := { qemu_topology : Topology }.

Definition new_qemu (sensor : SensorType) : io QemuExporter :=
  topo ← topology_of sensor; mret {| qemu_topology := topo |}.

Definition qemu_turn (st : Duration * Topology) : io (Duration * Topology * unit) :=
  st ← qemu_round st.1 st.2; mret (st, tt).

#[export] Instance qemu_exporter : Exporter QemuExporter := {|
  kind _ := "qemu"%string;
  runs e w l := ∃ outs, l = (λ _, Updated) <$> outs ∧
    loop_seen qemu_turn sleep_step (cleaner_step, qemu_topology e) w None outs |}.

(** Riemann. *)
Record RiemannExporter := {
  riemann_generator : MetricGenerator;
  riemann_client : Client;
  riemann_args : RiemannOptions;
}.

Definition connect_riemann (args : RiemannOptions) : io Client :=
  client ← (if mtls args then
              ca ← lift (unwrap (ca_file args));
              cert ← lift (unwrap (cert_file args));
              key ← lift (unwrap (key_file args));
              effect (connect_tls (riemann_address args) (riemann_port args) ca cert key)
            else effect (connect (riemann_address args) (riemann_port args)));
  lift (unwrap client).

Definition new_riemann (sensor : SensorType) (args : RiemannOptions) : io RiemannExporter :=
  g ← prepare sensor (riemann_qemu args) (riemann_containers args);
  client ← connect_riemann args;
  mret {| riemann_generator := g; riemann_client := client; riemann_args := args |}.

#[export] Instance riemann_exporter : Exporter RiemannExporter := {|
  kind _ := "riemann"%string;
  runs e w l := ∃ outs, l = Sent <$> outs ∧
    loop_seen (riemann_round current_pid crate_version (riemann_client e) (riemann_qemu (riemann_args e)))
      (mkDuration (dispatch_interval (riemann_args e)) 0) (riemann_generator e) w None outs |}.

(** Warp10. *)
Record Warp10Exporter := {
  warp10_generator : MetricGenerator;
  warp10_client : Warp10Client;
  write_token : string;
  warp10_step_ : Duration;
}.

Definition TOKEN_ENV_VAR : string := "SCAPH_WARP10_WRITE_TOKEN".

Definition warp10_url (args : WarptenOptions) : string :=
  warp10_scheme args +:+ "://" +:+ warp10_host args +:+ ":" +:+ show_uint (warp10_port args).

Definition warp10_token (args : WarptenOptions) : option string :=
  match warp10_write_token args with Some token => Some token | None => env_var TOKEN_ENV_VAR end.

Definition new_warp10 (sensor : SensorType) (args : WarptenOptions) : io Warp10Exporter :=
  g ← prepare sensor (warp10_qemu args) false;
  client ← lift (unwrap (new_client (warp10_url args)));
  token ← lift (unwrap (warp10_token args));
  mret {| warp10_generator := g; warp10_client := client; write_token := token;
          warp10_step_ := mkDuration (warp10_step args) 0 |}.

#[export] Instance warp10_exporter : Exporter Warp10Exporter := {|
  kind _ := "warp10"%string;
  runs e w l := ∃ outs, l = (λ o, Posted o.1) <$> outs ∧
    loop_seen (warp10_iterate current_pid crate_version (warp10_client e) (write_token e))
      (warp10_step_ e) (warp10_generator e) w None outs |}.

(** The push gateway: what it answers is only logged. *)
Record PrometheusPushExporter := { push_topo : Topology; push_hostname : string; push_args : PushOptions }.

Definition new_push (sensor : SensorType) (args : PushOptions) : io PrometheusPushExporter :=
  topo ← topology_of sensor;
  hostname ← get_hostname;
  mret {| push_topo := topo; push_hostname := hostname; push_args := args |}.

Definition push_turn (e : PrometheusPushExporter) (g : MetricGenerator) : io (MetricGenerator * string) :=
  let args := push_args e in
  let uri := push_uri (push_scheme args) (push_host args) (push_suffix args) (push_job args) (push_hostname e)
               (push_port args) in
  '(g, body) ← push_round current_pid crate_version g;
  _ ← effect (http_post uri (push_no_tls_check args) body);
  mret (g, body).

Definition push_generator (e : PrometheusPushExporter) : io MetricGenerator :=
  topo ← Topology.clone (push_topo e);
  Metrics.new topo (push_hostname e) (push_qemu (push_args e)) (push_containers (push_args e)).

#[export] Instance push_exporter : Exporter PrometheusPushExporter := {|
  kind _ := "prometheuspush"%string;
  runs e w l := ∃ g w' outs, l = Pushed <$> outs ∧ push_generator e w = Done (g, w') ∧
    loop_seen (push_turn e) (mkDuration (push_step (push_args e)) 0) g w' None outs |}.

(** [build_exporter] ([main.rs]). *)
Definition build_exporter (choice : ExporterChoice) (sensor : SensorType) : io BoxedExporter :=
  match choice with
  | StdoutChoice args => e ← new_stdout sensor args; mret (boxed e)
  | JsonChoice args => e ← new_json sensor args; mret (boxed e)
  | PrometheusChoice args => e ← new_prometheus sensor args; mret (boxed e)
  | QemuChoice => e ← new_qemu sensor; mret (boxed e)
  | RiemannChoice args => e ← new_riemann sensor args; mret (boxed e)
  | WarptenChoice args => e ← new_warp10 sensor args; mret (boxed e)
  | PrometheusPushChoice args => e ← new_push sensor args; mret (boxed e)
  end.

(** ** What the outputs present *)

(** The output presents the metrics, as the exporter of the choice does. *)
Definition presents (choice : ExporterChoice) (metrics : list Metric) (o : Output) : Prop :=
  match choice, o with
  | StdoutChoice args, Shown lines => lines_of debug_str to_json args metrics lines
  | JsonChoice args, Reported report => ∃ g w w', report_of (json_args_of args) metrics g w = Done (report, w')
  | PrometheusChoice _, Answered body => body = ""%string ∨ ∃ w w', send_all metrics w = Done (body, w')
  | QemuChoice, Updated => metrics = []
  | RiemannChoice _, Sent sent => sent = metrics
  | WarptenChoice _, Posted points => ∃ w w', io_map warp10_point metrics w = Done (points, w')
  | PrometheusPushChoice _, Pushed body => ∃ w w', send_all (add_host <$> metrics) w = Done (body, w')
  | _, _ => False
  end.

Definition presents_once (choice : ExporterChoice) (o : Output) : Prop :=
  ∃ metrics, collected_once metrics ∧ presents choice metrics o.

(** What an exporter promises, once it is sound: each output presents one collection with one
    sample per series. *)
Class Collects (E : Type) `{!Exporter E} (sound : ExporterChoice → E → Prop) : Prop :=
  collects choice e w l : sound choice e → runs e w l → Forall (presents_once choice) l.

Context `{!HashLaws, !SysinfoLaws} (content : string → option string) `{!NameFiles content}.

(** A sensor is lawful when its topologies are settled. *)
Class SensorLaws : Prop :=
  sensor_settled sensor w t w' : sensor_get_topology sensor w = Done (Some t, w') → settled content t.

Lemma Forall_outputs {A} (f : A → Output) (P : Output → Prop) l : Forall (λ o, P (f o)) l → Forall P (f <$> l).
Proof. by rewrite Forall_fmap. Qed.

#[export] Instance stdout_collects :
  Collects StdoutExporter (λ choice e, choice = StdoutChoice (stdout_args e) ∧ ready content (stdout_generator e)).
Proof.
  intros choice e w l [-> Hg] (outs & -> & Hl). apply Forall_outputs. eapply (loop_seen_all _ _ (ready content)); [|exact Hg|exact Hl].
  intros g w1 g1 o w2. exact (stdout_round_once current_pid crate_version content debug_str to_json _ g w1 g1 o w2).
Qed.

Lemma json_once args g w g' r w' :
  ready content g → json_iterate current_pid crate_version args g w = Done ((g', r), w') →
  ready content g' ∧ ∃ metrics g1 w1 w2, collected_once metrics ∧ report_of args metrics g1 w1 = Done (r, w2).
Proof.
  intros Hg. unfold json_iterate, retrieve_metrics. intros (t & w1 & Ht & Hr)%io_bind_inv.
  pose proof (refresh_ready content _ _ _ _ Hg Ht) as Ht'. apply io_bind_inv in Hr as (g1 & w2 & Ha & Hr).
  apply io_bind_inv in Hr as ([g2 metrics] & w3 & [Hp _]%lift_inv & Hr). apply io_bind_inv in Hr as (rep & w4 & Hrep & [= <- <- _]).
  destruct (pop_metrics g1) as [[g3 ms]|] eqn:E; [|done]. injection Hp as -> ->.
  destruct (collect_once current_pid crate_version content _ _ _ _ _ _ Ht' Ha E) as [Ho Hg']. split; [done|]. by exists metrics, g2, w3, w4.
Qed.

#[export] Instance json_collects :
  Collects JsonExporter (λ choice e, ∃ args, choice = JsonChoice args ∧ json_args e = json_args_of args ∧
                                             ready content (json_generator e)).
Proof.
  intros choice e w l (args & -> & Ha & Hg) (outs & -> & Hl). apply Forall_outputs. rewrite Ha in Hl.
  eapply (loop_seen_all _ _ (λ st : MetricGenerator * BufWriter, ready content st.1)); [| |exact Hl]; [|exact Hg].
  intros [g out] w1 st' o w2 Hst. unfold write_round. intros ([g1 report] & w3 & Hj & Hr)%io_bind_inv.
  apply io_bind_inv in Hr as (out1 & w4 & _ & [= <- <- _]).
  apply json_once in Hj as (Hg' & metrics & g2 & w5 & w6 & Ho & Hrep); [|exact Hst]. split; [exact Hg'|].
  exists metrics. split; [exact Ho|]. by exists g2, w5, w6.
Qed.

#[export] Instance prometheus_collects :
  Collects PrometheusExporter (λ choice e, choice = PrometheusChoice (prom_args e) ∧ settled content (prom_topo e)).
Proof.
  intros choice e w l [-> Ht] (ctx & w1 & answers & s & -> & Hserve & Hr). apply Forall_outputs.
  unfold serve in Hserve. apply io_bind_inv in Hserve as (ctx' & w2 & Hs & Hserve).
  do 2 (apply io_bind_inv in Hserve as (? & ? & _ & Hserve)). injection Hserve as -> ->.
  unfold start_server in Hs. apply io_bind_inv in Hs as (t' & w4 & Hc & Hs).
  apply io_bind_inv in Hs as (g & w5 & Hn & [= <- _]).
  apply (server_once current_pid crate_version content) in Hr;
    [|eapply new_ready; [|exact Hn]; by eapply clone_settled].
  eapply Forall_impl; [exact Hr|]. intros body [-> | (metrics & w6 & w7 & Ho & Hb)].
  - exists []. split; [constructor|by left].
  - exists metrics. split; [exact Ho|]. right. by exists w6, w7.
Qed.

#[export] Instance qemu_collects : Collects QemuExporter (λ choice _, choice = QemuChoice).
Proof.
  intros choice e w l -> (outs & -> & _). apply Forall_outputs, Forall_true. intros _. exists []. by split; [constructor|].
Qed.

#[export] Instance riemann_collects :
  Collects RiemannExporter (λ choice e, choice = RiemannChoice (riemann_args e) ∧ ready content (riemann_generator e)).
Proof.
  intros choice e w l [-> Hg] (outs & -> & Hl). apply Forall_outputs. eapply (loop_seen_all _ _ (ready content)); [|exact Hg|exact Hl].
  intros g w1 g' o w2 Hst Ho. destruct (riemann_sent _ _ _ content _ _ _ _ _ _ Hst Ho) as (Hg' & shared & own & Hsent).
  split; [exact Hg'|]. exists o. split; [by eapply sent_once|done].
Qed.

Lemma warp10_once client token g w g' points a w' :
  ready content g → warp10_iterate current_pid crate_version client token g w = Done ((g', (points, a)), w') →
  ready content g' ∧ ∃ metrics w1 w2, collected_once metrics ∧ io_map warp10_point metrics w1 = Done (points, w2).
Proof.
  intros Hg. unfold warp10_iterate. intros (t & w1 & Ht & Hr)%io_bind_inv.
  pose proof (refresh_ready content _ _ _ _ (clean_ready content _ Hg) Ht) as Ht'. apply io_bind_inv in Hr as (g1 & w2 & Ha & Hr).
  apply io_bind_inv in Hr as ([g2 metrics] & w3 & [Hp _]%lift_inv & Hr). apply io_bind_inv in Hr as (ps & w4 & Hps & Hr).
  apply io_bind_inv in Hr as (res & w5 & _ & [= <- <- _ _]).
  destruct (pop_metrics g1) as [[g3 ms]|] eqn:E; [|done]. injection Hp as -> ->.
  destruct (collect_once current_pid crate_version content _ _ _ _ _ _ Ht' Ha E) as [Ho Hg']. split; [done|]. by exists metrics, w3, w4.
Qed.

#[export] Instance warp10_collects :
  Collects Warp10Exporter (λ choice e, (∃ args, choice = WarptenChoice args) ∧ ready content (warp10_generator e)).
Proof.
  intros choice e w l [[args ->] Hg] (outs & -> & Hl). apply Forall_outputs.
  eapply (loop_seen_all _ _ (ready content)); [|exact Hg|exact Hl].
  intros g w1 g' [points a] w2 Hst Ho'.
  destruct (warp10_once _ _ _ _ _ _ _ _ Hst Ho') as (Hg' & metrics & w3 & w4 & Hm & Ho).
  split; [exact Hg'|]. exists metrics. split; [exact Hm|]. by exists w3, w4.
Qed.

#[export] Instance push_collects :
  Collects PrometheusPushExporter (λ choice e, choice = PrometheusPushChoice (push_args e) ∧ settled content (push_topo e)).
Proof.
  intros choice e w l [-> Ht] (g & w1 & outs & -> & Hn & Hl). apply Forall_outputs.
  unfold push_generator in Hn. apply io_bind_inv in Hn as (t & w2 & Hc & Hn).
  eapply (loop_seen_all _ _ (ready content)); [| |exact Hl]; [|eapply new_ready; [|exact Hn]; by eapply clone_settled].
  intros g1 w3 g2 o w4 Hst. unfold push_turn. intros ([g3 body] & w5 & Hp & Hr)%io_bind_inv.
  apply io_bind_inv in Hr as (x & w6 & _ & [= <- <- _]).
  destruct (push_once _ _ content _ _ _ _ _ Hst Hp) as (Hg & metrics & w7 & w8 & Hm & Hb).
  split; [exact Hg|]. exists metrics. split; [exact Hm|]. by exists w7, w8.
Qed.

(** ** Making an exporter *)

Lemma topology_of_settled `{!SensorLaws} sensor w t w' : topology_of sensor w = Done (t, w') → settled content t.
Proof.
  unfold topology_of. intros (o & w1 & Ho & [Hu _]%lift_inv)%io_bind_inv. destruct o as [t'|]; [|done].
  injection Hu as ->. by eapply sensor_settled.
Qed.

Lemma prepare_ready `{!SensorLaws} sensor qemu containers w g w' :
  prepare sensor qemu containers w = Done (g, w') → ready content g.
Proof.
  unfold prepare. intros (t & w1 & Ht & Hr)%io_bind_inv. apply io_bind_inv in Hr as (h & w2 & _ & Hn).
  eapply new_ready; [|exact Hn]. by eapply topology_of_settled.
Qed.

Lemma build_collects `{!SensorLaws} choice sensor w e w1 w2 l :
  build_exporter choice sensor w = Done (e, w1) → runs e w2 l → Forall (presents_once choice) l.
Proof.
  destruct choice; unfold build_exporter; intros (x & w3 & Hx & [= <- _])%io_bind_inv Hr; change (runs x w2 l) in Hr.
  - apply io_bind_inv in Hx as (g & w4 & Hg%prepare_ready & [= <- _]). by refine (collects _ _ _ _ _ Hr).
  - apply io_bind_inv in Hx as (g & w4 & Hg%prepare_ready & Hx). do 2 (apply io_bind_inv in Hx as (? & ? & _ & Hx)).
    injection Hx as <- _. refine (collects _ _ _ _ _ Hr). by eexists.
  - apply io_bind_inv in Hx as (t & w4 & Ht%topology_of_settled & Hx).
    apply io_bind_inv in Hx as (h & w5 & _ & [= <- _]). by refine (collects _ _ _ _ _ Hr).
  - by refine (collects _ _ _ _ _ Hr).
  - apply io_bind_inv in Hx as (g & w4 & Hg%prepare_ready & Hx). apply io_bind_inv in Hx as (c & w5 & _ & [= <- _]).
    by refine (collects _ _ _ _ _ Hr).
  - apply io_bind_inv in Hx as (g & w4 & Hg%prepare_ready & Hx). do 2 (apply io_bind_inv in Hx as (? & ? & _ & Hx)).
    injection Hx as <- _. refine (collects _ _ _ _ _ Hr). split; [by eexists|done].
  - apply io_bind_inv in Hx as (t & w4 & Ht%topology_of_settled & Hx).
    apply io_bind_inv in Hx as (h & w5 & _ & [= <- _]). by refine (collects _ _ _ _ _ Hr).
Qed.

(** What the command line lets through, and the labels that each exporter asks for. *)
Definition accepted (choice : ExporterChoice) : bool :=
  match choice with RiemannChoice args => riemann_accepted args | _ => true end.

Definition labels (choice : ExporterChoice) : bool * bool :=
  match choice with
  | StdoutChoice args => (args_qemu args, Stdout.args_containers args)
  | JsonChoice args => (false, json_containers args)
  | PrometheusChoice args => (prometheus_qemu args, prometheus_containers args)
  | QemuChoice => (false, false)
  | RiemannChoice args => (riemann_qemu args, riemann_containers args)
  | WarptenChoice args => (warp10_qemu args, false)
  | PrometheusPushChoice args => (push_qemu args, push_containers args)
  end.

(** The connection to Riemann fails. *)
Definition refused (args : RiemannOptions) (w : world) : Prop :=
  if mtls args then
    ∃ ca cert key, ca_file args = Some ca ∧ cert_file args = Some cert ∧ key_file args = Some key ∧
      (connect_tls (riemann_address args) (riemann_port args) ca cert key w).1 = None
  else (connect (riemann_address args) (riemann_port args) w).1 = None.

(** What stops an exporter, once its generator is made. *)
Definition cannot_start (choice : ExporterChoice) (w : world) : Prop :=
  match choice with
  | JsonChoice args =>
      2 ^ 64 - 1 < json_step args + json_step_nano args / 1000000000 ∨
      ∃ f, json_file args = Some f ∧ (create_file f w).1 = None
  | RiemannChoice args => refused args w
  | WarptenChoice args =>
      new_client (warp10_url args) = None ∨ warp10_write_token args = None ∧ env_var TOKEN_ENV_VAR = None
  | _ => False
  end.

Lemma ret_panics {A B} (m : io A) (f : A → B) w : (a ← m; mret (f a)) w = Panic ↔ m w = Panic.
Proof. unfold mbind, io_bind. by destruct (m w) as [[a w']|]. Qed.

Lemma lift_bind_panics {A B} (m : outcome A) (f : A → io B) w :
  (a ← lift m; f a) w = Panic ↔ m = Panic ∨ ∃ a, m = Done a ∧ f a w = Panic.
Proof.
  unfold mbind, io_bind, lift. destruct m as [a|]; [|by split; [left|]]. split; [right; by exists a|].
  by intros [? | (? & [= <-] & ?)].
Qed.

Lemma unwrap_panics {A} (o : option A) : unwrap o = Panic ↔ o = None.
Proof. by destruct o. Qed.

Lemma topology_of_done sensor qemu containers w g w' :
  prepare sensor qemu containers w = Done (g, w') →
  ∃ t h w1 w2, topology_of sensor w = Done (t, w1) ∧ get_hostname w1 = Done (h, w2).
Proof.
  unfold prepare. intros (t & w1 & Ht & Hr)%io_bind_inv. apply io_bind_inv in Hr as (h & w2 & Hh & _).
  by exists t, h, w1, w2.
Qed.

Lemma time_step_panics step step_nano : json_time_step step step_nano = Panic ↔ 2 ^ 64 - 1 < step + step_nano / 1000000000.
Proof. unfold json_time_step, duration_new. destruct (Z.leb_spec (step + step_nano / 1000000000) (2 ^ 64 - 1)); split; done || lia. Qed.

Lemma connect_panics args w : riemann_accepted args = true → connect_riemann args w = Panic ↔ refused args w.
Proof.
  unfold connect_riemann, refused, riemann_accepted. destruct (mtls args).
  - destruct (ca_file args) as [ca|], (cert_file args) as [cert|], (key_file args) as [key|]; try done. intros _.
    unfold mbind, io_bind, lift, effect. cbn [unwrap].
    destruct (connect_tls (riemann_address args) (riemann_port args) ca cert key w) as [[c|] w'] eqn:E; cbn.
    + split; [done|]. intros (? & ? & ? & [= <-] & [= <-] & [= <-] & Hn). by rewrite E in Hn.
    + split; [|done]. intros _. exists ca, cert, key. by rewrite E.
  - intros _. unfold mbind, io_bind, lift, effect.
    by destruct (connect (riemann_address args) (riemann_port args) w) as [[c|] w'].
Qed.

Lemma open_output_panics file w : open_output file w = Panic ↔ ∃ f, file = Some f ∧ (create_file f w).1 = None.
Proof.
  unfold open_output. destruct file as [f|]; [|split; [done|by intros (? & ? & _)]].
  unfold mbind, io_bind, lift, effect. destruct (create_file f w) as [[k|] w'] eqn:E; cbn.
  - split; [done|]. intros (? & [= <-] & Hn). by rewrite E in Hn.
  - split; [|done]. intros _. exists f. by rewrite E.
Qed.

(** C23: once the sensor has a topology and the host a name, the making of an exporter stops the
    program exactly when the JSON step overflows or its file cannot be created, when the
    connection to Riemann is refused, or when the Warp10 client cannot be made or has no token,
    neither as an option nor in the environment; the files that mTLS needs are then there. *)
Theorem build_panics_when choice sensor w g w1 :
  accepted choice = true → prepare sensor (labels choice).1 (labels choice).2 w = Done (g, w1) →
  build_exporter choice sensor w = Panic ↔ cannot_start choice w1.
Proof.
  intros Hacc Hp. pose proof (topology_of_done _ _ _ _ _ _ Hp) as (t & h & w2 & w3 & Ht & Hh).
  unfold build_exporter. destruct choice; rewrite ret_panics; cbn [labels fst snd accepted cannot_start] in *.
  - unfold new_stdout. by rewrite (io_bind_done _ _ _ _ _ Hp).
  - unfold new_json. rewrite (io_bind_done _ _ _ _ _ Hp), lift_bind_panics, time_step_panics.
    assert (∀ a, (open_output (json_file args) ≫= λ out, mret {| json_generator := g; json_time_step_ := a;
               json_time_limit_ := json_time_limit (json_timeout args); json_args := json_args_of args;
               json_out_writer := out |}) w1 = Panic ↔ open_output (json_file args) w1 = Panic) as Ho
      by (intros a; apply ret_panics).
    split; (intros [?|Hf]; [by left|]).
    + right. destruct Hf as (a & _ & Hf). by apply open_output_panics, (Ho a).
    + destruct (json_time_step (json_step args) (json_step_nano args)) as [a|] eqn:E.
      * right. exists a. split; [done|]. by apply Ho, open_output_panics.
      * left. by apply time_step_panics.
  - unfold new_prometheus. by rewrite (io_bind_done _ _ _ _ _ Ht), (io_bind_done _ _ _ _ _ Hh).
  - unfold new_qemu. by rewrite (io_bind_done _ _ _ _ _ Ht).
  - unfold new_riemann. by rewrite (io_bind_done _ _ _ _ _ Hp), ret_panics, connect_panics.
  - unfold new_warp10. rewrite (io_bind_done _ _ _ _ _ Hp), lift_bind_panics, unwrap_panics. unfold warp10_token.
    destruct (new_client (warp10_url args)) as [c|]; [|by split; [left|left]]. cbn [unwrap].
    split.
    + intros [?|(a & [= <-] & Hr)]; [by left|]. right. apply lift_bind_panics in Hr as [Hr|(? & _ & Hr)]; [|done].
      apply unwrap_panics in Hr. by destruct (warp10_write_token args).
    + intros [?|[Htok Hev]]; [by left|]. right. exists c. split; [done|]. apply lift_bind_panics. left.
      apply unwrap_panics. by rewrite Htok.
  - unfold new_push. by rewrite (io_bind_done _ _ _ _ _ Ht), (io_bind_done _ _ _ _ _ Hh).
Qed.
End Exporters.
