(* ===== verification/Start.v ===== *)
(** * Starting the program ([main.rs])

    The command line chooses a sensor and an exporter.  The eBPF programs are loaded a first
    time for their logger, then the sensor generates the topology, which loads them again,
    and the exporter is made, announces itself and runs.  Shown here for Linux. *)

From S2P Require Import Prelude Floats Text TextOps FloatText Units Env Simulated Loops Records Energy Common.
From S2P Require Import Domain Core Socket ProcTracker Bpf Topology Attribution Powercap Containers ExporterUtils Metrics.
From S2P Require Import Samples Clones Series Search Json Stdout Prometheus Riemann Session Events Recorded JsonFile.
From S2P Require Import Exporters.

(** The options of the command line that the start uses. *)
Record Cli := {
  exporter : ExporterChoice;
  no_header : bool;
  vm : bool;
  sensor : option string;
  sensor_buffer_per_domain_max_kb : Z;
  sensor_buffer_per_socket_max_kb : Z;
}.

(** [build_sensor] on Linux; the environment variable is the path of a virtual machine. *)
Definition build_sensor (powercap_path : option string) (cli : Cli) : outcome PowercapRAPLSensor :=
  let rapl_sensor := Powercap.new powercap_path (sensor_buffer_per_socket_max_kb cli)
                       (sensor_buffer_per_domain_max_kb cli) (vm cli) in
  match sensor cli with
  | Some s => if decide (s = "powercap_rapl"%string) then Done rapl_sensor else Panic
  | None => Done rapl_sensor
  end.

Section Start.
Context `{Profile, Layout, Os, !FileSystem, !Procfs, !PerfEvents, !Sysinfo, !Aya}.
Context `{!HashMaps, !ContainerRuntimes, Regex, Captures, !Instants, !Hostname, !KernelModules, !FileWrites}.
Context `{!Riemann, !Warp10, !Http, !Sinks, EnvVars}.
Context (powercap_path : option string).
Context (current_pid : Z) (crate_version : string).
Context (debug_str : string → string) (to_json : list (string * string) → string).
Context (serialize : Report → list string).

(** The escape codes of the [colored] crate for a bold red text. *)
Context (red_bold : string → string).

Definition print_scaphandre_header (exporter_name : string) : list string :=
  [red_bold ("Scaphandre " +:+ exporter_name +:+ " exporter"); "Sending ⚡ metrics"%string].

(** [parse_cli_and_run_exporter], up to the run: the exporter, and what is printed. *)
Definition parse_cli_and_run_exporter (cli : Cli) : io (BoxedExporter * list string) :=
  ebpf_for_logger ← Bpf.load;
  _ ← lift (unwrap ebpf_for_logger);
  sensor ← lift (build_sensor powercap_path cli);
  e ← build_exporter current_pid crate_version debug_str to_json serialize (exporter cli) sensor;
  mret (e, if no_header cli then [] else print_scaphandre_header (kind e)).

(** The program does not start without its eBPF programs, although the topology does
    without them; nor with another sensor than powercap. *)
Lemma start_needs cli w :
  match Bpf.load w with
  | Done (Some _, _) =>
      ∀ s, sensor cli = Some s → s ≠ "powercap_rapl"%string → parse_cli_and_run_exporter cli w = Panic
  | _ => parse_cli_and_run_exporter cli w = Panic
  end.
Proof.
  unfold parse_cli_and_run_exporter, mbind, io_bind. destruct (Bpf.load w) as [[[e|] w']|]; [|done..].
  intros s Hs Hne. unfold lift, build_sensor. cbn [unwrap]. rewrite Hs. by rewrite decide_False.
Qed.

Lemma powercap_lawful `{!HashLaws, !SysinfoLaws} (content : string → option string) `{!NameFiles content} :
  SensorLaws (SensorType := PowercapRAPLSensor) content.
Proof.
  intros sensor w t w'. simpl. unfold get_topology. intros (t' & w1 & Hg & [= <- _])%io_bind_inv.
  exact (generate_settled content _ _ _ _ Hg).
Qed.

(** The whole program as a function, for the standard output. *)
Definition run_stdout (cli : Cli) (args : ExporterArgs) (fuel : nat)
    : io (option (MetricGenerator * list (list string))) :=
  ebpf_for_logger ← Bpf.load;
  _ ← lift (unwrap ebpf_for_logger);
  sensor ← lift (build_sensor powercap_path cli);
  e ← new_stdout sensor args;
  Stdout.run current_pid crate_version debug_str to_json args fuel (stdout_generator e).

Lemma run_stdout_runs cli args fuel w g l w' :
  exporter cli = StdoutChoice args → run_stdout cli args fuel w = Done (Some (g, l), w') →
  ∃ e header w1, parse_cli_and_run_exporter cli w = Done ((e, header), w1) ∧ runs e w1 (Shown <$> l).
Proof.
  intros Hc. unfold run_stdout, parse_cli_and_run_exporter. intros (eb & w1 & Hl & Hr)%io_bind_inv.
  apply io_bind_inv in Hr as (u & w2 & Hu & Hr). apply io_bind_inv in Hr as (sensor & w3 & Hs & Hr).
  apply io_bind_inv in Hr as (x & w4 & Hx & Hr).
  rewrite (io_bind_done _ _ _ _ _ Hl), (io_bind_done _ _ _ _ _ Hu), (io_bind_done _ _ _ _ _ Hs), Hc. simpl.
  rewrite (io_bind_done _ _ _ _ _ (io_bind_done _ (λ e, mret (boxed e)) _ _ _ Hx)).
  eexists _, _, _. split; [reflexivity|]. exists l. split; [done|].
  unfold new_stdout in Hx. apply io_bind_inv in Hx as (g0 & w5 & _ & [= <- _]). simpl in *.
  unfold Stdout.run in Hr. destruct (Stdout.time_limit args) as [limit|].
  - by eapply timed_loop_seen.
  - apply io_bind_inv in Hr as ([g1 l1] & w6 & Hr & [= _ <- _]). by eapply first_rounds_seen.
Qed.

End Start.

(** ** Example *)

Import SessionHost.

#[local] Instance host_hostname : @Hostname host := λ t, (Some "host"%string, t).
#[local] Instance host_riemann : @Riemann host := simulated_riemann session_files.
#[local] Instance host_warp10 : @Warp10 host := simulated_warp10 session_files.
#[local] Instance host_http : @Http host := simulated_http session_files.
#[local] Instance host_writes : @FileWrites host := simulated_writes session_files.
#[local] Instance host_sinks : @Sinks host := simulated_sinks session_files.
#[local] Instance no_variable : EnvVars := λ _, None.

Definition session_args : Stdout.ExporterArgs := {|
  Stdout.timeout := 40; Stdout.step := 1; processes := 5; regex_filter := None; Stdout.args_containers := true;
  args_qemu := false; raw_metrics := false |}.

Definition session_cli : Cli := {|
  exporter := StdoutChoice session_args; no_header := false; vm := false; sensor := None;
  sensor_buffer_per_domain_max_kb := 1; sensor_buffer_per_socket_max_kb := 1 |}.

Definition to_json (_ : list (string * string)) : string := "".

Definition whole_run := run_stdout None 7 "1.0.0" Datatypes.id to_json session_cli session_args 6 SessionHost.start.

(** Two rounds at least. *)
Definition rounds_shown {A B C} (r : outcome (option (A * list B) * C)) : bool :=
  match r with Done (Some (_, _ :: _ :: _), _) => true | _ => false end.

Lemma rounds_shown_inv {A B C} (r : outcome (option (A * list B) * C)) :
  rounds_shown r = true → ∃ g a b l w, r = Done (Some (g, a :: b :: l), w).
Proof. destruct r as [[[[g [|a [|b l]]]|] w]|]; try discriminate. intros _. by exists g, a, b, l, w. Qed.

Lemma whole_run_shown : rounds_shown whole_run = true.
Proof. vm_compute. reflexivity. Qed.

Definition started : outcome (BoxedExporter * list string * world) :=
  parse_cli_and_run_exporter None 7 "1.0.0" Datatypes.id to_json (λ _, []) Datatypes.id session_cli SessionHost.start.

Lemma whole_run_runs g l w :
  whole_run = Done (Some (g, l), w) →
  ∃ e header w1, started = Done ((e, header), w1) ∧ runs e w1 (Shown <$> l).
Proof. by apply run_stdout_runs. Qed.


(** Without a token, in the options or in the environment, Warp10 cannot start. *)
Definition prepared : outcome (MetricGenerator * world) := prepare session_sensor false false SessionHost.start.

Lemma prepared_done : is_done prepared = true.
Proof. vm_compute. reflexivity. Qed.

Lemma build_panics_when_witness :
  build_exporter 7 "1.0.0" Datatypes.id to_json (λ _, []) (WarptenChoice default_warpten) session_sensor
    SessionHost.start = Panic.
Proof.
  destruct (is_done_inv _ prepared_done) as [[g w] E].
  apply (build_panics_when 7 "1.0.0" Datatypes.id to_json (λ _, []) (WarptenChoice default_warpten) session_sensor
           SessionHost.start g w eq_refl E).
  right. split; reflexivity.
Defined.
