(* ===== verification/Launch.v ===== *)
(** * The program starts

    What the sources unwrap before the first round: the eBPF programs, the folders of the
    powercap tree with the numbers and the names in them, the CPUs of the host, its name, and
    what the options of the exporter ask for.  This file says what the host must have, and
    shows that the start then never panics. *)

From S2P Require Import Prelude Floats Text TextOps FloatText Units Env Simulated Loops Returns Records Energy Common.
From S2P Require Import Domain Core Socket ProcTracker Bpf Topology Attribution Powercap Containers ExporterUtils Metrics.
From S2P Require Import Samples Clones Series Search Json Stdout Prometheus Riemann Session Alive.
From S2P Require Import Events Writer JsonFile Exporters Start.
From Stdlib Require Import Ascii.

(** A step of the loop that reaches [J], which the others keep, as they all keep [I]. *)
Lemma returns_fold_reaches `{Os} {A S} (f : S → A → io S) (I J : S → Prop) (l : list A) (x0 : A) st :
  x0 ∈ l → I st →
  (∀ st x, x ∈ l → I st → returns (f st x) (λ st', I st' ∧ (x = x0 ∨ J st → J st'))) →
  returns (io_fold f st l) (λ st', I st' ∧ J st').
Proof.
  intros Hx Hst Hf. enough (Hgen : ∀ k st, (∀ x, x ∈ k → x ∈ l) → I st → x0 ∈ k ∨ J st →
    returns (io_fold f st k) (λ st', I st' ∧ J st')) by (apply Hgen; [done|exact Hst|by left]).
  clear st Hst Hx. intros k. induction k as [|x k IH]; intros st Hk Hst Hj; cbn [io_fold].
  - apply returns_ret. split; [exact Hst|]. destruct Hj as [Hj|Hj]; [by apply elem_of_nil in Hj|exact Hj].
  - eapply returns_bind; [by apply Hf; [apply Hk; left|]|]. intros st' [Hst' Hj'].
    apply IH; [intros y Hy; apply Hk; by right|done|]. rewrite elem_of_cons in Hj.
    destruct Hj as [[->|Hin]|Hj]; [right; apply Hj'; by left|by left|right; apply Hj'; by right].
Qed.

Lemma returns_not_panic `{Os} {A} (m : io A) : (∀ w, m w ≠ Panic) → returns m any.
Proof. intros Hm w. specialize (Hm w). destruct (m w) as [[a w']|]; [by exists a, w'|done]. Qed.

(** ** The host *)

(** The host has what the start unwraps.  The eBPF programs are there and can be loaded and
    attached; the list of the kernel modules can be read; each CPU has the id of its package;
    the host has a name; the powercap tree lists [folders], whose names are texts with the
    numbers of a socket and of a domain, a domain says which resource it is about, and there
    is a socket to which the cores can be given. *)
Class EquippedHost `{Os, !FileSystem, !Procfs, !Sysinfo, !Aya, Regex, !KernelModules, !Hostname}
    (base : string) (folders : list string) : Prop := {
  equipped_load w : is_Some (ebpf_load w).1;
  equipped_program e n : has_program e n = Some true;
  equipped_load_program e n w : is_Some (load_program e n w).1;
  equipped_attach e n p w : is_Some (attach_program e n p w).1;
  equipped_online w : is_Some (online_cpus w).1;
  equipped_modules w : is_Some (modules w).1;
  equipped_cpus w : ∃ get, (cpu_info w).1 = Some get ∧
    ∀ s i c, Env.cpus s !! i = Some c → ∃ info p n, get (cpu_id (Z.of_nat i) (c_name c)) = Some info ∧
      info !! "physical id"%string = Some p ∧ parse_uint 16 p = Some n;
  equipped_name w : is_Some (get_host w).1;
  equipped_tree w : (read_dir base w).1 = Some (Some <$> folders);
  equipped_text f : f ∈ folders → to_str f = Some f;
  equipped_sockets f : f ∈ folders →
    is_match re_domain f = true ∨ is_match re_socket f = true ∨
    is_match re_socket_mmio f = true ∨ is_match re_domain_mmio f = true → yields (number 1 f) any;
  equipped_domains f : f ∈ folders → is_match re_domain f = true → yields (number 2 f) any;
  equipped_resources f w n : f ∈ folders → is_match re_domain f = true →
    (read_to_string (f +:+ "/name") w).1 = Some n → yields (parse_resource (trim n)) any;
  equipped_mmio f w : f ∈ folders → is_match re_domain_mmio f = true → is_Some (read_to_string (f +:+ "/name") w).1;
  equipped_socket : ∃ f, f ∈ folders ∧
    (is_match re_domain f = true ∨
     is_match re_socket f = true ∧ ∀ w, ∃ n, (read_to_string (f +:+ "/name") w).1 = Some n ∧ n ≠ "psys"%string);
}.

Section Launch.
Context `{Profile, Layout, Os, !FileSystem, !Procfs, !PerfEvents, !Sysinfo, !Aya}.
Context `{!HashMaps, !ContainerRuntimes, Regex, Captures, !Instants, !Hostname, !KernelModules, !FileWrites}.
Context `{!Riemann, !Warp10, !Http, !Sinks, EnvVars}.
Context (base : string) (folders : list string) `{!EquippedHost base folders}.
Context (release : overflow_checks = false).

(** *** The eBPF programs *)

Lemma attempt_returns {A B} (m : io (option A)) (f : A → io (option B)) :
  returns m is_Some → (∀ a, returns (f a) is_Some) → returns (attempt m f) is_Some.
Proof. intros Hm Hf. unfold attempt. eapply returns_bind; [exact Hm|]. intros o [a ->]. apply Hf. Qed.

Lemma effect_is_Some {A} (f : world → option A * world) : (∀ w, is_Some (f w).1) → returns (effect f) is_Some.
Proof. apply returns_effect. Qed.

Lemma prepare_returns {B} e n (f : io (option B)) : returns f is_Some → returns (Bpf.prepare e n f) is_Some.
Proof.
  intros Hf. unfold Bpf.prepare. rewrite equipped_program. eapply (returns_bind (λ b, b = true)); [apply returns_lift; by exists true|].
  intros ? ->. apply attempt_returns; [apply effect_is_Some, equipped_load_program|done].
Qed.

Lemma attach_each_returns e n points : returns (attach_each e n points) is_Some.
Proof.
  induction points as [|p points IH]; cbn [attach_each]; [by apply returns_ret|].
  apply attempt_returns; [apply effect_is_Some, equipped_attach|done].
Qed.

Lemma attach_state_returns e seen l : returns (attach_state_tick e seen l) is_Some.
Proof.
  revert seen. induction l as [|cpu l IH]; intros seen; cbn [attach_state_tick]; [by apply returns_ret|].
  eapply (returns_bind any).
  { unfold socket_of_cpu. eapply (returns_bind any); [apply file_returns|intros c _; by apply returns_ret]. }
  intros id _. case_decide; [apply IH|]. apply attempt_returns; [apply effect_is_Some, equipped_attach|intros u; apply IH].
Qed.

Lemma load_returns : returns Bpf.load is_Some.
Proof.
  unfold Bpf.load. repeat first
    [ apply prepare_returns | apply attach_each_returns | apply attach_state_returns | by apply returns_ret
    | apply effect_is_Some; first [apply equipped_load|apply equipped_attach|apply equipped_online]
    | apply attempt_returns; [|intros ?] ].
Qed.

Lemma populate_returns e : returns (populate_cpu_to_socket_map e) any.
Proof.
  unfold populate_cpu_to_socket_map, attempt. destruct (cpu_to_socket_map e) as [m|]; [|by apply returns_ret].
  eapply (returns_bind any); [by apply returns_effect|]. intros [l|] _; [|by apply returns_ret].
  induction l as [|cpu l IH]; cbn [populate_cpus]; [by apply returns_ret|]. destruct (_ <=? _); [done|]. unfold attempt.
  eapply (returns_bind any).
  { unfold read_physical_package_id. eapply (returns_bind any); [apply file_returns|intros c _; by apply returns_ret]. }
  intros [socket|] _; [|by apply returns_ret]. eapply (returns_bind any); [by apply returns_lift, arith_yields|]. intros id _.
  eapply (returns_bind any); [by apply returns_effect|]. intros [u|] _; [done|by apply returns_ret].
Qed.

Lemma new_returns data : returns (Topology.new data) any.
Proof.
  unfold Topology.new. eapply returns_bind; [apply load_returns|]. intros ? [e ->].
  eapply (returns_bind any); [apply populate_returns|]. intros u _. unfold take_cpu_state_buffer, ProcTracker.new. any_steps.
Qed.

(** *** The tree *)

Lemma file_known p : (∀ w, is_Some (read_to_string p w).1) → returns (read_file p) is_Some.
Proof. intros Hp w. specialize (Hp w). unfold read_file. destruct (read_to_string p w) as [o w']. by exists o, w'. Qed.

Lemma name_returns f : f ∈ folders → returns (lift (folder_name (Some f))) (λ x, x = f).
Proof. intros Hf. apply returns_lift. unfold folder_name. simpl. rewrite equipped_text by done. by exists f. Qed.

(** There is a socket. *)
Definition peopled (t : Topology) : Prop := sockets t ≠ [].

Lemma map_peopled t l : peopled t → length l = length (sockets t) → peopled (set_sockets l t).
Proof. unfold peopled. simpl. destruct l, (sockets t); done. Qed.

Lemma register_socket_returns sensor i t : returns (register_socket sensor i t) peopled.
Proof.
  unfold register_socket, with_range. eapply (returns_bind any).
  { eapply (returns_bind any); [apply file_returns|]. intros m _. by apply returns_ret. }
  intros data _. apply returns_ret. unfold safe_add_socket. destruct (has_socket i t) eqn:E.
  - unfold peopled, has_socket in *. simpl. destruct (sockets t); [discriminate E|done].
  - unfold peopled. simpl. by destruct (sockets t).
Qed.

Lemma register_domain_returns sensor f i j t :
  f ∈ folders → is_match re_domain f = true → peopled t → returns (register_domain sensor f i j t) peopled.
Proof.
  intros Hf Hm Ht. unfold register_domain, with_range. eapply (returns_bind any).
  { eapply (returns_bind any); [apply file_returns|]. intros m _. by apply returns_ret. }
  intros data _. eapply (returns_bind (λ o, ∀ n, o = Some n → yields (parse_resource (trim n)) any)).
  { intros w. pose proof (equipped_resources f w) as Hn. unfold read_file.
    destruct (read_to_string _ w) as [o w']. exists o, w'. split; [done|]. intros n ->. by apply Hn. }
  intros [n|] Hn; [|by apply returns_ret]. eapply (returns_bind any); [by apply returns_lift, Hn|]. intros r _.
  apply returns_ret. by apply map_peopled; [|rewrite length_fmap].
Qed.

Lemma register_mmio_returns f i t :
  f ∈ folders → is_match re_domain_mmio f = true → returns (register_domain_mmio f i t) (λ t', peopled t → peopled t').
Proof.
  intros Hf Hm. unfold register_domain_mmio.
  eapply (returns_bind (λ l, length l = length (sockets t))).
  - eapply returns_weaken; [apply (returns_and _ (Forall any) (λ l, length l = length (sockets t))); [apply returns_map|]|].
    + intros s _. destruct (_ =? _); [|by apply returns_ret]. eapply (returns_bind any); [|intros ds _; by apply returns_ret].
      eapply returns_weaken; [apply (returns_map _ any)|done]. intros d _.
      eapply returns_bind; [apply file_known; intros w; by apply equipped_mmio|]. intros o Ho.
      eapply (returns_bind any); [by apply returns_lift, yields_unwrap|]. intros n _. by apply returns_ret.
    + intros w l w' Hl. apply (io_map_Forall2 _ (λ _ _, True)) in Hl; [by rewrite (Forall2_length _ _ _ Hl)|done].
    + by intros l [_ ?].
  - intros l Hl. apply returns_ret. intros Ht. by apply map_peopled.
Qed.

(** A folder of the first loop: what the domains were matched for has its socket. *)
Definition placed (st : Topology * bool) : Prop := st.2 = true → peopled st.1.

Lemma visit_returns sensor f st :
  f ∈ folders → placed st →
  returns (visit_folder sensor st (Some f))
    (λ st', placed st' ∧ (is_match re_domain f = true ∨ st.2 = true → st'.2 = true)).
Proof.
  destruct st as [t b]. intros Hf Hst. unfold visit_folder. eapply returns_bind; [by apply name_returns|]. intros ? ->.
  destruct (is_match re_domain f) eqn:Hd.
  { eapply (returns_bind any); [apply returns_lift, equipped_sockets; auto|]. intros i _.
    eapply (returns_bind any); [by apply returns_lift, equipped_domains|]. intros j _.
    eapply returns_bind; [apply register_socket_returns|]. intros t1 H1'.
    eapply returns_bind; [by apply register_domain_returns|]. intros t2 H2'. apply returns_ret.
    split; [intros _; exact H2'|done]. }
  destruct (is_match re_socket_mmio f) eqn:Hsm.
  { eapply (returns_bind any); [apply returns_lift, equipped_sockets; auto|]. intros i _. apply returns_ret.
    split; [|by intros [?|?]]. intros Hb. apply map_peopled; [by apply Hst|by rewrite length_fmap]. }
  destruct (is_match re_domain_mmio f) eqn:Hdm.
  { eapply (returns_bind any); [apply returns_lift, equipped_sockets; auto|]. intros i _.
    eapply returns_bind; [by apply register_mmio_returns|]. intros t1 Ht1. apply returns_ret.
    split; [|by intros [?|?]]. intros Hb. by apply Ht1, Hst. }
  apply returns_ret. split; [exact Hst|by intros [?|?]].
Qed.

Lemma visit_socket_returns sensor f t :
  f ∈ folders →
  returns (visit_socket_folder sensor t (Some f))
    (λ t', (is_match re_socket f = true ∧ ∀ w, ∃ n, (read_to_string (f +:+ "/name") w).1 = Some n ∧ n ≠ "psys"%string)
           ∨ peopled t → peopled t').
Proof.
  intros Hf. unfold visit_socket_folder. eapply returns_bind; [by apply name_returns|]. intros ? ->.
  set (own := is_match re_socket f = true ∧ _).
  eapply (returns_bind (λ o, own → ∃ n, o = Some n ∧ n ≠ "psys"%string)).
  { intros w. unfold read_file. destruct (read_to_string _ w) as [o w'] eqn:E. exists o, w'. split; [done|].
    intros [_ Hn]. specialize (Hn w). by rewrite E in Hn. }
  intros o Ho. destruct o as [n|].
  - destruct (negb _ && is_match re_socket f) eqn:Hn.
    + apply andb_true_iff in Hn as [_ Hn]. eapply (returns_bind any); [apply returns_lift, equipped_sockets; auto|].
      intros i _. eapply returns_weaken; [apply register_socket_returns|auto].
    + apply returns_ret. intros [Hown|Ht]; [|done]. exfalso. destruct (Ho Hown) as (? & [= <-] & Hp).
      destruct Hown as [Hs _]. by rewrite Hs, bool_decide_false in Hn.
  - apply returns_ret. intros [Hown|Ht]; [|done]. by destruct (Ho Hown) as (? & ? & _).
Qed.

Lemma visit_psys_returns f t : f ∈ folders → returns (visit_psys t (Some f)) (λ t', peopled t → peopled t').
Proof.
  intros Hf. unfold visit_psys. eapply returns_bind; [by apply name_returns|]. intros ? ->.
  eapply (returns_bind any); [apply file_returns|]. intros o _. apply returns_ret.
  destruct o; [|done]. by destruct (decide _).
Qed.

(** A loop over the folders of the tree. *)
Lemma folders_return {S} sensor (visit : S → option string → io S) (st : S) Q :
  base_path sensor = base → returns (io_fold visit st (Some <$> folders)) Q → returns (for_each_folder sensor visit st) Q.
Proof.
  intros Hb Hv. unfold for_each_folder. rewrite Hb. eapply (returns_bind (λ o, o = Some (Some <$> folders))).
  { apply returns_effect. intros w. apply equipped_tree. }
  intros ? ->. eapply (returns_bind (λ l, l = Some <$> folders)); [apply returns_lift; by eexists|]. by intros ? ->.
Qed.

Lemma listed (x : option string) : x ∈ (Some <$> folders) → ∃ f, x = Some f ∧ f ∈ folders.
Proof. by intros (f & -> & Hf)%list_elem_of_fmap; exists f. Qed.

(** What the folder of a socket with a name is. *)
Definition named_socket (f : string) : Prop :=
  is_match re_socket f = true ∧ ∀ w, ∃ n, (read_to_string (f +:+ "/name") w).1 = Some n ∧ n ≠ "psys"%string.

(** The first loop finds a domain, or the second finds a socket. *)
Lemma domains_return sensor t :
  base_path sensor = base →
  returns (for_each_folder sensor (visit_folder sensor) (t, false))
    (λ st, placed st ∧ (st.2 = true ∨ ∃ f, f ∈ folders ∧ named_socket f)).
Proof.
  intros Hb. apply folders_return; [done|]. destruct equipped_socket as (f & Hf & [Hd|Hs]).
  - eapply returns_weaken; [apply (returns_fold_reaches _ placed (λ st, st.2 = true) _ (Some f));
      [by apply list_elem_of_fmap_2|done|]|by intros st [? ?]; auto].
    intros st x (h & -> & Hh)%listed Hst. eapply returns_weaken; [by apply visit_returns|].
    intros st' [Hst' Hj]. split; [exact Hst'|]. intros [[= ->]|Hj']; apply Hj; auto.
  - eapply returns_weaken; [apply (returns_fold _ placed); [done|]|intros st Hst; split; [done|right; by exists f]].
    intros st x (h & -> & Hh)%listed Hst. eapply returns_weaken; [by apply visit_returns|]. by intros st' [Hst' _].
Qed.

Lemma sockets_found sensor t f :
  base_path sensor = base → f ∈ folders → named_socket f →
  returns (for_each_folder sensor (visit_socket_folder sensor) t) peopled.
Proof.
  intros Hb Hf Hs. apply folders_return; [done|].
  eapply returns_weaken; [apply (returns_fold_reaches _ any peopled _ (Some f)); [by apply list_elem_of_fmap_2|done|]|by intros t1 [_ ?]].
  intros t1 x (h & -> & Hh)%listed _. eapply returns_weaken; [by apply visit_socket_returns|].
  intros t2 Hj. split; [done|]. intros [[= ->]|Hj']; apply Hj; auto.
Qed.

(** *** The cores *)

Definition housed (c : CPUCore) : Prop :=
  ∃ p n, Core.attributes c !! "physical id"%string = Some p ∧ parse_uint 16 p = Some n.

Lemma generated_cores_return : returns generate_cpu_cores (λ o, ∃ l, o = Some l ∧ Forall housed l).
Proof.
  unfold generate_cpu_cores. eapply (returns_bind any); [by apply returns_effect|]. intros sys _.
  eapply (returns_bind (λ o, ∃ get, o = Some get ∧ ∀ s i c, Env.cpus s !! i = Some c → ∃ info p n,
    get (cpu_id (Z.of_nat i) (c_name c)) = Some info ∧ info !! "physical id"%string = Some p ∧ parse_uint 16 p = Some n)).
  { apply returns_effect, equipped_cpus. }
  intros ? (get & -> & Hget). eapply (returns_bind (λ x, x = get)); [apply returns_lift; by exists get|]. intros ? ->.
  eapply (returns_bind (Forall housed)); [|intros l Hl; apply returns_ret; by exists l].
  apply returns_map. intros [j c] (i & c' & [= -> ->] & Hi)%elem_of_lookup_imap_1.
  destruct (Hget sys i c' Hi) as (info & p & n & Hinfo & Hp & Hn). unfold generate_core. cbn [fst snd]. cbv zeta. rewrite Hinfo.
  eapply (returns_bind (λ x, x = info)); [apply returns_lift; by exists info|]. intros ? ->.
  unfold Core.new. do 2 (eapply (returns_bind any); [by apply returns_effect|]; intros ? _).
  do 2 (eapply (returns_bind any); [intros w; by eexists _, _|]; intros ? _).
  apply returns_ret. exists p, n. split; [|exact Hn]. simpl. by rewrite !lookup_insert_ne.
Qed.

Lemma add_generated_cores_returns t : peopled t → returns (add_cpu_cores t) peopled.
Proof.
  intros Ht. unfold add_cpu_cores. eapply returns_bind; [apply generated_cores_return|]. intros ? (cores & -> & Hc).
  eapply (returns_bind (λ l, l = cores)); [apply returns_lift; by exists cores|]. intros ? ->.
  eapply (returns_bind (λ l, l ≠ [])); [|intros l Hl; by apply returns_ret].
  apply returns_lift, yields_foldM; [exact Ht|]. intros l c Hin Hl. unfold add_core.
  rewrite elem_of_rev in Hin. rewrite Forall_forall in Hc.
  destruct (Hc c Hin) as (p & n & -> & Hn). cbn [unwrap]. rewrite bind_done, Hn. cbn [unwrap]. rewrite bind_done.
  unfold add_to_socket. destruct l as [|s l]; [done|]. apply yields_ret.
  intros E%(f_equal length). by rewrite length_alter in E.
Qed.

Lemma generate_returns sensor : base_path sensor = base → returns (generate_topology sensor) any.
Proof.
  intros Hb. unfold generate_topology, check_module. eapply (returns_bind any).
  { eapply returns_bind; [apply effect_is_Some, equipped_modules|]. intros ? [m ->]. any_steps. by exists m. }
  intros r _. eapply (returns_bind any); [apply new_returns|]. intros t _.
  eapply returns_bind; [by apply domains_return|]. intros [t1 b] [Hp Hs]. cbn [fst snd] in Hs.
  eapply (returns_bind peopled).
  { destruct b; [by apply returns_ret, Hp|]. destruct Hs as [|(f & Hf & Hs)]; [done|]. by eapply sockets_found. }
  intros t2 H2'. eapply (returns_bind peopled); [|intros t3 H3'; eapply returns_weaken; [by apply add_generated_cores_returns|done]].
  apply folders_return; [done|]. apply returns_fold; [done|]. intros st x (h & -> & Hh)%listed Hst.
  eapply returns_weaken; [by apply visit_psys_returns|auto].
Qed.

(** *** The exporter *)

Lemma topology_returns (sensor : PowercapRAPLSensor) : base_path sensor = base → returns (topology_of sensor) any.
Proof.
  intros Hb. unfold topology_of, sensor_get_topology. cbn. unfold get_topology. eapply (returns_bind is_Some).
  - eapply (returns_bind any); [by apply generate_returns|]. intros t _. apply returns_ret. by eexists.
  - intros o Ho. by apply returns_lift, yields_unwrap.
Qed.

Lemma hostname_returns : returns get_hostname any.
Proof.
  unfold get_hostname. eapply returns_bind; [apply effect_is_Some, equipped_name|]. intros o Ho.
  by apply returns_lift, yields_unwrap.
Qed.

Lemma generator_returns t h q c : returns (Metrics.new t h q c) any.
Proof. unfold Metrics.new, get_docker_client, get_kubernetes_client. any_steps. Qed.

Lemma prepare_exporter_returns (sensor : PowercapRAPLSensor) q c :
  base_path sensor = base → returns (Exporters.prepare sensor q c) any.
Proof.
  intros Hb. unfold Exporters.prepare. eapply (returns_bind any); [by apply topology_returns|]. intros t _.
  eapply (returns_bind any); [apply hostname_returns|]. intros h _. apply generator_returns.
Qed.

(** The options are accepted and have what they ask for. *)
Definition startable (choice : ExporterChoice) : Prop := accepted choice = true ∧ ∀ w, ¬ cannot_start choice w.

Context (current_pid : Z) (crate_version : string).
Context (debug_str : string → string) (to_json : list (string * string) → string).
Context (serialize : Report → list string).

Lemma build_returns choice (sensor : PowercapRAPLSensor) :
  base_path sensor = base → startable choice →
  returns (build_exporter current_pid crate_version debug_str to_json serialize choice sensor) any.
Proof.
  intros Hb [Ha Hs]. unfold build_exporter. destruct choice as [args|args|args| |args|args|args];
    (eapply (returns_bind any); [|intros e _; by apply returns_ret]).
  - unfold new_stdout. eapply (returns_bind any); [by apply prepare_exporter_returns|]. intros g _. by apply returns_ret.
  - unfold new_json. eapply (returns_bind any); [by apply prepare_exporter_returns|]. intros g _.
    eapply (returns_bind any).
    { apply returns_not_panic. intros w Hp. apply (Hs w). left. apply time_step_panics.
      unfold lift in Hp. by destruct (json_time_step _ _). }
    intros step _. eapply (returns_bind any); [|intros out _; by apply returns_ret].
    apply returns_not_panic. intros w Hp%open_output_panics. apply (Hs w). by right.
  - unfold new_prometheus. eapply (returns_bind any); [by apply topology_returns|]. intros t _.
    eapply (returns_bind any); [apply hostname_returns|]. intros h _. by apply returns_ret.
  - unfold new_qemu. eapply (returns_bind any); [by apply topology_returns|]. intros t _. by apply returns_ret.
  - unfold new_riemann. eapply (returns_bind any); [by apply prepare_exporter_returns|]. intros g _.
    eapply (returns_bind any); [|intros c _; by apply returns_ret].
    apply returns_not_panic. intros w Hp%connect_panics; [by apply (Hs w)|done].
  - unfold new_warp10. eapply (returns_bind any); [by apply prepare_exporter_returns|]. intros g _.
    eapply (returns_bind any).
    { apply returns_not_panic. intros w Hp. apply (Hs w). left. unfold lift in Hp. by destruct (new_client _). }
    intros c _. eapply (returns_bind any); [|intros k _; by apply returns_ret].
    apply returns_not_panic. intros w Hp. apply (Hs w). right. unfold lift, warp10_token in Hp.
    destruct (warp10_write_token args); [done|]. by destruct (env_var TOKEN_ENV_VAR).
  - unfold new_push. eapply (returns_bind any); [by apply topology_returns|]. intros t _.
    eapply (returns_bind any); [apply hostname_returns|]. intros h _. by apply returns_ret.
Qed.

(** The sensor of the command line is powercap, on the tree of the host. *)
Definition on_powercap (powercap_path : option string) (cli : Cli) : Prop :=
  (sensor cli = None ∨ sensor cli = Some "powercap_rapl"%string) ∧
  base_path (Powercap.new powercap_path 0 0 (vm cli)) = base.

Lemma start_returns powercap_path red_bold cli :
  on_powercap powercap_path cli → startable (exporter cli) →
  returns (parse_cli_and_run_exporter powercap_path current_pid crate_version debug_str to_json serialize red_bold cli) any.
Proof.
  intros [Hsensor Hb] Hs. unfold parse_cli_and_run_exporter. eapply returns_bind; [apply load_returns|]. intros ? [e ->].
  eapply (returns_bind any); [apply returns_lift; by exists e|]. intros e' _.
  eapply (returns_bind (λ s, base_path s = base)).
  { apply returns_lift. unfold build_sensor. destruct Hsensor as [-> | ->]; [|rewrite decide_True by done]; by eexists. }
  intros s Hbase. eapply (returns_bind any); [by apply build_returns|]. intros x _. by apply returns_ret.
Qed.
End Launch.
