(* ===== verification/Whole.v ===== *)
(** * The program as a whole

    From the command line to the last round: on a sane host the program starts, the exporters
    that have a time limit come to their end, and the loops of the others go on, round after
    round, each with its output.  Left out are the Prometheus server, which waits for requests
    ([Running]), and Riemann, which a value that is no number ends ([Riemann]). *)

From S2P Require Import Prelude Floats Text TextOps FloatText Units Env Simulated Loops Returns Records Energy Common.
From S2P Require Import Domain Core Socket ProcTracker Bpf Topology Attribution Powercap Containers ExporterUtils Metrics.
From S2P Require Import Samples Clones Series Search Json Stdout Prometheus Riemann Qemu Frame Session Alive Running Reports.
From S2P Require Import Events Writer JsonFile Exporters Start Launch.
From Stdlib Require Import Ascii.

(** ** What the virtual machines need *)

Definition machines : string := "/var/lib/libvirt/scaphandre".

Section Whole.
Context `{Profile, Layout, Os, !FileSystem, !Procfs, !PerfEvents, !Sysinfo, !Aya, !KernelModules}.
Context `{!HashMaps, !ContainerRuntimes, Regex, Captures, !HashLaws, !Instants, !Hostname, !FileWrites}.
Context `{!Riemann, !Warp10, !Http, !Sinks, EnvVars}.
Context (current_pid : Z) (cpus : nat) `{!SaneHost current_pid cpus, !NamedDisks} (crate_version : string).
Context (content : string → option string) `{!NameFiles content}.
Context (release : overflow_checks = false) `{!Calendar}.
Context (versioned : is_done (get_scaphandre_version crate_version) = true).
Context (debug_str : string → string) (to_json : list (string * string) → string).
Context (serialize : Report → list string).
#[local] Existing Instance sane_laws.
#[local] Abbreviation lasting := (lasting cpus content).
#[local] Abbreviation sound := (sound cpus).
#[local] Abbreviation refresh_lasting := (refresh_lasting current_pid cpus content release).
#[local] Abbreviation clean_refresh_lasting := (clean_refresh_lasting current_pid cpus content release).
#[local] Abbreviation gather_returns := (gather_returns current_pid cpus crate_version content release versioned).

(** The folders of the machines can be made, and their counters hold numbers. *)
Class SaneMachines : Prop := {
  sane_folder p w : (create_dir_all p w).1 = Some tt;
  sane_counter name w c :
    (read_to_string (machines +:+ "/" +:+ name +:+ "/intel-rapl:0/energy_uj") w).1 = Some c → is_Some (parse_uint 64 c);
}.

(** What is written is accepted. *)
Class SaneSinks : Prop := sane_write k s w : (sink_write k s w).1 = Some tt.

(** ** Rounds *)

Lemma send_all_returns metrics : returns (send_all metrics) any.
Proof.
  unfold send_all. eapply (returns_bind any); [|intros st _; by apply returns_ret]. apply (returns_fold _ any); [done|].
  intros [body pushed] m _ _. unfold push_one, Env.iterate. any_steps.
Qed.

Lemma push_returns e g :
  lasting g → returns (push_turn current_pid crate_version e g) (λ r, lasting r.1).
Proof.
  intros Hg. unfold push_turn, push_round. cbv zeta. eapply (returns_bind (λ r, lasting r.1)).
  - eapply returns_bind; [by apply refresh_lasting|].
    intros t Ht. eapply returns_bind; [by apply gather_returns|].
    intros g1 (Hg1 & _). eapply returns_bind; [apply pop_returns|]. intros ? ->.
    eapply (returns_bind any); [apply send_all_returns|]. intros body _. by apply returns_ret.
  - intros [g1 body] Hg1. eapply (returns_bind any); [by apply returns_effect|]. intros r _. by apply returns_ret.
Qed.

Lemma warp10_returns client token g :
  lasting g → returns (warp10_iterate current_pid crate_version client token g) (λ r, lasting r.1).
Proof.
  intros Hg. unfold warp10_iterate.
  eapply returns_bind; [by apply clean_refresh_lasting|].
  intros t Ht. eapply returns_bind; [by apply gather_returns|].
  intros g1 (Hg1 & _). eapply returns_bind; [apply pop_returns|]. intros ? ->. eapply (returns_bind any).
  { eapply returns_weaken; [apply (returns_map _ any)|done]. intros m _. unfold warp10_point, Env.iterate. any_steps. }
  intros points _. eapply (returns_bind any); [by apply returns_effect|]. intros r _. by apply returns_ret.
Qed.

(** *** JSON *)

Lemma retrieve_returns args g :
  lasting g → returns (retrieve_metrics current_pid crate_version args g) (λ r, lasting r.1).
Proof.
  intros Hg. unfold retrieve_metrics. pose proof Hg as [[Hs _] [Hset Hd]].
  eapply returns_bind; [apply returns_and; [by apply gather_returns|]|].
  { intros w g1 w' Ha. exact (collected_disks current_pid crate_version _ _ _ _ (settled_labelled content _ Hset) Ha). }
  intros g1 ((Hg1 & Htopo & l1 & l2 & ls & l4 & lp & Hp) & l & Hl & Hdisks). rewrite Hd in Hl. simpl in Hl. subst l.
  eapply returns_bind; [apply pop_returns|]. intros ? ->. eapply (returns_bind any); [|intros r _; by apply returns_ret].
  eapply (report_returns current_pid cpus); [done|exact Hp|by apply (settled_labelled content)|done| |exact Hdisks|done|].
  - destruct Hset as (_ & Hgen & _). eapply Forall_impl; [exact Hgen|]. by intros s [[_ ?] _].
  - intros m. by rewrite elem_of_rev.
Qed.

Lemma write_returns `{!SaneSinks} s b : returns (write_all s b) is_Some.
Proof.
  unfold write_all, flush_buf. destruct (len s <? spare_capacity b); [by apply returns_ret|].
  eapply (returns_bind is_Some).
  - destruct (_ <? len s); [|by apply returns_ret]. eapply (returns_bind is_Some).
    + apply returns_effect. intros w. by rewrite sane_write.
    + intros r [u ->]. apply returns_ret. by eexists.
  - intros ? [b' ->]. destruct (capacity <=? len s); [|by apply returns_ret]. eapply (returns_bind is_Some).
    + apply returns_effect. intros w. by rewrite sane_write.
    + intros r [u ->]. apply returns_ret. by eexists.
Qed.

Lemma json_returns `{!SaneSinks} args st :
  lasting st.1 → returns (write_round current_pid crate_version serialize args st) (λ r, lasting r.1.1).
Proof.
  destruct st as [g out]. intros Hg. unfold write_round, json_iterate. eapply (returns_bind (λ r, lasting r.1)).
  - eapply returns_bind; [by apply refresh_lasting|].
    intros t Ht. by apply retrieve_returns.
  - intros [g1 report] Hg1. eapply (returns_bind any); [|intros out1 _; by apply returns_ret].
    destruct report as [r|]; [|by apply returns_ret]. unfold write_chunks. apply (returns_fold _ any); [done|].
    intros b s _ _. eapply returns_bind; [apply write_returns|]. intros o [b' ->]. apply returns_lift. by exists b'.
Qed.

(** *** The virtual machines *)

Lemma power_yields t :
  yields (Attribution.get_records_diff_power_microwatts t) (λ o, ∀ r, o = Some r → is_Some (parse_f64 (r_value r))).
Proof.
  assert (yields (Attribution.get_records_diff_power_microwatts t) any) as (o & E & _).
  { unfold Attribution.get_records_diff_power_microwatts, background_power, idle_power, activation_power.
    any_steps; by apply usum_yields. }
  exists o. split; [exact E|]. intros r ->. destruct (host_power_text _ _ E) as (n & Hn & ->).
  unfold parse_f64. rewrite parse_float_show_uint by done. by eexists.
Qed.

Lemma vm_name_yields cmdline : yields (get_vm_name_from_cmdline cmdline) any.
Proof.
  unfold get_vm_name_from_cmdline. destruct (List.find _ cmdline) as [s|] eqn:E; [|by apply yields_ret].
  apply List.find_some in E as [_ [t ->]%starts_with_app].
  change ("guest=" +:+ t)%string with ("guest" +:+ String "="%char t)%string.
  rewrite split_on_app by reflexivity. pose proof (split_on_nonempty "="%char t) as Ht.
  destruct (split_on "="%char t) as [|piece k]; [done|]. cbn [lookup list_lookup unwrap]. rewrite bind_done.
  pose proof (split_on_nonempty ","%char piece) as Hp. destruct (split_on ","%char piece) as [|x k']; [done|]. by eexists.
Qed.

Context `{!SaneMachines}.

Lemma folder_returns p : returns (ensure_folder p) any.
Proof.
  unfold ensure_folder. eapply (returns_bind any); [by apply returns_effect|]. intros [entries|] _; [by apply returns_ret|].
  eapply (returns_bind is_Some).
  - apply returns_effect. intros w. by rewrite sane_folder.
  - intros r Hr. by apply returns_lift, yields_unwrap.
Qed.

Lemma added_returns name uj : returns (add_or_create (machines +:+ "/" +:+ name +:+ "/intel-rapl:0") uj) any.
Proof.
  unfold add_or_create. eapply (returns_bind any); [apply folder_returns|]. intros u _. cbv zeta.
  eapply (returns_bind (λ o, ∀ c, o = Some c → is_Some (parse_uint 64 c))).
  - intros w. unfold read_file. pose proof (sane_counter name w) as Hc. rewrite !app_assoc_str.
    change ("/intel-rapl:0" +:+ "/energy_uj")%string with "/intel-rapl:0/energy_uj"%string.
    destruct (read_to_string _ w) as [o w']. exists o, w'. split; [done|exact Hc].
  - intros o Ho. eapply (returns_bind any); [|intros c _; by apply returns_effect].
    destruct o as [c|]; [|by apply returns_ret]. eapply (returns_bind any); [by apply returns_lift, yields_unwrap; [apply Ho|]|].
    intros n _. by apply returns_lift, arith_yields.
Qed.

(** A process that is alive has the text of its command. *)
Lemma alive_head pt r v :
  r :: v ∈ get_alive_processes pt → is_Some (process_cmdline pt (process r)).
Proof.
  unfold get_alive_processes. intros [_ Hv]%list_elem_of_In%filter_In. cbn [vector_pid head fmap option_fmap option_map] in Hv.
  simpl in Hv. unfold process_cmdline. destruct (Env.sys_process _ _); [by eexists|done].
Qed.

Lemma machine_returns t r v topo_energy :
  r :: v ∈ get_alive_processes (proc_tracker t) → is_Some (parse_f64 (r_value topo_energy)) →
  returns (update_vm machines t topo_energy (r :: v)) any.
Proof.
  intros Hv He. unfold update_vm. destruct v as [|r2 [|r3 v]]; [by apply returns_ret..|].
  eapply (returns_bind any); [by eapply returns_lift, yields_unwrap; [by eapply alive_head|]|]. intros cmdline _.
  eapply (returns_bind any); [apply returns_lift, vm_name_yields|]. intros name _.
  eapply (returns_bind any); [apply folder_returns|]. intros u _.
  destruct (get_process_cpu_usage_percentage _ t) as [ratio|] eqn:E; [|by apply returns_ret].
  unfold get_process_cpu_usage_percentage, Attribution.process_metric in E.
  destruct (get_process_last_record _ _); [|done]. injection E as <-.
  eapply (returns_bind any); [apply returns_lift, yields_unwrap; [apply parse_show_float|done]|]. intros x _.
  eapply (returns_bind any); [by apply returns_lift, yields_unwrap|]. intros y _. cbv zeta.
  eapply (returns_bind any); [apply added_returns|]. intros o _. by apply returns_ret.
Qed.

Lemma machines_return t : sound t → returns (Qemu.iterate machines t) sound.
Proof.
  intros Ht. unfold Qemu.iterate. eapply returns_bind; [by apply (refresh_returns current_pid cpus release)|].
  intros t' Ht'. eapply returns_bind; [apply returns_lift, power_yields|]. intros o Ho.
  eapply (returns_bind any); [|intros u _; by apply returns_ret].
  destruct o as [e|]; [|by apply returns_ret]. apply (returns_fold _ any); [done|].
  intros u qp [Hqp _]%list_elem_of_In%filter_In _. destruct qp as [|r v]; [by apply returns_ret|].
  apply machine_returns; [by apply list_elem_of_In|by apply Ho].
Qed.

(** The topology, and the timer. *)
Definition turning (st : Duration * Topology) : Prop :=
  sound st.2 ∧ ∃ k, 0 <= k < 24 ∧ st.1 = mkDuration (120 - 5 * k) 0.

Lemma turn_returns st : turning st → returns (qemu_turn st) (λ r, turning r.1).
Proof.
  destruct st as [timer t]. intros [Ht (k & Hk & E)]. cbn [fst snd] in Ht, E. subst timer. unfold qemu_turn, qemu_round.
  cbn [fst snd]. eapply (returns_bind turning); [|intros st Hst; by apply returns_ret].
  eapply returns_bind; [by apply machines_return|]. intros t' Ht'.
  eapply (returns_bind (λ r : Duration * bool, ∃ k, 0 <= k < 24 ∧ r.1 = mkDuration (120 - 5 * k) 0)).
  - apply returns_lift. rewrite tick_eq by lia. eexists. split; [reflexivity|].
    destruct (Z.ltb_spec 5 (120 - 5 * k)); [exists (k + 1)|exists 0]; (split; [lia|]); [|done]. simpl. f_equal. lia.
  - intros [timer clean] Hk'. apply returns_ret. split; [|exact Hk']. simpl. destruct clean; [by apply clean_sound|done].
Qed.
(** *** From the command line *)

Lemma topology_sound (sensor : PowercapRAPLSensor) w t w' : topology_of sensor w = Done (t, w') → sound t.
Proof.
  unfold topology_of. intros (o & w1 & Ho & [Hu _]%lift_inv)%io_bind_inv.
  apply io_bind_inv in Ho as (t' & w2 & Hg & [= <- _]). injection Hu as ->.
  by eapply (generated_sound current_pid cpus content).
Qed.

Lemma prepared_lasting (sensor : PowercapRAPLSensor) qemu containers w g w' :
  prepare sensor qemu containers w = Done (g, w') → lasting g.
Proof.
  unfold prepare. intros (t & w1 & Ht & Hr)%io_bind_inv. apply io_bind_inv in Hr as (h & w2 & _ & Hn).
  eapply new_lasting; [exact _| | |exact Hn].
  - by eapply topology_sound.
  - pose proof (powercap_lawful content). by eapply topology_of_settled.
Qed.

Lemma push_generated e w :
  sound (push_topo e) → settled content (push_topo e) →
  ∃ g w', push_generator e w = Done (g, w') ∧ lasting g.
Proof.
  intros Ht Hs. unfold push_generator. assert (returns (Topology.clone (push_topo e)) any) as Hc.
  { unfold Topology.clone, ProcTracker.clone. any_steps. }
  destruct (Hc w) as (t & w1 & E & _). assert (returns (Metrics.new t (push_hostname e) (push_qemu (push_args e))
    (push_containers (push_args e))) any) as Hn by (unfold Metrics.new, get_docker_client, get_kubernetes_client; any_steps).
  destruct (Hn w1) as (g & w2 & E' & _). exists g, w2. split; [by rewrite (io_bind_done _ _ _ _ _ E)|].
  eapply new_lasting; [exact _| | |exact E'].
  - by eapply clone_sound.
  - by eapply clone_settled.
Qed.

#[local] Instance own_stdout : Exporter StdoutExporter := stdout_exporter current_pid crate_version debug_str to_json.
#[local] Instance own_json : Exporter JsonExporter := json_exporter current_pid crate_version serialize.
#[local] Instance own_warp10 : Exporter Warp10Exporter := warp10_exporter current_pid crate_version.
#[local] Instance own_push : Exporter PrometheusPushExporter := push_exporter current_pid crate_version.

(** What an exporter without a time limit promises, once it is sound: any number of outputs. *)
Class GoesOn (E : Type) `{!Exporter E} (sound : E → Prop) : Prop :=
  going_on e w n : sound e → ∃ l, length l = n ∧ runs e w l.

(** The rounds of a loop, each with its output. *)
Lemma loop_goes_on {S O} (round : S → io (S * O)) step (I : S → Prop) (f : O → Output) (Q : list Output → Prop) st w n :
  (∀ st, I st → returns (round st) (λ r, I r.1)) → I st →
  (∀ outs, loop_seen round step st w None outs → Q (f <$> outs)) → ∃ l, length l = n ∧ Q l.
Proof.
  intros Hround Hst HQ. destruct (endless_rounds round step I Hround st w n Hst) as (outs & Hl & Hseen).
  exists (f <$> outs). split; [by rewrite length_fmap|by apply HQ].
Qed.

#[local] Instance stdout_goes_on :
  GoesOn StdoutExporter (λ e : StdoutExporter, lasting (stdout_generator e) ∧ Stdout.timeout (stdout_args e) < 0).
Proof.
  intros e w n [Hg Ht]. eapply (loop_goes_on _ _ lasting Shown); [|exact Hg|].
  - exact (round_returns current_pid cpus crate_version content release versioned debug_str to_json (stdout_args e)).
  - intros outs Hs. exists outs. split; [done|]. unfold Stdout.time_limit.
    destruct (Z.ltb_spec (Stdout.timeout (stdout_args e)) 0); [exact Hs|lia].
Qed.

#[local] Instance json_goes_on `{!SaneSinks} :
  GoesOn JsonExporter (λ e : JsonExporter, lasting (json_generator e) ∧ json_time_limit_ e = None).
Proof.
  intros e w n [Hg Ht]. eapply (loop_goes_on _ _ (λ st, lasting st.1) Reported _ (json_generator e, json_out_writer e)); [|exact Hg|].
  - intros st. exact (json_returns (json_args e) st).
  - intros outs Hs. exists outs. split; [done|]. rewrite Ht. exact Hs.
Qed.

#[local] Instance qemu_goes_on : GoesOn QemuExporter (λ e : QemuExporter, sound (qemu_topology e)).
Proof.
  intros e w n Ht. eapply (loop_goes_on _ _ turning (λ _, Updated) _ (cleaner_step, qemu_topology e)); [exact turn_returns| |].
  - split; [exact Ht|]. by exists 0.
  - intros outs Hs. by exists outs.
Qed.

#[local] Instance warp10_goes_on : GoesOn Warp10Exporter (λ e : Warp10Exporter, lasting (warp10_generator e)).
Proof.
  intros e w n Hg. eapply (loop_goes_on _ _ lasting (λ o, Posted o.1)); [|exact Hg|intros outs Hs; by exists outs].
  exact (warp10_returns (warp10_client e) (write_token e)).
Qed.

#[local] Instance push_goes_on :
  GoesOn PrometheusPushExporter (λ e : PrometheusPushExporter, sound (push_topo e) ∧ settled content (push_topo e)).
Proof.
  intros e w n [Ht Hs]. destruct (push_generated e w Ht Hs) as (g & w1 & Hp & Hg).
  eapply (loop_goes_on _ _ lasting Pushed); [exact (push_returns e)|exact Hg|]. intros outs Ho. by exists g, w1, outs.
Qed.

(** The exporters that run until the program is stopped, but for the server and Riemann. *)
Definition endless (choice : ExporterChoice) : bool :=
  match choice with
  | StdoutChoice args => Stdout.timeout args <? 0
  | JsonChoice args => match json_timeout args with Some _ => false | None => true end
  | QemuChoice | WarptenChoice _ | PrometheusPushChoice _ => true
  | PrometheusChoice _ | RiemannChoice _ => false
  end.

Lemma build_goes_on `{!SaneSinks} choice (sensor : PowercapRAPLSensor) w e w1 w2 n :
  build_exporter current_pid crate_version debug_str to_json serialize choice sensor w = Done (e, w1) →
  endless choice = true → ∃ l, length l = n ∧ runs e w2 l.
Proof.
  destruct choice as [args|args|args| |args|args|args]; unfold build_exporter; intros (x & w3 & Hx & [= <- _])%io_bind_inv He;
    try discriminate; change (∃ l, length l = n ∧ runs x w2 l).
  - apply io_bind_inv in Hx as (g & w4 & Hg%prepared_lasting & [= <- _]). apply Z.ltb_lt in He.
    by apply (stdout_goes_on _ w2 n).
  - apply io_bind_inv in Hx as (g & w4 & Hg%prepared_lasting & Hx). do 2 (apply io_bind_inv in Hx as (? & ? & _ & Hx)).
    injection Hx as <- _. apply (json_goes_on _ w2 n). split; [exact Hg|]. unfold endless in He.
    cbn [json_time_limit_]. by destruct (json_timeout args).
  - apply io_bind_inv in Hx as (t & w4 & Ht%topology_sound & [= <- _]). by apply (qemu_goes_on _ w2 n).
  - apply io_bind_inv in Hx as (g & w4 & Hg%prepared_lasting & Hx). do 2 (apply io_bind_inv in Hx as (? & ? & _ & Hx)).
    injection Hx as <- _. by apply (warp10_goes_on _ w2 n).
  - apply io_bind_inv in Hx as (t & w4 & Ht & Hx). apply io_bind_inv in Hx as (h & w5 & _ & [= <- _]).
    pose proof (powercap_lawful content). apply (push_goes_on _ w2 n). split; [by eapply topology_sound|by eapply topology_of_settled].
Qed.

(** The start, and the making of the exporter that it ends with. *)
Lemma started_built base folders `{!EquippedHost base folders} powercap_path red_bold cli w :
  on_powercap base powercap_path cli → startable (exporter cli) →
  ∃ e header w' (sensor : PowercapRAPLSensor) w1,
    parse_cli_and_run_exporter powercap_path current_pid crate_version debug_str to_json serialize red_bold cli w
      = Done ((e, header), w') ∧
    build_exporter current_pid crate_version debug_str to_json serialize (exporter cli) sensor w1 = Done (e, w').
Proof.
  intros Hp Hs. destruct (start_returns base folders release current_pid crate_version debug_str to_json serialize
    powercap_path red_bold cli Hp Hs w) as ([e header] & w' & Hr & _). exists e, header, w'.
  assert (Hr' := Hr). unfold parse_cli_and_run_exporter in Hr'.
  apply io_bind_inv in Hr' as (eb & w1 & _ & Hr'). apply io_bind_inv in Hr' as (u & w2 & _ & Hr').
  apply io_bind_inv in Hr' as (sensor & w3 & _ & Hr'). apply io_bind_inv in Hr' as (e' & w4 & Hb & [= <- _ <-]).
  by exists sensor, w3.
Qed.

(** C9: on a sane host that has what the start asks for, and in a build without overflow checks,
    the program runs: whatever exporter the command line chooses, with options that can be
    satisfied, it is made without a panic; and those that have no time limit go on for as long
    as one waits: the standard output, the JSON reports, the counters of the virtual machines,
    Warp10 and the push gateway make any number of rounds, each with its output, whatever the
    powercap tree, the processes and the containers do. *)
Theorem program_goes_on `{!SaneSinks} base folders `{!EquippedHost base folders} powercap_path red_bold cli w :
  on_powercap base powercap_path cli → startable (exporter cli) →
  ∃ e header w', parse_cli_and_run_exporter powercap_path current_pid crate_version debug_str to_json serialize red_bold cli w
                 = Done ((e, header), w') ∧
    (endless (exporter cli) = true → ∀ n, ∃ l, length l = n ∧ runs e w' l).
Proof.
  intros Hp Hs. destruct (started_built base folders powercap_path red_bold cli w Hp Hs)
    as (e & header & w' & sensor & w1 & Hr & Hb).
  exists e, header, w'. split; [exact Hr|]. intros He n. exact (build_goes_on _ _ _ _ _ _ _ Hb He).
Qed.

(** *** With a time limit

    No operation of a round takes the monotonic clock back. *)

Section Timed.
Context (age : world → Z) `{!InstantLaws age, !Respects (λ w w', age w <= age w'), !SaneSinks}.
Context (sink_later : ∀ k s, stays (λ w w', age w <= age w') (effect (sink_write k s))).
#[local] Abbreviation later := (λ w w', age w <= age w').

Lemma write_stays args st : stays later (write_round current_pid crate_version serialize args st).
Proof.
  pose proof (json_round_stays current_pid crate_version later args).
  destruct st as [g out]. unfold write_round, write_chunks, write_all, flush_buf. solve_stays.
Qed.

(** What can be seen of a run that ends: [l] is all of it, of at most [n] outputs. *)
Definition comes_to_end {E} `{!Exporter E} (e : E) (w : world) (n : Z) : Prop :=
  ∃ l, runs e w l ∧ Z.of_nat (length l) <= n ∧ ∀ k, runs e w k → k `prefix_of` l.

Lemma loop_ends {S O} (round : S → io (S * O)) step limit (I : S → Prop) st w :
  (∀ st, I st → returns (round st) (λ r, I r.1)) → I st → (∀ st, stays later (round st)) →
  0 < as_nanos step → 0 <= as_nanos limit →
  ∃ l, loop_seen round step st w (Some limit) l ∧ Z.of_nat (length l) <= as_nanos limit / as_nanos step + 1 ∧
       ∀ k, loop_seen round step st w (Some limit) k → k `prefix_of` l.
Proof.
  intros Hround Hst Hstays Hstep Hlimit. set (fuel := (2 + Z.to_nat (as_nanos limit / as_nanos step))%nat).
  destruct (timed_loop_returns round step I Hround fuel limit st Hst w) as (r & w' & E & _).
  pose proof (Z.div_pos _ _ Hlimit Hstep).
  pose proof (loop_within age round step limit fuel st w Hstays Hstep Hlimit ltac:(unfold fuel; lia)) as He.
  unfold ends_within in He. rewrite E in He. destruct r as [[st' l]|]; [|done]. exists l.
  split; [by eapply timed_loop_seen|]. split; [exact He|]. intros k. exact (timed_loop_last _ _ _ _ _ _ _ _ _ _ E).
Qed.

(** The outputs of an exporter are those of its loop. *)
Lemma output_ends {O E} `{!Exporter E} (e : E) (f : O → Output) (seen : list O → Prop) w n :
  (∀ l, runs e w l ↔ ∃ outs, l = f <$> outs ∧ seen outs) →
  (∃ outs, seen outs ∧ Z.of_nat (length outs) <= n ∧ ∀ k, seen k → k `prefix_of` outs) → comes_to_end e w n.
Proof.
  intros Hr (outs & Ho & Hn & Hlast). exists (f <$> outs). split; [apply Hr; by exists outs|].
  split; [by rewrite length_fmap|]. intros k (outs' & -> & Hk)%Hr. destruct (Hlast _ Hk) as [rest ->].
  rewrite fmap_app. by apply prefix_app_r.
Qed.

(** The time limit and the step of the exporters that have one. *)
Definition timed (choice : ExporterChoice) : option (Duration * Duration) :=
  match choice with
  | StdoutChoice args => (λ limit, (limit, mkDuration (Stdout.step args) 0)) <$> Stdout.time_limit args
  | JsonChoice args =>
      match json_time_limit (json_timeout args), json_time_step (json_step args) (json_step_nano args) with
      | Some limit, Done step => Some (limit, step)
      | _, _ => None
      end
  | _ => None
  end.

Lemma build_ends choice (sensor : PowercapRAPLSensor) w e w1 w2 limit step :
  build_exporter current_pid crate_version debug_str to_json serialize choice sensor w = Done (e, w1) →
  timed choice = Some (limit, step) → 0 < as_nanos step →
  comes_to_end e w2 (as_nanos limit / as_nanos step + 1).
Proof.
  destruct choice as [args|args|args| |args|args|args]; unfold build_exporter; intros (x & w3 & Hx & [= <- _])%io_bind_inv Ht Hstep;
    try discriminate; change (comes_to_end x w2 (as_nanos limit / as_nanos step + 1)).
  - apply io_bind_inv in Hx as (g & w4 & Hg%prepared_lasting & [= <- _]). cbn [timed] in Ht.
    destruct (Stdout.time_limit args) as [limit'|] eqn:El; [|done]. injection Ht as <- <-.
    eapply (output_ends _ Shown); [intros l; cbn; rewrite El; reflexivity|]. eapply (loop_ends _ _ _ lasting).
    + exact (round_returns current_pid cpus crate_version content release versioned debug_str to_json args).
    + exact Hg.
    + intros st. by apply stdout_round_stays.
    + exact Hstep.
    + unfold Stdout.time_limit in El. destruct (Z.ltb_spec (Stdout.timeout args) 0); [done|]. injection El as <-.
      unfold as_nanos. simpl. lia.
  - apply io_bind_inv in Hx as (g & w4 & Hg%prepared_lasting & Hx).
    apply io_bind_inv in Hx as (step' & w5 & [Hs _]%lift_inv & Hx). apply io_bind_inv in Hx as (out & w6 & _ & [= <- _]).
    cbn [timed] in Ht. rewrite Hs in Ht. destruct (json_time_limit (json_timeout args)) as [limit'|] eqn:El; [|done].
    injection Ht as <- <-. apply (output_ends _ Reported (loop_seen (write_round current_pid crate_version serialize (json_args_of args))
      step' (g, out) w2 (Some limit'))); [intros l; rewrite <- El; reflexivity|].
    eapply (loop_ends _ _ _ (λ st, lasting st.1) (g, out)).
    + intros st. exact (json_returns (json_args_of args) st).
    + exact Hg.
    + apply write_stays.
    + exact Hstep.
    + unfold json_time_limit in El. destruct (json_timeout args); [|done]. injection El as <-. unfold as_nanos. simpl. lia.
Qed.

(** C20: on a sane host that has what the start asks for, and in a build without overflow checks,
    the program comes to its end when it has a time limit: the standard output and the JSON
    exporters start, make at most [limit / step + 1] rounds, each with its output, and nothing
    more can be seen of them; they do not panic before, whatever the powercap tree, the
    processes and the containers do. *)
Theorem program_ends_in_time base folders `{!EquippedHost base folders} powercap_path red_bold cli w limit step :
  on_powercap base powercap_path cli → startable (exporter cli) →
  timed (exporter cli) = Some (limit, step) → 0 < as_nanos step →
  ∃ e header w' l, parse_cli_and_run_exporter powercap_path current_pid crate_version debug_str to_json serialize red_bold cli w
                   = Done ((e, header), w') ∧
    runs e w' l ∧ Z.of_nat (length l) <= as_nanos limit / as_nanos step + 1 ∧ ∀ k, runs e w' k → k `prefix_of` l.
Proof.
  intros Hp Hs Ht Hstep. destruct (started_built base folders powercap_path red_bold cli w Hp Hs)
    as (e & header & w' & sensor & w1 & Hr & Hb).
  destruct (build_ends _ _ _ _ _ w' _ _ Hb Ht Hstep) as (l & Hl). by exists e, header, w', l.
Qed.
End Timed.
End Whole.

(** ** Example *)

Import SessionHost.

(** The host of the session, for a build without checks. *)
#[local] Instance released : Profile := false.
#[local] Existing Instances Running.session_sane Running.session_calendar.
#[local] Existing Instances Start.host_hostname Start.host_riemann Start.host_warp10 Start.host_http Start.host_writes.
#[local] Existing Instances Start.host_sinks Start.no_variable.

Definition powercap_tree : string := "/sys/class/powercap".

Definition powercap_folders : list string :=
  ["/sys/class/powercap/intel-rapl:0"; folder_0; folder_1; "/sys/class/powercap/intel-rapl:1"; folder_2]%string.

#[local] Instance session_disks : NamedDisks.
Proof. intros s. repeat constructor; by eexists. Qed.

(** It has no machine yet. *)
#[local] Instance session_machines : SaneMachines.
Proof.
  split; [intros p w; reflexivity|]. intros name w c. cbn. unfold session_files.
  repeat (destruct (decide _) as [E|_]; [discriminate E|]). intros [=].
Qed.

#[local] Instance session_sinks : SaneSinks.
Proof. intros k s w. reflexivity. Qed.

(** One of the folders. *)
Lemma each_folder (P : string → Prop) : Forall P powercap_folders → ∀ f, f ∈ powercap_folders → P f.
Proof. intros Hf f Hin. rewrite Forall_forall in Hf. by apply Hf. Qed.

#[local] Instance session_equipped : EquippedHost powercap_tree powercap_folders.
Proof.
  split.
  - intros w. by eexists.
  - intros e n. reflexivity.
  - intros e n w. by eexists.
  - intros e n p w. by eexists.
  - intros w. by eexists.
  - intros w. by eexists.
  - intros w. eexists. split; [reflexivity|]. intros s i c _. eexists _, "0"%string, 0. split; [reflexivity|].
    split; [apply lookup_singleton_eq|reflexivity].
  - intros w. by eexists.
  - intros w. reflexivity.
  - apply each_folder. repeat constructor.
  - intros f Hf _. revert f Hf. apply each_folder. repeat constructor; by eexists.
  - apply (each_folder (λ f, is_match re_domain f = true → yields (number 2 f) any)).
    repeat constructor; vm_compute; first [intros [=]; fail|intros _; by eexists].
  - intros f w n _ _. cbn. rewrite name_files. unfold content.
    repeat (destruct (decide _); [intros [= <-]; by eexists|]). intros [=].
  - intros f w Hf. revert f Hf. apply (each_folder (λ f, is_match re_domain_mmio f = true → is_Some (read_to_string (f +:+ "/name") w).1)).
    repeat constructor; vm_compute; intros [=].
  - exists folder_0. split; [right; left|by left].
Qed.

(** The exporters without a time limit, three rounds of each. *)
Definition endless_choices : list ExporterChoice :=
  [StdoutChoice {| Stdout.timeout := -1; Stdout.step := 2; processes := 5; regex_filter := None;
                   Stdout.args_containers := true; args_qemu := true; raw_metrics := false |};
   JsonChoice default_json; QemuChoice;
   WarptenChoice {| warp10_host := "localhost"; warp10_port := 8080; warp10_scheme := "http";
                    warp10_write_token := Some "token"%string; warp10_step := 2; warp10_qemu := false |};
   PrometheusPushChoice default_push].

Definition cli_of (choice : ExporterChoice) : Cli := {|
  exporter := choice; no_header := false; vm := false; sensor := None;
  sensor_buffer_per_domain_max_kb := 1; sensor_buffer_per_socket_max_kb := 1 |}.

Definition start_of (choice : ExporterChoice) : outcome (BoxedExporter * list string * world) :=
  parse_cli_and_run_exporter None 7 "1.0.0" Datatypes.id Start.to_json (λ _, []) Datatypes.id (cli_of choice) SessionHost.start.

Lemma choices_startable : Forall (λ choice, startable choice ∧ endless choice = true) endless_choices.
Proof.
  repeat constructor; try (intros w; cbn; tauto).
  - intros w [Hover|(f & [=] & _)]. vm_compute in Hover. discriminate Hover.
  - intros w [[=]|[[=] _]].
Qed.

Lemma program_goes_on_witness :
  Forall (λ choice, ∃ e header w' l, start_of choice = Done ((e, header), w') ∧ length l = 3%nat ∧ runs e w' l)
    endless_choices.
Proof.
  apply Forall_forall. intros choice Hc. pose proof choices_startable as Hs. rewrite Forall_forall in Hs. destruct (Hs choice Hc) as [Hstart Hend].
  destruct (program_goes_on 7 2 "1.0.0" content eq_refl eq_refl Datatypes.id Start.to_json (λ _, []) powercap_tree
    powercap_folders None Datatypes.id (cli_of choice) SessionHost.start (conj (or_introl eq_refl) eq_refl) Hstart)
    as (e & header & w' & Hr & Hgo).
  destruct (Hgo Hend 3%nat) as (l & Hl & Hruns). exists e, header, w', l. split; [exact Hr|]. split; [exact Hl|exact Hruns].
Defined.

(** *** With a time limit *)

Definition session_age : world → Z := λ t : Z, t * 1000000000.

#[local] Instance session_instant_laws : @InstantLaws host host_instants session_age.
Proof.
  split; intros.
  - reflexivity.
  - change (session_age w <= session_age w). lia.
  - change (session_age w + as_nanos d <= session_age (w + as_nanos d / 1000000000 + 1)). unfold session_age.
    pose proof (Z.div_mod (as_nanos d) 1000000000 ltac:(lia)).
    pose proof (Z.mod_pos_bound (as_nanos d) 1000000000 ltac:(lia)). lia.
Qed.

(** Only the clock and the ring buffer make time pass. *)
#[local] Instance session_respects : Respects (λ w w' : @world host, session_age w <= session_age w').
Proof.
  unfold session_age. split; [split; [intros x; lia|intros x y z; lia]|..]; intros; intros v x v' Hw;
    apply (f_equal (λ r, match r with Done y => y.2 | Panic => v' end)) in Hw; cbn in Hw; try (subst v'; lia).
  subst v'. rewrite drop_nil. simpl. lia.
Qed.

Lemma session_sinks_later (k : Sink) s : stays (λ w w' : @world host, session_age w <= session_age w') (effect (sink_write k s)).
Proof. intros w a w' [= _ <-]. lia. Qed.

(** Three seconds, with a step of two. *)
Definition timed_choices : list ExporterChoice :=
  [StdoutChoice {| Stdout.timeout := 3; Stdout.step := 2; processes := 5; regex_filter := None;
                   Stdout.args_containers := true; args_qemu := true; raw_metrics := false |};
   JsonChoice {| json_timeout := Some 3; json_step := 2; json_step_nano := 0; json_max_top_consumers := 10;
                 json_file := Some "report.json"%string; json_containers := true; json_process_regex := None;
                 json_container_regex := None; json_resources := true |}].

Lemma timed_startable :
  Forall (λ choice, startable choice ∧ timed choice = Some (mkDuration 3 0, mkDuration 2 0)) timed_choices.
Proof.
  repeat constructor.
  - intros w [].
  - intros w [Hover|(f & _ & Hf)]; [vm_compute in Hover; discriminate Hover|discriminate Hf].
Qed.

Lemma program_ends_in_time_witness :
  Forall (λ choice, ∃ e header w' l, start_of choice = Done ((e, header), w') ∧ runs e w' l ∧ Z.of_nat (length l) <= 2)
    timed_choices.
Proof.
  apply Forall_forall. intros choice Hc. pose proof timed_startable as Hs. rewrite Forall_forall in Hs.
  destruct (Hs choice Hc) as [Hstart Ht].
  destruct (program_ends_in_time 7 2 "1.0.0" content eq_refl eq_refl Datatypes.id Start.to_json (λ _, []) session_age
    session_sinks_later powercap_tree powercap_folders None Datatypes.id (cli_of choice) SessionHost.start (mkDuration 3 0)
    (mkDuration 2 0) (conj (or_introl eq_refl) eq_refl) Hstart Ht eq_refl)
    as (e & header & w' & l & Hr & Hruns & Hl & _).
  exists e, header, w', l. split; [exact Hr|]. split; [exact Hruns|exact Hl].
Defined.
