(* ===== verification/Msr.v ===== *)
(** * The MSR sensor ([sensors/msr_rapl.rs])

    On Windows the energy counters are model-specific registers that a driver reads.  The
    registers hold 32 bits of energy in a unit that the processor gives as a power of two.
    The sensor enumerates the cores of each processor group, takes the packages from their
    x2APIC identifiers, and gives each package the domains whose registers answer.

    The readers implement the same interface as those of powercap, on the same structures;
    creating the tables of processes and of eBPF maps is left to the caller. *)

From S2P Require Import Prelude Floats Text FloatText Units Env Simulated Records Energy Common.
From S2P Require Import Domain Core Socket ProcTracker Bpf Topology.
From Stdlib Require Import SpecFloat.

Definition MSR_PLATFORM_ENERGY_STATUS : Z := 0x64d.

Definition ctl_code (device_type request_code method access : Z) : Z :=
  Z.lor (Z.lor (Z.lor (cast 32 (Z.shiftl device_type 16)) (cast 32 (Z.shiftl access 14)))
               (cast 32 (Z.shiftl request_code 2))) method.

(** ** Decoding the registers *)

(** [1.0 / i64::pow(2, n) as f64]; [n] is below 32. *)
Definition inverse_power (n : Z) : float := F64.div F64.one (F64.of_Z (2 ^ n)).

Definition low_word (data : Z) : Z := Z.land data 0xFFFFFFFF.

Definition extract_rapl_power_unit (data : Z) : float := inverse_power (Z.land (low_word data) 0x0F).
Definition extract_rapl_energy_unit (data : Z) : float :=
  inverse_power (Z.land (Z.shiftr (low_word data) 8) 0x1F).
Definition extract_rapl_time_unit (data : Z) : float :=
  inverse_power (Z.land (Z.shiftr (low_word data) 16) 0x0F).

(** The energy in microjoules, as text. *)
Definition extract_rapl_current_power (data : Z) (energy_unit : float) : string :=
  show_uint (to_uint 64 (F64.mul (F64.mul (F64.of_Z (low_word data)) energy_unit) (F64.of_Z 1000000))).

Record MsrRAPLSensor := mkMsrSensor {
  driver_name : string;
  power_unit : float;
  energy_unit : float;
  time_unit : float;
}.

Section Msr.
Context `{Profile, Layout, Os, !FileSystem, !Procfs, !PerfEvents, !Sysinfo, !Aya, !Windows, Registers}.

(** ** The driver *)

Definition get_handle (driver_name : string) : io (option Device) := effect (open_device driver_name).
Definition close_handle (device : Device) : io unit := _ ← effect (close_device device); mret tt.

(** An answer of an unexpected length is only logged. *)
Definition send_request (device : Device) (request_code request : Z) : io (option Z) :=
  effect (device_io_control device
    (ctl_code FILE_DEVICE_UNKNOWN request_code METHOD_BUFFERED (Z.lor FILE_READ_DATA FILE_WRITE_DATA)) request).

(** [get_msr_value]; [None] for [Err].  The affinities of the thread and of the process are
    only read for the log. *)
Definition get_msr_value (core_id msr_addr : Z) (data : gmap string string) : io (option Record_) :=
  _ ← effect get_group_affinity;
  driver ← lift (unwrap (data !! "DRIVER_NAME"%string));
  device ← get_handle driver;
  match device with
  | Some device =>
      let src := Z.lor (cast 64 (Z.shiftl core_id 32)) msr_addr in
      res ← send_request device MSR_PKG_ENERGY_STATUS src;
      _ ← close_handle device;
      match res with
      | Some msr_result =>
          text ← lift (unwrap (data !! "ENERGY_UNIT"%string));
          energy_unit ← lift (unwrap (parse_f64 text));
          now ← current_system_time_since_epoch;
          mret (Some (mkRecord now (extract_rapl_current_power msr_result energy_unit) MicroJoule))
      | None => mret None
      end
  | None => mret None
  end.

(** [MsrRAPLSensor::new]: the units are 1 when they cannot be read. *)
Definition new : io MsrRAPLSensor :=
  let driver_name := "\\.\ScaphandreDriver"%string in
  device ← get_handle driver_name;
  match device with
  | Some device =>
      res ← send_request device MSR_RAPL_POWER_UNIT MSR_RAPL_POWER_UNIT;
      _ ← close_handle device;
      mret (match res with
            | Some r => mkMsrSensor driver_name (extract_rapl_power_unit r) (extract_rapl_energy_unit r)
                          (extract_rapl_time_unit r)
            | None => mkMsrSensor driver_name F64.one F64.one F64.one
            end)
  | None => mret (mkMsrSensor driver_name F64.one F64.one F64.one)
  end.

(** ** The readers *)

(** A reading that failed is the record of no energy. *)
Definition value_or_zero (r : option Record_) : io Record_ :=
  now ← current_system_time_since_epoch;
  mret (mkRecord now (match r with Some rec => r_value rec | None => "0" end) MicroJoule).

Definition read_domain (d : Domain) : io Record_ :=
  core_id ← lift (unwrap (Domain.sensor_data d !! "CORE_ID"%string));
  core_id ← lift (unwrap (parse_uint 64 core_id));
  msr_addr ← lift (unwrap (Domain.sensor_data d !! "MSR_ADDR"%string));
  msr_addr ← lift (unwrap (parse_uint 64 msr_addr));
  r ← get_msr_value core_id msr_addr (Domain.sensor_data d);
  value_or_zero r.

(** Runs on the group of the socket; [cores + id * cores - 1] on 64 bits is the mask. *)
Definition read_socket (s : CPUSocket) : io Record_ :=
  group ← lift (unwrap (Socket.sensor_data s !! "PROCESSORGROUP_ID"%string));
  processorgroup_id ← lift (unwrap (parse_uint 16 group));
  thread_affinity ← effect get_group_affinity;
  if thread_affinity : bool then
    core ← lift (unwrap (last (cpu_cores s)));
    let len := Z.of_nat (length (cpu_cores s)) in
    product ← lift (umul 64 (Socket.id s) len);
    sum ← lift (uadd 64 len product);
    mask ← lift (usub 64 sum 1);
    res ← effect (set_group_affinity mask processorgroup_id);
    if res : bool then
      r ← get_msr_value (Core.id core) MSR_PKG_ENERGY_STATUS (Socket.sensor_data s);
      value_or_zero r
    else lift Panic
  else lift Panic.

(** [get_rapl_psys_energy_microjoules] of Windows. *)
Definition psys_energy (t : Topology) : io (option Record_) :=
  r ← get_msr_value 0 MSR_PLATFORM_ENERGY_STATUS (Topology.sensor_data t);
  match r with
  | Some res => now ← current_system_time_since_epoch; mret (Some (mkRecord now (r_value res) MicroJoule))
  | None => mret None
  end.

(** [res += value.trim().parse::<u128>()?]: the outer option is [Err]. *)
Definition add_value (res : Z) (r : Record_) : outcome (option Z) :=
  match parse_uint 128 (trim (r_value r)) with
  | Some v => Some <$> uadd 128 res v
  | None => Done None
  end.

(** A package and its first domain named dram. *)
Definition add_socket (res : option Z) (s : CPUSocket) : io (option Z) :=
  match res with
  | None => mret None
  | Some res =>
      rec ← read_socket s;
      res ← lift (add_value res rec);
      match res, List.find (λ d, String.eqb (Domain.name d) "dram") (domains s) with
      | Some res, Some dram => val ← read_domain dram; lift (add_value res val)
      | _, _ => mret res
      end
  end.

Definition read_topology (t : Topology) : io (option Record_) :=
  psys ← psys_energy t;
  match psys with
  | Some psys_record => mret (Some psys_record)
  | None =>
      res ← io_fold add_socket (Some 0) (sockets t);
      match res with
      | Some res => now ← current_system_time_since_epoch; mret (Some (mkRecord now (show_uint res) MicroJoule))
      | None => mret None
      end
  end.

(** ** Generating the topology

    The processors of the last level of cores, 1 when there is none. *)
Definition logical_cpus_per_package (levels : list TopologyLevel) : Z :=
  fold_left (λ n t, if is_core_level t then level_processors t else n) levels 1.

(** The attributes of every core are those of the first logical CPU. *)
Definition core_attributes (logical_cpus : list SysCpu) : outcome (gmap string string) :=
  ref_core ← unwrap (head logical_cpus);
  Done (<["brand"%string := c_brand ref_core]>
       (<["vendor_id"%string := c_vendor_id ref_core]>
       (<["name"%string := c_name ref_core]>
       {["frequency"%string := show_uint (c_frequency ref_core)]}))).

(** One level of cores of the current CPU: bits 4 to 7 of the identifier are the package,
    and the low 4 the core.  The number of the core is computed on 16 bits. *)
Definition add_level (logical_cpus : list SysCpu) (i n : Z) (socket : CPUSocket) (t : TopologyLevel)
    : io CPUSocket :=
  if is_core_level t then
    let socket := Socket.set_id (Z.shiftr (Z.land (level_x2apic_id t) 240) 4) socket in
    let core_id := Z.land (level_x2apic_id t) 15 in
    attributes ← lift (core_attributes logical_cpus);
    others ← lift (usub 16 n 1);
    offset ← lift (umul 16 i others);
    id ← lift (uadd 16 offset core_id);
    core ← Core.new id attributes;
    mret (Socket.add_cpu_core core socket)
  else mret socket.

(** The cores [c .. c + k - 1]; the result tells whether the loop was left at a core that
    does not exist. *)
Fixpoint add_cores (logical_cpus : list SysCpu) (i n : Z) (k : nat) (c : Z) (socket : CPUSocket)
    : io (CPUSocket * bool) :=
  match k with
  | O => mret (socket, false)
  | S k =>
      ok ← effect (set_for_current c);
      if ok : bool then
        levels ← effect cpuid_levels;
        socket ← match levels with
                 | Some info => io_fold (add_level logical_cpus i n) socket info
                 | None => mret socket
                 end;
        add_cores logical_cpus i n k (c + 1) socket
      else mret (socket, true)
  end.

(** [while !no_more_sockets]; [None] when the fuel runs out.  The socket that the last core
    belongs to is only kept when all its cores exist. *)
Fixpoint add_sockets (fuel : nat) (logical_cpus : list SysCpu) (n i : Z) (data : gmap string string) (t : Topology)
    : io (option Topology) :=
  match fuel with
  | O => mret None
  | S fuel =>
      start ← lift (umul 16 i n);
      next ← lift (uadd 16 i 1);
      stop ← lift (umul 16 next n);
      r ← add_cores logical_cpus i n (Z.to_nat (stop - start)) start (Socket.new i [] [] "" 1 data);
      let '(socket, no_more_sockets) := (r : CPUSocket * bool) in
      if no_more_sockets : bool then mret (Some t)
      else
        i ← lift (uadd 16 i 1);
        add_sockets fuel logical_cpus n i data (safe_insert_socket socket t)
  end.

(** One processor group; the sensor data keeps the number of the last one. *)
Definition add_group (fuel : nat) (logical_cpus : list SysCpu)
    (st : option (gmap string string * Topology)) (group_id : Z) : io (option (gmap string string * Topology)) :=
  match st with
  | None => mret None
  | Some (data, t) =>
      levels ← effect cpuid_levels;
      info ← lift (unwrap levels);
      let n := logical_cpus_per_package info in
      got ← effect get_group_affinity;
      if got : bool then
        set ← effect (set_group_affinity 255 group_id);
        if set : bool then
          ids ← effect get_core_ids;
          _ ← lift (unwrap ids);
          let data := <["PROCESSORGROUP_ID"%string := show_uint group_id]> data in
          t ← add_sockets fuel logical_cpus n 0 data t;
          mret ((λ t, (data, t)) <$> t)
        else lift Panic
      else lift Panic
  end.

(** The core that is asked for the registers of a package, on 16 bits. *)
Definition domain_core (s : CPUSocket) : outcome Z :=
  core ← unwrap (last (cpu_cores s));
  product ← umul 16 (Socket.id s) (cast 16 (Z.of_nat (length (cpu_cores s))));
  uadd 16 (Core.id core) product.

(** A domain for a register that answers; its name is kept even if the domain is not. *)
Definition try_domain (data : gmap string string) (core_id : Z) (st : CPUSocket * list string) (x : Z * string)
    : io (CPUSocket * list string) :=
  let '(s, domains) := st in
  r ← get_msr_value core_id x.1 data;
  match r with
  | Some _ =>
      let domain_sensor_data := <["CORE_ID"%string := show_uint core_id]> (<["MSR_ADDR"%string := show_uint x.1]> data) in
      mret (Socket.safe_add_domain (Domain.new 2 x.2 "" 5 domain_sensor_data) s, domains ++ [x.2])
  | None => mret (s, domains)
  end.

Definition energy_registers : list (Z * string) :=
  [(MSR_DRAM_ENERGY_STATUS, "dram"%string); (MSR_PP0_ENERGY_STATUS, "core"%string);
   (MSR_PP1_ENERGY_STATUS, "uncore"%string)].

Definition add_domains (data : gmap string string) (domains : list string) (s : CPUSocket)
    : io (CPUSocket * list string) :=
  core_id ← lift (domain_core s);
  io_fold (try_domain data core_id) (s, domains) energy_registers.

(** [for s in topology.get_sockets()]. *)
Definition add_all_domains (data : gmap string string) (t : Topology) : io Topology :=
  '(l, domains) ← io_fold (λ st s, '(s, domains) ← add_domains data st.2 s; mret (st.1 ++ [s], domains))
                    ([], []) (sockets t);
  psys ← get_msr_value 0 MSR_PLATFORM_ENERGY_STATUS data;
  let t := set_sockets l t in
  let t := match psys with
           | Some _ => set_sensor_data (<["psys"%string := ""%string]> (Topology.sensor_data t)) t
           | None => t
           end in
  mret (set_domains_names domains t).

Definition sensor_data_of (sensor : MsrRAPLSensor) : gmap string string :=
  <["TIME_UNIT"%string := show_f64 (time_unit sensor)]>
  (<["POWER_UNIT"%string := show_f64 (power_unit sensor)]>
  (<["ENERGY_UNIT"%string := show_f64 (energy_unit sensor)]>
  {["DRIVER_NAME"%string := driver_name sensor]})).

(** [generate_topology], from the logical CPUs of [sysinfo] and the topology of
    [Topology::new]. *)
Definition generate_topology (fuel : nat) (sensor : MsrRAPLSensor) (logical_cpus : list SysCpu) (t : Topology)
    : io (option Topology) :=
  group_count ← effect active_group_count;
  r ← io_fold (add_group fuel logical_cpus) (Some (sensor_data_of sensor, t)) (seqZ 0 group_count);
  match r with
  | Some (data, t) => t ← add_all_domains data t; mret (Some t)
  | None => mret None
  end.

(** [get_topology]: an error of the generation ends the program. *)
Definition get_topology (fuel : nat) (sensor : MsrRAPLSensor) (logical_cpus : list SysCpu) (t : Topology)
    : io (option Topology) :=
  topology ← generate_topology fuel sensor logical_cpus t;
  match topology with None => lift Panic | Some _ => mret topology end.

Lemma get_topology_some fuel sensor logical_cpus t w r w' :
  get_topology fuel sensor logical_cpus t w = Done (r, w') → ∃ t', r = Some t'.
Proof. unfold get_topology. intros ([t'|] & w1 & _ & Hr)%io_bind_inv; [injection Hr as <- _; by exists t'|done]. Qed.
End Msr.

(** ** The energy is exact

    The unit goes through its text, and the registers through double precision; nothing is
    lost on the way. *)

Lemma energy_units :
  forallb (λ k, bool_decide (inverse_power k = Floats.scaled 53 false 1 k) &&
                bool_decide (parse_f64 (show_f64 (inverse_power k)) = Some (inverse_power k))) (seqZ 0 32) = true.
Proof. vm_compute. reflexivity. Qed.

Lemma energy_unit_read k :
  0 <= k < 32 →
  inverse_power k = Floats.scaled 53 false 1 k ∧ parse_f64 (show_f64 (inverse_power k)) = Some (inverse_power k).
Proof.
  intros Hk. pose proof energy_units as E. rewrite forallb_forall in E.
  specialize (E k). rewrite <- list_elem_of_In, elem_of_seqZ in E. specialize (E ltac:(lia)).
  apply andb_true_iff in E as [E1 E2]. by apply bool_decide_eq_true in E1, E2.
Qed.

Lemma low_word_mod data : low_word data = data mod 2 ^ 32.
Proof. unfold low_word. change 0xFFFFFFFF with (Z.ones 32). by rewrite Z.land_ones. Qed.

Lemma scaled_energy n k :
  0 <= n < 2 ^ 32 → 0 <= k < 32 →
  to_uint 64 (F64.mul (F64.mul (F64.of_Z n) (Floats.scaled 53 false 1 k)) (F64.of_Z 1000000)) = n * 1000000 / 2 ^ k.
Proof.
  intros Hn Hk. destruct (decide (n = 0)) as [->|]; [by rewrite Z.mul_0_l, Z.div_0_l by (apply Z.pow_nonzero; lia)|].
  assert (E : F64.mul (F64.mul (F64.of_Z n) (Floats.scaled 53 false 1 k)) (F64.of_Z 1000000) = Floats.scaled 53 false (n * 1000000) k).
  { unfold F64.mul, F64.of_Z. rewrite !of_Z_exact, <- !scaled_0 by lia.
    rewrite (mul_scaled 53 1024 ltac:(lia) ltac:(lia) n 1 0 k), Z.mul_1_r, Z.add_0_l by lia.
    rewrite (mul_scaled 53 1024 ltac:(lia) ltac:(lia) n 1000000 k 0) by lia. by rewrite Z.add_0_r. }
  rewrite E. assert (0 <= n * 1000000 / 2 ^ k <= n * 1000000) as Hd.
  { split; [apply Z.div_pos; [lia|apply Z.pow_pos_nonneg; lia]|].
    apply Z.div_le_upper_bound; [apply Z.pow_pos_nonneg; lia|].
    pose proof (Z.pow_pos_nonneg 2 k ltac:(lia) ltac:(lia)). nia. }
  pose proof (trunc_scaled 53 1024 ltac:(lia) ltac:(lia) (n * 1000000) k ltac:(lia) ltac:(lia)) as Ht.
  unfold to_uint, Floats.scaled in *. rewrite Ht. unfold umax. lia.
Qed.

(** C32: the energy of a register is exact: with [k] the exponent that the processor gives
    for the unit (bits 8 to 12), the unit read back from the sensor data turns a register
    of 32 bits [n] into the text of [n * 10^6 / 2^k] microjoules, rounded down. *)
Theorem msr_energy_exact units status :
  ∃ u, parse_f64 (show_f64 (extract_rapl_energy_unit units)) = Some u ∧
    extract_rapl_current_power status u
    = show_uint (status mod 2 ^ 32 * 1000000 / 2 ^ (units / 2 ^ 8 mod 2 ^ 5)).
Proof.
  set (k := units / 2 ^ 8 mod 2 ^ 5).
  assert (Hk : 0 <= k < 32) by (apply Z.mod_pos_bound; lia).
  assert (E : extract_rapl_energy_unit units = inverse_power k).
  { unfold extract_rapl_energy_unit, k. f_equal. rewrite low_word_mod.
    change 0x1F with (Z.ones 5). rewrite Z.land_ones, Z.shiftr_div_pow2 by lia.
    apply Z.bits_inj'. intros b Hb. rewrite !Z.testbit_mod_pow2 by lia.
    destruct (b <? 5) eqn:Hlt; [|done]. simpl. rewrite <- !Z.shiftr_div_pow2, !Z.shiftr_spec by lia.
    rewrite Z.testbit_mod_pow2 by lia. assert ((b + 8 <? 32) = true) as -> by lia. done. }
  destruct (energy_unit_read k Hk) as [Eu Ep]. exists (inverse_power k). rewrite E. split; [exact Ep|].
  unfold extract_rapl_current_power. rewrite Eu, low_word_mod, scaled_energy; [done|apply Z.mod_pos_bound; lia|done].
Qed.

(** ** Wraps *)

(** The energy at which a counter of the unit [1 / 2^k] wraps. *)
Definition period (k : Z) : Z := 2 ^ 32 * 1000000 / 2 ^ k.

Section Wraps.
Context `{Profile, Layout, Os, !FileSystem, !Procfs, !PerfEvents, !Sysinfo, !Aya, !Windows, Registers}.

(** The sensor never says at which energy a counter wraps, so a domain takes a smaller
    reading for a wrap of 64 bits.  When the register of 32 bits has wrapped, and also when
    a reading fails, which is recorded as an energy of 0, the energy counted is more than
    [2^63] microjoules, when at most a period of the register was consumed. *)
Theorem wrap_unnoticed d e0 e1 k w w1 now w2 core addr n a :
  Domain.sensor_data d !! "max_energy_range_uj"%string = None →
  Domain.rapl_max_uj d = rapl_max (Domain.sensor_data d) →
  0 <= k < 32 → 0 <= e1 < e0 → e0 < period k →
  Domain.sensor_data d !! "CORE_ID"%string = Some core → parse_uint 64 core = Some n →
  Domain.sensor_data d !! "MSR_ADDR"%string = Some addr → parse_uint 64 addr = Some a →
  get_msr_value n a (Domain.sensor_data d) w = Done (None, w1) → clock w1 = (Some now, w2) →
  (energy_delta (Domain.rapl_max_uj d) e1 e0 = umax 64 - e0 + e1 ∧
   0 < period k - e0 + e1 <= 2 ^ 52 ∧ 2 ^ 63 < umax 64 - e0 + e1) ∧
  read_domain d w = Done (mkRecord now (show_uint 0) MicroJoule, w2).
Proof.
  intros Hd Hr Hk He Hp Hc Hn Ha Hm Hg Ht.
  assert (0 < period k <= 2 ^ 32 * 1000000) as Hperiod.
  { split; [lia|]. unfold period. pose proof (Z.pow_pos_nonneg 2 k ltac:(lia) ltac:(lia)).
    apply Z.div_le_upper_bound; [done|]. nia. }
  split.
  - rewrite Hr. unfold rapl_max. rewrite Hd. unfold energy_delta, sat_add, sat_sub. cbn [mbind option_bind default].
    unfold umax in *. destruct (Z.leb_spec e0 e1); [lia|]. change (2 ^ 64) with 18446744073709551616. lia.
  - unfold read_domain. rewrite Hc. unfold lift, mbind, io_bind. cbn [unwrap]. rewrite Hn. cbn [unwrap].
    rewrite Ha. cbn [unwrap]. rewrite Hm. cbn [unwrap]. rewrite Hg. unfold value_or_zero, mbind, io_bind.
    unfold current_system_time_since_epoch. by rewrite Ht.
Qed.

(** ** Domains *)

(** A package and the names of the domains that answered since [names]. *)
Definition first_kept (names : list string) (st : CPUSocket * list string) : Prop :=
  ∃ l, st.2 = names ++ l ∧ (Domain.name <$> domains st.1) = take 1 l ∧
       Forall (λ d, Domain.id d = 2) (domains st.1).

Lemma try_domain_first data c names st x w st' w' :
  first_kept names st → try_domain data c st x w = Done (st', w') → first_kept names st'.
Proof.
  destruct st as [s k]. intros (l & Hk & Hn & Hi). simpl in Hk. subst k. unfold try_domain.
  intros ([r|] & w1 & _ & [= <- _])%io_bind_inv; [|by exists l]. exists (l ++ [x.2]).
  cbn [fst snd]. split; [by rewrite app_assoc|]. cbn [fst] in Hn, Hi. unfold Socket.safe_add_domain.
  destruct (domains s) as [|d ds] eqn:Ed; simpl.
  - destruct l; [|by rewrite fmap_nil in Hn]. split; [done|by repeat constructor].
  - apply Forall_cons in Hi as Hi'. destruct Hi' as [Hd _]. rewrite Hd. simpl. rewrite Ed.
    destruct l as [|y l]; [done|]. by split.
Qed.

(** A package keeps one domain at most.  All the domains are created with the same id,
    and adding a domain whose id is taken does nothing: of the memory, core and uncore
    counters that answer, whose names are all announced, only the first is ever read. *)
Theorem one_domain_kept data names s w s' names' w' :
  domains s = [] → add_domains data names s w = Done ((s', names'), w') →
  ∃ l, names' = names ++ l ∧ (Domain.name <$> domains s') = take 1 l.
Proof.
  intros Hs. unfold add_domains. intros (c & w1 & _ & Hr)%io_bind_inv.
  eapply (io_fold_inv _ (first_kept names)) in Hr as (l & Hl & Hd & _); [by exists l| |].
  - intros st x w2 st' w3 _. apply try_domain_first.
  - exists []. rewrite app_nil_r. cbn [fst snd]. rewrite Hs. done.
Qed.
End Wraps.

(** ** Enumerating the packages

    A host of [P] packages of [n] logical CPUs, whose x2APIC identifiers hold the package
    above the low 4 bits; [cur] is the CPU the program runs on. *)
Class Packages `{Windows} (P n : Z) (cur : world → Z) : Prop := {
  packages_set c w : ∃ w', set_for_current c w = (c <? P * n, w') ∧ (c < P * n → cur w' = c);
  packages_levels w : ∃ w', cpuid_levels w = (Some [mkLevel true n (16 * (cur w / n) + cur w mod n)], w');
}.

Section Packages.
Context `{Profile, Layout, Os, !FileSystem, !Procfs, !PerfEvents, !Sysinfo, !Aya, !Windows, Registers}.
Context (P n : Z) (cur : world → Z) `{!Packages P n cur} (HP : 1 <= P <= 16) (Hn : 1 <= n <= 16).
Context (logical_cpus : list SysCpu) (Hcpus : logical_cpus ≠ []).

Lemma apic_fields p k : 0 <= p < 16 → 0 <= k < 16 →
  Z.shiftr (Z.land (16 * p + k) 240) 4 = p ∧ Z.land (16 * p + k) 15 = k.
Proof using.
  intros Hp Hk. split.
  - rewrite Z.shiftr_land. change (Z.shiftr 240 4) with (Z.ones 4). rewrite Z.land_ones, Z.shiftr_div_pow2 by lia.
    change (2 ^ 4) with 16. rewrite Z.mul_comm, Z.div_add_l, Z.div_small, Z.add_0_r, Z.mod_small by lia. done.
  - change 15 with (Z.ones 4). rewrite Z.land_ones by lia. change (2 ^ 4) with 16.
    rewrite Z.add_comm, Z.mul_comm, Z.mod_add, Z.mod_small by lia. done.
Qed.

Lemma core_new_id i attrs w : ∃ c w', Core.new i attrs w = Done (c, w') ∧ Core.id c = i.
Proof using.
  unfold Core.new, mbind, io_bind, effect. destruct (build_counter INSTRUCTIONS i w) as [a w1].
  destruct (build_counter CPU_CYCLES i w1) as [b w2]. unfold enable_counter. by eexists _, _.
Qed.

(** The numbers the sensor gives to the cores [j ..] of a package. *)
Definition core_numbers (p j : Z) (k : nat) : list Z := (λ j, p * (n - 1) + j) <$> seqZ j (Z.of_nat k).

Lemma add_level_core p j socket w :
  0 <= p < P → 0 <= j < n →
  ∃ s' w', add_level logical_cpus p n socket (mkLevel true n (16 * p + j)) w = Done (s', w') ∧
    Socket.id s' = p ∧ Core.id <$> cpu_cores s' = (Core.id <$> cpu_cores socket) ++ [p * (n - 1) + j].
Proof using HP Hn Hcpus.
  intros Hp Hj. destruct (apic_fields p j ltac:(lia) ltac:(lia)) as [Ep Ej].
  unfold add_level. cbn [is_core_level level_x2apic_id]. rewrite Ep, Ej.
  destruct logical_cpus as [|ref rest]; [done|]. unfold core_attributes, mbind, io_bind, lift, outcome_bind. cbn [head unwrap].
  rewrite usub_ok by (unfold umax; lia). cbv beta iota. rewrite umul_ok by (unfold umax; nia). cbv beta iota.
  rewrite uadd_ok by (unfold umax; nia). cbv beta iota.
  destruct (core_new_id (p * (n - 1) + j) (<["brand"%string := c_brand ref]>
    (<["vendor_id"%string := c_vendor_id ref]> (<["name"%string := c_name ref]>
       {["frequency"%string := show_uint (c_frequency ref)]}))) w) as (c & w1 & E & Ei).
  rewrite E. eexists _, _. split; [reflexivity|]. split; [done|].
  unfold Socket.add_cpu_core. cbn [cpu_cores set_cpu_cores set_id]. by rewrite fmap_app, <- Ei.
Qed.

Lemma core_numbers_S p j k : core_numbers p j (S k) = (p * (n - 1) + j) :: core_numbers p (j + 1) k.
Proof using.
  unfold core_numbers. rewrite seqZ_cons by lia. rewrite fmap_cons. do 3 f_equal; lia.
Qed.

Lemma add_cores_package p k j socket w :
  0 <= p < P → 0 <= j → j + Z.of_nat k = n →
  ∃ s' w', add_cores logical_cpus p n k (p * n + j) socket w = Done ((s', false), w') ∧
    (k ≠ 0%nat → Socket.id s' = p) ∧
    Core.id <$> cpu_cores s' = (Core.id <$> cpu_cores socket) ++ core_numbers p j k.
Proof using HP Hn Hcpus Packages0.
  intros Hp. revert j socket w. induction k as [|k IH]; intros j socket w Hj Hk.
  { exists socket, w. split; [done|]. split; [done|]. unfold core_numbers. by rewrite app_nil_r. }
  cbn [add_cores]. unfold mbind, io_bind, effect.
  destruct (packages_set (p * n + j) w) as (w1 & Es & Hc). rewrite Es.
  assert (Hlt : p * n + j < P * n) by nia. destruct (Z.ltb_spec (p * n + j) (P * n)); [|lia].
  specialize (Hc Hlt). destruct (packages_levels w1) as (w2 & El). rewrite El, Hc.
  rewrite Z.div_add_l, (Z.div_small j), Z.add_0_r by lia.
  rewrite (Z.add_comm (p * n)), Z.mod_add, (Z.mod_small j) by lia. cbn [io_fold].
  destruct (add_level_core p j socket w2) as (s1 & w3 & Ea & Ei & Eids); [lia..|].
  unfold mbind, io_bind. rewrite Ea. cbv beta iota.
  replace (j + p * n + 1) with (p * n + (j + 1)) by lia.
  destruct (IH (j + 1) s1 w3) as (s' & w' & Ec & Ei' & Eids'); [lia..|].
  exists s', w'. split; [exact Ec|]. split.
  - intros _. destruct k as [|k]; [|by apply Ei']. cbn [add_cores] in Ec. by injection Ec as <- _.
  - by rewrite Eids', Eids, core_numbers_S, <- app_assoc.
Qed.

Lemma add_cores_missing k socket w :
  ∃ w', add_cores logical_cpus P n (S k) (P * n) socket w = Done ((socket, true), w').
Proof using Packages0.
  cbn [add_cores]. unfold mbind, io_bind, effect. destruct (packages_set (P * n) w) as (w1 & Es & _).
  rewrite Es, Z.ltb_irrefl. by eexists.
Qed.

(** A package and the numbers of its cores. *)
Definition package_key (s : CPUSocket) : Z * list Z := (Socket.id s, Core.id <$> cpu_cores s).
Definition packages_from (p : Z) (m : nat) : list (Z * list Z) :=
  (λ p, (p, core_numbers p 0 (Z.to_nat n))) <$> seqZ p (Z.of_nat m).

Lemma add_sockets_packages m fuel p data t w :
  0 <= p → p + Z.of_nat m = P → (m < fuel)%nat → Forall (λ s, Socket.id s < p) (sockets t) →
  ∃ t' w', add_sockets fuel logical_cpus n p data t w = Done (Some t', w') ∧
    package_key <$> sockets t' = (package_key <$> sockets t) ++ packages_from p m.
Proof using HP Hn Hcpus Packages0.
  revert fuel p t w. induction m as [|m IH]; intros [|fuel] p t w Hp Hm Hf Ht; try lia;
    cbn [add_sockets]; unfold mbind, io_bind, lift; rewrite umul_ok by (unfold umax; nia); cbv beta iota;
    rewrite uadd_ok by (unfold umax; lia); cbv beta iota; rewrite umul_ok by (unfold umax; nia); cbv beta iota;
    replace ((p + 1) * n - p * n) with n by lia.
  - replace p with P in * by lia. destruct (Z.to_nat n) as [|k] eqn:Ek; [lia|].
    destruct (add_cores_missing k (Socket.new P [] [] "" 1 data) w) as [w' ->].
    eexists t, w'. split; [done|]. unfold packages_from. by rewrite app_nil_r.
  - rewrite <- (Z.add_0_r (p * n)).
    destruct (add_cores_package p (Z.to_nat n) 0 (Socket.new p [] [] "" 1 data) w) as (s & w1 & Ec & Ei & Eids); [lia..|].
    rewrite Ec. cbv beta iota.
    specialize (Ei ltac:(lia)).
    assert (E : safe_insert_socket s t = set_sockets (sockets t ++ [s]) t).
    { unfold safe_insert_socket, has_socket. destruct (existsb _ _) eqn:Ex; [|done]. exfalso.
      apply existsb_exists in Ex as (s' & Hs' & Hid). rewrite Forall_forall in Ht.
      specialize (Ht s' ltac:(by apply list_elem_of_In)). lia. }
    rewrite E. destruct (IH fuel (p + 1) (set_sockets (sockets t ++ [s]) t) w1) as (t' & w' & Er & Ek); [lia..| |].
    { apply Forall_app. split; [|by repeat constructor; lia]. eapply Forall_impl; [exact Ht|]. simpl. lia. }
    exists t', w'. split; [exact Er|]. rewrite Ek. cbn [sockets set_sockets]. rewrite fmap_app, <- app_assoc. f_equal.
    unfold packages_from. rewrite (seqZ_cons p) by lia. rewrite !fmap_cons. cbn [fmap list_fmap app].
    unfold package_key at 1. rewrite Ei, Eids. do 2 f_equal. f_equal; lia.
Qed.

(** The core that is asked for the registers of the package [p]. *)
Lemma domain_core_number s p :
  0 <= p < P → package_key s = (p, core_numbers p 0 (Z.to_nat n)) →
  domain_core s = Done (p * (2 * n - 1) + n - 1).
Proof using HP Hn.
  intros Hp [= Hi Hc]. unfold domain_core.
  assert (Hl : length (cpu_cores s) = Z.to_nat n).
  { rewrite <- (length_fmap Core.id), Hc. unfold core_numbers. rewrite length_fmap, length_seqZ. lia. }
  assert (Hlast : Core.id <$> last (cpu_cores s) = Some (p * (n - 1) + (n - 1))).
  { rewrite <- fmap_last, Hc, last_lookup. unfold core_numbers. rewrite length_fmap, list_lookup_fmap, length_seqZ.
    rewrite lookup_seqZ_lt by lia. simpl. f_equal. lia. }
  destruct (last (cpu_cores s)) as [c|]; [|done]. injection Hlast as Hlast. cbn [unwrap]. rewrite bind_done.
  rewrite Hl, Hi, Z2Nat.id, cast_small by (unfold umax; lia). rewrite umul_ok by (unfold umax; nia).
  rewrite bind_done, Hlast, uadd_ok by (unfold umax; nia). f_equal. lia.
Qed.

(** C33: the enumeration of the cores ends and finds each package once, with its id; but the
    cores of two packages are numbered with a stride of [n - 1], so that the first core of
    a package has the number of the last one of the package before, and the core asked for
    the registers of the last of several packages does not exist. *)
Theorem packages_enumerated fuel data t w :
  sockets t = [] → (Z.to_nat P < fuel)%nat →
  ∃ t' w', add_sockets fuel logical_cpus n 0 data t w = Done (Some t', w') ∧
    Socket.id <$> sockets t' = seqZ 0 P ∧
    ∀ s, s ∈ sockets t' →
      Core.id <$> cpu_cores s = (λ j, Socket.id s * (n - 1) + j) <$> seqZ 0 n ∧
      (Socket.id s = P - 1 → 2 <= P → 2 <= n → ∃ c, domain_core s = Done c ∧ P * n <= c).
Proof using HP Hn Hcpus Packages0.
  intros Ht Hf. destruct (add_sockets_packages (Z.to_nat P) fuel 0 data t w) as (t' & w' & E & Ek); [lia|lia|done| |].
  { rewrite Ht. constructor. }
  exists t', w'. split; [exact E|]. rewrite Ht in Ek. simpl in Ek. split.
  - replace (Socket.id <$> sockets t') with ((package_key <$> sockets t').*1) by (by rewrite <- list_fmap_compose).
    rewrite Ek. unfold packages_from. rewrite <- list_fmap_compose, Z2Nat.id by lia. apply list_fmap_id.
  - intros s Hs. assert (package_key s ∈ packages_from 0 (Z.to_nat P)) as Hk.
    { rewrite <- Ek. by apply list_elem_of_fmap_2. }
    apply list_elem_of_fmap in Hk as (p & Hk & Hp%elem_of_seqZ). rewrite Z2Nat.id in Hp by lia.
    pose proof Hk as [= Hi Hc]. rewrite Hi. split; [rewrite Hc; unfold core_numbers; by rewrite Z2Nat.id by lia|].
    intros -> HP2 Hn2. eexists. split; [apply (domain_core_number s (P - 1)); [lia|done]|]. nia.
Qed.
End Packages.

(** ** Examples: two packages of four CPUs, and a driver that does not know the platform register *)

#[local] Existing Instance x86_64.
#[local] Instance checked : Profile := true.
#[local] Instance host : Os := simulated no_files.
#[local] Instance host_fs : FileSystem := simulated_fs no_files.
#[local] Instance host_procfs : Procfs := simulated_procfs no_files.
#[local] Instance host_perf : PerfEvents := simulated_perf no_files.
#[local] Instance host_sysinfo : Sysinfo := simulated_sysinfo no_files 8 [].
#[local] Instance host_aya : Aya := simulated_aya no_files [].

(** The registers of Intel's processors, and the constants of Windows. *)
#[local] Instance intel : Registers := {|
  MSR_RAPL_POWER_UNIT := 0x606; MSR_PKG_ENERGY_STATUS := 0x611; MSR_DRAM_ENERGY_STATUS := 0x619;
  MSR_PP0_ENERGY_STATUS := 0x639; MSR_PP1_ENERGY_STATUS := 0x641; FILE_DEVICE_UNKNOWN := 0x22;
  METHOD_BUFFERED := 0; FILE_READ_DATA := 1; FILE_WRITE_DATA := 2 |}.

(** The world is the current CPU. *)
#[local] Instance windows_host : Windows :=
  Build_Windows host unit (λ _ (t : Z), (Some tt, t))
    (λ _ _ request (t : Z), (if cast 32 request =? MSR_PLATFORM_ENERGY_STATUS then None else Some 12345, t)) 
    (λ _ (t : Z), (true, t)) (λ t : Z, (true, t)) (λ _ _ (t : Z), (true, t)) (λ t : Z, (1, t)) (λ t : Z, (Some (seqZ 0 8), t))
    (λ c (t : Z), (c <? 8, if c <? 8 then c else t))
    (λ t : Z, (Some [mkLevel true 4 (16 * (t / 4) + t mod 4)], t)).

Definition current_cpu : world → Z := λ t : Z, t.

#[local] Instance windows_packages : Packages 2 4 current_cpu.
Proof.
  split.
  - intros c w. exists (if c <? 8 then c else w). split; [reflexivity|].
    intros Hc. change (2 * 4) with 8 in Hc. unfold current_cpu. destruct (Z.ltb_spec c 8); [done|lia].
  - intros w. exists w. reflexivity.
Qed.

Definition zero_cpu : world := 0.
Definition some_cpu : SysCpu := {| c_name := "cpu0"; c_frequency := 2000; c_vendor_id := ""; c_brand := "" |}.

Definition empty_topology : Topology := {|
  sockets := []; proc_tracker := mkTracker [] 5 None 8 tt; stat_buffer := []; record_buffer := [];
  buffer_max_kbytes := 1; domains_names := None; sensor_data := ∅; ebpf := None; cpu_state_buffer := None;
  activation_idle_buffer := ∅; cpu_time_map := None; cpu_time_buffer := [] |}.

Lemma packages_enumerated_witness :
  ∃ t' w', add_sockets 3 [some_cpu] 4 0 ∅ empty_topology zero_cpu = Done (Some t', w') ∧
    Socket.id <$> sockets t' = [0; 1] ∧
    ∀ s, s ∈ sockets t' → Core.id <$> cpu_cores s = (λ j, Socket.id s * 3 + j) <$> seqZ 0 4.
Proof.
  assert (HP : 1 <= 2 <= 16) by lia. assert (Hn : 1 <= 4 <= 16) by lia.
  destruct (packages_enumerated 2 4 current_cpu HP Hn [some_cpu] ltac:(discriminate) 3 ∅ empty_topology zero_cpu
              eq_refl ltac:(vm_compute; lia)) as (t' & w' & E & Ei & Ec).
  exists t', w'. split; [exact E|]. split; [exact Ei|]. intros s Hs. exact (proj1 (Ec s Hs)).
Defined.

Definition some_sensor : MsrRAPLSensor :=
  mkMsrSensor "driver" (inverse_power 3) (inverse_power 14) (inverse_power 10).

Definition one_package : CPUSocket :=
  Socket.add_cpu_core (mkCPUCore 0 ∅ [] 1 None None) (Socket.new 0 [] [] "" 1 (sensor_data_of some_sensor)).

Lemma three_domains_answer :
  match add_domains (sensor_data_of some_sensor) [] one_package zero_cpu with
  | Done ((_, names), _) => bool_decide (names = ["dram"; "core"; "uncore"]%string)
  | Panic => false
  end = true.
Proof. vm_compute. reflexivity. Qed.

Lemma one_domain_kept_witness :
  ∃ s w, add_domains (sensor_data_of some_sensor) [] one_package zero_cpu
         = Done ((s, ["dram"; "core"; "uncore"]%string), w) ∧
    (Domain.name <$> domains s) = ["dram"%string].
Proof.
  pose proof three_domains_answer as Hn.
  destruct (add_domains (sensor_data_of some_sensor) [] one_package zero_cpu) as [[[s names] w]|] eqn:E; [|discriminate].
  apply bool_decide_eq_true in Hn. subst names. exists s, w. split; [reflexivity|].
  destruct (one_domain_kept _ _ one_package _ _ _ _ eq_refl E) as (l & El & Hl). simpl in El. subst l. exact Hl.
Defined.

Definition platform_domain : Domain :=
  Domain.new 2 "platform" "" 5
    (<["CORE_ID"%string := "0"%string]> (<["MSR_ADDR"%string := "1613"%string]> (sensor_data_of some_sensor))).

Lemma wrap_unnoticed_witness :
  energy_delta (Domain.rapl_max_uj platform_domain) 5 1000000 = 18446744073708551620 ∧
  read_domain platform_domain zero_cpu = Done (mkRecord (mkDuration 0 0) "0" MicroJoule, 1).
Proof.
  destruct (wrap_unnoticed platform_domain 1000000 5 14 zero_cpu zero_cpu (mkDuration 0 0) 1 "0" "1613" 0 1613)
    as [(Hd & _ & _) Hr]; try (vm_compute; reflexivity).
  - lia.
  - lia.
  - exact (conj Hd Hr).
Defined.
