(* ===== verification/Service.v ===== *)
(** * The Windows service ([main.rs])

    On Windows the program registers a handler of control events, tells the system that the
    service runs, starts the exporter in a thread, and waits in a loop for its stop flag.
    The handler is a [move] closure: it captures a copy of the flag, because a [bool] is
    [Copy].  The thread of the service and the system's calls of the handler interleave. *)

From S2P Require Import Prelude Env.

Inductive ServiceState := Running | StopPending | Stopped.

(** The other fields have the same value in the three statuses of the program: a process of
    its own, which accepts [STOP], without an exit code, a checkpoint or a process id. *)
Record ServiceStatus := { current_state : ServiceState; wait_hint : Duration }.

Definition graceful_period : Z := 3.
Definition start_status : ServiceStatus := {| current_state := Running; wait_hint := mkDuration 0 0 |}.
Definition stop_status : ServiceStatus := {| current_state := Stopped; wait_hint := mkDuration 0 0 |}.
Definition stoppending_status : ServiceStatus :=
  {| current_state := StopPending; wait_hint := mkDuration graceful_period 0 |}.

Inductive ServiceControl := Stop | Interrogate | OtherControl (code : Z).
Inductive ServiceControlHandlerResult := NoError | NotImplemented.

(** [event_handler]: its own copy of the flag after the event, and its answer. *)
Definition event_handler (_stop : bool) (control_event : ServiceControl)
    : bool * ServiceControlHandlerResult :=
  match control_event with
  | Stop => (true, NoError)
  | Interrogate => (_stop, NoError)
  | OtherControl _ => (_stop, NotImplemented)
  end.

(** Where the thread of the service is. *)
Inductive Phase :=
  | Registering        (** about to register the handler *)
  | Starting           (** about to say that the service runs *)
  | Looping            (** at the head of the loop *)
  | Joining            (** the stop is announced, waiting for the exporter *)
  | Ending             (** about to say that the service is stopped *)
  | Returned
  | Panicked.

Inductive Exporter := Working | Finished (ok : bool).

Record Service := mkService {
  phase : Phase;
  stop : bool;                           (** the variable that the loop reads *)
  handler : option bool;                 (** the copy in the closure, once registered *)
  status : option ServiceStatus;         (** what the system was told last *)
  thread_handle : option Exporter;
}.

Definition initial : Service := mkService Registering false None None None.

(** A call of the system may fail. *)
Definition registered (ok : bool) (s : Service) : Service :=
  if ok then mkService Starting (stop s) (Some (stop s)) (status s) (thread_handle s)
  else mkService Panicked (stop s) (handler s) (status s) (thread_handle s).

Definition set_service_status (ok : bool) (st : ServiceStatus) (next : Phase) (s : Service) : Service :=
  if ok then mkService next (stop s) (handler s) (Some st) (thread_handle s)
  else mkService Panicked (stop s) (handler s) (status s) (thread_handle s).

Definition spawn (s : Service) : Service :=
  match phase s with
  | Looping => mkService Looping (stop s) (handler s) (status s) (Some Working)
  | _ => s
  end.

(** A turn of the thread of the service, given whether the call it makes succeeds; [None]
    when it has to wait, or is over. *)
Definition turn (ok : bool) (s : Service) : option Service :=
  match phase s with
  | Registering => Some (registered ok s)
  | Starting => Some (spawn (set_service_status ok start_status Looping s))
  | Looping =>
      if stop s then
        match thread_handle s with
        | Some _ => Some (set_service_status ok stoppending_status Joining s)
        | None => Some (set_service_status ok stoppending_status Panicked s)
        end
      else Some s
  | Joining =>
      match thread_handle s with
      | Some (Finished true) => Some (mkService Ending (stop s) (handler s) (status s) None)
      | Some (Finished false) => Some (mkService Panicked (stop s) (handler s) (status s) None)
      | _ => None
      end
  | Ending => Some (set_service_status ok stop_status Returned s)
  | Returned | Panicked => None
  end.

(** The system calls the handler at any time once it is registered. *)
Definition control (c : ServiceControl) (s : Service) : option (Service * ServiceControlHandlerResult) :=
  copy ← handler s;
  let '(copy, answer) := event_handler copy c in
  Some (mkService (phase s) (stop s) (Some copy) (status s) (thread_handle s), answer).

(** The exporter returns, or panics, at any time. *)
Definition finish (ok : bool) (s : Service) : option Service :=
  match thread_handle s with
  | Some Working => Some (mkService (phase s) (stop s) (handler s) (status s) (Some (Finished ok)))
  | _ => None
  end.

Inductive step : Service → option (ServiceControl * ServiceControlHandlerResult) → Service → Prop :=
  | step_turn ok s s' : turn ok s = Some s' → step s None s'
  | step_control c s s' answer : control c s = Some (s', answer) → step s (Some (c, answer)) s'
  | step_finish ok s s' : finish ok s = Some s' → step s None s'.

(** The runs of the service, with the events that were handled, the latest first. *)
Inductive run : list (ServiceControl * ServiceControlHandlerResult) → Service → Prop :=
  | run_start : run [] initial
  | run_step l s e s' : run l s → step s e s' → run (match e with Some e => e :: l | None => l end) s'.

Definition asks_stop (e : ServiceControl * ServiceControlHandlerResult) : bool :=
  match e.1 with Stop => true | _ => false end.

(** What the handler knows, and what the loop does not. *)
Record unaware (l : list (ServiceControl * ServiceControlHandlerResult)) (s : Service) : Prop := {
  un_flag : stop s = false;
  un_handler : from_option (λ copy, copy = existsb asks_stop l) (l = []) (handler s);
  un_answers : Forall (λ e, asks_stop e = true → e.2 = NoError) l;
  un_phase : match phase s with
             | Registering => handler s = None
             | Starting | Panicked => True
             | Looping => status s = Some start_status
             | Joining | Ending | Returned => False
             end;
}.

Lemma turn_unaware l ok s s' : unaware l s → turn ok s = Some s' → unaware l s'.
Proof.
  intros [Hf Hh Ha Hp]. unfold turn, registered, set_service_status, spawn. rewrite Hf.
  destruct (phase s) eqn:E; try done; destruct ok; intros [= <-]; split; simpl; rewrite ?E; auto.
  rewrite Hp in Hh. simpl in Hh. by subst l.
Qed.

Lemma control_unaware l c s s' r : unaware l s → control c s = Some (s', r) → unaware ((c, r) :: l) s'.
Proof.
  intros [Hf Hh Ha Hp]. unfold control. destruct (handler s) as [b|] eqn:E; [|done]. simpl in Hh. subst b.
  destruct c; simpl; intros [= <- <-]; split; simpl; auto;
    first [by constructor|by destruct (phase s)].
Qed.

Lemma run_unaware l s : run l s → unaware l s.
Proof.
  induction 1 as [|l s e s' Hr IH Hs]; [split; [done|done|by apply Forall_nil|done]|].
  destruct Hs as [ok s s' Ht|c s s' r Hc|ok s s' Ht]; [by eapply turn_unaware|by eapply control_unaware|].
  unfold finish in Ht. destruct (thread_handle s) as [[|]|]; try done. injection Ht as <-. by destruct IH.
Qed.

(** C17: the service cannot be stopped.  The handler acknowledges every [Stop] and notes it in
    its copy of the flag, but the variable that the loop reads stays false: the service never
    announces that it stops, never joins its exporter and never returns; once it has said
    that it runs it says nothing else, and the turns of its loop change nothing, for ever. *)
Theorem stop_is_not_seen l s :
  run l s →
  (l ≠ [] → handler s = Some (existsb asks_stop l)) ∧ Forall (λ e, asks_stop e = true → e.2 = NoError) l ∧
  stop s = false ∧ (phase s ∉ [Joining; Ending; Returned]) ∧
  (phase s = Looping → status s = Some start_status ∧ ∀ ok, turn ok s = Some s).
Proof.
  intros [Hf Hh Ha Hp]%run_unaware. split_and!; try done.
  - intros Hl. destruct (handler s); simpl in Hh; [by subst|done].
  - intros Hin. rewrite !elem_of_cons, elem_of_nil in Hin. destruct Hin as [E | [E | [E | []]]]; by rewrite E in Hp.
  - intros E. rewrite E in Hp. split; [done|]. intros ok. unfold turn. by rewrite E, Hf.
Qed.

(** ** Example *)

(** A service that was asked to stop, and what it is then. *)
Definition asked : Service := mkService Looping false (Some true) (Some start_status) (Some Working).

Lemma asked_run : run [(Stop, NoError); (Interrogate, NoError)] asked.
Proof.
  set (looping := λ h, mkService Looping false h (Some start_status) (Some Working)).
  assert (run [] (looping (Some false))) as Hl.
  { eapply (run_step _ (mkService Starting false (Some false) None None) None); [|by apply (step_turn true)].
    eapply (run_step _ initial None); [apply run_start|by apply (step_turn true)]. }
  eapply (run_step _ (looping (Some false)) (Some (Stop, NoError))); [|by apply (step_control Stop)].
  by eapply (run_step _ (looping (Some false)) (Some (Interrogate, NoError))), (step_control Interrogate).
Qed.

Lemma stop_is_not_seen_witness :
  run [(Stop, NoError); (Interrogate, NoError)] asked ∧ handler asked = Some true ∧ stop asked = false ∧
  ∀ ok, turn ok asked = Some asked.
Proof.
  split; [exact asked_run|]. destruct (stop_is_not_seen _ _ asked_run) as (Hh & _ & Hs & _ & Hl).
  split; [by apply Hh|]. split; [exact Hs|]. by apply Hl.
Defined.
